(* ===== verification/_CoqProject ===== *)
-Q . S2P
Prelude.v
Core.v
Json.v
Envelope.v
Auth.v
HttpSign.v
Connection.v
Channel.v
Manager.v
Apps.v
Settings.v
Metrics.v
Redis.v
Router.v
Message.v
PeerState.v
Encryption.v
Bus.v
Dispatcher.v
Webhooks.v
WebhookWorker.v
Routes.v
Handler.v
Inbound.v
Tasks.v
System.v
HandlerProps.v
TaskProps.v
Topic.v
Speech.v
Mail.v
Delivery.v
Hearing.v
Staleness.v
Reports.v
Lifecycle.v
Cli.v
Start.v
Account.v
Fleet.v
FleetProps.v
RouteProps.v
Events.v
