(* ===== verification/Prelude.v ===== *)
(** * zatat: a verification library for the Pusher-compatible WebSocket server

    zatat is a realtime server: browsers keep a WebSocket open and subscribe to
    channels, a back end publishes events over a signed HTTP API, and the nodes
    of a fleet exchange messages over Redis so that channels span all of them.
    This library models the program crate by crate and proves what makes each
    part, and their composition, correct.

    ** The parts and their files

    - Core: [zatat-core] (error codes, ids, channel names, applications).
    - Json, Envelope, Inbound: the JSON values and frames of [zatat-protocol]
      ([envelope.rs], [outbound.rs], [presence.rs], [inbound.rs]).
    - Auth, HttpSign, Encryption: [auth.rs], [http_sign.rs] with [zatat-http]'s
      [sign.rs], and [encryption.rs].
    - Connection: [zatat-connection] (bounded mailboxes, liveness, identity, the
      sliding-window limiter).  The queue a connection shares with every channel
      it joined is an entry of one store, so aliasing is explicit.
    - Channel, Manager: [zatat-channels].  Each operation is one step under the
      lock the code takes; the closures a join runs under that lock are
      functions on an effect state.
    - Apps, Settings: [zatat-config], the table of applications with its reload
      and the server block with its defaults and environment layers.
    - Metrics: [zatat-metrics].  Redis: [provider.rs] and [redis.rs].
    - Router, Handler, Tasks: [router.rs], [handler.rs] and [tasks.rs] of
      [zatat-ws]; System: the connection tasks over one shared node; Lifecycle:
      [state.rs], upgrades in progress, draining and kicks.
    - Message, PeerState, Bus, Dispatcher: [zatat-scaling] ([message.rs], the
      two caches of peers, the publish queue, [EventDispatcher]).
    - Webhooks, WebhookWorker: [zatat-webhooks], the queue and its drain loop
      with the delivery tasks.
    - Routes: [routes.rs] of [zatat-http], every handler and the router.
    - Cli, Start: [zatat-cli], the supervised process; its start-up, and the
      phases and requests of its shutdown.
    - HandlerProps, TaskProps, RouteProps: properties of Handler, Tasks and
      Routes that need the components above them.
    - Fleet: several nodes on one bus.  Each takes the steps of System, its
      publisher hands batches over, and the bus brings them to every node in the
      order of publication or loses them; nodes join and end at any time.  Topic names what the nodes keep copies
      of (the users of a presence channel, the subscribers of another, whether a
      user is signed in) and the news about it; Account is the specification of
      what one node believes of a topic on another; Speech proves what every step
      of a node tells its peers, Hearing what a message does to the node that
      receives it, Reports what the queries of a node answer, and FleetProps
      states what follows for the fleet.
    - Mail, Delivery, Events: the queues of the connections.  Mail proves what every
      operation posts to them, Delivery follows an event from the API to the queues
      of its node, Events across the fleet.
    - Staleness: what sequence numbers protect over the steps of a node in time.

    Data keep the source's shape: structs are records, enums inductive types,
    maps [gmap], integers [Z] with their wrap-around written where it can
    matter, a [str] its UTF-8 bytes.  [Err] values carry the source's errors.
    Time is an argument, in nanoseconds.

    ** Steps and interleaving

    Several tasks share a node.  A step is one turn of a task between two points
    where it waits: one frame handled, one message of a peer applied, one turn of
    a background task, one API request.  [System.own_step] is what a node does on
    behalf of its clients, of the API and of its timers; [System.sys_step] adds
    the messages of the peers, the sweep of silent ones and the turns of the
    publisher; [Lifecycle.life_step] adds upgrades, shutdown and kicks;
    [Fleet.fleet_step] is the relation over several nodes and what is on its way
    between them; [Start.proc_step] adds the phases of a shutdown with their times and the
    requests in flight.  Steps are finer where another thread looks in between:
    the publisher takes a batch, counts it and hands it over in three steps
    ([Bus.publisher_take], [publisher_mark], [publisher_done]), [WebhookWorker.w_step] splits
    the receipt of an event from its count, and [Bus.pending_publishes] and
    [WebhookWorker.pending] take a state for each of their loads.  (Loads and stores
    are taken in program order.)  Steps are coarser in two places: a connection registers
    and is greeted in one ([System.open_connection]), and a snapshot numbers,
    captures and queues its messages in one.  A theorem about reachable
    states covers every order of these steps.

    ** What the theorems show

    - The server: connections, subscriptions and sign-ins agree with the open
      tasks in every history ([System.server_invariant]); a node starts fully or
      not at all ([Start.start_complete]); a shutdown cannot be undone and closes
      everything ([Lifecycle.drain_completes]), answers every
      request that is done within 32 s and does not hang ([Start.shutdown_order]);
      the final flush ends, and what its success guarantees is stated exactly
      ([Cli.drain_outbound_ends]).
    - Channels and users: the reference-counted channel refines a plain roster,
      joins and leaves are announced once per user of the fleet, with what a cache
      channel replays, and the cap on members decides who is admitted.
    - Events: a queue is taken from its front by its connection and appended to by
      all others, in every history ([Delivery.queue_discipline]); an accepted request
      puts the event once into the queue of everyone who hears its channels
      ([Delivery.event_published]), and on the other nodes too unless the bus
      loses it ([Events.event_crosses]); client events go to the other subscribers
      ([Delivery.client_event_delivered]), and ending a user's sessions closes
      exactly the user's connections ([Delivery.user_terminated]).
    - The fleet: for every topic, as long as nothing is lost, what a node believes
      of a peer differs from the truth by exactly the news on their way
      ([FleetProps.fleet_agreement]); what was lost heals with the next snapshot or
      sweep ([FleetProps.fleet_heals]) and a node that ended is forgotten for good
      ([FleetProps.fleet_forgets]).  So the API and the watchlists of every node
      show the users, the subscribers and the sessions of all
      ([FleetProps.fleet_roster], [fleet_subscribers], [fleet_online]).  Queues are FIFO
      and bounded, a stale snapshot undoes nothing within a minute of the newer update
      ([Staleness.snapshot_no_undo]), and of two nodes the one with the lower id reports
      a shared departure.
    - Access: joins to private channels and API requests need a valid signature,
      canonical strings are injective, nothing the API publishes leaves in plain text
      on an encrypted channel ([RouteProps.no_plaintext]), a request is published whole
      or not at all unless the cipher fails half way, an identity never changes,
      applications are isolated.
    - Configuration: the table is exact, a reload is what a restart would load
      and closes exactly the registered connections it invalidated.
    - Webhooks: counters are exact, limits hold and no delivery is lost or
      doubled in any interleaving; a delivery ends after at most ten attempts and is
      given up only when it may be ([Webhooks.deliver_ends]).

    ** Parameters

    Third-party code is a class with, where a theorem relies on it, its laws:
    [SerdeJson], [InboundParser], [BodyParser], [Deserialize], [Wire] (serde), [Crypto],
    [SecretBox], [GlobLib], [Figment], [ConfigLayers], [WebhookConfigParser] and
    [HashIter] (a hash map is read in some order).  Redis, the HTTP client, the
    file system, timers and the kernel are inputs of the functions that use them.
    The theorems about the fleet assume of [Wire] that an encoded envelope is
    read back with the same version, sequence number, application and news;
    [Events.event_crosses] that an encoded event is read back as that event.

    ** Bounds and fuel

    [Webhooks.deliver] takes ten turns, proved enough: the backoffs of the first
    nine failures fill the retry window.  [Cli.drain_outbound] takes one turn per
    50 ms of its timeout and two more, proved enough.  Decimal printing uses the
    binary length of its argument as fuel, which bounds the number of digits.
    The two 64-bit counters of the publish queue hold how often they were
    incremented and are reduced modulo 2^64 where they are read; the theorems
    about the fleet are for nodes whose sequence numbers have not run over.

    ** Not modelled

    Logging, metric values other than the registration of series and the events of
    the Redis clients, socket and TLS plumbing, command-line parsing, [Display] and
    [Debug] implementations, the Redis client, benchmarks and fuzz targets. *)

From Stdlib Require Export ZArith Lia Ascii String.
From stdpp Require Export sorting numbers gmap strings fin_maps fin_sets sets base list.
From stdpp Require Import options.

#[export] Set Default Goal Selector "1".
Open Scope string_scope.
Open Scope list_scope.
Open Scope nat_scope.

(** ** Notation scope and hint databases of the development *)

Declare Scope zatat_scope.
Delimit Scope zatat_scope with zatat.

(** Case analysis on the innermost conditionals of the goal. *)
Ltac case_ifs :=
  repeat match goal with
  | |- context [if ?b then _ else _] =>
      lazymatch b with context [if _ then _ else _] => fail | _ => destruct b end
  end.

Create Rewrite HintDb zatat_rw.
Create HintDb zatat_pres.

(** ** Results (Rust's [Result<T, E>]) *)

Inductive result (A E : Type) : Type :=
| Ok (a : A)
| Err (e : E).
Arguments Ok {A E} a.
Arguments Err {A E} e.

Definition is_ok {A E} (r : result A E) : bool :=
  match r with Ok _ => true | Err _ => false end.

Notation "'let?' x ':=' m 'in' k" :=
  (match m with Ok x => k | Err e => Err e end)
  (at level 10, x pattern, m at level 100, k at level 200) : zatat_scope.

(** ** Time

    [Instant]s and [Duration]s are integers, in nanoseconds.  An operation
    that reads the clock takes the reading as its argument [now]. *)

Definition Instant : Type := Z.
Definition Duration : Type := Z.

Definition from_secs (s : Z) : Duration := (s * 1000000000)%Z.
Definition as_secs (d : Duration) : Z := (d / 1000000000)%Z.

(** [Instant::duration_since] (and [elapsed]) saturate at zero. *)
Definition duration_since (now t : Instant) : Duration := Z.max 0 (now - t)%Z.
(** [Duration::saturating_sub]. *)
Definition saturating_sub (a b : Duration) : Duration := Z.max 0 (a - b)%Z.

(** ** Machine integers *)

Definition wrap_u32 (z : Z) : Z := (z mod 2 ^ 32)%Z.
Definition wrap_u64 (z : Z) : Z := (z mod 2 ^ 64)%Z.

(** ** Strings

    A Rust [str] is modelled by its UTF-8 bytes; [len] is the byte length. *)

Definition len (s : string) : Z := Z.of_nat (String.length s).

Definition is_empty_str (s : string) : bool :=
  match s with EmptyString => true | _ => false end.

(** [str::strip_prefix] and [str::starts_with]. *)
Fixpoint strip_prefix (p s : string) : option string :=
  match p with
  | EmptyString => Some s
  | String a p' =>
      match s with
      | String b s' => if Ascii.eqb a b then strip_prefix p' s' else None
      | EmptyString => None
      end
  end.

Definition starts_with (p s : string) : bool :=
  match strip_prefix p s with Some _ => true | None => false end.

(** [str::split_once] at a single-byte separator. *)
Fixpoint split_once (c : ascii) (s : string) : option (string * string) :=
  match s with
  | EmptyString => None
  | String a s' =>
      if Ascii.eqb a c then Some (EmptyString, s')
      else match split_once c s' with
           | Some (l, r) => Some (String a l, r)
           | None => None
           end
  end.

(** [str::split] at a single byte; at least one piece. *)
Fixpoint split_on (c : ascii) (s : string) : list string :=
  match s with
  | EmptyString => [EmptyString]
  | String a s' =>
      if Ascii.eqb a c then EmptyString :: split_on c s'
      else match split_on c s' with
           | x :: rest => String a x :: rest
           | [] => [String a EmptyString]
           end
  end.

(** The decimal digits of an unsigned integer, most significant first. *)
Fixpoint parse_digits (s : string) (acc : Z) : option Z :=
  match s with
  | EmptyString => Some acc
  | String c s' =>
      let n := nat_of_ascii c in
      if (48 <=? n) && (n <=? 57)
      then parse_digits s' (acc * 10 + Z.of_nat (n - 48))%Z
      else None
  end.

(** [str::split_once] at a longer separator. *)
Fixpoint split_once_str (sep s : string) : option (string * string) :=
  match strip_prefix sep s with
  | Some r => Some (EmptyString, r)
  | None =>
      match s with
      | EmptyString => None
      | String a s' =>
          match split_once_str sep s' with
          | Some (l, r) => Some (String a l, r)
          | None => None
          end
      end
  end.

(** Whether byte [c] occurs in [s]. *)
Fixpoint has_char (c : ascii) (s : string) : bool :=
  match s with
  | EmptyString => false
  | String a s' => Ascii.eqb a c || has_char c s'
  end.

Fixpoint forall_bytes (p : ascii -> bool) (s : string) : bool :=
  match s with
  | EmptyString => true
  | String a s' => p a && forall_bytes p s'
  end.

(** [u8::to_ascii_lowercase] and [str::to_ascii_lowercase]. *)
Definition lower_byte (a : ascii) : ascii :=
  let n := nat_of_ascii a in
  if (65 <=? n) && (n <=? 90) then ascii_of_nat (n + 32) else a.

Fixpoint to_ascii_lowercase (s : string) : string :=
  match s with
  | EmptyString => EmptyString
  | String a s' => String (lower_byte a) (to_ascii_lowercase s')
  end.

Definition eq_ignore_ascii_case (a b : string) : bool :=
  String.eqb (to_ascii_lowercase a) (to_ascii_lowercase b).

(** Decimal rendering of unsigned integers ([u64::to_string]). *)
Definition digit_ascii (d : Z) : ascii := ascii_of_nat (48 + Z.to_nat d).

Fixpoint digits_fuel (fuel : nat) (z : Z) (acc : string) : string :=
  match fuel with
  | O => acc
  | S f =>
      let acc' := String (digit_ascii (z mod 10)) acc in
      if (z <? 10)%Z then acc' else digits_fuel f (z / 10) acc'
  end.

(** Enough fuel: a number below [2^k] has at most [k + 1] decimal digits. *)
Definition dec_string (z : Z) : string :=
  digits_fuel (S (Z.to_nat (Z.log2 (Z.max 1 z)))) z EmptyString.

(** [i64::to_string]. *)
Definition dec_signed (z : Z) : string :=
  if (z <? 0)%Z then "-" +:+ dec_string (- z) else dec_string z.

(** ** Lemmas on strings *)

Lemma str_app_cons a s t : (String a s +:+ t) = String a (s +:+ t).
Proof. reflexivity. Qed.

Lemma strip_prefix_Some p s r : strip_prefix p s = Some r <-> s = (p +:+ r).
Proof.
  revert s. induction p as [|a p IH]; intros s; simpl.
  - split; [intros [= ->]; done | intros ->; done].
  - destruct s as [|b s]; [split; discriminate|].
    destruct (Ascii.eqb_spec a b) as [->|Hne].
    + rewrite IH. split; [intros ->; done | intros [= ->]; done].
    + split; [discriminate | intros [= -> ->]; done].
Qed.

Lemma starts_with_spec p s : starts_with p s = true <-> exists r, s = (p +:+ r).
Proof.
  unfold starts_with. destruct (strip_prefix p s) as [r|] eqn:E.
  - apply strip_prefix_Some in E. split; eauto.
  - split; [done|]. intros [r Hr]. apply strip_prefix_Some in Hr. congruence.
Qed.

Lemma split_once_Some c s l r :
  split_once c s = Some (l, r) <-> s = (l +:+ String c r) /\ has_char c l = false.
Proof.
  revert l r. induction s as [|a s IH]; intros l r; simpl.
  - split; [discriminate|]. intros [H _]. destruct l; discriminate.
  - destruct (Ascii.eqb_spec a c) as [->|Hne].
    + split.
      * intros [= <- <-]. done.
      * intros [H Hc]. destruct l as [|b l]; simpl in *.
        -- by injection H as ->.
        -- injection H as <- _. rewrite Ascii.eqb_refl in Hc. discriminate.
    + split.
      * destruct (split_once c s) as [[l' r']|]; [|discriminate].
        intros [= <- <-]. destruct (proj1 (IH l' r') eq_refl) as [-> Hl]. simpl.
        rewrite (proj2 (Ascii.eqb_neq a c) Hne). done.
      * intros [H Hc]. destruct l as [|b l]; simpl in *.
        -- injection H as -> _. done.
        -- injection H as <- ->. apply orb_false_iff in Hc as [_ Hc].
           by rewrite (proj2 (IH l r) (conj eq_refl Hc)).
Qed.

Lemma split_once_None c s : split_once c s = None <-> has_char c s = false.
Proof.
  induction s as [|a s IH]; simpl; [done|].
  destruct (Ascii.eqb a c); [done|]. simpl. rewrite <- IH.
  destruct (split_once c s) as [[??]|]; done.
Qed.

Lemma has_char_cons c a s : has_char c (String a s) = Ascii.eqb a c || has_char c s.
Proof. reflexivity. Qed.

Lemma has_char_app c s t : has_char c (s +:+ t) = has_char c s || has_char c t.
Proof. induction s as [|a s IH]; simpl; [done|]. by rewrite IH, orb_assoc. Qed.

Lemma str_app_assoc (a b c : string) : ((a +:+ b) +:+ c) = (a +:+ (b +:+ c)).
Proof. induction a as [|x a IH]; [done|]. by rewrite ?str_app_cons, IH. Qed.

Lemma str_app_nil_r (a : string) : (a +:+ EmptyString) = a.
Proof. induction a as [|x a IH]; [done|]. by rewrite ?str_app_cons, IH. Qed.

Lemma str_app_inj_l (a b c : string) : (a +:+ b) = (a +:+ c) -> b = c.
Proof. induction a as [|x a IH]; [done|]. rewrite ?str_app_cons. intros [= H]. auto. Qed.

(** The part before the first [c] determines a decomposition. *)
Lemma split_at_inj c l1 r1 l2 r2 :
  has_char c l1 = false -> has_char c l2 = false ->
  (l1 +:+ String c r1) = (l2 +:+ String c r2) -> l1 = l2 /\ r1 = r2.
Proof.
  intros H1 H2 He.
  pose proof (proj2 (split_once_Some c _ l1 r1) (conj eq_refl H1)) as S1.
  pose proof (proj2 (split_once_Some c _ l2 r2) (conj eq_refl H2)) as S2.
  rewrite He in S1. rewrite S1 in S2. by injection S2.
Qed.

Lemma forall_bytes_has_char p c s :
  forall_bytes p s = true -> p c = false -> has_char c s = false.
Proof.
  intros H Hc. induction s as [|a s IH]; simpl in *; [done|].
  apply andb_true_iff in H as [Ha Hs].
  destruct (Ascii.eqb_spec a c) as [->|]; [congruence|]. by rewrite IH.
Qed.

Lemma starts_with_app p s : starts_with p (p +:+ s) = true.
Proof. apply starts_with_spec. eauto. Qed.

Lemma starts_with_trans p q s :
  starts_with p q = true -> starts_with q s = true -> starts_with p s = true.
Proof.
  rewrite !starts_with_spec. intros [r ->] [t ->]. exists (r +:+ t).
  by rewrite str_app_assoc.
Qed.

(** Two prefixes of one string are comparable. *)
Lemma starts_with_comparable p q s :
  starts_with p s = true -> starts_with q s = true ->
  starts_with p q = true \/ starts_with q p = true.
Proof.
  rewrite !starts_with_spec. revert q s.
  induction p as [|a p IH]; intros q s [r Hp] [t Hq].
  - left. by exists q.
  - destruct q as [|b q]; [right; by exists (String a p)|].
    rewrite !str_app_cons in *. subst s. injection Hq as Ha Hq. subst b.
    destruct (IH q (p +:+ r)) as [[u ->]|[u ->]]; eauto.
Qed.

Lemma str_length_app (s t : string) :
  String.length (s +:+ t) = String.length s + String.length t.
Proof. induction s as [|a s IH]; [done|]. rewrite str_app_cons. simpl. by rewrite IH. Qed.

(** Rejects impossible prefix combinations: [H1 : starts_with p s = true] and
    [H2 : starts_with q s = true] for constants [p], [q] neither of which is a
    prefix of the other, or a longer prefix without the shorter one. *)
Ltac prefix_clash :=
  match goal with
  | H1 : starts_with ?p ?s = true, H2 : starts_with ?q ?s = true |- _ =>
      exfalso; destruct (starts_with_comparable p q s H1 H2) as [Hc|Hc];
      vm_compute in Hc; discriminate Hc
  | H1 : starts_with ?q ?s = true, H2 : starts_with ?p ?s = false |- _ =>
      exfalso; assert (starts_with p s = true)
        by (apply (starts_with_trans p q s); [reflexivity | exact H1]); congruence
  end.

(** ** Hash containers

    [HashMap], [HashSet] and [DashMap] visit their entries in an unspecified
    order.  The order is a parameter: any enumeration of the entries. *)

Class HashIter := {
  hiter : forall {K : Type} `{Countable K} {A : Type}, gmap K A -> list (K * A);
  hiter_perm : forall {K : Type} `{Countable K} {A : Type} (m : gmap K A),
      Permutation (hiter m) (map_to_list m)
}.

(** The enumeration used to run the model on concrete inputs. *)
Definition canonical_iter : HashIter :=
  {| hiter := fun K _ _ A m => map_to_list m;
     hiter_perm := fun K _ _ A m => Permutation_refl _ |}.

Section Iter.
Context `{HI : HashIter} {K : Type} `{Countable K} {A : Type}.
Implicit Types m : gmap K A.

Definition hkeys m : list K := (hiter m).*1.
Definition hvalues m : list A := (hiter m).*2.
(** Iteration over a [HashSet]. *)
Definition hset_iter (s : gset K) : list K := (hiter (gset_to_gmap tt s)).*1.

Lemma elem_of_hiter m k a : (k, a) ∈ hiter m <-> m !! k = Some a.
Proof. rewrite hiter_perm. apply elem_of_map_to_list. Qed.

Lemma NoDup_hkeys m : NoDup (hkeys m).
Proof. unfold hkeys. rewrite hiter_perm. apply NoDup_fst_map_to_list. Qed.

Lemma NoDup_hiter m : NoDup (hiter m).
Proof. rewrite hiter_perm. apply NoDup_map_to_list. Qed.

Lemma elem_of_hkeys m k : k ∈ hkeys m <-> is_Some (m !! k).
Proof.
  unfold hkeys. rewrite list_elem_of_fmap. split.
  - intros [[k' a] [-> Hin]]. apply elem_of_hiter in Hin. by exists a.
  - intros [a Ha]. exists (k, a). split; [done|]. by apply elem_of_hiter.
Qed.

Lemma elem_of_hvalues m a : a ∈ hvalues m <-> exists k, m !! k = Some a.
Proof.
  unfold hvalues. rewrite list_elem_of_fmap. split.
  - intros [[k a'] [-> Hin]]. apply elem_of_hiter in Hin. by exists k.
  - intros [k Ha]. exists (k, a). split; [done|]. by apply elem_of_hiter.
Qed.

Lemma length_hiter m : length (hiter m) = size m.
Proof. rewrite hiter_perm. apply length_map_to_list. Qed.

Lemma elem_of_hset_iter (s : gset K) k : k ∈ hset_iter s <-> k ∈ s.
Proof.
  unfold hset_iter. rewrite list_elem_of_fmap. split.
  - intros [[k' u] [-> Hin]]. rewrite hiter_perm in Hin.
    apply elem_of_map_to_list, lookup_gset_to_gmap_Some in Hin. by destruct Hin.
  - intros Hk. exists (k, tt). split; [done|]. rewrite hiter_perm.
    by apply elem_of_map_to_list, lookup_gset_to_gmap_Some.
Qed.

Lemma NoDup_hset_iter (s : gset K) : NoDup (hset_iter s).
Proof. unfold hset_iter. rewrite hiter_perm. apply NoDup_fst_map_to_list. Qed.
End Iter.

(** ** Counting the entries of a map *)

Section Count.
Context {K : Type} `{Countable K} {A : Type} (P : A -> bool).
Implicit Types m : gmap K A.

(** The number of entries whose value satisfies [P]. *)
Definition map_count m : nat := size (filter (fun kv => Is_true (P kv.2)) m).

Lemma map_count_empty : map_count ∅ = 0.
Proof. unfold map_count. by rewrite map_filter_empty, map_size_empty. Qed.

Lemma map_count_insert m k a :
  m !! k = None -> map_count (<[k:=a]> m) = (if P a then 1 else 0) + map_count m.
Proof.
  intros Hk. unfold map_count. rewrite map_filter_insert. simpl.
  destruct (P a) eqn:E; case_decide; simpl in *; try done.
  - rewrite map_size_insert_None; [done|]. by apply map_lookup_filter_None; left.
  - by rewrite delete_id.
Qed.

Lemma map_count_delete m k a :
  m !! k = Some a -> map_count m = (if P a then 1 else 0) + map_count (delete k m).
Proof.
  intros Hk. rewrite <- (insert_delete_id m k a Hk) at 1.
  apply map_count_insert, lookup_delete_eq.
Qed.

Lemma map_count_zero m :
  map_count m = 0 <-> forall k a, m !! k = Some a -> P a = false.
Proof.
  unfold map_count. rewrite map_size_empty_iff. split.
  - intros He k a Hk. destruct (P a) eqn:E; [|done].
    assert (filter (fun kv : K * A => Is_true (P kv.2)) m !! k = Some a) as Hf.
    { apply map_lookup_filter_Some. split; [done|]. simpl. by rewrite E. }
    rewrite He, lookup_empty in Hf. done.
  - intros Hall. apply map_empty. intros k. apply map_lookup_filter_None.
    destruct (m !! k) as [a|] eqn:E; [|by left]. right.
    intros a' [= <-]. simpl. rewrite (Hall k a E). by intros [].
Qed.

Lemma map_count_pos m :
  0 < map_count m <-> exists k a, m !! k = Some a /\ P a = true.
Proof.
  split.
  - intros Hp. unfold map_count in Hp.
    destruct (decide (filter (fun kv : K * A => Is_true (P kv.2)) m = ∅)) as [He|Hne].
    + rewrite He, map_size_empty in Hp. lia.
    + apply map_choose in Hne as (k & a & Hka).
      apply map_lookup_filter_Some in Hka as [Hk HP]. exists k, a. split; [done|].
      by apply Is_true_eq_true.
  - intros (k & a & Hk & HP). destruct (decide (map_count m = 0)) as [Hz|]; [|lia].
    rewrite map_count_zero in Hz. by rewrite (Hz k a Hk) in HP.
Qed.
End Count.

(** ** Ordered containers

    [BTreeMap] and [BTreeSet] visit their keys in ascending byte order. *)

Definition bt_set (s : gset string) : list string := merge_sort String.le (elements s).
Definition bt_keys {A} (m : gmap string A) : list string := bt_set (dom m).
Definition bt_iter {A} (m : gmap string A) : list (string * A) :=
  omap (fun k => (fun v => (k, v)) <$> m !! k) (bt_keys m).

Lemma elem_of_bt_set s k : k ∈ bt_set s <-> k ∈ s.
Proof. unfold bt_set. rewrite merge_sort_Permutation. apply elem_of_elements. Qed.

Lemma NoDup_bt_set s : NoDup (bt_set s).
Proof. unfold bt_set. rewrite merge_sort_Permutation. apply NoDup_elements. Qed.

Lemma Sorted_bt_set s : StronglySorted String.le (bt_set s).
Proof. unfold bt_set. apply (StronglySorted_merge_sort _). Qed.

Lemma length_bt_set s : length (bt_set s) = size s.
Proof. unfold bt_set. by rewrite merge_sort_Permutation. Qed.

Lemma elem_of_bt_iter {A} (m : gmap string A) k a : (k, a) ∈ bt_iter m <-> m !! k = Some a.
Proof.
  unfold bt_iter, bt_keys. rewrite list_elem_of_omap. split.
  - intros (x & _ & H). destruct (m !! x) eqn:E; [|done]. simpl in H. by injection H as <- <-.
  - intros H. exists k. rewrite elem_of_bt_set, elem_of_dom, H. split; [by eexists|done].
Qed.

Lemma length_bt_keys {A} (m : gmap string A) : length (bt_keys m) = size m.
Proof. unfold bt_keys. rewrite length_bt_set. apply size_dom. Qed.

#[export] Hint Rewrite @elem_of_hkeys @elem_of_hvalues @elem_of_hset_iter
  elem_of_bt_set : zatat_rw.

Lemma filter_perm {A} (f : A -> bool) l l' : l ≡ₚ l' -> List.filter f l ≡ₚ List.filter f l'.
Proof.
  induction 1; simpl; try done.
  - destruct (f x); by rewrite ?IHPermutation.
  - destruct (f x), (f y); done || apply Permutation_swap.
  - by etrans.
Qed.
