(* ===== verification/Core.v ===== *)
(** * zatat-core: errors, identifiers, channel names and applications

    Models [crates/zatat-core/src]: the Pusher error codes, the socket id
    format, the classification and validation of channel names, and the
    per-application settings with the origin allow-list. *)

From S2P Require Import Prelude.
From stdpp Require Import options.

(** ** error.rs *)

Inductive PusherError :=
| AppDoesNotExist
| OverConnectionQuota
| Unauthorized
| InvalidOrigin
| InvalidMessageFormat
| PongNotReceived
| RateLimitExceeded
| ClientEventsDisabled
| NotChannelMember
| InvalidAuthSignature.

#[export] Instance PusherError_eq_dec : EqDecision PusherError.
Proof. solve_decision. Defined.

Definition code (e : PusherError) : Z :=
  match e with
  | AppDoesNotExist => 4001
  | OverConnectionQuota => 4004
  | Unauthorized | InvalidOrigin => 4009
  | InvalidMessageFormat => 4200
  | PongNotReceived => 4201
  | RateLimitExceeded | ClientEventsDisabled
  | NotChannelMember | InvalidAuthSignature => 4301
  end%Z.

Definition message (e : PusherError) : string :=
  match e with
  | AppDoesNotExist => "Application does not exist"
  | OverConnectionQuota => "Application is over connection quota"
  | Unauthorized => "Connection is unauthorized"
  | InvalidOrigin => "Origin not allowed"
  | InvalidMessageFormat => "Invalid message format"
  | PongNotReceived => "Pong reply not received in time"
  | RateLimitExceeded => "Rate limit exceeded"
  | ClientEventsDisabled => "The app does not have client messaging enabled"
  | NotChannelMember => "The client is not a member of the specified channel"
  | InvalidAuthSignature => "Auth signature invalid"
  end.

(** ** id.rs

    [AppId], [AppKey] and [SocketId] are newtypes over [String] whose
    [as_str], [into_inner] and [From] conversions are identities. *)

Abbreviation AppId := string (only parsing).
Abbreviation AppKey := string (only parsing).
Abbreviation SocketId := string (only parsing).

(** [SocketId::generate], given the two numbers it draws. *)
Definition generate (a b : Z) : SocketId := dec_string a +:+ "." +:+ dec_string b.

(** ** channel_name.rs *)

Definition MAX_CHANNEL_NAME_LEN : Z := 164.
Definition MAX_EVENT_NAME_LEN : Z := 200.

Inductive ChannelKind :=
| Public
| Private
| Presence
| Cache
| PrivateCache
| PresenceCache
| PrivateEncrypted
| PrivateEncryptedCache.

#[export] Instance ChannelKind_eq_dec : EqDecision ChannelKind.
Proof. solve_decision. Defined.

Definition from_name (name : string) : ChannelKind :=
  if starts_with "private-encrypted-cache-" name then PrivateEncryptedCache
  else if starts_with "private-encrypted-" name then PrivateEncrypted
  else if starts_with "presence-cache-" name then PresenceCache
  else if starts_with "private-cache-" name then PrivateCache
  else if starts_with "cache-" name then Cache
  else if starts_with "presence-" name then Presence
  else if starts_with "private-" name then Private
  else Public.

Definition is_private (k : ChannelKind) : bool :=
  match k with
  | Private | Presence | PrivateCache | PresenceCache
  | PrivateEncrypted | PrivateEncryptedCache => true
  | _ => false
  end.

Definition is_presence (k : ChannelKind) : bool :=
  match k with Presence | PresenceCache => true | _ => false end.

Definition is_cache (k : ChannelKind) : bool :=
  match k with
  | Cache | PrivateCache | PresenceCache | PrivateEncryptedCache => true
  | _ => false
  end.

Definition is_encrypted (k : ChannelKind) : bool :=
  match k with PrivateEncrypted | PrivateEncryptedCache => true | _ => false end.

(** [ChannelName] is a newtype over [String]; [kind] classifies its text. *)
Abbreviation ChannelName := string (only parsing).
Definition kind (name : ChannelName) : ChannelKind := from_name name.

(** The bytes the [matches!] of [is_valid_channel_name] accepts. *)
Definition valid_channel_byte (b : ascii) : bool :=
  let n := nat_of_ascii b in
  ((65 <=? n) && (n <=? 90)) || ((97 <=? n) && (n <=? 122)) ||
  ((48 <=? n) && (n <=? 57)) ||
  bool_decide (b ∈ ["_"; "-"; "="; "@"; ","; "."; ";"]%char).

Definition is_valid_channel_name (name : string) : bool :=
  if is_empty_str name || (MAX_CHANNEL_NAME_LEN <? len name)%Z then false
  else forall_bytes valid_channel_byte name.

(** ** application.rs *)

Inductive AcceptClientEventsFrom := AcceptAll | AcceptMembers | AcceptNone.

#[export] Instance Accept_eq_dec : EqDecision AcceptClientEventsFrom.
Proof. solve_decision. Defined.

Record RateLimitConfig := {
  enabled : bool;
  max_attempts : Z;
  decay_seconds : Z;
  terminate_on_limit : bool
}.

(** The [globset] crate: which patterns parse ([Glob::new]), which pattern
    sets compile ([GlobSetBuilder::build]) and what a pattern matches. *)
Class GlobLib := {
  glob_new : string -> bool;
  globset_build : list string -> bool;
  glob_is_match : string -> string -> bool
}.

(** A compiled [GlobSet] is given by the patterns added to it. *)
Abbreviation GlobSet := (list string) (only parsing).

(** [webhooks] holds the raw JSON of each target; its type is a parameter. *)
Record Application {Value : Type} := {
  app_id : AppId;
  app_key : AppKey;
  app_secret : string;
  ping_interval : Z;
  activity_timeout : Z;
  max_message_size : Z;
  max_connections : option Z;
  accept_client_events_from : AcceptClientEventsFrom;
  rate_limiting : option RateLimitConfig;
  allowed_origins_raw : list string;
  allowed_origins : GlobSet;
  app_webhooks : list Value;
  emit_subscription_count : bool;
  encryption_master_key : option string;
  cache_ttl_seconds : option Z;
  max_presence_members_per_channel : Z;
  max_presence_member_size_bytes : Z;
  max_channels_per_connection : Z
}.
Arguments Application : clear implicits.

Inductive ApplicationError := InvalidOriginPattern (p : string).

Definition default_max_presence_members : Z := 100.
Definition default_max_presence_member_size_bytes : Z := 2048.
Definition default_max_channels_per_connection : Z := 100.

Section Builder.
Context {Value : Type}.

Definition with_cache_ttl_seconds (app : Application Value) (ttl : option Z) : Application Value :=
  {| app_id := app_id app; app_key := app_key app; app_secret := app_secret app;
     ping_interval := ping_interval app; activity_timeout := activity_timeout app;
     max_message_size := max_message_size app; max_connections := max_connections app;
     accept_client_events_from := accept_client_events_from app;
     rate_limiting := rate_limiting app; allowed_origins_raw := allowed_origins_raw app;
     allowed_origins := allowed_origins app; app_webhooks := app_webhooks app;
     emit_subscription_count := emit_subscription_count app;
     encryption_master_key := encryption_master_key app; cache_ttl_seconds := ttl;
     max_presence_members_per_channel := max_presence_members_per_channel app;
     max_presence_member_size_bytes := max_presence_member_size_bytes app;
     max_channels_per_connection := max_channels_per_connection app |}.
Definition with_presence_limits (app : Application Value) (max_members max_size : Z) : Application Value :=
  {| app_id := app_id app; app_key := app_key app; app_secret := app_secret app;
     ping_interval := ping_interval app; activity_timeout := activity_timeout app;
     max_message_size := max_message_size app; max_connections := max_connections app;
     accept_client_events_from := accept_client_events_from app;
     rate_limiting := rate_limiting app; allowed_origins_raw := allowed_origins_raw app;
     allowed_origins := allowed_origins app; app_webhooks := app_webhooks app;
     emit_subscription_count := emit_subscription_count app;
     encryption_master_key := encryption_master_key app;
     cache_ttl_seconds := cache_ttl_seconds app; max_presence_members_per_channel := max_members;
     max_presence_member_size_bytes := max_size;
     max_channels_per_connection := max_channels_per_connection app |}.
Definition with_max_channels_per_connection (app : Application Value) (max : Z) : Application Value :=
  {| app_id := app_id app; app_key := app_key app; app_secret := app_secret app;
     ping_interval := ping_interval app; activity_timeout := activity_timeout app;
     max_message_size := max_message_size app; max_connections := max_connections app;
     accept_client_events_from := accept_client_events_from app;
     rate_limiting := rate_limiting app; allowed_origins_raw := allowed_origins_raw app;
     allowed_origins := allowed_origins app; app_webhooks := app_webhooks app;
     emit_subscription_count := emit_subscription_count app;
     encryption_master_key := encryption_master_key app;
     cache_ttl_seconds := cache_ttl_seconds app;
     max_presence_members_per_channel := max_presence_members_per_channel app;
     max_presence_member_size_bytes := max_presence_member_size_bytes app;
     max_channels_per_connection := max |}.
Definition with_webhooks (app : Application Value) (ws : list Value) : Application Value :=
  {| app_id := app_id app; app_key := app_key app; app_secret := app_secret app;
     ping_interval := ping_interval app; activity_timeout := activity_timeout app;
     max_message_size := max_message_size app; max_connections := max_connections app;
     accept_client_events_from := accept_client_events_from app;
     rate_limiting := rate_limiting app; allowed_origins_raw := allowed_origins_raw app;
     allowed_origins := allowed_origins app; app_webhooks := ws;
     emit_subscription_count := emit_subscription_count app;
     encryption_master_key := encryption_master_key app;
     cache_ttl_seconds := cache_ttl_seconds app;
     max_presence_members_per_channel := max_presence_members_per_channel app;
     max_presence_member_size_bytes := max_presence_member_size_bytes app;
     max_channels_per_connection := max_channels_per_connection app |}.
Definition with_subscription_count (app : Application Value) (enabled : bool) : Application Value :=
  {| app_id := app_id app; app_key := app_key app; app_secret := app_secret app;
     ping_interval := ping_interval app; activity_timeout := activity_timeout app;
     max_message_size := max_message_size app; max_connections := max_connections app;
     accept_client_events_from := accept_client_events_from app;
     rate_limiting := rate_limiting app; allowed_origins_raw := allowed_origins_raw app;
     allowed_origins := allowed_origins app; app_webhooks := app_webhooks app;
     emit_subscription_count := enabled; encryption_master_key := encryption_master_key app;
     cache_ttl_seconds := cache_ttl_seconds app;
     max_presence_members_per_channel := max_presence_members_per_channel app;
     max_presence_member_size_bytes := max_presence_member_size_bytes app;
     max_channels_per_connection := max_channels_per_connection app |}.
Definition with_encryption_master_key (app : Application Value) (key : option string) : Application Value :=
  {| app_id := app_id app; app_key := app_key app; app_secret := app_secret app;
     ping_interval := ping_interval app; activity_timeout := activity_timeout app;
     max_message_size := max_message_size app; max_connections := max_connections app;
     accept_client_events_from := accept_client_events_from app;
     rate_limiting := rate_limiting app; allowed_origins_raw := allowed_origins_raw app;
     allowed_origins := allowed_origins app; app_webhooks := app_webhooks app;
     emit_subscription_count := emit_subscription_count app; encryption_master_key := key;
     cache_ttl_seconds := cache_ttl_seconds app;
     max_presence_members_per_channel := max_presence_members_per_channel app;
     max_presence_member_size_bytes := max_presence_member_size_bytes app;
     max_channels_per_connection := max_channels_per_connection app |}.
End Builder.

Section Origins.
Context `{GL : GlobLib} {Value : Type}.

(** The loop of [build_origin_globset]: every pattern but ["*"] must parse. *)
Fixpoint add_globs (patterns : list string) (b : GlobSet)
  : result GlobSet ApplicationError :=
  match patterns with
  | [] => Ok b
  | p :: rest =>
      if String.eqb p "*" then add_globs rest b
      else if glob_new p then add_globs rest (b ++ [p])
      else Err (InvalidOriginPattern p)
  end.

Definition build_origin_globset (patterns : list string)
  : result GlobSet ApplicationError :=
  match add_globs patterns [] with
  | Err e => Err e
  | Ok b => if globset_build b then Ok b else Err (InvalidOriginPattern "<combined>")
  end.

Definition Application_new (id : AppId) (key : AppKey) (secret : string)
    (ping activity max_msg : Z) (max_conns : option Z)
    (accept : AcceptClientEventsFrom) (rl : option RateLimitConfig)
    (origins : list string) : result (Application Value) ApplicationError :=
  match build_origin_globset origins with
  | Err e => Err e
  | Ok globs =>
      Ok {| app_id := id; app_key := key; app_secret := secret;
            ping_interval := ping; activity_timeout := activity;
            max_message_size := max_msg; max_connections := max_conns;
            accept_client_events_from := accept; rate_limiting := rl;
            allowed_origins_raw := origins; allowed_origins := globs;
            app_webhooks := []; emit_subscription_count := false;
            encryption_master_key := None; cache_ttl_seconds := None;
            max_presence_members_per_channel := default_max_presence_members;
            max_presence_member_size_bytes := default_max_presence_member_size_bytes;
            max_channels_per_connection := default_max_channels_per_connection |}
  end.

Definition origin_is_allowed (app : Application Value) (host : string) : bool :=
  if existsb (fun p => String.eqb p "*") (allowed_origins_raw app) then true
  else existsb (fun p => glob_is_match p host) (allowed_origins app).
End Origins.

(** ** Properties *)

(** Decides a boolean fact about the prefixes of one name by cases on every
    prefix test in the goal; impossible combinations are refuted by comparing
    the two constant prefixes. *)
Ltac kind_cases :=
  repeat match goal with
         | |- context [starts_with ?p ?s] => destruct (starts_with p s) eqn:?
         end; simpl; try reflexivity; prefix_clash.

(** A channel's capabilities are exactly those its name prefix announces
    - auth for the private and presence prefixes, a roster for presence, replay
    for the four cache prefixes, encryption for the private-encrypted prefixes -
    and testing the longer prefixes first never misclassifies a name. *)
Theorem kind_flags name :
  is_presence (kind name) = starts_with "presence-" name /\
  is_private (kind name)
    = (starts_with "private-" name || starts_with "presence-" name) /\
  is_cache (kind name)
    = (starts_with "cache-" name || starts_with "private-cache-" name ||
       starts_with "presence-cache-" name ||
       starts_with "private-encrypted-cache-" name) /\
  is_encrypted (kind name) = starts_with "private-encrypted-" name.
Proof. unfold kind, from_name. split_and!; kind_cases. Qed.

Lemma valid_channel_name_bytes name :
  is_valid_channel_name name = true ->
  name <> "" /\ (len name <= 164)%Z /\ forall_bytes valid_channel_byte name = true.
Proof.
  unfold is_valid_channel_name, MAX_CHANNEL_NAME_LEN.
  destruct (is_empty_str name) eqn:E; simpl; [done|].
  destruct (164 <? len name)%Z eqn:L; [done|].
  apply Z.ltb_ge in L. destruct name; done.
Qed.

(** A valid name cannot contain a delimiter of the signed strings. *)
Lemma valid_channel_name_no_char c name :
  is_valid_channel_name name = true -> valid_channel_byte c = false ->
  has_char c name = false.
Proof.
  intros H Hc. apply valid_channel_name_bytes in H as (_ & _ & H).
  by eapply forall_bytes_has_char.
Qed.

Lemma valid_channel_name_no_colon name :
  is_valid_channel_name name = true -> has_char ":" name = false.
Proof. intros H. by apply valid_channel_name_no_char. Qed.

Section OriginProps.
Context `{GL : GlobLib} {Value : Type}.

Lemma add_globs_Ok patterns b b' :
  add_globs patterns b = Ok b' ->
  b' = b ++ List.filter (fun p => negb (String.eqb p "*")) patterns.
Proof.
  revert b. induction patterns as [|p ps IH]; intros b; simpl.
  - intros [= <-]. by rewrite app_nil_r.
  - destruct (String.eqb p "*"); simpl; [apply IH|].
    destruct (glob_new p); [|done]. intros H. apply IH in H as ->.
    by rewrite <- app_assoc.
Qed.

Lemma build_origin_globset_Ok patterns b :
  build_origin_globset patterns = Ok b ->
  b = List.filter (fun p => negb (String.eqb p "*")) patterns.
Proof.
  unfold build_origin_globset. destruct (add_globs patterns []) as [b'|] eqn:E; [|done].
  destruct (globset_build b'); [|done]. intros [= <-]. by apply add_globs_Ok in E.
Qed.

(** An application built from a pattern list admits an origin host
    exactly when the list has the wildcard or one of its other patterns
    matches the host; nothing else is ever admitted. *)
Theorem origin_allowed_iff id key secret ping act mm mc acc rl origins
    (app : Application Value) host :
  Application_new id key secret ping act mm mc acc rl origins = Ok app ->
  origin_is_allowed app host = true <->
  "*" ∈ origins \/
  exists p, p ∈ origins /\ p <> "*" /\ glob_is_match p host = true.
Proof.
  unfold Application_new. destruct (build_origin_globset origins) as [g|] eqn:E; [|done].
  intros [= <-]. apply build_origin_globset_Ok in E as ->.
  unfold origin_is_allowed; simpl.
  destruct (existsb _ origins) eqn:Hs.
  - apply existsb_exists in Hs as (p & Hp & ->%String.eqb_eq).
    split; [left; by apply list_elem_of_In | done].
  - rewrite existsb_exists. split.
    + intros (p & Hp & Hm). apply filter_In in Hp as [Hp Hn]. right. exists p.
      split_and!; [by apply list_elem_of_In | | done].
      intros ->. done.
    + intros [Hin|(p & Hp & Hne & Hm)].
      * assert (existsb (fun p => String.eqb p "*") origins = true) as He.
        { apply existsb_exists. exists "*". split; [by apply list_elem_of_In|done]. }
        congruence.
      * exists p. split; [|done]. apply filter_In. split; [by apply list_elem_of_In|].
        by rewrite (proj2 (String.eqb_neq p "*") Hne).
Qed.
End OriginProps.

(** A library that parses every pattern and matches a host only by itself. *)
Definition literal_globs : GlobLib :=
  {| glob_new := fun _ => true; globset_build := fun _ => true;
     glob_is_match := String.eqb |}.

Lemma origin_allowed_iff_witness :
  match @Application_new literal_globs unit "1" "k" "s" 60 30 10000 None AcceptMembers None
          ["a.test"; "b.test"] with
  | Ok app => @origin_is_allowed literal_globs unit app "b.test" = true
  | Err _ => False
  end.
Proof.
  simpl.
  apply (@origin_allowed_iff literal_globs unit "1" "k" "s" 60 30 10000 None AcceptMembers
           None ["a.test"; "b.test"]); [reflexivity|].
  right. exists "b.test". split_and!; [set_solver | discriminate | reflexivity].
Defined.
