(* ===== verification/Json.v ===== *)
(** * JSON values, as [serde_json] (feature [preserve_order]) represents them

    The source uses the [serde_json] crate for parsing and printing; those two
    functions are parameters ([SerdeJson]).  The value type and the accessors
    below are the crate's documented public ones. *)

From S2P Require Import Prelude.
From stdpp Require Import options.

(** A number is given by the text [Number::to_string] prints.  Objects keep
    their insertion order. *)
Inductive Value :=
| Null
| VBool (b : bool)
| Number (text : string)
| VString (s : string)
| Array (l : list Value)
| Object (m : list (string * Value)).

(** [Map::get], [Value::get], [Map::insert] (an existing key keeps its place). *)
Fixpoint map_get (k : string) (m : list (string * Value)) : option Value :=
  match m with
  | [] => None
  | (k', v) :: rest => if String.eqb k' k then Some v else map_get k rest
  end.

Fixpoint map_insert (m : list (string * Value)) (k : string) (v : Value)
  : list (string * Value) :=
  match m with
  | [] => [(k, v)]
  | (k', v') :: rest =>
      if String.eqb k' k then (k, v) :: rest else (k', v') :: map_insert rest k v
  end.

Definition value_get (v : Value) (k : string) : option Value :=
  match v with Object m => map_get k m | _ => None end.

Definition as_str (v : Value) : option string :=
  match v with VString s => Some s | _ => None end.

Definition is_null (v : Value) : bool :=
  match v with Null => true | _ => false end.

(** [Value::from(n)] for an unsigned integer. *)
Definition value_of_Z (n : Z) : Value := Number (dec_string n).
Definition value_of_nat (n : nat) : Value := value_of_Z (Z.of_nat n).

(** The crate's parser and printer. *)
Class SerdeJson := {
  from_str : string -> option Value;
  to_string : Value -> string
}.

Lemma map_get_insert m k v k' :
  map_get k' (map_insert m k v) = if String.eqb k k' then Some v else map_get k' m.
Proof.
  induction m as [|[k0 v0] m IH]; simpl; [done|].
  destruct (String.eqb_spec k0 k) as [->|Hne]; simpl.
  - by destruct (String.eqb_spec k k').
  - destruct (String.eqb_spec k0 k') as [->|]; [|by rewrite IH].
    by rewrite (proj2 (String.eqb_neq k k')) by congruence.
Qed.
