(* ===== verification/Envelope.v ===== *)
(** * zatat-protocol: frames

    Models [crates/zatat-protocol/src]: [envelope.rs] (the JSON string writer
    and the frame encoders), [outbound.rs] (every server frame) and
    [presence.rs] (rosters). *)

From S2P Require Import Prelude.
From S2P Require Import Core.
From S2P Require Import Json.
From stdpp Require Import options.

Definition DQ : ascii := "034"%char.
Definition BS : ascii := "092"%char.

(** ** envelope.rs *)

(** One hexadecimal digit, lower case. *)
Definition hex_digit (n : nat) : ascii :=
  if n <? 10 then ascii_of_nat (48 + n) else ascii_of_nat (87 + n).

(** What [write_json_string] appends for one character.  The escapes concern
    ASCII characters only, so the bytes of any other character are copied. *)
Definition escape_byte (c : ascii) : string :=
  let n := nat_of_ascii c in
  if Ascii.eqb c DQ then String BS (String DQ "")
  else if Ascii.eqb c BS then String BS (String BS "")
  else if n =? 10 then String BS "n"
  else if n =? 13 then String BS "r"
  else if n =? 9 then String BS "t"
  else if n =? 8 then String BS "b"
  else if n =? 12 then String BS "f"
  else if n <? 32
       then String BS (String "u" (String "0" (String "0"
              (String (hex_digit (n / 16)) (String (hex_digit (n mod 16)) "")))))
  else String c "".

Fixpoint escape (s : string) : string :=
  match s with
  | EmptyString => EmptyString
  | String c s' => escape_byte c +:+ escape s'
  end.

Definition write_json_string (buf s : string) : string :=
  buf +:+ String DQ "" +:+ escape s +:+ String DQ "".

(** A quoted constant, as the source's string literals have it. *)
Definition quoted (s : string) : string := String DQ "" +:+ s +:+ String DQ "".

Definition encode_envelope_raw_data (event : string) (data_raw channel : option string)
  : string :=
  let buf := "{" +:+ quoted "event" +:+ ":" in
  let buf := write_json_string buf event in
  let buf := match data_raw with
             | Some raw => write_json_string (buf +:+ "," +:+ quoted "data" +:+ ":") raw
             | None => buf
             end in
  let buf := match channel with
             | Some ch => write_json_string (buf +:+ "," +:+ quoted "channel" +:+ ":") ch
             | None => buf
             end in
  buf +:+ "}".

Section Encode.
Context `{SJ : SerdeJson}.

Definition encode_envelope (event : string) (data : option Value)
    (channel : option string) : string :=
  let buf := "{" +:+ quoted "event" +:+ ":" in
  let buf := write_json_string buf event in
  let buf := match data with
             | Some value =>
                 let inner := to_string value in
                 write_json_string (buf +:+ "," +:+ quoted "data" +:+ ":") inner
             | None => buf
             end in
  let buf := match channel with
             | Some ch => write_json_string (buf +:+ "," +:+ quoted "channel" +:+ ":") ch
             | None => buf
             end in
  buf +:+ "}".
End Encode.

(** [String::pop]: drops the last character (an ASCII one where it is used). *)
Fixpoint pop (s : string) : string :=
  match s with
  | EmptyString => EmptyString
  | String c EmptyString => EmptyString
  | String c s' => String c (pop s')
  end.

Definition encode_client_event (event data_raw channel : string)
    (user_id : option string) : string :=
  let buf := encode_envelope_raw_data event (Some data_raw) (Some channel) in
  match user_id with
  | Some u =>
      write_json_string (pop buf +:+ "," +:+ quoted "user_id" +:+ ":") u +:+ "}"
  | None => buf
  end.

(** ** A reader for the frames

    The JSON grammar's string token (RFC 8259), read back.  This is the
    specification the writer is checked against, not code of the repository. *)

Definition hex_value (c : ascii) : option nat :=
  let n := nat_of_ascii c in
  if (48 <=? n) && (n <=? 57) then Some (n - 48)
  else if (97 <=? n) && (n <=? 102) then Some (n - 87)
  else if (65 <=? n) && (n <=? 70) then Some (n - 55)
  else None.

Definition unescape_simple (c : ascii) : option ascii :=
  if Ascii.eqb c DQ then Some DQ
  else if Ascii.eqb c BS then Some BS
  else if Ascii.eqb c "/"%char then Some "/"%char
  else if Ascii.eqb c "n"%char then Some "010"%char
  else if Ascii.eqb c "r"%char then Some "013"%char
  else if Ascii.eqb c "t"%char then Some "009"%char
  else if Ascii.eqb c "b"%char then Some "008"%char
  else if Ascii.eqb c "f"%char then Some "012"%char
  else None.

(** The content of a string token and what follows its closing quote. *)
Fixpoint read_string_body (s : string) : option (string * string) :=
  match s with
  | EmptyString => None
  | String c rest =>
      if Ascii.eqb c DQ then Some (EmptyString, rest)
      else if Ascii.eqb c BS then
        match rest with
        | String "u"%char (String "0"%char (String "0"%char (String h (String l rest')))) =>
            match hex_value h, hex_value l with
            | Some hv, Some lv =>
                if hv <? 8 then
                  match read_string_body rest' with
                  | Some (t, r) => Some (String (ascii_of_nat (16 * hv + lv)) t, r)
                  | None => None
                  end
                else None
            | _, _ => None
            end
        | String e rest' =>
            match unescape_simple e with
            | Some b =>
                match read_string_body rest' with
                | Some (t, r) => Some (String b t, r)
                | None => None
                end
            | None => None
            end
        | EmptyString => None
        end
      else if nat_of_ascii c <? 32 then None
      else match read_string_body rest with
           | Some (t, r) => Some (String c t, r)
           | None => None
           end
  end.

Definition read_json_string (s : string) : option (string * string) :=
  match s with
  | String c rest => if Ascii.eqb c DQ then read_string_body rest else None
  | EmptyString => None
  end.

(** Reads an optional [,"key":"value"] member. *)
Definition read_field (key s : string) : option (option string * string) :=
  match strip_prefix ("," +:+ quoted key +:+ ":") s with
  | None => Some (None, s)
  | Some rest =>
      match read_json_string rest with
      | Some (v, r) => Some (Some v, r)
      | None => None
      end
  end.

(** Event, data, channel and user id of a frame. *)
Definition read_envelope (s : string)
  : option (string * option string * option string * option string) :=
  match strip_prefix ("{" +:+ quoted "event" +:+ ":") s with
  | None => None
  | Some s1 =>
      match read_json_string s1 with
      | None => None
      | Some (event, s2) =>
          match read_field "data" s2 with
          | None => None
          | Some (data, s3) =>
              match read_field "channel" s3 with
              | None => None
              | Some (channel, s4) =>
                  match read_field "user_id" s4 with
                  | Some (user_id, "}") => Some (event, data, channel, user_id)
                  | _ => None
                  end
              end
          end
      end
  end.

(** ** The writer is inverted by the reader *)

Lemma read_escape_byte c t :
  read_string_body (escape_byte c +:+ t) =
  match read_string_body t with
  | Some (u, r) => Some (String c u, r)
  | None => None
  end.
Proof. destruct c as [[] [] [] [] [] [] [] []]; reflexivity. Qed.

Lemma read_escape s rest :
  read_string_body (escape s +:+ String DQ rest) = Some (s, rest).
Proof.
  induction s as [|c s IH]; simpl escape; [done|].
  by rewrite str_app_assoc, read_escape_byte, IH.
Qed.

Lemma read_write_json_string s rest :
  read_json_string (write_json_string "" s +:+ rest) = Some (s, rest).
Proof.
  unfold write_json_string. rewrite !str_app_assoc.
  change (read_string_body (escape s +:+ String DQ rest) = Some (s, rest)).
  apply read_escape.
Qed.

(** An optional member as the encoders append it. *)
Definition field (key : string) (v : option string) : string :=
  match v with
  | Some s => ("," +:+ quoted key +:+ ":") +:+ write_json_string "" s
  | None => ""
  end.

Lemma encode_fields event data channel :
  encode_envelope_raw_data event data channel =
  (("{" +:+ quoted "event" +:+ ":") +:+ write_json_string "" event +:+
   field "data" data +:+ field "channel" channel +:+ "}").
Proof.
  unfold encode_envelope_raw_data, field, write_json_string.
  destruct data, channel; rewrite ?str_app_assoc; reflexivity.
Qed.

Lemma pop_snoc s c : pop (s +:+ String c "") = s.
Proof.
  induction s as [|a s IH]; [done|]. rewrite str_app_cons.
  transitivity (String a (pop (s +:+ String c ""))); [|by rewrite IH].
  by destruct s.
Qed.

Lemma encode_client_fields event data channel user_id :
  encode_client_event event data channel user_id =
  (("{" +:+ quoted "event" +:+ ":") +:+ write_json_string "" event +:+
   field "data" (Some data) +:+ field "channel" (Some channel) +:+
   field "user_id" user_id +:+ "}").
Proof.
  unfold encode_client_event. rewrite encode_fields. destruct user_id as [u|]; [|done].
  assert (forall a b c d : string, pop (a +:+ b +:+ c +:+ d +:+ "}") = (a +:+ b +:+ c +:+ d))
    as Hpop.
  { intros a b c d. rewrite <- (pop_snoc (a +:+ b +:+ c +:+ d) "}"%char).
    by rewrite !str_app_assoc. }
  rewrite Hpop. unfold field, write_json_string. rewrite ?str_app_assoc. reflexivity.
Qed.

Lemma read_field_present key s rest :
  read_field key (field key (Some s) +:+ rest) = Some (Some s, rest).
Proof.
  unfold read_field, field. rewrite str_app_assoc.
  by rewrite (proj2 (strip_prefix_Some _ _ _) eq_refl), read_write_json_string.
Qed.

Lemma field_None key s : (field key None +:+ s) = s.
Proof. reflexivity. Qed.

Lemma read_field_absent key s :
  strip_prefix ("," +:+ quoted key +:+ ":") s = None -> read_field key s = Some (None, s).
Proof. unfold read_field. by intros ->. Qed.

Lemma read_envelope_fields event data channel user_id :
  read_envelope (("{" +:+ quoted "event" +:+ ":") +:+ write_json_string "" event +:+
     field "data" data +:+ field "channel" channel +:+ field "user_id" user_id +:+ "}")
  = Some (event, data, channel, user_id).
Proof.
  unfold read_envelope. rewrite (proj2 (strip_prefix_Some _ _ _) eq_refl).
  rewrite read_write_json_string.
  destruct data, channel, user_id;
    repeat first [rewrite read_field_present | rewrite field_None | rewrite read_field_absent by reflexivity];
    reflexivity.
Qed.

(** C40: frames survive the wire.  Whatever bytes the event name, the data, the
    channel and the sender's user id contain (quotes, backslashes and control
    characters included), reading the frame a client-event or a server-event
    encoder produced yields exactly those values, so no value can inject or
    hide a member of the envelope. *)
Theorem envelope_roundtrip event data channel user_id raw chan :
  read_envelope (encode_client_event event data channel user_id)
    = Some (event, Some data, Some channel, user_id) /\
  read_envelope (encode_envelope_raw_data event raw chan)
    = Some (event, raw, chan, None).
Proof.
  rewrite encode_client_fields, encode_fields. split; [apply read_envelope_fields|].
  apply (read_envelope_fields event raw chan None).
Qed.

Section EncodeProps.
Context `{SJ : SerdeJson}.

(** The two encoders agree: [encode_envelope] embeds the printed value. *)
Lemma encode_envelope_raw event data channel :
  encode_envelope event data channel
  = encode_envelope_raw_data event (to_string <$> data) channel.
Proof. by destruct data. Qed.
End EncodeProps.

(** ** presence.rs *)

Record PresenceMember := { user_id : string; user_info : option Value }.

Record PresenceData := {
  pd_count : nat;
  pd_ids : list string;
  pd_hash : gmap string Value
}.

Definition PresenceData_empty : PresenceData :=
  {| pd_count := 0; pd_ids := []; pd_hash := ∅ |}.

(** [seen.entry(user_id).or_insert_with(..)]: the first entry of a user wins. *)
Definition see_member (seen : gmap string Value) (m : PresenceMember) : gmap string Value :=
  match seen !! user_id m with
  | Some _ => seen
  | None => <[user_id m := default Null (user_info m)]> seen
  end.

(** The loop of [from_members]: [None] at the first member without presence
    data, otherwise the map with the first entry of every user. *)
Fixpoint collect_members (members : list (option PresenceMember))
    (seen : gmap string Value) : option (gmap string Value) :=
  match members with
  | [] => Some seen
  | None :: _ => None
  | Some m :: rest => collect_members rest (see_member seen m)
  end.

Definition from_members (members : list (option PresenceMember)) : PresenceData :=
  match collect_members members ∅ with
  | None => PresenceData_empty
  | Some seen =>
      let ids := bt_keys seen in
      {| pd_count := length ids; pd_ids := ids; pd_hash := seen |}
  end.

Definition to_subscription_data (p : PresenceData) : Value :=
  let hash := fold_left (fun m kv => map_insert m kv.1 kv.2) (bt_iter (pd_hash p)) [] in
  let presence := map_insert [] "count" (value_of_nat (pd_count p)) in
  let presence := map_insert presence "ids" (Array (VString <$> pd_ids p)) in
  let presence := map_insert presence "hash" (Object hash) in
  Object (map_insert [] "presence" (Object presence)).

(** ** outbound.rs *)

Section Outbound.
Context `{SJ : SerdeJson}.

Definition connection_established (socket_id : string) (activity : Z) : string :=
  encode_envelope "pusher:connection_established"
    (Some (Object [("socket_id", VString socket_id);
                   ("activity_timeout", value_of_Z activity)])) None.

Definition error (err : PusherError) : string :=
  encode_envelope "pusher:error"
    (Some (Object [("code", value_of_Z (code err));
                   ("message", VString (message err))])) None.

Definition error_with_message (c : Z) (msg : string) : string :=
  encode_envelope "pusher:error"
    (Some (Object [("code", value_of_Z c); ("message", VString msg)])) None.

Definition ping : string := encode_envelope "pusher:ping" None None.
Definition pong : string := encode_envelope "pusher:pong" None None.

Definition subscription_succeeded (channel : string) (data : option Value) : string :=
  match data with
  | Some v => encode_envelope "pusher_internal:subscription_succeeded" (Some v) (Some channel)
  | None => encode_envelope_raw_data "pusher_internal:subscription_succeeded"
              (Some "{}") (Some channel)
  end.

Definition subscription_succeeded_with_presence (channel : string) (p : PresenceData)
  : string :=
  encode_envelope "pusher_internal:subscription_succeeded"
    (Some (to_subscription_data p)) (Some channel).

Definition member_added (channel uid : string) (info : option Value) : string :=
  let data := match info with
              | Some i => Object [("user_id", VString uid); ("user_info", i)]
              | None => Object [("user_id", VString uid)]
              end in
  encode_envelope "pusher_internal:member_added" (Some data) (Some channel).

Definition member_removed (channel uid : string) : string :=
  encode_envelope "pusher_internal:member_removed"
    (Some (Object [("user_id", VString uid)])) (Some channel).

Definition cache_miss (channel : string) : string :=
  encode_envelope "pusher:cache_miss" None (Some channel).

Definition subscription_count (channel : string) (count : Z) : string :=
  encode_envelope "pusher_internal:subscription_count"
    (Some (Object [("subscription_count", value_of_Z count)])) (Some channel).

Definition signin_success (user_data : string) : string :=
  encode_envelope "pusher:signin_success"
    (Some (Object [("user_data", VString user_data)])) None.

(** The frame of [emit_local_watchlist_event] and [fanout_watchlist_event]. *)
Definition watchlist_frame (event_name : string) (user_ids : list string) : string :=
  encode_envelope "pusher_internal:watchlist_events"
    (Some (Object [("events",
       Array [Object [("name", VString event_name);
                      ("user_ids", Array (VString <$> user_ids))]])])) None.
End Outbound.

(** ** Rosters *)

(** The first member of the list that joined as [u]. *)
Definition first_member (members : list PresenceMember) (u : string)
  : option PresenceMember := List.find (fun m => String.eqb (user_id m) u) members.

Lemma collect_members_Some members seen :
  collect_members (Some <$> members) seen
  = Some (fold_left see_member members seen).
Proof. revert seen. induction members as [|m ms IH]; intros seen; simpl; [done|]. apply IH. Qed.

Lemma collect_members_None members seen :
  None ∈ members -> collect_members members seen = None.
Proof.
  revert seen. induction members as [|m ms IH]; intros seen Hin.
  - by apply not_elem_of_nil in Hin.
  - destruct m as [m|]; [|done]. apply elem_of_cons in Hin as [|Hin]; [done|]. simpl. auto.
Qed.

Lemma collect_lookup members seen u :
  fold_left see_member members seen !! u
  = match seen !! u with
    | Some v => Some v
    | None => (fun m => default Null (user_info m)) <$> first_member members u
    end.
Proof.
  revert seen. induction members as [|m ms IH]; intros seen; simpl.
  - by destruct (seen !! u).
  - rewrite IH. unfold first_member, see_member. simpl.
    destruct (seen !! user_id m) eqn:Hm; destruct (String.eqb_spec (user_id m) u) as [<-|Hne].
    + by rewrite Hm.
    + done.
    + by rewrite lookup_insert_eq, Hm.
    + by rewrite lookup_insert_ne.
Qed.

(** The roster of a list of joined members: sorted distinct user ids, their
    number, and for each the info (null when absent) it first joined with. *)
Lemma from_members_spec members :
  let r := from_members (Some <$> members) in
  StronglySorted String.le (pd_ids r) /\ NoDup (pd_ids r) /\
  pd_count r = length (pd_ids r) /\
  (forall u, u ∈ pd_ids r <-> exists m, m ∈ members /\ user_id m = u) /\
  (forall u, pd_hash r !! u = (fun m => default Null (user_info m)) <$> first_member members u).
Proof.
  unfold from_members. rewrite collect_members_Some. simpl.
  split_and!; [apply Sorted_bt_set | apply NoDup_bt_set | done | |].
  - intros u. unfold bt_keys. rewrite elem_of_bt_set, elem_of_dom, collect_lookup, lookup_empty.
    rewrite fmap_is_Some. unfold first_member. split.
    + intros [m Hm]. apply find_some in Hm as [Hin Hu%String.eqb_eq].
      exists m. by rewrite list_elem_of_In.
    + intros (m & Hin & <-). destruct (List.find _ members) as [m'|] eqn:E; [by eexists|].
      eapply find_none in E; [|by apply list_elem_of_In]. by rewrite String.eqb_refl in E.
  - intros u. rewrite collect_lookup, lookup_empty. done.
Qed.

Lemma from_members_missing members :
  None ∈ members -> from_members members = PresenceData_empty.
Proof. intros H. unfold from_members. by rewrite collect_members_None. Qed.
