(* ===== verification/Auth.v ===== *)
(** * zatat-protocol: channel and user authentication

    Models [crates/zatat-protocol/src/auth.rs].  The [hmac], [sha2] and [hex]
    crates are parameters; every theorem holds for any functions in their
    place. *)

From S2P Require Import Prelude.
From S2P Require Import Core.
From stdpp Require Import options.
Local Open Scope zatat_scope.

(** [Hmac<Sha256>] over key and message bytes, [hex::encode], [Md5]. *)
Class Crypto := {
  hmac_sha256 : string -> string -> string;
  hex_encode : string -> string;
  md5_hex : string -> string
}.

Inductive ChannelAuthError := BadFormat | KeyMismatch | Mismatch.

Section Auth.
Context `{CR : Crypto}.

(** [subtle::ConstantTimeEq] on byte slices: equality, [false] when the lengths
    differ. *)
Definition ct_eq_bytes (a b : string) : bool := String.eqb a b.

Definition hmac_hex (key msg : string) : string := hex_encode (hmac_sha256 key msg).

Definition canonical_channel_string (socket_id channel : string)
    (channel_data : option string) : string :=
  match channel_data with
  | Some data => socket_id +:+ ":" +:+ channel +:+ ":" +:+ data
  | None => socket_id +:+ ":" +:+ channel
  end.

Definition sign_channel_auth (key socket_id channel : string)
    (channel_data : option string) (secret : string) : string :=
  let canonical := canonical_channel_string socket_id channel channel_data in
  let sig := hmac_hex secret canonical in
  key +:+ ":" +:+ sig.

Definition verify_channel_auth (expected_app_key socket_id channel : string)
    (channel_data : option string) (auth secret : string)
  : result unit ChannelAuthError :=
  match split_once ":" auth with
  | None => Err BadFormat
  | Some (given_key, given_sig) =>
      let canonical := canonical_channel_string socket_id channel channel_data in
      let expected := hmac_hex secret canonical in
      let key_ok := ct_eq_bytes given_key expected_app_key in
      let sig_ok := ct_eq_bytes given_sig expected in
      match key_ok, sig_ok with
      | true, true => Ok tt
      | false, _ => Err KeyMismatch
      | true, false => Err Mismatch
      end
  end.

Definition user_canonical (socket_id user_data : string) : string :=
  socket_id +:+ "::user::" +:+ user_data.

Definition sign_user_auth (key socket_id user_data secret : string) : string :=
  let sig := hmac_hex secret (user_canonical socket_id user_data) in
  key +:+ ":" +:+ sig.

Definition verify_user_auth (expected_app_key socket_id user_data auth secret : string)
  : result unit ChannelAuthError :=
  match split_once ":" auth with
  | None => Err BadFormat
  | Some (given_key, given_sig) =>
      let expected := hmac_hex secret (user_canonical socket_id user_data) in
      let key_ok := ct_eq_bytes given_key expected_app_key in
      let sig_ok := ct_eq_bytes given_sig expected in
      match key_ok, sig_ok with
      | true, true => Ok tt
      | false, _ => Err KeyMismatch
      | true, false => Err Mismatch
      end
  end.

(** ** Verification accepts exactly the signed token *)

(** Both verifiers have this shape: the token is split at its first colon. *)
Lemma token_check_spec key sig auth :
  match split_once ":" auth with
  | None => Err BadFormat
  | Some (given_key, given_sig) =>
      match ct_eq_bytes given_key key, ct_eq_bytes given_sig sig with
      | true, true => Ok tt
      | false, _ => Err KeyMismatch
      | true, false => Err Mismatch
      end
  end = Ok tt <-> has_char ":" key = false /\ auth = (key +:+ ":" +:+ sig).
Proof.
  unfold ct_eq_bytes. destruct (split_once ":" auth) as [[k s]|] eqn:E.
  - apply split_once_Some in E as [-> Hk].
    destruct (String.eqb_spec k key) as [->|Hne].
    + destruct (String.eqb_spec s sig) as [->|Hns]; [done|].
      split; [done|]. intros [_ H]. apply str_app_inj_l in H. by injection H.
    + split; [done|]. intros [Hc H].
      by destruct (split_at_inj ":" k s key sig Hk Hc H).
  - split; [done|]. intros [Hc ->]. apply split_once_None in E.
    rewrite has_char_app in E. by destruct (has_char ":" key).
Qed.

(** Channel authentication is exact.  For an application key without a
    colon the verifier accepts a token if and only if it is the one the signer
    produces for the same socket, channel, channel data and secret; with a
    colon in the key no token is ever accepted. *)
Theorem channel_auth_exact key socket_id channel data auth secret :
  verify_channel_auth key socket_id channel data auth secret = Ok tt <->
  has_char ":" key = false /\
  auth = sign_channel_auth key socket_id channel data secret.
Proof. apply token_check_spec. Qed.

(** The same for the sign-in token. *)
Lemma user_auth_exact key socket_id user_data auth secret :
  verify_user_auth key socket_id user_data auth secret = Ok tt <->
  has_char ":" key = false /\ auth = sign_user_auth key socket_id user_data secret.
Proof. apply token_check_spec. Qed.
End Auth.

(** ** What a signature covers *)

Lemma digit_ascii_no_colon d : (0 <= d < 10)%Z -> Ascii.eqb (digit_ascii d) ":" = false.
Proof.
  intros Hd. unfold digit_ascii.
  assert (Z.to_nat d < 10) as H by lia. revert H. generalize (Z.to_nat d). intros n Hn.
  do 10 (destruct n as [|n]; [reflexivity|]). lia.
Qed.

Lemma digits_fuel_no_colon fuel z acc :
  has_char ":" acc = false -> has_char ":" (digits_fuel fuel z acc) = false.
Proof.
  revert z acc. induction fuel as [|f IH]; intros z acc H; simpl; [done|].
  assert (has_char ":" (String (digit_ascii (z mod 10)) acc) = false) as H'.
  { rewrite has_char_cons, digit_ascii_no_colon; [done|]. apply Z.mod_pos_bound. lia. }
  destruct (z <? 10)%Z; auto.
Qed.

Lemma generate_no_colon a b : has_char ":" (generate a b) = false.
Proof.
  unfold generate. rewrite !has_char_app. unfold dec_string.
  by rewrite !digits_fuel_no_colon.
Qed.

Lemma colon_tail_inj (s1 s2 t1 t2 : string) :
  has_char ":" s1 = false -> has_char ":" s2 = false ->
  (s1 +:+ ":" +:+ t1) = (s2 +:+ ":" +:+ t2) -> s1 = s2 /\ t1 = t2.
Proof. intros H1 H2 He. by apply (split_at_inj ":" s1 t1 s2 t2). Qed.

(** C35: one signature authorises one thing.  For socket ids the server
    generates and channel names it accepts, the signed string determines the
    socket, the channel and the channel data, and no channel string is a sign-in
    string: a token can be replayed neither for another socket or channel, nor
    with channel data added or removed, nor as a sign-in token. *)
Theorem canonical_injective s s' channel channel' data data' user_data :
  has_char ":" s = false -> has_char ":" s' = false ->
  is_valid_channel_name channel = true -> is_valid_channel_name channel' = true ->
  (canonical_channel_string s channel data = canonical_channel_string s' channel' data' ->
   s = s' /\ channel = channel' /\ data = data') /\
  canonical_channel_string s channel data <> user_canonical s' user_data.
Proof.
  intros Hs Hs' Hc Hc'.
  pose proof (valid_channel_name_no_colon _ Hc) as Nc.
  pose proof (valid_channel_name_no_colon _ Hc') as Nc'.
  assert (forall a b d, has_char ":" a = false -> a <> (b +:+ ":" +:+ d)) as Hno.
  { intros a b d Ha ->. rewrite !has_char_app in Ha. by rewrite !orb_true_r in Ha. }
  split.
  - unfold canonical_channel_string. destruct data as [d|], data' as [d'|]; intros He;
      apply colon_tail_inj in He as [-> He]; try done.
    + by apply colon_tail_inj in He as [-> ->].
    + by destruct (Hno channel' channel d Nc').
    + by destruct (Hno channel channel' d' Nc).
  - apply valid_channel_name_bytes in Hc as [Hne _].
    unfold canonical_channel_string, user_canonical. intros He.
    change ("::user::" +:+ user_data) with (":" +:+ ":user::" +:+ user_data) in He.
    destruct data as [d|]; apply colon_tail_inj in He as [_ He]; try done.
    + destruct channel as [|c ch]; [done|]. rewrite str_app_cons in He.
      injection He as -> _. done.
    + subst channel. done.
Qed.

Definition demo_crypto : Crypto :=
  {| hmac_sha256 := fun k m => k +:+ "|" +:+ m;
     hex_encode := fun s => s; md5_hex := fun s => s |}.

(** The hypotheses hold for two generated socket ids and two channels. *)
Lemma canonical_injective_witness :
  (canonical_channel_string (generate 123 45) "private-a" (Some "x")
     = canonical_channel_string (generate 123 45) "private-a" (Some "x") ->
   generate 123 45 = generate 123 45 /\ "private-a" = "private-a" /\ Some "x" = Some "x") /\
  canonical_channel_string (generate 123 45) "private-a" (Some "x")
    <> user_canonical (generate 9 9) "{}".
Proof.
  split.
  - apply (canonical_injective (generate 123 45) (generate 123 45)
             "private-a" "private-a" (Some "x") (Some "x") "{}"); vm_compute; reflexivity.
  - apply (canonical_injective (generate 123 45) (generate 9 9)
             "private-a" "private-a" (Some "x") (Some "x") "{}"); vm_compute; reflexivity.
Defined.
