(* ===== verification/HttpSign.v ===== *)
(** * Request signing of the HTTP API

    Models [crates/zatat-protocol/src/http_sign.rs] (the canonical string and
    the path prefix) and [crates/zatat-http/src/sign.rs] (query parsing,
    percent decoding and the checks on a signed request). *)

From S2P Require Import Prelude.
From S2P Require Import Core.
From S2P Require Import Auth.
From stdpp Require Import options.

(** ** http_sign.rs *)

Definition EXCLUDED : list string :=
  ["auth_signature"; "body_md5"; "appId"; "appKey"; "channelName"].

(** [slice::sort_by] on the keys: the standard library's sort is stable, so an
    element stays before the later elements whose key is not smaller. *)
Fixpoint insert_by_key (x : string * string) (l : list (string * string))
  : list (string * string) :=
  match l with
  | [] => [x]
  | y :: rest => if String.leb x.1 y.1 then x :: l else y :: insert_by_key x rest
  end.

Definition sort_by_key (l : list (string * string)) : list (string * string) :=
  foldr insert_by_key [] l.

Fixpoint join (sep : string) (l : list string) : string :=
  match l with
  | [] => ""
  | [x] => x
  | x :: rest => x +:+ sep +:+ join sep rest
  end.

Definition NL : string := String "010"%char "".

(** [str::trim_end_matches('/')]. *)
Fixpoint trim_end_slash (s : string) : string :=
  match s with
  | EmptyString => EmptyString
  | String c s' =>
      match trim_end_slash s' with
      | EmptyString => if Ascii.eqb c "/" then EmptyString else String c EmptyString
      | t => String c t
      end
  end.

Definition strip_path_prefix (path prefix : string) : string :=
  if is_empty_str prefix then path
  else
    let trimmed := trim_end_slash prefix in
    if is_empty_str trimmed then path
    else match strip_prefix trimmed path with
         | Some rest =>
             if is_empty_str rest then "/"
             else if starts_with "/" rest then rest
             else path
         | None => path
         end.

Section Sign.
Context `{CR : Crypto}.

Definition body_md5_hex (body : string) : string := md5_hex body.

(** The parameters that are signed, before sorting. *)
Definition signed_params (body : string) (query_params : list (string * string))
  : list (string * string) :=
  let filtered := List.filter (fun kv => negb (existsb (String.eqb kv.1) EXCLUDED)) query_params in
  let filtered := if is_empty_str body then filtered
                  else filtered ++ [("body_md5", body_md5_hex body)] in
  (fun kv => (to_ascii_lowercase kv.1, kv.2)) <$> filtered.

Definition canonical_http_string (method path body : string)
    (query_params : list (string * string)) : string :=
  let filtered := sort_by_key (signed_params body query_params) in
  let qs := join "&" ((fun kv => kv.1 +:+ "=" +:+ kv.2) <$> filtered) in
  method +:+ NL +:+ path +:+ NL +:+ qs.

Definition sign_http (method path body : string) (query_params : list (string * string))
    (secret : string) : string :=
  hex_encode (hmac_sha256 secret (canonical_http_string method path body query_params)).

Definition verify_http (method path body : string) (query_params : list (string * string))
    (given_signature secret : string) : bool :=
  let expected := sign_http method path body query_params secret in
  ct_eq_bytes expected given_signature.
End Sign.

(** ** sign.rs: query strings *)

(** [char::to_digit(16)] of one byte. *)
Definition to_digit16 (c : ascii) : option nat :=
  let n := nat_of_ascii c in
  if (48 <=? n) && (n <=? 57) then Some (n - 48)
  else if (97 <=? n) && (n <=? 102) then Some (n - 87)
  else if (65 <=? n) && (n <=? 70) then Some (n - 55)
  else None.

(** [s.replace('+', " ")]. *)
Fixpoint plus_to_space (s : string) : string :=
  match s with
  | EmptyString => EmptyString
  | String c s' => String (if Ascii.eqb c "+" then " " else c)%char (plus_to_space s')
  end.

(** The decoding loop of [pct_decode]: at ['%'] followed by two hexadecimal
    digits the three bytes become one, any other byte is copied. *)
Fixpoint pct_bytes (s : string) : string :=
  match s with
  | EmptyString => EmptyString
  | String c rest =>
      if Ascii.eqb c "%" then
        match rest with
        | String h (String l rest') =>
            match to_digit16 h, to_digit16 l with
            | Some hv, Some lv => String (ascii_of_nat (hv * 16 + lv)) (pct_bytes rest')
            | _, _ => String c (pct_bytes rest)
            end
        | _ => String c (pct_bytes rest)
        end
      else String c (pct_bytes rest)
  end.

(** [String::from_utf8]: well-formed UTF-8 (RFC 3629). *)
Definition byte_in (lo hi : nat) (c : ascii) : bool :=
  (lo <=? nat_of_ascii c) && (nat_of_ascii c <=? hi).

Fixpoint utf8_valid (s : string) : bool :=
  match s with
  | EmptyString => true
  | String a s1 =>
      if byte_in 0 127 a then utf8_valid s1
      else match s1 with
      | EmptyString => false
      | String b s2 =>
          if byte_in 194 223 a then byte_in 128 191 b && utf8_valid s2
          else match s2 with
          | EmptyString => false
          | String c s3 =>
              if Nat.eqb (nat_of_ascii a) 224
              then byte_in 160 191 b && byte_in 128 191 c && utf8_valid s3
              else if Nat.eqb (nat_of_ascii a) 237
              then byte_in 128 159 b && byte_in 128 191 c && utf8_valid s3
              else if byte_in 225 239 a
              then byte_in 128 191 b && byte_in 128 191 c && utf8_valid s3
              else match s3 with
              | EmptyString => false
              | String d s4 =>
                  (if Nat.eqb (nat_of_ascii a) 240 then byte_in 144 191 b
                   else if byte_in 241 243 a then byte_in 128 191 b
                   else Nat.eqb (nat_of_ascii a) 244 && byte_in 128 143 b)
                  && byte_in 128 191 c && byte_in 128 191 d && utf8_valid s4
              end
          end
      end
  end.

Definition pct_decode (s : string) : string :=
  let out := pct_bytes (plus_to_space s) in
  if utf8_valid out then out else "".

(** [axum::http::Uri]: the path and the query of the request target. *)
Record Uri := { uri_path : string; uri_query : option string }.

Definition parse_query (uri : Uri) : list (string * string) :=
  match uri_query uri with
  | None => []
  | Some q =>
      omap (fun pair =>
              if is_empty_str pair then None
              else let '(k, v) := default (pair, "") (split_once "=" pair) in
                   Some (pct_decode k, pct_decode v))
           (split_on "&" q)
  end.

(** ** sign.rs: the checks on a request *)

Definition AUTH_TIMESTAMP_GRACE_SECONDS : Z := 600.

Record VerifyError := { ve_code : Z; ve_message : string }.

Definition from_pusher (err : PusherError) : VerifyError :=
  {| ve_code := 401; ve_message := message err |}.

Definition unauthorized (msg : string) : VerifyError :=
  {| ve_code := 401; ve_message := msg |}.

(** [str::parse::<i64>]: an optional sign, at least one digit, within range. *)
Definition parse_i64 (s : string) : option Z :=
  let '(neg, digits) := match s with
                        | String "-" rest => (true, rest)
                        | String "+" rest => (false, rest)
                        | _ => (false, s)
                        end%char in
  if is_empty_str digits then None
  else match parse_digits digits 0 with
       | None => None
       | Some n =>
           let z := if (neg : bool) then (- n)%Z else n in
           if ((- 2 ^ 63 <=? z) && (z <? 2 ^ 63))%Z then Some z else None
       end.

(** [pairs.iter().find(..).map(|(_, v)| v)]. *)
Definition find_param (test : string -> bool) (pairs : list (string * string))
  : option string :=
  snd <$> List.find (fun kv => test kv.1) pairs.

(** [pairs.iter().all(|(k, _)| seen.insert(k.to_ascii_lowercase()))]. *)
Fixpoint all_distinct (keys : list string) (seen : gset string) : bool :=
  match keys with
  | [] => true
  | k :: rest =>
      let lk := to_ascii_lowercase k in
      if decide (lk ∈ seen) then false else all_distinct rest ({[lk]} ∪ seen)
  end.

Section Verify.
Context `{CR : Crypto} {Value : Type}.

Definition verify_request (app : Application Value) (method : string) (uri : Uri)
    (server_path_prefix body : string) (now : Z) : result unit VerifyError :=
  let pairs := parse_query uri in
  if negb (all_distinct pairs.*1 ∅) then Err (unauthorized "Duplicate query parameter")
  else
  match find_param (String.eqb "auth_signature") pairs with
  | None => Err (from_pusher InvalidAuthSignature)
  | Some given_sig =>
  match find_param (String.eqb "auth_timestamp") pairs ≫= parse_i64 with
  | None => Err (unauthorized "Timestamp required")
  | Some ts =>
  if (AUTH_TIMESTAMP_GRACE_SECONDS <? Z.abs (now - ts))%Z
  then Err (unauthorized ("Timestamp expired: given timestamp " +:+ dec_signed ts +:+
              " is more than " +:+ dec_signed AUTH_TIMESTAMP_GRACE_SECONDS +:+ " seconds old"))
  else
  let param name := find_param (fun k => eq_ignore_ascii_case k name) pairs in
  if match param "auth_key" with
     | Some key => negb (String.eqb key (app_key app)) | None => false end
  then Err (unauthorized "Invalid auth_key for this application")
  else
  if match param "auth_version" with
     | Some v => negb (String.eqb v "1.0") | None => false end
  then Err (unauthorized "Unsupported auth_version; expected 1.0")
  else
  if match param "body_md5" with
     | Some md5 => negb (eq_ignore_ascii_case md5 (body_md5_hex body)) | None => false end
  then Err (unauthorized "body_md5 does not match the request body")
  else
  let path := strip_path_prefix (uri_path uri) server_path_prefix in
  if negb (verify_http method path body pairs given_sig (app_secret app))
  then Err (unauthorized "Authentication signature invalid.")
  else Ok tt
  end end.
End Verify.

(** ** The canonical string does not depend on the parameter order *)

Definition key_le (x y : string * string) : Prop := String.le x.1 y.1.

#[export] Instance key_le_dec : RelDecision key_le.
Proof. intros x y. unfold key_le. apply _. Defined.

Lemma insert_by_key_perm x l : insert_by_key x l ≡ₚ x :: l.
Proof.
  induction l as [|y l IH]; simpl; [done|]. destruct (String.leb x.1 y.1); [done|].
  by rewrite IH, Permutation_swap.
Qed.

Lemma sort_by_key_perm l : sort_by_key l ≡ₚ l.
Proof. induction l as [|x l IH]; simpl; [done|]. by rewrite insert_by_key_perm, IH. Qed.

Lemma insert_by_key_sorted x l :
  StronglySorted key_le l -> StronglySorted key_le (insert_by_key x l).
Proof.
  induction 1 as [|y l Hs IH Hf]; simpl; [by repeat constructor|].
  destruct (String.leb x.1 y.1) eqn:E.
  - assert (key_le x y) as Hxy by (unfold key_le, String.le; by rewrite E).
    constructor; [by constructor|]. constructor; [done|].
    apply (Forall_impl _ _ _ Hf). intros z Hz. unfold key_le in *. by etrans.
  - constructor; [done|]. rewrite insert_by_key_perm. constructor; [|done].
    unfold key_le. destruct (String.le_total y.1 x.1) as [|Hc]; [done|].
    unfold String.le in Hc. by rewrite E in Hc.
Qed.

Lemma sort_by_key_sorted l : StronglySorted key_le (sort_by_key l).
Proof. induction l as [|x l IH]; simpl; [constructor|]. by apply insert_by_key_sorted. Qed.

Lemma NoDup_fst_inj (l : list (string * string)) x y :
  NoDup l.*1 -> x ∈ l -> y ∈ l -> x.1 = y.1 -> x = y.
Proof.
  intros Hnd Hx Hy He.
  apply list_elem_of_lookup in Hx as [i Hi]. apply list_elem_of_lookup in Hy as [j Hj].
  assert (l.*1 !! i = Some x.1) as Fi by (by rewrite list_lookup_fmap, Hi).
  assert (l.*1 !! j = Some y.1) as Fj by (by rewrite list_lookup_fmap, Hj).
  rewrite <- He in Fj. pose proof (NoDup_lookup _ _ _ _ Hnd Fi Fj) as ->. congruence.
Qed.

(** Sorting by distinct keys forgets the input order. *)
Lemma sort_by_key_unique l l' : NoDup l.*1 -> l ≡ₚ l' -> sort_by_key l = sort_by_key l'.
Proof.
  intros Hnd Hp. apply (StronglySorted_unique_strong key_le).
  - intros x y Hx Hy H1 H2. rewrite sort_by_key_perm in Hx. rewrite sort_by_key_perm in Hy.
    rewrite <- Hp in Hy. apply (NoDup_fst_inj l); try done.
    by apply (anti_symm String.le).
  - apply sort_by_key_sorted.
  - apply sort_by_key_sorted.
  - by rewrite !sort_by_key_perm.
Qed.

Section SignProps.
Context `{CR : Crypto}.

Lemma signed_params_perm body q q' :
  q ≡ₚ q' -> signed_params body q ≡ₚ signed_params body q'.
Proof.
  intros Hp. unfold signed_params. apply fmap_Permutation.
  by destruct (is_empty_str body); rewrite (filter_perm _ _ _ Hp).
Qed.

(** The signature does not depend on the order in which a client sends its
    parameters.  When no two signed parameters have the same (lower-cased) name,
    which [verify_request] enforces, permuting the query leaves the signed
    string unchanged, and its parameters are listed in ascending key order. *)
Theorem canonical_order_independent method path body q q' :
  NoDup (signed_params body q).*1 -> q ≡ₚ q' ->
  canonical_http_string method path body q = canonical_http_string method path body q' /\
  StronglySorted key_le (sort_by_key (signed_params body q)) /\
  sort_by_key (signed_params body q) ≡ₚ signed_params body q.
Proof.
  intros Hnd Hp. split_and!.
  - unfold canonical_http_string.
    by rewrite (sort_by_key_unique _ _ Hnd (signed_params_perm body _ _ Hp)).
  - apply sort_by_key_sorted.
  - apply sort_by_key_perm.
Qed.
End SignProps.

Lemma canonical_order_independent_witness :
  @canonical_http_string demo_crypto "POST" "/apps/1/events" "b" [("b", "2"); ("A", "1")]
  = @canonical_http_string demo_crypto "POST" "/apps/1/events" "b" [("A", "1"); ("b", "2")].
Proof.
  refine (proj1 (@canonical_order_independent demo_crypto "POST" "/apps/1/events" "b"
           [("b", "2"); ("A", "1")] [("A", "1"); ("b", "2")] _ _)).
  - apply (bool_decide_unpack _). vm_compute. exact I.
  - apply Permutation_swap.
Defined.

(** ** Percent decoding *)

(** The form encoding a client applies: unreserved characters (RFC 3986) are
    kept and every other byte is written as a percent escape. *)
Definition unreserved (c : ascii) : bool :=
  byte_in 65 90 c || byte_in 97 122 c || byte_in 48 57 c ||
  bool_decide (c ∈ ["-"; "."; "_"; "~"]%char).

Definition hex_upper (n : nat) : ascii :=
  if n <? 10 then ascii_of_nat (48 + n) else ascii_of_nat (55 + n).

Definition pct_encode_byte (c : ascii) : string :=
  if unreserved c then String c ""
  else let n := nat_of_ascii c in
       String "%" (String (hex_upper (n / 16)) (String (hex_upper (n mod 16)) "")).

Fixpoint pct_encode (s : string) : string :=
  match s with
  | EmptyString => EmptyString
  | String c s' => pct_encode_byte c +:+ pct_encode s'
  end.

Lemma pct_bytes_encode_byte c t :
  pct_bytes (plus_to_space (pct_encode_byte c +:+ t)) = String c (pct_bytes (plus_to_space t)).
Proof. destruct c as [[] [] [] [] [] [] [] []]; reflexivity. Qed.

(** Percent decoding inverts the client's encoding on every UTF-8 text, so
    a parameter reaches the signature check exactly as the client wrote it. *)
Theorem pct_roundtrip s : utf8_valid s = true -> pct_decode (pct_encode s) = s.
Proof.
  intros Hv. unfold pct_decode.
  assert (pct_bytes (plus_to_space (pct_encode s)) = s) as ->; [|by rewrite Hv].
  clear Hv. induction s as [|c s IH]; [done|]. simpl pct_encode.
  by rewrite pct_bytes_encode_byte, IH.
Qed.

Lemma pct_roundtrip_witness :
  utf8_valid "a b&c=%+" = true /\ pct_decode (pct_encode "a b&c=%+") = "a b&c=%+".
Proof. split; [reflexivity|]. apply pct_roundtrip. vm_compute. reflexivity. Defined.

(** ** Which requests are accepted *)

Lemma all_distinct_spec keys seen :
  all_distinct keys seen = true <->
  NoDup (to_ascii_lowercase <$> keys) /\
  (forall k, k ∈ keys -> to_ascii_lowercase k ∉ seen).
Proof.
  revert seen. induction keys as [|k keys IH]; intros seen; simpl.
  - split; [|done]. intros _. split; [constructor|]. intros k Hk. by apply not_elem_of_nil in Hk.
  - rewrite NoDup_cons. case_decide as Hd.
    + split; [done|]. intros [_ H]. destruct (H k); [by left|done].
    + rewrite IH. setoid_rewrite elem_of_cons. setoid_rewrite not_elem_of_union.
      setoid_rewrite not_elem_of_singleton. setoid_rewrite list_elem_of_fmap.
      split.
      * intros [Hnd Hk]. split_and!; [|done|].
        -- intros (k' & He & Hin). by destruct (Hk k' Hin) as [Hne _].
        -- intros k' [->|Hin]; [done|]. by apply Hk.
      * intros [[Hnot Hnd] Hk]. split; [done|]. intros k' Hin. split; [|by apply Hk; right].
        intros He. apply Hnot. eauto.
Qed.

Section VerifyProps.
Context `{CR : Crypto} {Value : Type}.

(** What an accepted request satisfies: the conditions of every check. *)
Definition request_ok (app : Application Value) (method : string) (uri : Uri)
    (prefix body : string) (now : Z) : Prop :=
  let pairs := parse_query uri in
  let param name := find_param (fun k => eq_ignore_ascii_case k name) pairs in
  NoDup (to_ascii_lowercase <$> pairs.*1) /\
  find_param (String.eqb "auth_signature") pairs
    = Some (sign_http method (strip_path_prefix (uri_path uri) prefix) body pairs (app_secret app)) /\
  (exists ts, find_param (String.eqb "auth_timestamp") pairs ≫= parse_i64 = Some ts /\
              (Z.abs (now - ts) <= 600)%Z) /\
  (forall key, param "auth_key" = Some key -> key = app_key app) /\
  (forall v, param "auth_version" = Some v -> v = "1.0") /\
  (forall md5, param "body_md5" = Some md5 ->
     eq_ignore_ascii_case md5 (body_md5_hex body) = true).

Lemma guard_spec (o : option string) (f : string -> bool) :
  match o with Some x => negb (f x) | None => false end = false <->
  forall x, o = Some x -> f x = true.
Proof.
  destruct o as [x|]; split.
  - intros H y [= <-]. by destruct (f x).
  - intros H. by rewrite (H x eq_refl).
  - done.
  - done.
Qed.

(** C33: a request is accepted exactly when no parameter name repeats (ignoring
    case), its signature is the one computed with the application's secret over
    the prefix-stripped path, the body hash and the parameters, its timestamp is
    within 600 seconds of the clock, and its declared key, version and body hash
    (when present) are right; every other request is answered with a 401. *)
Theorem verify_request_iff app method uri prefix body now :
  (verify_request app method uri prefix body now = Ok tt <->
   request_ok app method uri prefix body now) /\
  (forall e, verify_request app method uri prefix body now = Err e -> ve_code e = 401%Z).
Proof.
  unfold verify_request, request_ok. cbv zeta.
  set (pairs := parse_query uri).
  destruct (all_distinct pairs.*1 ∅) eqn:Hd; cbn [negb].
  2: { split; [|by intros e He; simplify_eq]. split; [done|]. intros [Hnd _].
       assert (all_distinct pairs.*1 ∅ = true) by (apply all_distinct_spec; set_solver).
       congruence. }
  apply all_distinct_spec in Hd as [Hnd _].
  destruct (find_param (String.eqb "auth_signature") pairs) as [sig|].
  2: { split; [|by intros e He; simplify_eq]. split; [done|]. by intros (_ & ? & _). }
  destruct (find_param (String.eqb "auth_timestamp") pairs ≫= parse_i64) as [ts|].
  2: { split; [|by intros e He; simplify_eq]. split; [done|]. by intros (_ & _ & (? & ? & _) & _). }
  unfold AUTH_TIMESTAMP_GRACE_SECONDS. destruct (Z.ltb_spec 600 (Z.abs (now - ts))) as [Ht|Ht].
  { split; [|by intros e He; simplify_eq]. split; [done|].
    intros (_ & _ & (ts' & [= <-] & ?) & _). lia. }
  pose proof (guard_spec (find_param (fun k => eq_ignore_ascii_case k "auth_key") pairs)
                (fun key => String.eqb key (app_key app))) as G1.
  pose proof (guard_spec (find_param (fun k => eq_ignore_ascii_case k "auth_version") pairs)
                (fun v => String.eqb v "1.0")) as G2.
  pose proof (guard_spec (find_param (fun k => eq_ignore_ascii_case k "body_md5") pairs)
                (fun md5 => eq_ignore_ascii_case md5 (body_md5_hex body))) as G3.
  setoid_rewrite String.eqb_eq in G1. setoid_rewrite String.eqb_eq in G2.
  rewrite <- G1, <- G2, <- G3. clear G1 G2 G3.
  repeat match goal with
  | |- context [if ?b then Err _ else _] => destruct b eqn:?
  end; (split; [|by intros e He; simplify_eq]); try (split; [done|]; intros (_ & ? & _ & ? & ? & ?)).
  all: try congruence.
  - unfold verify_http, ct_eq_bytes in *. simplify_eq.
    rewrite String.eqb_refl in *. done.
  - unfold verify_http, ct_eq_bytes in *.
    match goal with H : negb (String.eqb ?a ?b) = false |- _ =>
      apply negb_false_iff, String.eqb_eq in H; rewrite H end.
    split; [|done]. intros _. split_and!; eauto.
Qed.
End VerifyProps.

Lemma strip_path_prefix_spec prefix rest :
  prefix <> "" -> trim_end_slash prefix = prefix -> starts_with "/" rest = true ->
  strip_path_prefix (prefix +:+ rest) prefix = rest /\ strip_path_prefix prefix prefix = "/".
Proof.
  intros Hne Ht Hr. unfold strip_path_prefix. rewrite Ht.
  assert (is_empty_str prefix = false) as -> by (by destruct prefix).
  rewrite (proj2 (strip_prefix_Some prefix (prefix +:+ rest) rest) eq_refl), Hr.
  rewrite (proj2 (strip_prefix_Some prefix prefix "")) by (by rewrite str_app_nil_r).
  destruct rest; done.
Qed.
