(* ===== verification/Connection.v ===== *)
(** * zatat-connection: mailboxes, connections and the rate limiter

    Models [crates/zatat-connection/src].  A [ConnectionHandle] shares the
    bounded queue and the kick signal of its connection task with every channel
    it is subscribed to; the model keeps these in a store of mailboxes, and a
    handle holds the address of its mailbox. *)

From S2P Require Import Prelude.
From S2P Require Import Core.
From stdpp Require Import options.

(** ** connection.rs: outbound queue *)

Inductive Outbound :=
| Text (frame : string)
| Ping
| Close (code : Z) (reason : string).

#[export] Instance Outbound_eq_dec : EqDecision Outbound.
Proof. solve_decision. Defined.

(** The [mpsc] channel of one connection and its [Notify]: messages not yet
    taken by the connection task, the capacity, whether the receiver was
    dropped, and whether the kick signal was fired. *)
Record Mailbox := {
  mb_queue : list Outbound;
  mb_capacity : nat;
  mb_closed : bool;
  mb_kicked : bool
}.

Abbreviation Mailboxes := (gmap nat Mailbox) (only parsing).

Record ConnectionHandle := { h_socket_id : SocketId; h_tx : nat }.

#[export] Instance ConnectionHandle_eq_dec : EqDecision ConnectionHandle.
Proof. solve_decision. Defined.

(** [mpsc::Sender::try_send] followed by the kick on a full queue. *)
Definition mailbox_send (msg : Outbound) (mb : Mailbox) : bool * Mailbox :=
  if mb_closed mb then (false, mb)
  else if mb_capacity mb <=? length (mb_queue mb)
  then (false, {| mb_queue := mb_queue mb; mb_capacity := mb_capacity mb;
                  mb_closed := mb_closed mb; mb_kicked := true |})
  else (true, {| mb_queue := mb_queue mb ++ [msg]; mb_capacity := mb_capacity mb;
                 mb_closed := mb_closed mb; mb_kicked := mb_kicked mb |}).

(** A handle whose mailbox is gone has a dropped receiver: [Closed]. *)
Definition try_send (h : ConnectionHandle) (msg : Outbound) (mbs : Mailboxes)
  : bool * Mailboxes :=
  match mbs !! h_tx h with
  | Some mb => let '(ok, mb') := mailbox_send msg mb in (ok, <[h_tx h := mb']> mbs)
  | None => (false, mbs)
  end.

Definition is_closed (h : ConnectionHandle) (mbs : Mailboxes) : bool :=
  match mbs !! h_tx h with Some mb => mb_closed mb | None => true end.

(** [for h in handles { let _ = h.try_send(msg); }]. *)
Definition send_all (handles : list ConnectionHandle) (msg : Outbound) (mbs : Mailboxes)
  : Mailboxes :=
  foldl (fun mbs h => (try_send h msg mbs).2) mbs handles.

(** ** connection.rs: connection state *)

Definition PONG_GRACE_SECONDS : Z := 30.

(** The [app] field is the application the connection was opened under. *)
Record Connection {App : Type} := {
  c_app : App;
  c_socket_id : SocketId;
  c_origin : option string;
  last_seen_at : Z;
  has_been_pinged : bool;
  c_user_id : option string;
  c_watchlist : list string;
  c_subscriptions : gset string
}.
Arguments Connection : clear implicits.

Section Conn.
Context {Value : Type}.
Implicit Types c : Connection (Application Value).

Definition Connection_new (app : Application Value) (socket_id : SocketId)
    (origin : option string) (now_seconds : Z) : Connection (Application Value) :=
  {| c_app := app; c_socket_id := socket_id; c_origin := origin;
     last_seen_at := now_seconds; has_been_pinged := false; c_user_id := None;
     c_watchlist := []; c_subscriptions := ∅ |}.

Definition set_seen c (seen : Z) (pinged : bool) : Connection (Application Value) :=
  {| c_app := c_app c; c_socket_id := c_socket_id c; c_origin := c_origin c;
     last_seen_at := seen; has_been_pinged := pinged; c_user_id := c_user_id c;
     c_watchlist := c_watchlist c; c_subscriptions := c_subscriptions c |}.

Definition touch c (now_seconds : Z) : Connection (Application Value) := set_seen c now_seconds false.
Definition mark_pinged c : Connection (Application Value) := set_seen c (last_seen_at c) true.

Definition is_inactive c (now_seconds : Z) : bool :=
  let idle := (now_seconds - last_seen_at c)%Z in
  (ping_interval (c_app c) <? idle)%Z.

Definition is_stale c (now_seconds : Z) : bool :=
  let idle := (now_seconds - last_seen_at c)%Z in
  has_been_pinged c && (ping_interval (c_app c) + PONG_GRACE_SECONDS <? idle)%Z.

Definition set_identity c (u : option string) (w : list string) : Connection (Application Value) :=
  {| c_app := c_app c; c_socket_id := c_socket_id c; c_origin := c_origin c;
     last_seen_at := last_seen_at c; has_been_pinged := has_been_pinged c;
     c_user_id := u; c_watchlist := w; c_subscriptions := c_subscriptions c |}.

Definition conn_bind_user c (u : string) : Connection (Application Value) :=
  set_identity c (Some u) (c_watchlist c).
Definition conn_unbind_user c : Connection (Application Value) :=
  set_identity c None (c_watchlist c).
Definition set_watchlist c (l : list string) : Connection (Application Value) :=
  set_identity c (c_user_id c) l.

Definition set_subscriptions c (s : gset string) : Connection (Application Value) :=
  {| c_app := c_app c; c_socket_id := c_socket_id c; c_origin := c_origin c;
     last_seen_at := last_seen_at c; has_been_pinged := has_been_pinged c;
     c_user_id := c_user_id c; c_watchlist := c_watchlist c; c_subscriptions := s |}.

Definition add_subscription c (channel : string) : Connection (Application Value) :=
  set_subscriptions c ({[channel]} ∪ c_subscriptions c).
Definition remove_subscription c (channel : string) : Connection (Application Value) :=
  set_subscriptions c (c_subscriptions c ∖ {[channel]}).
Definition is_subscribed c (channel : string) : bool :=
  bool_decide (channel ∈ c_subscriptions c).
Definition conn_subscription_count c : nat := size (c_subscriptions c).
Definition subscriptions_snapshot `{HI : HashIter} c : list string :=
  hset_iter (c_subscriptions c).
End Conn.

(** ** rate_limit.rs *)

Record RateLimiter := {
  rl_max_attempts : Z;
  rl_window : Duration;
  rl_timestamps : list Instant
}.

Definition RateLimiter_new (max_attempts window_seconds : Z) : RateLimiter :=
  {| rl_max_attempts := max_attempts; rl_window := from_secs window_seconds;
     rl_timestamps := [] |}.

(** [Instant::checked_sub]: [None] below the earliest instant [lo] the platform
    represents. *)
Definition checked_sub (lo : Instant) (now : Instant) (d : Duration) : option Instant :=
  if (lo <=? now - d)%Z then Some (now - d)%Z else None.

(** The [while let Some(front)] loop. *)
Fixpoint prune (cutoff : Instant) (ts : list Instant) : list Instant :=
  match ts with
  | front :: rest => if (front <? cutoff)%Z then prune cutoff rest else ts
  | [] => []
  end.

Definition rl_set (rl : RateLimiter) (ts : list Instant) : RateLimiter :=
  {| rl_max_attempts := rl_max_attempts rl; rl_window := rl_window rl; rl_timestamps := ts |}.

Definition check (lo : Instant) (rl : RateLimiter) (now : Instant) : bool * RateLimiter :=
  let cutoff := checked_sub lo now (rl_window rl) in
  let ts := match cutoff with
            | Some cutoff => prune cutoff (rl_timestamps rl)
            | None => rl_timestamps rl
            end in
  if (rl_max_attempts rl <=? wrap_u32 (Z.of_nat (length ts)))%Z
  then (false, rl_set rl ts)
  else (true, rl_set rl (ts ++ [now])).

(** A connection's whole use of the limiter: one check per inbound frame. *)
Fixpoint check_all (lo : Instant) (rl : RateLimiter) (nows : list Instant)
  : list bool * RateLimiter :=
  match nows with
  | [] => ([], rl)
  | now :: rest =>
      let '(ok, rl') := check lo rl now in
      let '(oks, rl'') := check_all lo rl' rest in
      (ok :: oks, rl'')
  end.

(** ** Mailboxes: sends *)

(** Handles that share no mailbox: each connection has its own queue. *)
Definition distinct_tx (handles : list ConnectionHandle) : Prop := NoDup (h_tx <$> handles).

Lemma try_send_other h msg mbs tx :
  h_tx h <> tx -> (try_send h msg mbs).2 !! tx = mbs !! tx.
Proof.
  intros Hne. unfold try_send. destruct (mbs !! h_tx h) as [mb|]; [|done].
  destruct (mailbox_send msg mb) as [ok mb']; simpl. by rewrite lookup_insert_ne.
Qed.

Lemma try_send_same h msg mbs :
  (try_send h msg mbs).2 !! h_tx h = (fun mb => (mailbox_send msg mb).2) <$> mbs !! h_tx h.
Proof.
  unfold try_send. destruct (mbs !! h_tx h) as [mb|] eqn:E; simpl; [|done].
  destruct (mailbox_send msg mb) as [ok mb']; simpl. by rewrite lookup_insert_eq.
Qed.

Lemma send_all_other handles msg mbs tx :
  (forall h, h ∈ handles -> h_tx h <> tx) -> send_all handles msg mbs !! tx = mbs !! tx.
Proof.
  revert mbs. induction handles as [|h hs IH]; intros mbs Hne; simpl; [done|].
  unfold send_all in *. simpl. rewrite IH by (intros h' Hin; apply Hne; by right).
  apply try_send_other, Hne. by left.
Qed.

(** With distinct mailboxes every handle's mailbox sees exactly one send,
    whatever the order of the handles. *)
Lemma send_all_in handles msg mbs h :
  distinct_tx handles -> h ∈ handles ->
  send_all handles msg mbs !! h_tx h = (fun mb => (mailbox_send msg mb).2) <$> mbs !! h_tx h.
Proof.
  unfold distinct_tx. revert mbs. induction handles as [|h' hs IH]; intros mbs Hnd Hin.
  - by apply not_elem_of_nil in Hin.
  - rewrite fmap_cons, NoDup_cons in Hnd. destruct Hnd as [Hnot Hnd].
    apply elem_of_cons in Hin as [->|Hin]; unfold send_all in *; simpl.
    + etrans; [|apply try_send_same]. apply send_all_other.
      intros h Hh He. apply Hnot. rewrite <- He. by apply list_elem_of_fmap_2.
    + rewrite (IH _ Hnd Hin), try_send_other; [done|].
      intros He. apply Hnot. rewrite He. by apply list_elem_of_fmap_2.
Qed.

(** A queue within its capacity stays within it, and messages already queued
    are never reordered or lost by a send. *)
Lemma mailbox_send_bounded msg mb :
  length (mb_queue mb) <= mb_capacity mb ->
  length (mb_queue (mailbox_send msg mb).2) <= mb_capacity (mailbox_send msg mb).2.
Proof.
  unfold mailbox_send. destruct (mb_closed mb); [done|].
  destruct (Nat.leb_spec (mb_capacity mb) (length (mb_queue mb))); simpl; [done|].
  intros _. rewrite length_app. simpl. lia.
Qed.

(** Backpressure.  A send never waits: it reports success exactly when the
    receiver is alive and the queue has a free slot, and then the message is
    last in the queue; on a full queue the message is dropped and the kick
    signal is raised, so a subscriber that misses a frame is always closed; the
    queue never outgrows its capacity and no other mailbox is touched. *)
Theorem try_send_spec h msg mbs mb :
  mbs !! h_tx h = Some mb -> length (mb_queue mb) <= mb_capacity mb ->
  exists mb', (try_send h msg mbs).2 = <[h_tx h := mb']> mbs /\
    mb_capacity mb' = mb_capacity mb /\ length (mb_queue mb') <= mb_capacity mb' /\
    if mb_closed mb then (try_send h msg mbs).1 = false /\ mb' = mb
    else if length (mb_queue mb) <? mb_capacity mb
    then (try_send h msg mbs).1 = true /\ mb_queue mb' = mb_queue mb ++ [msg] /\
         mb_kicked mb' = mb_kicked mb
    else (try_send h msg mbs).1 = false /\ mb_queue mb' = mb_queue mb /\
         mb_kicked mb' = true.
Proof.
  intros Hmb Hlen. exists (mailbox_send msg mb).2.
  pose proof (mailbox_send_bounded msg mb Hlen) as Hb.
  unfold try_send. rewrite Hmb. unfold mailbox_send in *.
  destruct (mb_closed mb) eqn:Hc; simpl in *; [done|].
  destruct (Nat.leb_spec (mb_capacity mb) (length (mb_queue mb))); simpl in *.
  - by rewrite (proj2 (Nat.ltb_ge _ _)).
  - by rewrite (proj2 (Nat.ltb_lt _ _)).
Qed.

Lemma try_send_spec_witness :
  exists mb', (try_send {| h_socket_id := "1.1"; h_tx := 0 |} Ping
      {[0 := {| mb_queue := [Ping]; mb_capacity := 1; mb_closed := false; mb_kicked := false |}]}).2
      = <[0 := mb']> {[0 := {| mb_queue := [Ping]; mb_capacity := 1; mb_closed := false;
                               mb_kicked := false |}]} /\ mb_capacity mb' = 1.
Proof.
  destruct (try_send_spec {| h_socket_id := "1.1"; h_tx := 0 |} Ping
      {[0 := {| mb_queue := [Ping]; mb_capacity := 1; mb_closed := false; mb_kicked := false |}]}
      {| mb_queue := [Ping]; mb_capacity := 1; mb_closed := false; mb_kicked := false |})
    as (mb' & H1 & H2 & _).
  - reflexivity.
  - simpl. lia.
  - exists mb'. split; [exact H1 | exact H2].
Defined.

(** ** The sliding window *)

(** The instants at which a run of checks was accepted. *)
Fixpoint accepted (nows : list Instant) (oks : list bool) : list Instant :=
  match nows, oks with
  | n :: ns, b :: bs => if b then n :: accepted ns bs else accepted ns bs
  | _, _ => []
  end.

(** How many instants of [l] lie in the closed window of length [w] from [a]. *)
Definition in_window (a : Instant) (w : Duration) (l : list Instant) : nat :=
  length (List.filter (fun t => (a <=? t) && (t <=? a + w))%Z l).

Lemma in_window_app a w l l' : in_window a w (l ++ l') = in_window a w l + in_window a w l'.
Proof. unfold in_window. by rewrite List.filter_app, length_app. Qed.

Lemma in_window_le a w l : in_window a w l <= length l.
Proof. unfold in_window. apply List.filter_length_le. Qed.

Lemma in_window_before a w l : Forall (fun t => (t < a)%Z) l -> in_window a w l = 0.
Proof.
  induction 1 as [|t l Ht _ IH]; [done|]. unfold in_window in *. simpl.
  by rewrite (proj2 (Z.leb_gt a t) Ht).
Qed.

(** Pruning drops a prefix of instants older than the cutoff. *)
Lemma prune_suffix cutoff ts :
  exists p, ts = p ++ prune cutoff ts /\ Forall (fun t => (t < cutoff)%Z) p.
Proof.
  induction ts as [|t ts (p & Hp & Hf)]; simpl; [by exists []|].
  destruct (Z.ltb_spec t cutoff).
  - exists (t :: p). simpl. rewrite <- Hp. split; [done|by constructor].
  - by exists [].
Qed.

(** The accepted history [hist] ends in the limiter's timestamps, and what was
    forgotten is older than one window before [last]. *)
Definition limiter_inv (rl : RateLimiter) (hist : list Instant) (last : Instant) : Prop :=
  (exists old, hist = old ++ rl_timestamps rl /\
               Forall (fun t => (t < last - rl_window rl)%Z) old) /\
  (Z.of_nat (length (rl_timestamps rl)) <= rl_max_attempts rl)%Z /\
  (forall a, (Z.of_nat (in_window a (rl_window rl) hist) <= rl_max_attempts rl)%Z).

Lemma check_pruned lo rl now hist last :
  limiter_inv rl hist last -> (last <= now)%Z ->
  let ts := match checked_sub lo now (rl_window rl) with
            | Some cutoff => prune cutoff (rl_timestamps rl)
            | None => rl_timestamps rl end in
  (exists old, hist = old ++ ts /\ Forall (fun t => (t < now - rl_window rl)%Z) old) /\
  (Z.of_nat (length ts) <= rl_max_attempts rl)%Z.
Proof.
  intros ((old & -> & Hold) & Hlen & _) Hle.
  assert (Forall (fun t => (t < now - rl_window rl)%Z) old) as Hold'.
  { apply (Forall_impl _ _ _ Hold). intros t Ht. lia. }
  unfold checked_sub. destruct (lo <=? now - rl_window rl)%Z; simpl; [|by eauto].
  destruct (prune_suffix (now - rl_window rl)%Z (rl_timestamps rl)) as (p & Hp & Hf).
  split.
  - exists (old ++ p). rewrite <- app_assoc, <- Hp. split; [done|]. by apply Forall_app.
  - apply (f_equal (@length _)) in Hp. rewrite length_app in Hp. lia.
Qed.

Lemma check_preserves lo rl now hist last :
  (rl_max_attempts rl < 2 ^ 32)%Z -> limiter_inv rl hist last -> (last <= now)%Z ->
  let '(ok, rl') := check lo rl now in
  limiter_inv rl' (if ok then hist ++ [now] else hist) now /\
  rl_max_attempts rl' = rl_max_attempts rl /\ rl_window rl' = rl_window rl.
Proof.
  intros Hu32 Hinv Hle. pose proof Hinv as (_ & _ & Hwin).
  destruct (check_pruned lo rl now hist last Hinv Hle) as ((old & Hh & Hold) & Hts).
  unfold check. set (ts := match checked_sub lo now (rl_window rl) with
                           | Some cutoff => _ | None => _ end) in *.
  assert (wrap_u32 (Z.of_nat (length ts)) = Z.of_nat (length ts)) as ->.
  { unfold wrap_u32. apply Z.mod_small. lia. }
  destruct (Z.leb_spec (rl_max_attempts rl) (Z.of_nat (length ts))) as [Hfull|Hfree];
    (split; [|done]); unfold limiter_inv; simpl.
  - split_and!; [by eauto|done|done].
  - rewrite length_app. simpl. split_and!; [|lia|].
    + exists old. by rewrite Hh, <- app_assoc.
    + intros a. rewrite in_window_app. specialize (Hwin a).
      destruct (decide ((a <= now)%Z /\ (now <= a + rl_window rl)%Z)) as [[H1 H2]|Hout].
      * rewrite Hh, in_window_app, in_window_before by
          (apply (Forall_impl _ _ _ Hold); intros t Ht; lia).
        pose proof (in_window_le a (rl_window rl) ts).
        pose proof (in_window_le a (rl_window rl) [now]). simpl in *. lia.
      * assert (in_window a (rl_window rl) [now] = 0) as ->; [|lia].
        unfold in_window; simpl. destruct (Z.leb_spec a now), (Z.leb_spec now (a + rl_window rl));
          simpl; try done. tauto.
Qed.

Lemma check_all_inv lo rl nows hist last :
  (rl_max_attempts rl < 2 ^ 32)%Z -> limiter_inv rl hist last ->
  StronglySorted Z.le (last :: nows) ->
  let '(oks, rl') := check_all lo rl nows in
  limiter_inv rl' (hist ++ accepted nows oks) (List.last nows last) /\
  rl_max_attempts rl' = rl_max_attempts rl /\ rl_window rl' = rl_window rl.
Proof.
  revert rl hist last. induction nows as [|now nows IH]; intros rl hist last Hm Hinv Hs; simpl.
  - by rewrite app_nil_r.
  - apply StronglySorted_inv in Hs as [Hs Hf]. apply Forall_cons in Hf as [Hle Hf].
    pose proof (check_preserves lo rl now hist last Hm Hinv Hle) as Hc.
    destruct (check lo rl now) as [ok rl1]. destruct Hc as (Hinv1 & Hmax & Hw).
    specialize (IH rl1 _ now ltac:(lia) Hinv1 Hs).
    destruct (check_all lo rl1 nows) as [oks rl2]. destruct IH as (Hinv2 & Hmax2 & Hw2).
    split_and!; [|congruence|congruence].
    replace (match nows with [] => now | _ :: _ => List.last nows last end)
      with (List.last nows now) by (destruct nows; [done|]; clear;
        revert i; induction nows as [|? nows IH]; intros i; simpl in *; [done|]; apply IH).
    destruct ok; [|done]. by rewrite <- app_assoc in Hinv2.
Qed.

(** C39: the rate limit holds over every sliding window.  For any sequence of
    frames at non-decreasing instants, on any platform and for any window (also
    one larger than the process uptime), at most [max_attempts] frames are
    accepted within any interval of the window's length. *)
Theorem rate_limit_window lo max_attempts window_seconds nows a :
  (0 <= max_attempts < 2 ^ 32)%Z -> StronglySorted Z.le nows ->
  let oks := (check_all lo (RateLimiter_new max_attempts window_seconds) nows).1 in
  (Z.of_nat (in_window a (from_secs window_seconds) (accepted nows oks)) <= max_attempts)%Z.
Proof.
  intros Hm Hs. pose (rl := RateLimiter_new max_attempts window_seconds).
  change (RateLimiter_new max_attempts window_seconds) with rl.
  destruct nows as [|n nows]; [unfold in_window; simpl; lia|].
  assert (limiter_inv rl [] n) as Hinv.
  { split_and!; simpl; [by exists [] | lia | intros; unfold in_window; simpl; lia]. }
  assert (StronglySorted Z.le (n :: n :: nows)) as Hs'.
  { constructor; [done|]. apply StronglySorted_inv in Hs as [_ Hf]. constructor; [lia|done]. }
  pose proof (check_all_inv lo rl (n :: nows) [] n (proj2 Hm) Hinv Hs') as H.
  destruct (check_all lo rl (n :: nows)) as [oks rl']. destruct H as ((_ & _ & Hw) & Hmax & Hwin).
  cbn [fst]. specialize (Hw a). rewrite Hwin, Hmax in Hw. exact Hw.
Qed.

(** Four frames in one second under a limit of three per minute. *)
Lemma rate_limit_window_witness :
  (check_all 0%Z (RateLimiter_new 3 60) [0; 1; 2; 3]%Z).1 = [true; true; true; false] /\
  (Z.of_nat (in_window 0%Z (from_secs 60)
     (accepted [0; 1; 2; 3]%Z (check_all 0%Z (RateLimiter_new 3 60) [0; 1; 2; 3]%Z).1)) <= 3)%Z.
Proof.
  split; [reflexivity|]. apply (rate_limit_window 0%Z 3 60 [0; 1; 2; 3]%Z 0%Z).
  - lia.
  - repeat constructor; lia.
Defined.

(** ** Liveness of a connection *)

(** A connection is closed for silence only after it was warned: it is
    stale only if it was pinged since it was last heard and has been silent for
    more than the ping interval plus 30 seconds, hence also inactive; any frame
    it sends ([touch]) makes it neither. *)
Theorem stale_only_after_ping {V} (c : Connection (Application V)) now :
  (is_stale c now = true <->
     has_been_pinged c = true /\
     (ping_interval (c_app c) + 30 < now - last_seen_at c)%Z) /\
  (is_stale c now = true -> is_inactive c now = true) /\
  ((0 <= ping_interval (c_app c))%Z ->
     is_stale (touch c now) now = false /\ is_inactive (touch c now) now = false).
Proof.
  unfold is_stale, is_inactive, touch, set_seen, PONG_GRACE_SECONDS; simpl.
  rewrite Z.sub_diag. destruct (has_been_pinged c); simpl.
  - split_and!.
    + rewrite Z.ltb_lt. tauto.
    + rewrite !Z.ltb_lt. lia.
    + intros H. split; [done|]. apply Z.ltb_ge. lia.
  - split_and!; [split; [done|by intros [? _]] | done |].
    intros H. split; [done|]. apply Z.ltb_ge. lia.
Qed.
