(* ===== verification/Channel.v ===== *)
(** * zatat-channels: one channel

    Models [crates/zatat-channels/src/channel.rs]: the members of a channel,
    the per-user reference counts of presence channels, the cached payload of
    cache channels, and the broadcasts.  Every operation runs under the
    channel's transition lock (or on one map entry), so it is a function on the
    channel's state. *)

From S2P Require Import Prelude.
From S2P Require Import Core.
From S2P Require Import Json.
From S2P Require Import Envelope.
From S2P Require Import Connection.
From stdpp Require Import options.

Record Member := { m_handle : ConnectionHandle; m_presence : option PresenceMember }.

Record CachedPayload := { cp_payload : string; cp_inserted_at : Instant }.

(** [ch_user_refcounts] is present on presence channels, [ch_cached_payload]
    (the [RwLock]) on cache channels. *)
Record Channel := {
  ch_name : ChannelName;
  ch_kind : ChannelKind;
  ch_members : gmap string Member;
  ch_user_refcounts : option (gmap string nat);
  ch_cached_payload : option (option CachedPayload);
  ch_cache_ttl : option Duration;
  ch_cache_miss_notified_at : option Instant
}.

Definition CACHE_MISS_WEBHOOK_INTERVAL : Duration := from_secs 60.

Definition with_cache_ttl (name : ChannelName) (cache_ttl : option Duration) : Channel :=
  let k := kind name in
  {| ch_name := name; ch_kind := k; ch_members := ∅;
     ch_user_refcounts := if is_presence k then Some ∅ else None;
     ch_cached_payload := if is_cache k then Some None else None;
     ch_cache_ttl := cache_ttl; ch_cache_miss_notified_at := None |}.

Definition Channel_new (name : ChannelName) : Channel := with_cache_ttl name None.

Definition set_members (c : Channel) (ms : gmap string Member)
    (refs : option (gmap string nat)) : Channel :=
  {| ch_name := ch_name c; ch_kind := ch_kind c; ch_members := ms;
     ch_user_refcounts := refs; ch_cached_payload := ch_cached_payload c;
     ch_cache_ttl := ch_cache_ttl c;
     ch_cache_miss_notified_at := ch_cache_miss_notified_at c |}.

Definition set_cache (c : Channel) (cached : option (option CachedPayload))
    (notified : option Instant) : Channel :=
  {| ch_name := ch_name c; ch_kind := ch_kind c; ch_members := ch_members c;
     ch_user_refcounts := ch_user_refcounts c; ch_cached_payload := cached;
     ch_cache_ttl := ch_cache_ttl c; ch_cache_miss_notified_at := notified |}.

Definition ch_len (c : Channel) : nat := size (ch_members c).
Definition is_empty (c : Channel) : bool := bool_decide (ch_members c = ∅).
Definition contains (c : Channel) (socket_id : string) : bool :=
  match ch_members c !! socket_id with Some _ => true | None => false end.

Definition user_count (c : Channel) : nat :=
  match ch_user_refcounts c with
  | Some refs => size refs
  | None => ch_len c
  end.

Definition has_user_id (c : Channel) (uid : string) : bool :=
  match ch_user_refcounts c with
  | Some refs => match refs !! uid with Some _ => true | None => false end
  | None => false
  end.

Definition presence_user_id (c : Channel) (socket_id : string) : option string :=
  m ← ch_members c !! socket_id; user_id <$> m_presence m.

(** ** The cached payload *)

(** The entry [cached_payload] finds at [now]: an entry past its TTL is cleared.
    Between the read and the write lock no publisher runs. *)
Definition cached_entry (c : Channel) (now : Instant) : option CachedPayload * Channel :=
  match ch_cached_payload c with
  | None => (None, c)
  | Some None => (None, c)
  | Some (Some entry) =>
      match ch_cache_ttl c with
      | Some ttl =>
          if (ttl <? duration_since now (cp_inserted_at entry))%Z
          then (None, set_cache c (Some None) (ch_cache_miss_notified_at c))
          else (Some entry, c)
      | None => (Some entry, c)
      end
  end.

Definition cached_payload (c : Channel) (now : Instant) : option string * Channel :=
  let '(e, c') := cached_entry c now in (cp_payload <$> e, c').

Definition has_cached_payload (c : Channel) (now : Instant) : bool * Channel :=
  let '(p, c') := cached_payload c now in
  (match p with Some _ => true | None => false end, c').

(** The payload with the whole seconds it has left to live. *)
Definition cached_payload_with_ttl (c : Channel) (now : Instant)
  : option (string * option Z) * Channel :=
  let '(p, c') := cached_payload c now in
  (match p with
   | None => None
   | Some payload =>
       match ch_cached_payload c' with
       | None => None
       | Some stored =>
           let remaining := match ch_cache_ttl c', stored with
                            | Some ttl, Some entry =>
                                Some (as_secs (saturating_sub ttl
                                        (duration_since now (cp_inserted_at entry))))
                            | _, _ => None
                            end in
           Some (payload, remaining)
       end
   end, c').

Definition set_cached_payload (c : Channel) (payload : string) (now : Instant) : Channel :=
  match ch_cached_payload c with
  | Some _ => set_cache c (Some (Some {| cp_payload := payload; cp_inserted_at := now |})) None
  | None => c
  end.

Definition claim_cache_miss_notification (c : Channel) (now : Instant) : bool * Channel :=
  let recent := match ch_cache_miss_notified_at c with
                | Some t => (duration_since now t <? CACHE_MISS_WEBHOOK_INTERVAL)%Z
                | None => false
                end in
  if recent then (false, c) else (true, set_cache c (ch_cached_payload c) (Some now)).

(** ** Joining and leaving *)

Record SubscribeResult := { sr_was_new : bool; sr_user_added : bool; sr_member_count : nat }.

Record UnsubscribeOutcome := {
  uo_was_member : bool;
  uo_user_removed : option string;
  uo_member_count : nat;
  uo_presence : option PresenceMember
}.

Definition subscribe (c : Channel) (socket_id : SocketId) (handle : ConnectionHandle)
    (presence : option PresenceMember) : SubscribeResult * Channel :=
  match ch_members c !! socket_id with
  | Some _ =>
      ({| sr_was_new := false; sr_user_added := false; sr_member_count := ch_len c |}, c)
  | None =>
      let '(user_added, refs) :=
        match ch_user_refcounts c, presence with
        | Some refs, Some pm =>
            let entry := default 0 (refs !! user_id pm) in
            (entry =? 0, Some (<[user_id pm := entry + 1]> refs))
        | refs, _ => (false, refs)
        end in
      let c' := set_members c
                  (<[socket_id := {| m_handle := handle; m_presence := presence |}]> (ch_members c))
                  refs in
      ({| sr_was_new := true; sr_user_added := user_added; sr_member_count := ch_len c' |}, c')
  end.

(** The reference count part of [unsubscribe]: decrement, and drop the user when
    the count reaches zero. *)
Definition release_user (refs : gmap string nat) (uid : string)
  : option string * gmap string nat :=
  match refs !! uid with
  | Some n =>
      let n' := Nat.pred n in
      if n' =? 0 then (Some uid, delete uid refs) else (None, <[uid := n']> refs)
  | None => (None, refs)
  end.

Definition unsubscribe (c : Channel) (socket_id : SocketId) : UnsubscribeOutcome * Channel :=
  match ch_members c !! socket_id with
  | Some member =>
      let '(user_removed, refs) :=
        match ch_user_refcounts c, m_presence member with
        | Some refs, Some pm => let '(r, refs') := release_user refs (user_id pm) in (r, Some refs')
        | refs, _ => (None, refs)
        end in
      let c' := set_members c (delete socket_id (ch_members c)) refs in
      ({| uo_was_member := true; uo_user_removed := user_removed;
          uo_member_count := ch_len c'; uo_presence := m_presence member |}, c')
  | None =>
      ({| uo_was_member := false; uo_user_removed := None;
          uo_member_count := ch_len c; uo_presence := None |}, c)
  end.

(** ** Broadcasts and views *)

Record ChannelStats := {
  cs_occupied : bool;
  cs_subscription_count : nat;
  cs_user_count : option nat;
  cs_has_cached_payload : bool
}.

Section Iterating.
Context `{HI : HashIter}.

Definition presence_snapshot (c : Channel) : option PresenceData :=
  if negb (is_presence (ch_kind c)) then None
  else Some (from_members (m_presence <$> hvalues (ch_members c))).

(** The handles [send_to_members] sends to, in iteration order. *)
Definition recipients (c : Channel) (except : option SocketId) : list ConnectionHandle :=
  omap (fun e : string * Member =>
          if match except with Some ex => String.eqb e.1 ex | None => false end
          then None else Some (m_handle e.2)) (hiter (ch_members c)).

Definition send_to_members (c : Channel) (payload : string) (except : option SocketId)
    (mbs : Mailboxes) : Mailboxes :=
  send_all (recipients c except) (Text payload) mbs.

Definition broadcast (c : Channel) (payload : string) (except : option SocketId)
    (now : Instant) (mbs : Mailboxes) : Channel * Mailboxes :=
  let mbs' := send_to_members c payload except mbs in
  (if is_cache (ch_kind c) then set_cached_payload c payload now else c, mbs').

Definition broadcast_client_event (c : Channel) (payload : string) (except : option SocketId)
    (mbs : Mailboxes) : Mailboxes := send_to_members c payload except mbs.

Definition broadcast_protocol (c : Channel) (payload : string) (except : option SocketId)
    (mbs : Mailboxes) : Mailboxes := send_to_members c payload except mbs.

Definition stats (c : Channel) (now : Instant) : ChannelStats * Channel :=
  let '(cached, c') := has_cached_payload c now in
  ({| cs_occupied := negb (is_empty c);
      cs_subscription_count := ch_len c;
      cs_user_count := if is_presence (ch_kind c) then Some (user_count c) else None;
      cs_has_cached_payload := cached |}, c').

Definition members_iter (c : Channel)
  : list (string * ConnectionHandle * option PresenceMember) :=
  (fun e : string * Member => (e.1, m_handle e.2, m_presence e.2)) <$> hiter (ch_members c).
End Iterating.

(** ** The invariant *)

(** Whether a member joined as [u]. *)
Definition joined_as (u : string) (m : Member) : bool :=
  match m_presence m with Some pm => String.eqb (user_id pm) u | None => false end.

(** The number of sockets of [u] in the channel. *)
Definition sockets_of (c : Channel) (u : string) : nat := map_count (joined_as u) (ch_members c).

(** A reference count is stored exactly for the users with a socket here. *)
Definition refs_exact (ms : gmap string Member) (refs : gmap string nat) : Prop :=
  forall u, refs !! u = match map_count (joined_as u) ms with 0 => None | n => Some n end.

Record channel_wf (c : Channel) : Prop := {
  wf_kind : ch_kind c = kind (ch_name c);
  wf_refs : match ch_user_refcounts c with
            | Some refs => is_presence (ch_kind c) = true /\ refs_exact (ch_members c) refs
            | None => is_presence (ch_kind c) = false
            end;
  wf_cache : is_cache (ch_kind c) = match ch_cached_payload c with Some _ => true | None => false end
}.

(** ** Reference counts *)

Lemma refs_exact_some ms refs u :
  refs_exact ms refs -> default 0 (refs !! u) = map_count (joined_as u) ms.
Proof. intros H. rewrite (H u). by destruct (map_count (joined_as u) ms). Qed.

Lemma refs_exact_is_some ms refs u :
  refs_exact ms refs -> is_Some (refs !! u) <-> 0 < map_count (joined_as u) ms.
Proof.
  intros H. rewrite (H u). destruct (map_count (joined_as u) ms); split; try lia.
  - by intros [? ?].
  - by eexists.
Qed.

Lemma refs_exact_join ms refs s m pm :
  refs_exact ms refs -> ms !! s = None -> m_presence m = Some pm ->
  refs_exact (<[s:=m]> ms) (<[user_id pm := default 0 (refs !! user_id pm) + 1]> refs).
Proof.
  intros H Hs Hm u. rewrite (refs_exact_some _ _ _ H), (map_count_insert _ _ _ _ Hs).
  unfold joined_as at 2. rewrite Hm. destruct (String.eqb_spec (user_id pm) u) as [<-|Hne].
  - rewrite lookup_insert_eq. by rewrite Nat.add_comm.
  - rewrite lookup_insert_ne by done. apply H.
Qed.

Lemma refs_exact_anonymous ms refs s m :
  refs_exact ms refs -> ms !! s = None -> m_presence m = None -> refs_exact (<[s:=m]> ms) refs.
Proof.
  intros H Hs Hm u. rewrite (map_count_insert _ _ _ _ Hs). unfold joined_as at 1.
  rewrite Hm. apply H.
Qed.

Lemma release_user_exact ms refs s m pm :
  refs_exact ms refs -> ms !! s = Some m -> m_presence m = Some pm ->
  refs_exact (delete s ms) (release_user refs (user_id pm)).2 /\
  (release_user refs (user_id pm)).1
    = if map_count (joined_as (user_id pm)) (delete s ms) =? 0 then Some (user_id pm) else None.
Proof.
  intros H Hs Hm. unfold release_user.
  assert (forall u, map_count (joined_as u) ms
            = (if String.eqb (user_id pm) u then 1 else 0) + map_count (joined_as u) (delete s ms))
    as Hcount.
  { intros u. rewrite (map_count_delete _ _ _ _ Hs). unfold joined_as at 1. by rewrite Hm. }
  pose proof (H (user_id pm)) as Hu. rewrite Hcount, String.eqb_refl in Hu. simpl in Hu.
  rewrite Hu. simpl. set (n := map_count (joined_as (user_id pm)) (delete s ms)) in *.
  destruct (Nat.eqb_spec n 0) as [E|E]; simpl; (split; [|done]); intros u;
    destruct (decide (user_id pm = u)) as [<-|Hne].
  - rewrite lookup_delete_eq. fold n. by rewrite E.
  - rewrite lookup_delete_ne, (H u), Hcount by done.
    by rewrite (proj2 (String.eqb_neq _ _) Hne).
  - rewrite lookup_insert_eq. fold n. by destruct n.
  - rewrite lookup_insert_ne, (H u), Hcount by done.
    by rewrite (proj2 (String.eqb_neq _ _) Hne).
Qed.

Lemma release_anonymous_exact ms refs s m :
  refs_exact ms refs -> ms !! s = Some m -> m_presence m = None -> refs_exact (delete s ms) refs.
Proof.
  intros H Hs Hm u. rewrite (H u), (map_count_delete _ _ _ _ Hs). unfold joined_as at 1.
  by rewrite Hm.
Qed.

Lemma refs_exact_empty : refs_exact ∅ ∅.
Proof. intros u. by rewrite map_count_empty, lookup_empty. Qed.

(** ** Every operation preserves the invariant *)

#[export] Hint Constructors channel_wf : zatat_pres.

Lemma new_wf name ttl : channel_wf (with_cache_ttl name ttl).
Proof.
  unfold with_cache_ttl. split; simpl; [done| |by destruct (is_cache (kind name))].
  destruct (is_presence (kind name)) eqn:E; [|done]. split; [done|]. apply refs_exact_empty.
Qed.

Lemma subscribe_wf c s h p : channel_wf c -> channel_wf (subscribe c s h p).2.
Proof.
  intros [Hk Hr Hc]. unfold subscribe.
  destruct (ch_members c !! s) eqn:Hs; [by split|].
  destruct (ch_user_refcounts c) as [refs|] eqn:E.
  - destruct Hr as [Hp Hr]. destruct p as [pm|]; split; simpl; try done; split; try done.
    + by apply refs_exact_join.
    + by apply refs_exact_anonymous.
  - by split.
Qed.

Lemma unsubscribe_wf c s : channel_wf c -> channel_wf (unsubscribe c s).2.
Proof.
  intros [Hk Hr Hc]. unfold unsubscribe.
  destruct (ch_members c !! s) as [m|] eqn:Hs; [|by split].
  destruct (ch_user_refcounts c) as [refs|] eqn:E; [|by split].
  destruct Hr as [Hp Hr]. destruct (m_presence m) as [pm|] eqn:Hm.
  - destruct (release_user_exact _ _ _ _ _ Hr Hs Hm) as [Hex _].
    destruct (release_user refs (user_id pm)) as [r refs']. by split.
  - split; simpl; try done. split; [done|]. by eapply release_anonymous_exact.
Qed.

Lemma set_cache_wf c cached notified :
  channel_wf c ->
  (match cached with Some _ => true | None => false end)
    = (match ch_cached_payload c with Some _ => true | None => false end) ->
  channel_wf (set_cache c cached notified).
Proof. intros [Hk Hr Hc] H. split; simpl; [done|done|]. by rewrite H. Qed.

Lemma cached_entry_wf c now : channel_wf c -> channel_wf (cached_entry c now).2.
Proof.
  intros H. unfold cached_entry. destruct (ch_cached_payload c) as [[e|]|] eqn:E; [|done|done].
  destruct (ch_cache_ttl c) as [ttl|]; [|done].
  destruct (ttl <? _)%Z; [|done]. apply set_cache_wf; [done|]. by rewrite E.
Qed.

Lemma cached_payload_snd c now : (cached_payload c now).2 = (cached_entry c now).2.
Proof. unfold cached_payload. by destruct (cached_entry c now). Qed.

Lemma cached_payload_wf c now : channel_wf c -> channel_wf (cached_payload c now).2.
Proof. rewrite cached_payload_snd. apply cached_entry_wf. Qed.

Lemma stats_wf c now : channel_wf c -> channel_wf (stats c now).2.
Proof.
  intros H. apply (cached_payload_wf c now) in H. unfold stats, has_cached_payload.
  by destruct (cached_payload c now).
Qed.

Lemma set_cached_payload_wf c p now : channel_wf c -> channel_wf (set_cached_payload c p now).
Proof.
  intros H. unfold set_cached_payload. destruct (ch_cached_payload c) eqn:E; [|done].
  apply set_cache_wf; [done|]. by rewrite E.
Qed.

Lemma claim_wf c now : channel_wf c -> channel_wf (claim_cache_miss_notification c now).2.
Proof.
  intros H. unfold claim_cache_miss_notification.
  destruct (ch_cache_miss_notified_at c) as [t|]; [destruct (_ <? _)%Z|];
    simpl; try done; by apply set_cache_wf.
Qed.

Lemma broadcast_wf `{HI : HashIter} c p ex now mbs :
  channel_wf c -> channel_wf (broadcast c p ex now mbs).1.
Proof.
  intros H. unfold broadcast; simpl. destruct (is_cache (ch_kind c)); [|done].
  by apply set_cached_payload_wf.
Qed.

#[export] Hint Resolve new_wf subscribe_wf unsubscribe_wf cached_payload_wf stats_wf
  set_cached_payload_wf claim_wf broadcast_wf : zatat_pres.

(** ** Refinement: reference counts implement counting

    The abstract channel: which sockets are members, and as which user.  Its
    answers are computed by looking at the members. *)

Abbreviation Roster := (gmap string (option string)) (only parsing).

Definition present (r : Roster) (u : string) : bool :=
  bool_decide (0 < map_count (fun o : option string => bool_decide (o = Some u)) r).

Definition spec_subscribe (track : bool) (r : Roster) (s : string) (u : option string)
  : (bool * bool * nat) * Roster :=
  match r !! s with
  | Some _ => ((false, false, size r), r)
  | None =>
      let r' := <[s := u]> r in
      ((true, match u with Some u => track && negb (present r u) | None => false end, size r'), r')
  end.

Definition spec_unsubscribe (track : bool) (r : Roster) (s : string)
  : (bool * option string * nat) * Roster :=
  match r !! s with
  | None => ((false, None, size r), r)
  | Some u =>
      let r' := delete s r in
      ((true, match u with
              | Some u => if track && negb (present r' u) then Some u else None
              | None => None
              end, size r'), r')
  end.

(** The abstraction function. *)
Definition roster (c : Channel) : Roster := (fun m => user_id <$> m_presence m) <$> ch_members c.

Definition sub_view (r : SubscribeResult) : bool * bool * nat :=
  (sr_was_new r, sr_user_added r, sr_member_count r).
Definition unsub_view (o : UnsubscribeOutcome) : bool * option string * nat :=
  (uo_was_member o, uo_user_removed o, uo_member_count o).

Lemma map_count_fmap {A B} (f : A -> B) (P : B -> bool) (m : gmap string A) :
  map_count P (f <$> m) = map_count (fun a => P (f a)) m.
Proof.
  induction m as [|k a m Hk IH] using map_ind.
  - by rewrite fmap_empty, !map_count_empty.
  - rewrite fmap_insert, !map_count_insert; [by rewrite IH|done|]. by rewrite lookup_fmap, Hk.
Qed.

Lemma map_count_ext {A} (P Q : A -> bool) (m : gmap string A) :
  (forall a, P a = Q a) -> map_count P m = map_count Q m.
Proof.
  intros H. induction m as [|k a m Hk IH] using map_ind; [by rewrite !map_count_empty|].
  rewrite !map_count_insert by done. by rewrite IH, H.
Qed.

Lemma present_count (ms : gmap string Member) u :
  present ((fun m => user_id <$> m_presence m) <$> ms) u
  = bool_decide (0 < map_count (joined_as u) ms).
Proof.
  unfold present. rewrite map_count_fmap.
  rewrite (map_count_ext _ (joined_as u)); [done|]. intros m. unfold joined_as.
  destruct (m_presence m) as [pm|]; simpl; [|done].
  destruct (String.eqb_spec (user_id pm) u) as [->|Hne].
  - by apply bool_decide_eq_true_2.
  - apply bool_decide_eq_false_2. congruence.
Qed.

Lemma zero_test n : negb (bool_decide (0 < n)) = (n =? 0).
Proof. destruct n; [done|]. by rewrite bool_decide_eq_true_2 by lia. Qed.

Lemma size_fmap_insert {A B} (f : A -> B) (ms : gmap string A) s a b :
  ms !! s = None -> size (<[s := b]> (f <$> ms)) = size (<[s := a]> ms).
Proof.
  intros Hs. rewrite !map_size_insert_None, map_size_fmap; [done|done|].
  by rewrite lookup_fmap, Hs.
Qed.

Lemma subscribe_refines c s h p :
  channel_wf c ->
  (sub_view (subscribe c s h p).1, roster (subscribe c s h p).2)
  = spec_subscribe (is_presence (ch_kind c)) (roster c) s (user_id <$> p).
Proof.
  intros [_ Hr _]. unfold subscribe, spec_subscribe, roster. rewrite lookup_fmap.
  destruct (ch_members c !! s) as [m|] eqn:Hs; simpl.
  - unfold sub_view, ch_len; simpl. by rewrite map_size_fmap.
  - rewrite (size_fmap_insert _ _ _ {| m_handle := h; m_presence := p |} _ Hs).
    destruct (ch_user_refcounts c) as [refs|] eqn:E.
    + destruct Hr as [-> Hr]. destruct p as [pm|]; unfold sub_view, ch_len; simpl;
        rewrite fmap_insert; simpl; [|done].
      by rewrite (refs_exact_some _ _ _ Hr), present_count, zero_test.
    + rewrite Hr. unfold sub_view, ch_len; simpl. rewrite fmap_insert. by destruct p.
Qed.

Lemma unsubscribe_refines c s :
  channel_wf c ->
  (unsub_view (unsubscribe c s).1, roster (unsubscribe c s).2)
  = spec_unsubscribe (is_presence (ch_kind c)) (roster c) s.
Proof.
  intros [_ Hr _]. unfold unsubscribe, spec_unsubscribe, roster. rewrite lookup_fmap.
  destruct (ch_members c !! s) as [m|] eqn:Hs; simpl.
  - rewrite <- (fmap_delete (fun m : Member => user_id <$> m_presence m)), map_size_fmap.
    destruct (ch_user_refcounts c) as [refs|] eqn:E.
    + destruct Hr as [-> Hr]. destruct (m_presence m) as [pm|] eqn:Hm; simpl.
      * destruct (release_user_exact _ _ _ _ _ Hr Hs Hm) as [_ Hrel].
        destruct (release_user refs (user_id pm)) as [r refs']. simpl in *.
        unfold unsub_view, ch_len; simpl. rewrite Hrel, present_count, zero_test.
        by destruct (_ =? 0).
      * by unfold unsub_view, ch_len; simpl.
    + rewrite Hr. unfold unsub_view, ch_len; simpl. by destruct (m_presence m).
  - unfold unsub_view, ch_len; simpl. by rewrite map_size_fmap.
Qed.

(** ** Traces *)

(** Everything that can be done to a channel under its transition lock. *)
Inductive Op :=
| OpSubscribe (s : SocketId) (h : ConnectionHandle) (p : option PresenceMember)
| OpUnsubscribe (s : SocketId)
| OpBroadcast (payload : string) (except : option SocketId) (now : Instant)
| OpClientEvent (payload : string) (except : option SocketId)
| OpReadCache (now : Instant)
| OpClaimMiss (now : Instant).

Inductive Answer :=
| ASubscribed (v : bool * bool * nat)
| AUnsubscribed (v : bool * option string * nat)
| ASilent.

Section Traces.
Context `{HI : HashIter}.

Definition step (o : Op) (c : Channel) (mbs : Mailboxes) : Answer * Channel * Mailboxes :=
  match o with
  | OpSubscribe s h p => let '(r, c') := subscribe c s h p in (ASubscribed (sub_view r), c', mbs)
  | OpUnsubscribe s => let '(r, c') := unsubscribe c s in (AUnsubscribed (unsub_view r), c', mbs)
  | OpBroadcast p ex now => let '(c', mbs') := broadcast c p ex now mbs in (ASilent, c', mbs')
  | OpClientEvent p ex => (ASilent, c, broadcast_client_event c p ex mbs)
  | OpReadCache now => (ASilent, (cached_payload c now).2, mbs)
  | OpClaimMiss now => (ASilent, (claim_cache_miss_notification c now).2, mbs)
  end.

Fixpoint run (ops : list Op) (c : Channel) (mbs : Mailboxes) : list Answer * Channel * Mailboxes :=
  match ops with
  | [] => ([], c, mbs)
  | o :: rest =>
      let '(a, c1, mbs1) := step o c mbs in
      let '(answers, c2, mbs2) := run rest c1 mbs1 in
      (a :: answers, c2, mbs2)
  end.

(** The same trace on the abstract channel; broadcasts and the cache do not
    concern membership. *)
Definition spec_step (track : bool) (o : Op) (r : Roster) : Answer * Roster :=
  match o with
  | OpSubscribe s _ p => let '(v, r') := spec_subscribe track r s (user_id <$> p) in (ASubscribed v, r')
  | OpUnsubscribe s => let '(v, r') := spec_unsubscribe track r s in (AUnsubscribed v, r')
  | _ => (ASilent, r)
  end.

Fixpoint spec_run (track : bool) (ops : list Op) (r : Roster) : list Answer * Roster :=
  match ops with
  | [] => ([], r)
  | o :: rest =>
      let '(a, r1) := spec_step track o r in
      let '(answers, r2) := spec_run track rest r1 in
      (a :: answers, r2)
  end.

Lemma roster_set_cache c x y : roster (set_cache c x y) = roster c.
Proof. done. Qed.

Lemma roster_cached_payload c now : roster (cached_payload c now).2 = roster c.
Proof.
  rewrite cached_payload_snd. unfold cached_entry.
  destruct (ch_cached_payload c) as [[e|]|]; [|done|done].
  destruct (ch_cache_ttl c) as [ttl|]; [|done]. by destruct (ttl <? _)%Z.
Qed.

Lemma roster_claim c now : roster (claim_cache_miss_notification c now).2 = roster c.
Proof. unfold claim_cache_miss_notification. by destruct (match _ with Some _ => _ | None => _ end). Qed.

Lemma roster_broadcast c p ex now mbs : roster (broadcast c p ex now mbs).1 = roster c.
Proof.
  unfold broadcast; simpl. destruct (is_cache (ch_kind c)); [|done].
  unfold set_cached_payload. by destruct (ch_cached_payload c).
Qed.

Lemma step_kind o c mbs : ch_kind (step o c mbs).1.2 = ch_kind c.
Proof.
  destruct o; simpl.
  - unfold subscribe. destruct (ch_members c !! s); [done|].
    by destruct (ch_user_refcounts c), p.
  - unfold unsubscribe. destruct (ch_members c !! s) as [m|]; [|done].
    destruct (ch_user_refcounts c), (m_presence m) as [pm|]; try done. simpl.
    by destruct (release_user _ _).
  - unfold set_cached_payload. by destruct (is_cache _), (ch_cached_payload c).
  - done.
  - rewrite cached_payload_snd. unfold cached_entry.
    destruct (ch_cached_payload c) as [[e|]|]; [|done|done].
    destruct (ch_cache_ttl c) as [ttl|]; [|done]. by destruct (ttl <? _)%Z.
  - unfold claim_cache_miss_notification. by destruct (match _ with Some _ => _ | None => _ end).
Qed.

Lemma step_wf o c mbs : channel_wf c -> channel_wf (step o c mbs).1.2.
Proof.
  intros H. destruct o; simpl; eauto with zatat_pres.
  - pose proof (subscribe_wf c s h p H). by destruct (subscribe c s h p).
  - pose proof (unsubscribe_wf c s H). by destruct (unsubscribe c s).
  - by apply (broadcast_wf c payload except now mbs).
Qed.

Lemma step_refines o c mbs :
  channel_wf c ->
  ((step o c mbs).1.1, roster (step o c mbs).1.2)
  = spec_step (is_presence (ch_kind c)) o (roster c).
Proof.
  intros H. destruct o; simpl.
  - rewrite <- (subscribe_refines c s h p H). by destruct (subscribe c s h p).
  - rewrite <- (unsubscribe_refines c s H). by destruct (unsubscribe c s).
  - by rewrite <- (roster_broadcast c payload except now mbs).
  - done.
  - by rewrite roster_cached_payload.
  - by rewrite roster_claim.
Qed.

Lemma run_refines ops c mbs :
  channel_wf c ->
  let '(answers, c', _) := run ops c mbs in
  channel_wf c' /\ ch_kind c' = ch_kind c /\
  (answers, roster c') = spec_run (is_presence (ch_kind c)) ops (roster c).
Proof.
  revert c mbs. induction ops as [|o ops IH]; intros c mbs H; simpl; [done|].
  pose proof (step_wf o c mbs H) as Hwf. pose proof (step_kind o c mbs) as Hk.
  pose proof (step_refines o c mbs H) as Hr.
  destruct (step o c mbs) as [[a c1] mbs1]. simpl in *.
  specialize (IH c1 mbs1 Hwf). destruct (run ops c1 mbs1) as [[answers c2] mbs2].
  destruct IH as (Hwf2 & Hk2 & Hr2). rewrite <- Hr, <- Hk, <- Hr2.
  split_and!; [done|congruence|done].
Qed.

Lemma has_user_present c u :
  channel_wf c -> has_user_id c u = is_presence (ch_kind c) && present (roster c) u.
Proof.
  intros [_ Hr _]. unfold has_user_id, roster. rewrite present_count.
  destruct (ch_user_refcounts c) as [refs|]; [|by rewrite Hr].
  destruct Hr as [-> Hr]. rewrite (Hr u). simpl.
  destruct (map_count (joined_as u) (ch_members c)); [done|].
  by rewrite bool_decide_eq_true_2 by lia.
Qed.

(** C12: presence bookkeeping is exact over every history.  Whatever sequence of
    joins, leaves, broadcasts and cache reads a channel goes through, each
    answer ("new socket", "user joined", "user left", member count) is the one
    obtained by counting the sockets of that user among the members, a user id
    is reported present exactly while one of its sockets is a member, and the
    invariant that ties reference counts to members holds at the end. *)
Theorem channel_refines_roster name ttl ops mbs :
  let '(answers, c, _) := run ops (with_cache_ttl name ttl) mbs in
  let '(spec_answers, r) := spec_run (is_presence (kind name)) ops ∅ in
  answers = spec_answers /\ roster c = r /\ channel_wf c /\
  (forall u, has_user_id c u = is_presence (kind name) && present r u).
Proof.
  pose proof (run_refines ops (with_cache_ttl name ttl) mbs (new_wf name ttl)) as H.
  destruct (run ops (with_cache_ttl name ttl) mbs) as [[answers c] mbs'].
  destruct H as (Hwf & Hk & Hr). cbn [ch_kind with_cache_ttl] in Hr, Hk.
  change (roster (with_cache_ttl name ttl)) with ((fun m : Member => user_id <$> m_presence m) <$> (∅ : gmap string Member)) in Hr.
  rewrite fmap_empty in Hr. rewrite <- Hr. split_and!; [done|done|done|].
  intros u. rewrite (has_user_present c u Hwf). by rewrite Hk.
Qed.
End Traces.

(** ** Joining and leaving again *)

(** A join followed by the leave of the same socket restores the channel
    exactly (members, reference counts, cache), the leave reports the user gone
    exactly when the join had reported it new, and joining a second time is a
    no-op. *)
Theorem subscribe_unsubscribe c s h p :
  channel_wf c -> ch_members c !! s = None ->
  (unsubscribe (subscribe c s h p).2 s).2 = c /\
  uo_user_removed (unsubscribe (subscribe c s h p).2 s).1
    = (if sr_user_added (subscribe c s h p).1 then user_id <$> p else None) /\
  (forall h' p', (subscribe (subscribe c s h p).2 s h' p').2 = (subscribe c s h p).2).
Proof.
  intros [Hk Hr Hc] Hs. unfold subscribe at 1 2 3. rewrite Hs.
  assert (set_members c (ch_members c) (ch_user_refcounts c) = c) as Heta by (by destruct c).
  split_and!.
  - destruct (ch_user_refcounts c) as [refs|] eqn:E.
    + destruct Hr as [_ Hr]. destruct p as [pm|]; unfold unsubscribe; simpl;
        rewrite lookup_insert_eq; simpl.
      * unfold release_user. rewrite lookup_insert_eq. rewrite Nat.add_1_r. simpl.
        pose proof (Hr (user_id pm)) as Hu.
        destruct (refs !! user_id pm) as [n|] eqn:En; simpl.
        -- destruct (map_count (joined_as (user_id pm)) (ch_members c)); [done|].
           injection Hu as ->. simpl. rewrite insert_insert_eq, (insert_id refs _ _ En).
           rewrite delete_insert_id by done. exact Heta.
        -- rewrite !delete_insert_id by done. exact Heta.
      * rewrite delete_insert_id by done. exact Heta.
    + unfold unsubscribe; simpl. rewrite lookup_insert_eq; simpl.
      rewrite delete_insert_id by done. exact Heta.
  - destruct (ch_user_refcounts c) as [refs|] eqn:E; unfold unsubscribe; simpl.
    + destruct p as [pm|]; simpl; rewrite lookup_insert_eq; simpl; [|done].
      unfold release_user. rewrite lookup_insert_eq, Nat.add_1_r. simpl.
      by destruct (default 0 (refs !! user_id pm) =? 0).
    + rewrite lookup_insert_eq; simpl. done.
  - intros h' p'. unfold subscribe. rewrite Hs.
    destruct (ch_user_refcounts c) as [refs|], p as [pm|]; simpl; by rewrite lookup_insert_eq.
Qed.

Definition demo_handle (s : SocketId) (tx : nat) : ConnectionHandle :=
  {| h_socket_id := s; h_tx := tx |}.
Definition demo_member (u : string) : PresenceMember := {| user_id := u; user_info := None |}.

(** A second socket of a user already in a presence channel. *)
Lemma subscribe_unsubscribe_witness :
  let c := (subscribe (Channel_new "presence-a") "1.1" (demo_handle "1.1" 0)
              (Some (demo_member "u"))).2 in
  (unsubscribe (subscribe c "2.2" (demo_handle "2.2" 1) (Some (demo_member "u"))).2 "2.2").2 = c.
Proof.
  apply (subscribe_unsubscribe _ "2.2" (demo_handle "2.2" 1) (Some (demo_member "u"))).
  - apply subscribe_wf, new_wf.
  - vm_compute. reflexivity.
Defined.

(** ** Who receives a broadcast *)

Section Delivery.
Context `{HI : HashIter}.

(** Every member's mailbox is its own. *)
Definition members_distinct (c : Channel) : Prop :=
  forall s s' m m', ch_members c !! s = Some m -> ch_members c !! s' = Some m' ->
    h_tx (m_handle m) = h_tx (m_handle m') -> s = s'.

Lemma elem_of_recipients c ex h :
  h ∈ recipients c ex <->
  exists s m, ch_members c !! s = Some m /\ Some s <> ex /\ m_handle m = h.
Proof.
  unfold recipients. rewrite list_elem_of_omap. split.
  - intros ([s m] & Hin & Hf). apply elem_of_hiter in Hin. simpl in Hf.
    exists s, m. destruct ex as [e|]; simpl in Hf.
    + destruct (String.eqb_spec s e); simplify_eq. split_and!; congruence.
    + by simplify_eq.
  - intros (s & m & Hin & Hne & <-). exists (s, m). split; [by apply elem_of_hiter|]. simpl.
    destruct ex as [e|]; [|done]. destruct (String.eqb_spec s e); [congruence|done].
Qed.

Lemma recipients_distinct c ex : members_distinct c -> distinct_tx (recipients c ex).
Proof.
  intros Hd. unfold distinct_tx, recipients.
  assert (forall l : list (string * Member), NoDup l.*1 ->
    (forall k m, (k, m) ∈ l -> ch_members c !! k = Some m) ->
    NoDup (h_tx <$> omap (fun e : string * Member =>
      if match ex with Some ex => String.eqb e.1 ex | None => false end
      then None else Some (m_handle e.2)) l)) as H; [|apply H].
  - induction l as [|[k m] l IH]; intros Hnd Hl; simpl; [constructor|].
    rewrite fmap_cons, NoDup_cons in Hnd. destruct Hnd as [Hk Hnd].
    assert (NoDup (h_tx <$> omap (fun e : string * Member =>
      if match ex with Some ex => String.eqb e.1 ex | None => false end
      then None else Some (m_handle e.2)) l)) as IH'.
    { apply IH; [done|]. intros k' m' Hin. apply Hl. by right. }
    destruct (match ex with Some ex => String.eqb k ex | None => false end); [done|].
    rewrite fmap_cons, NoDup_cons. split; [|done].
    intros (h & He & Hin)%list_elem_of_fmap. apply list_elem_of_omap in Hin as ([k' m'] & Hin & Hf).
    destruct (match ex with Some ex => _ | None => _ end); simplify_eq. apply Hk.
    assert (k = k') as ->.
    { apply (Hd k k' m m'); [apply Hl; by left | apply Hl; by right | done]. }
    apply list_elem_of_fmap. by exists (k', m').
  - apply NoDup_hkeys.
  - intros k m. apply elem_of_hiter.
Qed.

(** A broadcast reaches every member except the excluded socket, once, and
    nobody else, in whatever order the members are visited; a server event is
    also stored on cache channels (re-arming the cache-miss webhook), while
    client events and protocol frames never change the channel. *)
Theorem broadcast_delivery c payload ex now mbs :
  members_distinct c ->
  let mbs' := (broadcast c payload ex now mbs).2 in
  (forall s m, ch_members c !! s = Some m -> Some s <> ex ->
     mbs' !! h_tx (m_handle m)
     = (fun mb => (mailbox_send (Text payload) mb).2) <$> mbs !! h_tx (m_handle m)) /\
  (forall tx, (forall s m, ch_members c !! s = Some m -> h_tx (m_handle m) = tx -> Some s = ex) ->
     mbs' !! tx = mbs !! tx) /\
  broadcast_client_event c payload ex mbs = mbs' /\
  broadcast_protocol c payload ex mbs = mbs' /\
  (broadcast c payload ex now mbs).1
    = if is_cache (ch_kind c) then set_cached_payload c payload now else c.
Proof.
  intros Hd. unfold broadcast, broadcast_client_event, broadcast_protocol, send_to_members; simpl.
  split_and!; [| |done|done|done].
  - intros s m Hs Hne. apply (send_all_in _ _ _ (m_handle m)).
    + by apply recipients_distinct.
    + apply elem_of_recipients. by exists s, m.
  - intros tx Hno. apply send_all_other. intros h Hin He.
    apply elem_of_recipients in Hin as (s & m & Hs & Hne & <-). by apply Hne, (Hno s m).
Qed.
End Delivery.

(** Mailboxes stay distinct when a member joins with a mailbox of its own. *)
Lemma subscribe_members c s h p :
  ch_members (subscribe c s h p).2 =
  match ch_members c !! s with
  | Some _ => ch_members c
  | None => <[s := {| m_handle := h; m_presence := p |}]> (ch_members c)
  end.
Proof.
  unfold subscribe. destruct (ch_members c !! s); [done|].
  by destruct (ch_user_refcounts c), p.
Qed.

Lemma unsubscribe_members c s : ch_members (unsubscribe c s).2 = delete s (ch_members c).
Proof.
  unfold unsubscribe. destruct (ch_members c !! s) as [m|] eqn:E; simpl.
  - destruct (ch_user_refcounts c), (m_presence m) as [pm|]; try done.
    by destruct (release_user _ _).
  - by rewrite delete_id.
Qed.

Definition tx_fresh (c : Channel) (tx : nat) : Prop :=
  forall s m, ch_members c !! s = Some m -> h_tx (m_handle m) <> tx.

Lemma new_members name ttl : ch_members (with_cache_ttl name ttl) = ∅.
Proof. done. Qed.

Lemma new_distinct name ttl : members_distinct (with_cache_ttl name ttl).
Proof. intros s s' m m' H. by rewrite new_members, lookup_empty in H. Qed.

Lemma subscribe_distinct c s h p :
  members_distinct c -> tx_fresh c (h_tx h) -> members_distinct (subscribe c s h p).2.
Proof.
  intros Hd Hf. unfold members_distinct. rewrite subscribe_members.
  destruct (ch_members c !! s); [done|].
  intros s1 s2 m1 m2 H1 H2 He.
  apply lookup_insert_Some in H1 as [[<- <-]|[? H1]];
    apply lookup_insert_Some in H2 as [[<- <-]|[? H2]]; [done| | |by eapply Hd].
  - by destruct (Hf s2 m2 H2).
  - by destruct (Hf s1 m1 H1).
Qed.

(** Two members, one excluded: the other's mailbox holds the frame. *)
Lemma broadcast_delivery_witness :
  let c0 := (subscribe (Channel_new "cache-a") "1.1" (demo_handle "1.1" 0) None).2 in
  let c := (subscribe c0 "2.2" (demo_handle "2.2" 1) None).2 in
  let mbs := <[0 := Build_Mailbox [] 8 false false]> {[1 := Build_Mailbox [] 8 false false]} in
  (@broadcast canonical_iter c "x" (Some "1.1") 5%Z mbs).2 !! 1
    = Some (Build_Mailbox [Text "x"] 8 false false) /\
  (@broadcast canonical_iter c "x" (Some "1.1") 5%Z mbs).2 !! 0
    = Some (Build_Mailbox [] 8 false false).
Proof.
  intros c0 c mbs.
  assert (members_distinct c) as Hd.
  { unfold c, c0, Channel_new. apply subscribe_distinct; [apply subscribe_distinct; [apply new_distinct|]|].
    - intros s m H. by rewrite new_members, lookup_empty in H.
    - intros s m. rewrite subscribe_members, new_members, lookup_empty.
      intros [[_ <-]|[_ H]]%lookup_insert_Some; done. }
  pose proof (@broadcast_delivery canonical_iter c "x" (Some "1.1") 5%Z mbs Hd) as (H1 & H2 & _).
  split.
  - etrans; [apply (H1 "2.2" {| m_handle := demo_handle "2.2" 1; m_presence := None |});
             [reflexivity|done] | reflexivity].
  - etrans; [apply (H2 0) | reflexivity]. intros s m. unfold c, c0. rewrite !subscribe_members.
    intros [[_ <-]|[_ [[<- _]|[_ H]]%lookup_insert_Some]]%lookup_insert_Some; done.
Defined.

(** ** Cached payloads *)

(** Whether an entry of age [now - t0] is past the channel's TTL. *)
Definition expired (ttl : option Duration) (t0 now : Instant) : bool :=
  match ttl with Some d => (d <? duration_since now t0)%Z | None => false end.

(** Replay.  On a cache channel a published payload is what a late
    subscriber reads, until its TTL has passed (forever without a TTL); once a
    read finds it expired it stays gone, whatever clock a later read uses, until
    the next publish; the remaining time reported with it never exceeds the TTL;
    on other channels nothing is ever stored. *)
Theorem cache_replay c payload t0 now later :
  channel_wf c ->
  let c1 := set_cached_payload c payload t0 in
  if is_cache (ch_kind c) then
    (cached_payload c1 now).1
      = (if expired (ch_cache_ttl c) t0 now then None else Some payload) /\
    (expired (ch_cache_ttl c) t0 now = true ->
       (cached_payload (cached_payload c1 now).2 later).1 = None) /\
    (forall p secs, (cached_payload_with_ttl c1 now).1 = Some (p, secs) ->
       p = payload /\
       match ch_cache_ttl c, secs with
       | Some ttl, Some s => (0 <= s <= as_secs (Z.max 0 ttl))%Z
       | None, None => True
       | _, _ => False
       end)
  else c1 = c /\ (cached_payload c1 now).1 = None.
Proof.
  intros [_ _ Hc]. unfold set_cached_payload.
  destruct (ch_cached_payload c) as [x|] eqn:E; rewrite Hc; simpl.
  - unfold cached_payload, cached_payload_with_ttl, cached_payload, cached_entry; simpl.
    destruct (ch_cache_ttl c) as [ttl|] eqn:Ettl; simpl.
    + destruct (Z.ltb_spec ttl (duration_since now t0)); simpl; [by split_and!|].
      split_and!; [done|done|]. intros p secs. rewrite Ettl. intros [= <- <-].
      split; [done|]. unfold as_secs, saturating_sub, duration_since in *. split.
      * apply Z.div_pos; lia.
      * apply Z.div_le_mono; lia.
    + split_and!; [done|done|]. intros p secs. rewrite Ettl. by intros [= <- <-].
  - split; [done|]. unfold cached_payload, cached_entry. by rewrite E.
Qed.

(** A ten second TTL, read after five seconds and after eleven. *)
Lemma cache_replay_witness :
  let c := with_cache_ttl "cache-a" (Some (from_secs 10)) in
  (cached_payload (set_cached_payload c "x" 0%Z) (from_secs 5)).1 = Some "x" /\
  (cached_payload (set_cached_payload c "x" 0%Z) (from_secs 11)).1 = None.
Proof.
  intros c. split.
  - exact (proj1 (cache_replay c "x" 0%Z (from_secs 5) 0%Z (new_wf _ _))).
  - exact (proj1 (cache_replay c "x" 0%Z (from_secs 11) 0%Z (new_wf _ _))).
Defined.

(** The cache-miss webhook is requested once per empty period: after a request
    at [t] the next one is granted only 60 seconds later, or after a publish. *)
Lemma cache_miss_once c t t' :
  (claim_cache_miss_notification c t).1 = true ->
  (claim_cache_miss_notification (claim_cache_miss_notification c t).2 t').1
    = (CACHE_MISS_WEBHOOK_INTERVAL <=? duration_since t' t)%Z.
Proof.
  unfold claim_cache_miss_notification at 1 3.
  destruct (match ch_cache_miss_notified_at c with Some _ => _ | None => _ end); [done|].
  intros _. unfold claim_cache_miss_notification; simpl.
  destruct (Z.ltb_spec (duration_since t' t) CACHE_MISS_WEBHOOK_INTERVAL) as [H|H]; simpl; symmetry.
  - by apply Z.leb_gt.
  - by apply Z.leb_le.
Qed.

(** ** Rosters *)

(** On a presence channel all of whose members carry presence data the roster
    sent to a joiner lists exactly the users that have a socket here. *)
Lemma presence_snapshot_ids `{HI : HashIter} c :
  channel_wf c -> is_presence (ch_kind c) = true ->
  (forall s m, ch_members c !! s = Some m -> m_presence m <> None) ->
  exists r, presence_snapshot c = Some r /\ NoDup (pd_ids r) /\
    pd_count r = length (pd_ids r) /\ (forall u, u ∈ pd_ids r <-> has_user_id c u = true).
Proof.
  intros Hwf Hp Hall. unfold presence_snapshot. rewrite Hp. simpl.
  assert (exists ms, m_presence <$> hvalues (ch_members c) = Some <$> ms) as [ms Hms].
  { assert (forall l : list Member, (forall m, m ∈ l -> m_presence m <> None) ->
      exists ms, m_presence <$> l = Some <$> ms) as Hl.
    { induction l as [|m l IH]; intros H; [by exists []|].
      destruct IH as [ms IH]; [intros m' ?; apply H; by right|].
      destruct (m_presence m) as [pm|] eqn:E; [|by destruct (H m); [left|]].
      exists (pm :: ms). by rewrite !fmap_cons, E, IH. }
    apply Hl. intros m (s & Hs)%elem_of_hvalues. by apply (Hall s). }
  rewrite Hms. eexists. split; [done|].
  destruct (from_members_spec ms) as (_ & Hnd & Hc & Hids & _). split_and!; [done|done|].
  intros u. rewrite Hids, (has_user_present c u Hwf), Hp. simpl. unfold roster.
  rewrite present_count, bool_decide_eq_true, map_count_pos. split.
  - intros (pm & Hin & <-).
    assert (Some pm ∈ m_presence <$> hvalues (ch_members c)) as Hin'.
    { rewrite Hms. by apply list_elem_of_fmap_2. }
    apply list_elem_of_fmap in Hin' as (m & He & (s & Hs)%elem_of_hvalues).
    exists s, m. split; [done|]. unfold joined_as. rewrite <- He. apply String.eqb_refl.
  - intros (s & m & Hs & Hj). unfold joined_as in Hj.
    destruct (m_presence m) as [pm|] eqn:E; [|done]. apply String.eqb_eq in Hj.
    exists pm. split; [|done].
    assert (Some pm ∈ Some <$> ms) as Hin.
    { rewrite <- Hms, <- E. apply list_elem_of_fmap_2, elem_of_hvalues. by exists s. }
    apply list_elem_of_fmap in Hin as (pm' & [= <-] & Hin). done.
Qed.
