(* ===== verification/Manager.v ===== *)
(** * zatat-channels: the channel manager

    Models [crates/zatat-channels/src/manager.rs]: the connections, channels,
    signed-in users and watchlists of every application.  Channels are shared
    ([Arc<Channel>]) and only ever changed through the map entry's channel, so
    the map holds their state; [subscribe_with] and [unsubscribe_with] take the
    caller's closures as functions on an effect state [E]. *)

From S2P Require Import Prelude.
From S2P Require Import Core.
From S2P Require Import Json.
From S2P Require Import Envelope.
From S2P Require Import Connection.
From S2P Require Import Channel.
From stdpp Require Import options.

Abbreviation App := (Application Value) (only parsing).

Inductive ChannelManagerError := ConnectionLimitReached.

Record SubscribeOutcome := {
  so_was_new : bool;
  so_user_added : bool;
  so_member_count : nat;
  so_presence_snapshot : option PresenceData;
  so_cached_payload : option string;
  so_kind : ChannelKind
}.

(** The [user_locks] map only has entries while a lock is held. *)
Record AppChannels := {
  connections : gmap string ConnectionHandle;
  channels : gmap string Channel;
  user_index : gmap string (list string);
  watchers : gmap string (gset string)
}.

Definition AppChannels_default : AppChannels :=
  {| connections := ∅; channels := ∅; user_index := ∅; watchers := ∅ |}.

(** [ChannelManager]: application id to its slot. *)
Abbreviation Manager := (gmap string AppChannels) (only parsing).

Definition set_connections (s : AppChannels) x : AppChannels :=
  {| connections := x; channels := channels s; user_index := user_index s; watchers := watchers s |}.
Definition set_channels (s : AppChannels) x : AppChannels :=
  {| connections := connections s; channels := x; user_index := user_index s; watchers := watchers s |}.
Definition set_user_index (s : AppChannels) x : AppChannels :=
  {| connections := connections s; channels := channels s; user_index := x; watchers := watchers s |}.
Definition set_watchers (s : AppChannels) x : AppChannels :=
  {| connections := connections s; channels := channels s; user_index := user_index s; watchers := x |}.

(** [self.inner.apps.entry(..).or_insert_with(..)]: the slot that the mutating
    operations work on; each stores it back. *)
Definition app_slot (m : Manager) (id : AppId) : AppChannels :=
  default AppChannels_default (m !! id).

(** ** Connections *)

Definition register_connection (m : Manager) (app : App) (handle : ConnectionHandle)
  : result unit ChannelManagerError * Manager :=
  let slot := app_slot m (app_id app) in
  let socket_key := h_socket_id handle in
  let conns := <[socket_key := handle]> (connections slot) in
  let over := match max_connections app with
              | Some max => (max <? wrap_u32 (Z.of_nat (size conns)))%Z
              | None => false
              end in
  if over
  then (Err ConnectionLimitReached,
        <[app_id app := set_connections slot (delete socket_key conns)]> m)
  else (Ok tt, <[app_id app := set_connections slot conns]> m).

Definition unregister_connection (m : Manager) (id : AppId) (socket_id : SocketId) : Manager :=
  match m !! id with
  | Some slot => <[id := set_connections slot (delete socket_id (connections slot))]> m
  | None => m
  end.

Definition connection_count (m : Manager) (id : AppId) : nat :=
  match m !! id with Some slot => size (connections slot) | None => 0 end.

Definition channel_count (m : Manager) (id : AppId) : nat :=
  match m !! id with Some slot => size (channels slot) | None => 0 end.

Definition handle_for_socket (m : Manager) (id : AppId) (socket_id : SocketId)
  : option ConnectionHandle :=
  slot ← m !! id; connections slot !! socket_id.

(** ** Channels *)

(** The [remove_if] predicate: no member and no live cached payload (looking at
    the payload clears an expired one). *)
Definition idle_test (ch : Channel) (now : Instant) : bool * Channel :=
  if is_empty ch
  then let '(p, ch') := cached_payload ch now in
       (match p with None => true | Some _ => false end, ch')
  else (false, ch).

Definition remove_if_idle (chans : gmap string Channel) (name : string) (now : Instant)
  : bool * gmap string Channel :=
  match chans !! name with
  | None => (false, chans)
  | Some ch =>
      let '(idle, ch') := idle_test ch now in
      if idle then (true, delete name chans) else (false, <[name := ch']> chans)
  end.

Definition find_channel (m : Manager) (id : AppId) (name : string) : option Channel :=
  slot ← m !! id; channels slot !! name.

(** Storing a found channel's new state: the [Arc] is shared with the map. *)
Definition put_channel (m : Manager) (id : AppId) (name : string) (ch : Channel) : Manager :=
  match m !! id with
  | Some slot => <[id := set_channels slot (<[name := ch]> (channels slot))]> m
  | None => m
  end.

Section Subscribing.
Context `{HI : HashIter} {E : Type}.

Definition subscribe_with (m : Manager) (app : App) (name : ChannelName)
    (socket_id : SocketId) (handle : ConnectionHandle) (presence : option PresenceMember)
    (admits : Channel -> E -> bool * E) (on_subscribed : Channel -> SubscribeResult -> E -> E)
    (now : Instant) (e : E) : option SubscribeOutcome * Manager * E :=
  let slot := app_slot m (app_id app) in
  let ttl := from_secs <$> cache_ttl_seconds app in
  let channel := default (with_cache_ttl name ttl) (channels slot !! name) in
  let '(admitted, e1) := admits channel e in
  if admitted then
    let '(r, channel) := subscribe channel socket_id handle presence in
    let snapshot := presence_snapshot channel in
    let e2 := on_subscribed channel r e1 in
    let '(cached, channel) :=
      if is_cache (ch_kind channel) then cached_payload channel now else (None, channel) in
    (Some {| so_was_new := sr_was_new r; so_user_added := sr_user_added r;
             so_member_count := sr_member_count r; so_presence_snapshot := snapshot;
             so_cached_payload := cached; so_kind := ch_kind channel |},
     <[app_id app := set_channels slot (<[name := channel]> (channels slot))]> m, e2)
  else
    let chans := (remove_if_idle (<[name := channel]> (channels slot)) name now).2 in
    (None, <[app_id app := set_channels slot chans]> m, e1).

Definition unsubscribe_with (m : Manager) (id : AppId) (name : string) (socket_id : SocketId)
    (on_unsubscribed : Channel -> UnsubscribeOutcome -> E -> E) (now : Instant) (e : E)
  : option UnsubscribeOutcome * Manager * E :=
  match m !! id with
  | None => (None, m, e)
  | Some slot =>
      match channels slot !! name with
      | None => (None, m, e)
      | Some channel =>
          let '(outcome, channel) := unsubscribe channel socket_id in
          let e' := on_unsubscribed channel outcome e in
          let chans := (remove_if_idle (<[name := channel]> (channels slot)) name now).2 in
          (Some outcome, <[id := set_channels slot chans]> m, e')
      end
  end.
End Subscribing.

Definition get_or_create_cache_channel (m : Manager) (app : App) (name : string)
  : option Channel * Manager :=
  if negb (is_cache (from_name name)) then (find_channel m (app_id app) name, m)
  else
    let slot := app_slot m (app_id app) in
    let ttl := from_secs <$> cache_ttl_seconds app in
    let ch := default (with_cache_ttl name ttl) (channels slot !! name) in
    (Some ch, <[app_id app := set_channels slot (<[name := ch]> (channels slot))]> m).

Section Iterating.
Context `{HI : HashIter}.

Definition connection_handles (m : Manager) (id : AppId) : list ConnectionHandle :=
  match m !! id with Some slot => hvalues (connections slot) | None => [] end.

Definition all_channels (m : Manager) (id : AppId) : list Channel :=
  match m !! id with Some slot => hvalues (channels slot) | None => [] end.

(** One application's part of the sweep: how many channels it removed. *)
Definition gc_slot (chans : gmap string Channel) (now : Instant) : nat * gmap string Channel :=
  let names := (List.filter (fun e : string * Channel => is_cache (ch_kind e.2)) (hiter chans)).*1 in
  foldl (fun acc name =>
           let '(n, cs) := acc in
           let '(b, cs') := remove_if_idle cs name now in
           (if (b : bool) then S n else n, cs')) (0, chans) names.

Definition gc_empty_cache_channels (m : Manager) (now : Instant) : nat * Manager :=
  foldl (fun acc id =>
           let '(n, m) := acc in
           match m !! id with
           | Some slot => let '(k, cs) := gc_slot (channels slot) now in
                          (n + k, <[id := set_channels slot cs]> m)
           | None => (n, m)
           end) (0, m) (hkeys m).

(** ** Users *)

Definition local_user_ids (m : Manager) (id : AppId) : list string :=
  match m !! id with
  | Some slot => (List.filter (fun e : string * list string =>
                    match e.2 with [] => false | _ => true end) (hiter (user_index slot))).*1
  | None => []
  end.
End Iterating.

Definition bind_user (m : Manager) (id : AppId) (uid : string) (socket_id : SocketId)
  : bool * Manager :=
  let slot := app_slot m id in
  let entry := default [] (user_index slot !! uid) in
  let was_empty := match entry with [] => true | _ => false end in
  let entry' := if existsb (fun s => String.eqb s socket_id) entry then entry
                else entry ++ [socket_id] in
  (was_empty, <[id := set_user_index slot (<[uid := entry']> (user_index slot))]> m).

Definition unbind_user (m : Manager) (id : AppId) (uid : string) (socket_id : SocketId)
  : bool * Manager :=
  match m !! id with
  | None => (false, m)
  | Some slot =>
      match user_index slot !! uid with
      | None => (false, m)
      | Some entry =>
          let entry' := List.filter (fun s => negb (String.eqb s socket_id)) entry in
          match entry' with
          | [] => (true, <[id := set_user_index slot (delete uid (user_index slot))]> m)
          | _ => (false, <[id := set_user_index slot (<[uid := entry']> (user_index slot))]> m)
          end
      end
  end.

Definition connections_for_user (m : Manager) (id : AppId) (uid : string)
  : list ConnectionHandle :=
  match m !! id with
  | None => []
  | Some slot =>
      match user_index slot !! uid with
      | None => []
      | Some socket_ids => omap (fun sid => connections slot !! sid) socket_ids
      end
  end.

Definition is_user_online (m : Manager) (id : AppId) (uid : string) : bool :=
  match m !! id with
  | None => false
  | Some slot => match user_index slot !! uid with
                 | Some (_ :: _) => true
                 | _ => false
                 end
  end.

(** The slot lookup of [with_user_transition]; its closure then runs under the
    user's lock. *)
Definition touch_slot (m : Manager) (id : AppId) : Manager := <[id := app_slot m id]> m.

(** ** Watchlists *)

Definition add_watcher (m : Manager) (id : AppId) (watched watcher : string) : Manager :=
  let slot := app_slot m id in
  let set := default ∅ (watchers slot !! watched) in
  <[id := set_watchers slot (<[watched := {[watcher]} ∪ set]> (watchers slot))]> m.

Section Watching.
Context `{HI : HashIter}.

Definition watchers_of (m : Manager) (id : AppId) (watched : string) : list string :=
  match m !! id with
  | None => []
  | Some slot => match watchers slot !! watched with
                 | Some s => hset_iter s
                 | None => []
                 end
  end.

(** The loop of [remove_all_watches_for], which stops when the user is online. *)
Fixpoint drop_watches (names : list string) (online : bool) (watcher : string)
    (ws : gmap string (gset string)) : gmap string (gset string) :=
  match names with
  | [] => ws
  | watched :: rest =>
      match ws !! watched with
      | None => drop_watches rest online watcher ws
      | Some s =>
          if online then ws
          else
            let s' := s ∖ {[watcher]} in
            let ws' := if decide (s' = ∅) then delete watched ws else <[watched := s']> ws in
            drop_watches rest online watcher ws'
      end
  end.

Definition remove_all_watches_for (m : Manager) (id : AppId) (watcher : string) : Manager :=
  match m !! id with
  | None => m
  | Some slot =>
      let to_drop := hkeys (watchers slot) in
      let online := match user_index slot !! watcher with
                    | Some (_ :: _) => true
                    | _ => false
                    end in
      <[id := set_watchers slot (drop_watches to_drop online watcher (watchers slot))]> m
  end.
End Watching.

Definition channel_stats (m : Manager) (id : AppId) (name : string) (now : Instant)
  : option ChannelStats * Manager :=
  match find_channel m id name with
  | None => (None, m)
  | Some ch => let '(st, ch') := stats ch now in (Some st, put_channel m id name ch')
  end.

(** [ChannelManager::subscribe] and [unsubscribe]: no condition, no effect. *)
Definition mgr_subscribe `{HI : HashIter} (m : Manager) (app : App) (name : ChannelName)
    (socket_id : SocketId) (handle : ConnectionHandle) (presence : option PresenceMember)
    (now : Instant) : option SubscribeOutcome * Manager :=
  let '(o, m', _) := subscribe_with m app name socket_id handle presence
                       (fun _ e => (true, e)) (fun _ _ e => e) now tt in (o, m').

Definition mgr_unsubscribe (m : Manager) (id : AppId) (name : string) (socket_id : SocketId)
    (now : Instant) : option UnsubscribeOutcome * Manager :=
  let '(o, m', _) := unsubscribe_with m id name socket_id (fun _ _ e => e) now tt in (o, m').

(** ** Well-formed managers *)

Definition chan_ok (name : string) (ch : Channel) : Prop := ch_name ch = name /\ channel_wf ch.

(** A channel worth keeping: it has a member, or it may hold a payload. *)
Definition chan_live (ch : Channel) : Prop := is_cache (ch_kind ch) = true \/ ch_members ch <> ∅.

Record slot_wf (s : AppChannels) : Prop := {
  slot_channels : forall name ch, channels s !! name = Some ch -> chan_ok name ch /\ chan_live ch;
  slot_users : forall u l, user_index s !! u = Some l -> l <> [] /\ NoDup l;
  slot_watchers : forall w ws, watchers s !! w = Some ws -> ws <> ∅
}.

Definition manager_wf (m : Manager) : Prop := forall id slot, m !! id = Some slot -> slot_wf slot.

Lemma manager_wf_empty : manager_wf ∅.
Proof. intros id slot H. by rewrite lookup_empty in H. Qed.

Lemma slot_wf_default : slot_wf AppChannels_default.
Proof. split; simpl; intros ? ? H; by rewrite lookup_empty in H. Qed.

Lemma app_slot_wf m id : manager_wf m -> slot_wf (app_slot m id).
Proof.
  intros H. unfold app_slot. destruct (m !! id) as [s|] eqn:E; simpl; [by eapply H|].
  apply slot_wf_default.
Qed.

Lemma manager_wf_insert m id s : manager_wf m -> slot_wf s -> manager_wf (<[id := s]> m).
Proof. intros Hm Hs id' s' [[<- <-]|[_ H]]%lookup_insert_Some; [done|by eapply Hm]. Qed.

Lemma set_connections_wf s x : slot_wf s -> slot_wf (set_connections s x).
Proof. by intros [? ? ?]. Qed.

Lemma set_channels_wf s cs :
  slot_wf s -> (forall name ch, cs !! name = Some ch -> chan_ok name ch /\ chan_live ch) ->
  slot_wf (set_channels s cs).
Proof. by intros [? ? ?] ?. Qed.

Lemma set_user_index_wf s ui :
  slot_wf s -> (forall u l, ui !! u = Some l -> l <> [] /\ NoDup l) ->
  slot_wf (set_user_index s ui).
Proof. by intros [? ? ?] ?. Qed.

Lemma set_watchers_wf s ws :
  slot_wf s -> (forall w x, ws !! w = Some x -> x <> ∅) -> slot_wf (set_watchers s ws).
Proof. by intros [? ? ?] ?. Qed.

#[export] Hint Resolve manager_wf_empty slot_wf_default app_slot_wf manager_wf_insert
  set_connections_wf set_channels_wf set_user_index_wf set_watchers_wf : zatat_pres.

(** *** Channels keep their name, kind and members *)

Lemma cached_payload_frame c now :
  ch_name (cached_payload c now).2 = ch_name c /\
  ch_kind (cached_payload c now).2 = ch_kind c /\
  ch_members (cached_payload c now).2 = ch_members c.
Proof.
  rewrite cached_payload_snd. unfold cached_entry.
  destruct (ch_cached_payload c) as [[e|]|]; [|done|done].
  destruct (ch_cache_ttl c) as [ttl|]; [|done]. by destruct (ttl <? _)%Z.
Qed.

Lemma subscribe_frame c s h p :
  ch_name (subscribe c s h p).2 = ch_name c /\ ch_kind (subscribe c s h p).2 = ch_kind c.
Proof.
  unfold subscribe. destruct (ch_members c !! s); [done|].
  by destruct (ch_user_refcounts c), p.
Qed.

Lemma unsubscribe_frame c s :
  ch_name (unsubscribe c s).2 = ch_name c /\ ch_kind (unsubscribe c s).2 = ch_kind c.
Proof.
  unfold unsubscribe. destruct (ch_members c !! s) as [m|]; [|done].
  destruct (ch_user_refcounts c), (m_presence m) as [pm|]; try done. simpl.
  by destruct (release_user _ _).
Qed.

Lemma cached_payload_ok name c now : chan_ok name c -> chan_ok name (cached_payload c now).2.
Proof.
  intros [Hn Hw]. destruct (cached_payload_frame c now) as (Hn' & _).
  split; [congruence|]. by apply cached_payload_wf.
Qed.

Lemma new_ok name ttl : chan_ok name (with_cache_ttl name ttl).
Proof. split; [done|apply new_wf]. Qed.

Lemma subscribe_ok name c s h p : chan_ok name c -> chan_ok name (subscribe c s h p).2.
Proof.
  intros [Hn Hw]. destruct (subscribe_frame c s h p) as [Hn' _].
  split; [congruence|]. by apply subscribe_wf.
Qed.

Lemma unsubscribe_ok name c s : chan_ok name c -> chan_ok name (unsubscribe c s).2.
Proof.
  intros [Hn Hw]. destruct (unsubscribe_frame c s) as [Hn' _].
  split; [congruence|]. by apply unsubscribe_wf.
Qed.

#[export] Hint Resolve cached_payload_ok new_ok subscribe_ok unsubscribe_ok : zatat_pres.

(** A member after a join: the channel is live. *)
Lemma subscribe_live c s h p : ch_members (subscribe c s h p).2 <> ∅.
Proof.
  rewrite subscribe_members. destruct (ch_members c !! s) eqn:E.
  - intros He. by rewrite He, lookup_empty in E.
  - apply insert_non_empty.
Qed.

(** Only cache channels hold payloads. *)
Lemma cached_payload_not_cache c now :
  channel_wf c -> is_cache (ch_kind c) = false -> (cached_payload c now).1 = None.
Proof.
  intros [_ _ Hc] Hk. unfold cached_payload, cached_entry.
  rewrite Hk in Hc. by destruct (ch_cached_payload c).
Qed.

Lemma idle_test_frame ch now :
  ch_name (idle_test ch now).2 = ch_name ch /\ ch_kind (idle_test ch now).2 = ch_kind ch /\
  ch_members (idle_test ch now).2 = ch_members ch.
Proof.
  unfold idle_test. destruct (is_empty ch); [|done].
  pose proof (cached_payload_frame ch now). by destruct (cached_payload ch now) as [[p|] c'].
Qed.

Lemma idle_test_ok name ch now : chan_ok name ch -> chan_ok name (idle_test ch now).2.
Proof.
  intros H. unfold idle_test. destruct (is_empty ch); [|done].
  pose proof (cached_payload_ok name ch now H). by destruct (cached_payload ch now) as [[p|] c'].
Qed.

Lemma idle_test_false ch now :
  channel_wf ch -> (idle_test ch now).1 = false -> chan_live ch.
Proof.
  intros Hw. unfold idle_test, chan_live, is_empty.
  case_bool_decide as He; [|by right].
  destruct (is_cache (ch_kind ch)) eqn:Hk; [by left|].
  pose proof (cached_payload_not_cache ch now Hw Hk) as Hp.
  destruct (cached_payload ch now) as [p c']. simpl in *. by subst.
Qed.

(** Cleaning up [name] re-establishes liveness when only that entry may be dead. *)
Lemma remove_if_idle_ok chans name now :
  (forall n ch, chans !! n = Some ch -> chan_ok n ch /\ (n <> name -> chan_live ch)) ->
  forall n ch, (remove_if_idle chans name now).2 !! n = Some ch -> chan_ok n ch /\ chan_live ch.
Proof.
  intros H n ch. unfold remove_if_idle. destruct (chans !! name) as [c|] eqn:E.
  - destruct (H _ _ E) as [Hok _].
    pose proof (idle_test_ok name c now Hok) as Hok'.
    pose proof (idle_test_false c now (proj2 Hok)) as Hlive.
    destruct (idle_test_frame c now) as (_ & Hk & Hm).
    destruct (idle_test c now) as [idle c']. simpl in *.
    destruct idle; simpl.
    + intros [Hne Hl]%lookup_delete_Some. destruct (H _ _ Hl) as [? Hl']. split; [done|]. auto.
    + intros [[<- <-]|[Hne Hl]]%lookup_insert_Some.
      * split; [done|]. unfold chan_live. rewrite Hk, Hm. by apply Hlive.
      * destruct (H _ _ Hl) as [? Hl']. split; [done|]. auto.
  - simpl. intros Hn. destruct (H _ _ Hn) as [? Hl]. split; [done|]. apply Hl. congruence.
Qed.

Lemma remove_if_idle_other chans name now n :
  n <> name -> (remove_if_idle chans name now).2 !! n = chans !! n.
Proof.
  intros Hne. unfold remove_if_idle. destruct (chans !! name) as [c|]; [|done].
  destruct (idle_test c now) as [[] c']; simpl.
  - by rewrite lookup_delete_ne.
  - by rewrite lookup_insert_ne.
Qed.

(** ** Every operation keeps the manager well formed *)

Section Preservation.
Context `{HI : HashIter}.

Lemma register_connection_wf m app h : manager_wf m -> manager_wf (register_connection m app h).2.
Proof.
  intros H. unfold register_connection.
  destruct (match max_connections app with Some _ => _ | None => _ end); simpl; eauto with zatat_pres.
Qed.

Lemma unregister_connection_wf m id s : manager_wf m -> manager_wf (unregister_connection m id s).
Proof.
  intros H. unfold unregister_connection. destruct (m !! id) eqn:E; [|done].
  apply manager_wf_insert; [done|]. apply set_connections_wf. by eapply H.
Qed.

Lemma subscribe_with_wf {E} m app name s h p admits on_sub now (e : E) :
  manager_wf m -> manager_wf (subscribe_with m app name s h p admits on_sub now e).1.2.
Proof.
  intros H. unfold subscribe_with. pose proof (app_slot_wf m (app_id app) H) as Hs.
  set (slot := app_slot m (app_id app)) in *.
  set (ch := default _ (channels slot !! name)).
  assert (chan_ok name ch) as Hok.
  { unfold ch. destruct (channels slot !! name) eqn:Ech; simpl; [|apply new_ok].
    by apply (slot_channels _ Hs). }
  destruct (admits ch e) as [[] e1].
  - pose proof (subscribe_ok name ch s h p Hok) as Hok1.
    pose proof (subscribe_live ch s h p) as Hlive.
    destruct (subscribe ch s h p) as [r ch1]. simpl in *.
    assert (forall c2, c2 = ch1 \/ c2 = (cached_payload ch1 now).2 ->
      manager_wf (<[app_id app := set_channels slot (<[name := c2]> (channels slot))]> m)) as Hfin.
    { intros c2 Hc2. apply manager_wf_insert; [done|]. apply set_channels_wf; [done|].
      intros n c [[<- <-]|[_ Hl]]%lookup_insert_Some; [|by apply (slot_channels _ Hs)].
      destruct (cached_payload_frame ch1 now) as (_ & _ & Hm).
      split; [|right]; destruct Hc2 as [->| ->]; eauto with zatat_pres; congruence. }
    destruct (is_cache (ch_kind ch1)); [destruct (cached_payload ch1 now)|]; simpl; auto.
  - simpl. apply manager_wf_insert; [done|]. apply set_channels_wf; [done|].
    apply remove_if_idle_ok. intros n c [[<- <-]|[_ Hl]]%lookup_insert_Some; [done|].
    destruct (slot_channels _ Hs _ _ Hl). auto.
Qed.

Lemma unsubscribe_with_wf {E} m id name s on_unsub now (e : E) :
  manager_wf m -> manager_wf (unsubscribe_with m id name s on_unsub now e).1.2.
Proof.
  intros H. unfold unsubscribe_with. destruct (m !! id) as [slot|] eqn:Em; [|done].
  pose proof (H _ _ Em) as Hs. destruct (channels slot !! name) as [ch|] eqn:Ec; [|done].
  destruct (slot_channels _ Hs _ _ Ec) as [Hok _].
  pose proof (unsubscribe_ok name ch s Hok) as Hok'.
  destruct (unsubscribe ch s) as [o ch']. simpl in *.
  apply manager_wf_insert; [done|]. apply set_channels_wf; [done|].
  apply remove_if_idle_ok. intros n c [[<- <-]|[_ Hl]]%lookup_insert_Some; [done|].
  destruct (slot_channels _ Hs _ _ Hl). auto.
Qed.

Lemma get_or_create_wf m app name :
  manager_wf m -> manager_wf (get_or_create_cache_channel m app name).2.
Proof.
  intros H. unfold get_or_create_cache_channel. destruct (is_cache (from_name name)) eqn:Hk; [|done].
  simpl. pose proof (app_slot_wf m (app_id app) H) as Hs.
  apply manager_wf_insert; [done|]. apply set_channels_wf; [done|].
  intros n c [[<- <-]|[_ Hl]]%lookup_insert_Some; [|by apply (slot_channels _ Hs)].
  destruct (channels _ !! name) as [ch|] eqn:E; simpl.
  - by apply (slot_channels _ Hs).
  - split; [apply new_ok|]. by left.
Qed.

(** Writing back a channel that kept its name, kind and members. *)
Lemma put_channel_wf m id name ch ch' :
  manager_wf m -> find_channel m id name = Some ch ->
  channel_wf ch' -> ch_name ch' = ch_name ch -> ch_kind ch' = ch_kind ch ->
  ch_members ch' = ch_members ch -> manager_wf (put_channel m id name ch').
Proof.
  unfold find_channel, put_channel. intros H Hf Hw Hn Hk Hm.
  destruct (m !! id) as [slot|] eqn:E; [|done]. simpl in Hf. pose proof (H _ _ E) as Hs.
  apply manager_wf_insert; [done|]. apply set_channels_wf; [done|].
  intros n c [[<- <-]|[_ Hl]]%lookup_insert_Some; [|by apply (slot_channels _ Hs)].
  destruct (slot_channels _ Hs _ _ Hf) as [[Hname _] Hlive]. split.
  - split; [congruence|done].
  - unfold chan_live in *. by rewrite Hk, Hm.
Qed.

Lemma gc_slot_ok chans now :
  (forall n ch, chans !! n = Some ch -> chan_ok n ch /\ chan_live ch) ->
  forall n ch, (gc_slot chans now).2 !! n = Some ch -> chan_ok n ch /\ chan_live ch.
Proof.
  unfold gc_slot. generalize ((List.filter (fun e : string * Channel => is_cache (ch_kind e.2)) (hiter chans)).*1).
  intros names. generalize 0. revert chans.
  induction names as [|x names IH]; intros chans k H; simpl; [done|].
  destruct (remove_if_idle chans x now) as [b cs] eqn:E. apply IH.
  intros n ch Hn. eapply (remove_if_idle_ok chans x now).
  - intros n' ch' Hn'. destruct (H _ _ Hn'). auto.
  - by rewrite E.
Qed.

Lemma gc_wf m now : manager_wf m -> manager_wf (gc_empty_cache_channels m now).2.
Proof.
  unfold gc_empty_cache_channels. generalize (hkeys m). intros ids. generalize 0. revert m.
  induction ids as [|id ids IH]; intros m k H; simpl; [done|].
  destruct (m !! id) as [slot|] eqn:E; [|by apply IH].
  destruct (gc_slot (channels slot) now) as [j cs] eqn:Eg. apply IH.
  pose proof (H _ _ E) as Hs. apply manager_wf_insert; [done|]. apply set_channels_wf; [done|].
  intros n ch Hn. apply (gc_slot_ok (channels slot) now); [apply (slot_channels _ Hs)|].
  by rewrite Eg.
Qed.

Lemma bind_user_wf m id u s : manager_wf m -> manager_wf (bind_user m id u s).2.
Proof.
  intros H. unfold bind_user; simpl. pose proof (app_slot_wf m id H) as Hs.
  apply manager_wf_insert; [done|]. apply set_user_index_wf; [done|].
  intros u' l [[<- <-]|[_ Hl]]%lookup_insert_Some; [|by apply (slot_users _ Hs _ _ Hl)].
  assert (NoDup (default [] (user_index (app_slot m id) !! u))) as Hnd.
  { destruct (user_index _ !! u) eqn:E; simpl; [by apply (slot_users _ Hs _ _ E)|constructor]. }
  destruct (existsb _ _) eqn:E.
  - apply existsb_exists in E as (x & Hin & _). split; [|done]. by intros Hn; rewrite Hn in Hin.
  - split; [by destruct (default [] _)|]. apply NoDup_app. split_and!; [done| |by apply NoDup_singleton].
    intros x Hx ->%list_elem_of_singleton. apply list_elem_of_In in Hx.
    assert (existsb (fun s0 => String.eqb s0 s) (default [] (user_index (app_slot m id) !! u)) = true) as Ht.
    { apply existsb_exists. exists s. split; [done|apply String.eqb_refl]. }
    congruence.
Qed.

Lemma filter_NoDup {A} (f : A -> bool) l : NoDup l -> NoDup (List.filter f l).
Proof. rewrite !NoDup_ListNoDup. apply List.NoDup_filter. Qed.

Lemma unbind_user_wf m id u s : manager_wf m -> manager_wf (unbind_user m id u s).2.
Proof.
  intros H. unfold unbind_user. destruct (m !! id) as [slot|] eqn:Em; [|done].
  pose proof (H _ _ Em) as Hs. destruct (user_index slot !! u) as [l|] eqn:El; [|done].
  destruct (slot_users _ Hs _ _ El) as [_ Hnd].
  pose proof (filter_NoDup (fun x => negb (String.eqb x s)) l Hnd) as Hnd'.
  destruct (List.filter _ l) as [|x l'] eqn:Ef; simpl;
    (apply manager_wf_insert; [done|]; apply set_user_index_wf; [done|]); intros u' l0 Hl0.
  - apply lookup_delete_Some in Hl0 as [_ Hl0]. by apply (slot_users _ Hs _ _ Hl0).
  - apply lookup_insert_Some in Hl0 as [[<- <-]|[_ Hl0]]; [done|]. by apply (slot_users _ Hs _ _ Hl0).
Qed.

Lemma add_watcher_wf m id w u : manager_wf m -> manager_wf (add_watcher m id w u).
Proof.
  intros H. unfold add_watcher. pose proof (app_slot_wf m id H) as Hs.
  apply manager_wf_insert; [done|]. apply set_watchers_wf; [done|].
  intros w' x [[<- <-]|[_ Hl]]%lookup_insert_Some; [set_solver|by apply (slot_watchers _ Hs _ _ Hl)].
Qed.

Lemma drop_watches_nonempty names online u ws :
  (forall w x, ws !! w = Some x -> x <> ∅) ->
  forall w x, drop_watches names online u ws !! w = Some x -> x <> ∅.
Proof.
  revert ws. induction names as [|n names IH]; intros ws H; simpl; [done|].
  destruct (ws !! n) as [s|] eqn:E; [|by apply IH]. destruct online; [done|]. apply IH.
  intros w x. case_decide as Hd.
  - intros [_ Hl]%lookup_delete_Some. by apply H in Hl.
  - intros [[<- <-]|[_ Hl]]%lookup_insert_Some; [done|by apply H in Hl].
Qed.

Lemma remove_all_watches_wf m id u : manager_wf m -> manager_wf (remove_all_watches_for m id u).
Proof.
  intros H. unfold remove_all_watches_for. destruct (m !! id) as [slot|] eqn:Em; [|done].
  pose proof (H _ _ Em) as Hs. apply manager_wf_insert; [done|]. apply set_watchers_wf; [done|].
  apply drop_watches_nonempty, (slot_watchers _ Hs).
Qed.

Lemma touch_slot_wf m id : manager_wf m -> manager_wf (touch_slot m id).
Proof. unfold touch_slot. eauto with zatat_pres. Qed.
End Preservation.

#[export] Hint Resolve register_connection_wf unregister_connection_wf subscribe_with_wf
  unsubscribe_with_wf get_or_create_wf gc_wf bind_user_wf unbind_user_wf add_watcher_wf
  remove_all_watches_wf touch_slot_wf : zatat_pres.

(** ** Histories

    A history of the manager is a sequence of operation calls.  A step is
    labelled by the application it works for; the sweep works for all. *)

Inductive mstep `{HI : HashIter} : option AppId -> Manager -> Manager -> Prop :=
| step_register m app h :
    mstep (Some (app_id app)) m (register_connection m app h).2
| step_unregister m id s : mstep (Some id) m (unregister_connection m id s)
| step_subscribe (E : Set) m app name s h p admits on_sub now (e : E) :
    mstep (Some (app_id app)) m (subscribe_with m app name s h p admits on_sub now e).1.2
| step_unsubscribe (E : Set) m id name s on_unsub now (e : E) :
    mstep (Some id) m (unsubscribe_with m id name s on_unsub now e).1.2
| step_get_or_create m app name :
    mstep (Some (app_id app)) m (get_or_create_cache_channel m app name).2
| step_set_payload m id name ch p now :
    find_channel m id name = Some ch ->
    mstep (Some id) m (put_channel m id name (set_cached_payload ch p now))
| step_read_payload m id name ch now :
    find_channel m id name = Some ch ->
    mstep (Some id) m (put_channel m id name (cached_payload ch now).2)
| step_claim_miss m id name ch now :
    find_channel m id name = Some ch ->
    mstep (Some id) m (put_channel m id name (claim_cache_miss_notification ch now).2)
| step_gc m now : mstep None m (gc_empty_cache_channels m now).2
| step_bind m id u s : mstep (Some id) m (bind_user m id u s).2
| step_unbind m id u s : mstep (Some id) m (unbind_user m id u s).2
| step_add_watcher m id w u : mstep (Some id) m (add_watcher m id w u)
| step_drop_watches m id u : mstep (Some id) m (remove_all_watches_for m id u)
| step_touch m id : mstep (Some id) m (touch_slot m id).

Inductive reachable `{HI : HashIter} : Manager -> Prop :=
| reach_new : reachable ∅
| reach_step l m m' : reachable m -> mstep l m m' -> reachable m'.

Section Histories.
Context `{HI : HashIter}.

Lemma set_cached_payload_frame c p now :
  ch_name (set_cached_payload c p now) = ch_name c /\
  ch_kind (set_cached_payload c p now) = ch_kind c /\
  ch_members (set_cached_payload c p now) = ch_members c.
Proof. unfold set_cached_payload. by destruct (ch_cached_payload c). Qed.

Lemma claim_frame c now :
  ch_name (claim_cache_miss_notification c now).2 = ch_name c /\
  ch_kind (claim_cache_miss_notification c now).2 = ch_kind c /\
  ch_members (claim_cache_miss_notification c now).2 = ch_members c.
Proof. unfold claim_cache_miss_notification. by destruct (match _ with Some _ => _ | None => _ end). Qed.

Lemma find_channel_wf m id name ch :
  manager_wf m -> find_channel m id name = Some ch -> chan_ok name ch /\ chan_live ch.
Proof.
  unfold find_channel. intros H Hf. destruct (m !! id) as [slot|] eqn:E; [|done].
  by apply (slot_channels _ (H _ _ E)).
Qed.

Lemma mstep_wf l m m' : mstep l m m' -> manager_wf m -> manager_wf m'.
Proof.
  intros Hs H. destruct Hs as
    [| | | | |? ? ? ch p now Hf|? ? ? ch now Hf|? ? ? ch now Hf| | | | | | ]; eauto with zatat_pres.
  all: destruct (find_channel_wf _ _ _ _ H Hf) as [[_ Hw] _].
  - destruct (set_cached_payload_frame ch p now) as (? & ? & ?).
    eapply put_channel_wf; eauto with zatat_pres.
  - destruct (cached_payload_frame ch now) as (? & ? & ?).
    eapply put_channel_wf; eauto with zatat_pres.
  - destruct (claim_frame ch now) as (? & ? & ?).
    eapply put_channel_wf; eauto with zatat_pres.
Qed.

(** C13: In every history of the manager each stored channel carries the name
    it is stored under and is internally consistent, no empty channel is left
    behind unless it can hold a cached payload, every indexed user has at
    least one socket and no socket twice, and no watchlist set is empty. *)
Theorem manager_invariant m : reachable m -> manager_wf m.
Proof.
  induction 1 as [|l m m' _ IH Hs]; [apply manager_wf_empty|]. by apply (mstep_wf _ _ _ Hs).
Qed.

Lemma insert_other (m : Manager) id id' s : id' <> id -> <[id := s]> m !! id' = m !! id'.
Proof. intros. by rewrite lookup_insert_ne. Qed.

(** Applications are isolated: an operation for one application leaves the
    connections, channels, users and watchlists of every other one alone. *)
Theorem app_isolation id m m' id' :
  mstep (Some id) m m' -> id' <> id -> m' !! id' = m !! id'.
Proof.
  intros Hs Hne. inversion Hs; subst; clear Hs.
  - unfold register_connection.
    destruct (match max_connections app with Some _ => _ | None => _ end); by apply insert_other.
  - unfold unregister_connection. destruct (m !! id); [by apply insert_other|done].
  - unfold subscribe_with. destruct (admits _ e) as [[] e1]; simpl; [|by apply insert_other].
    destruct (subscribe _ s h p) as [r c]. destruct (is_cache (ch_kind c));
      [destruct (cached_payload c now)|]; by apply insert_other.
  - unfold unsubscribe_with. destruct (m !! id) as [slot|]; [|done].
    destruct (channels slot !! name); [|done]. destruct (unsubscribe _ s). by apply insert_other.
  - unfold get_or_create_cache_channel. destruct (is_cache _); [by apply insert_other|done].
  - unfold put_channel. destruct (m !! id); [by apply insert_other|done].
  - unfold put_channel. destruct (m !! id); [by apply insert_other|done].
  - unfold put_channel. destruct (m !! id); [by apply insert_other|done].
  - by apply insert_other.
  - unfold unbind_user. destruct (m !! id) as [slot|]; [|done].
    destruct (user_index slot !! u) as [l|]; [|done].
    destruct (List.filter _ l); by apply insert_other.
  - by apply insert_other.
  - unfold remove_all_watches_for. destruct (m !! id); [by apply insert_other|done].
  - by apply insert_other.
Qed.

End Histories.

(** ** Joins that are turned down *)

Section Joins.
Context `{HI : HashIter}.

Lemma subscribe_result c s h p :
  sr_was_new (subscribe c s h p).1 = negb (contains c s) /\
  sr_member_count (subscribe c s h p).1 = size (ch_members (subscribe c s h p).2).
Proof.
  unfold subscribe, contains. destruct (ch_members c !! s); [done|].
  by destruct (ch_user_refcounts c), p.
Qed.

Definition other_state (s : AppChannels) :=
  (connections s, user_index s, watchers s).

Lemma with_cache_ttl_idle name ttl now : (idle_test (with_cache_ttl name ttl) now).1 = true.
Proof.
  unfold idle_test, is_empty. simpl. rewrite bool_decide_true by done.
  unfold cached_payload, cached_entry. simpl. by destruct (is_cache (kind name)).
Qed.

(** The test leaves a channel alone that has a member or a live payload. *)
Lemma idle_test_keep ch now : (idle_test ch now).1 = false -> (idle_test ch now).2 = ch.
Proof.
  unfold idle_test. destruct (is_empty ch); [|done].
  unfold cached_payload, cached_entry.
  destruct (ch_cached_payload ch) as [[e|]|]; try done.
  destruct (ch_cache_ttl ch) as [ttl|]; [|done]. by destruct (ttl <? _)%Z.
Qed.

Lemma find_channel_insert m id s n :
  find_channel (<[id := s]> m) id n = channels s !! n.
Proof. unfold find_channel. by rewrite lookup_insert_eq. Qed.

Lemma find_channel_slot m id n : find_channel m id n = channels (app_slot m id) !! n.
Proof. unfold find_channel, app_slot. by destruct (m !! id). Qed.

(** A join the admission test turns down has no visible effect: the
    effects of the join are not run, the other channels, connections, users
    and watchlists stay as they are, no channel comes into existence, and an
    existing one is unchanged unless it was an idle cache channel, which is
    then collected. *)
Theorem rejected_join (E : Type) m app name s h p admits on_sub now (e : E) :
  (admits (default (with_cache_ttl name (from_secs <$> cache_ttl_seconds app))
            (find_channel m (app_id app) name)) e).1 = false ->
  let r := subscribe_with m app name s h p admits on_sub now e in
  r.1.1 = None /\
  r.2 = (admits (default (with_cache_ttl name (from_secs <$> cache_ttl_seconds app))
            (find_channel m (app_id app) name)) e).2 /\
  other_state (app_slot r.1.2 (app_id app)) = other_state (app_slot m (app_id app)) /\
  (forall n, n <> name -> find_channel r.1.2 (app_id app) n = find_channel m (app_id app) n) /\
  find_channel r.1.2 (app_id app) name
  = match find_channel m (app_id app) name with
    | Some ch => if (idle_test ch now).1 then None else Some ch
    | None => None
    end.
Proof.
  rewrite !find_channel_slot. intros Ha. unfold subscribe_with.
  set (slot := app_slot m (app_id app)) in *.
  set (ch := default _ (channels slot !! name)) in *.
  destruct (admits ch e) as [ok e1]. simpl in Ha. subst ok. simpl.
  split_and!; [done|done| | |].
  - unfold app_slot. by rewrite lookup_insert_eq.
  - intros n Hn. rewrite find_channel_insert, find_channel_slot. simpl.
    rewrite remove_if_idle_other by done. by rewrite lookup_insert_ne.
  - rewrite find_channel_insert. simpl. unfold remove_if_idle. rewrite lookup_insert_eq.
    pose proof (idle_test_keep ch now) as Hkeep.
    destruct (channels slot !! name) as [c|] eqn:Ec; simpl in ch; subst ch.
    + destruct (idle_test c now) as [[] c']; simpl in *.
      * by rewrite lookup_delete_eq.
      * rewrite lookup_insert_eq. by rewrite Hkeep.
    + pose proof (with_cache_ttl_idle name (from_secs <$> cache_ttl_seconds app) now) as Hi.
      destruct (idle_test _ now) as [b c']. simpl in *. subst b. simpl. by rewrite lookup_delete_eq.
Qed.

(** An admitted join makes the socket a member of the channel stored under
    that name, runs the join's effects exactly once on the joined channel,
    reports its true size, and leaves the other channels, the connections, the
    users and the watchlists alone. *)
Theorem admitted_join (E : Type) m app name s h p admits on_sub now (e : E) :
  let ch := default (with_cache_ttl name (from_secs <$> cache_ttl_seconds app))
              (find_channel m (app_id app) name) in
  (admits ch e).1 = true ->
  let r := subscribe_with m app name s h p admits on_sub now e in
  exists out ch',
    r.1.1 = Some out /\ find_channel r.1.2 (app_id app) name = Some ch' /\
    ch_members ch' = ch_members (subscribe ch s h p).2 /\ is_Some (ch_members ch' !! s) /\
    so_member_count out = size (ch_members ch') /\
    so_was_new out = negb (contains ch s) /\
    r.2 = on_sub (subscribe ch s h p).2 (subscribe ch s h p).1 (admits ch e).2 /\
    other_state (app_slot r.1.2 (app_id app)) = other_state (app_slot m (app_id app)) /\
    (forall n, n <> name -> find_channel r.1.2 (app_id app) n = find_channel m (app_id app) n).
Proof.
  rewrite !find_channel_slot. intros ch Ha. unfold subscribe_with.
  set (slot := app_slot m (app_id app)) in *. fold ch.
  destruct (admits ch e) as [ok e1]. simpl in Ha. subst ok.
  assert (is_Some (ch_members (subscribe ch s h p).2 !! s)) as Hin.
  { rewrite subscribe_members. destruct (ch_members ch !! s) eqn:E0; [by rewrite E0|].
    rewrite lookup_insert_eq. eauto. }
  pose proof (subscribe_result ch s h p) as [Hnew Hcnt].
  destruct (subscribe ch s h p) as [r c]. simpl in *.
  set (cp := if is_cache (ch_kind c) then cached_payload c now else (None, c)).
  assert (ch_members cp.2 = ch_members c) as Hm.
  { unfold cp. destruct (is_cache (ch_kind c)); [apply cached_payload_frame|done]. }
  destruct cp as [pl c2] eqn:Ecp. simpl in Hm. simpl.
  eexists _, c2. rewrite find_channel_insert. simpl. rewrite lookup_insert_eq, Hm.
  split_and!; try done.
  - unfold app_slot. by rewrite lookup_insert_eq.
  - intros n Hn. rewrite find_channel_insert, find_channel_slot. simpl. by rewrite lookup_insert_ne.
Qed.
End Joins.

(** ** Connection limits, users and watchlists *)

(** With a limit of [max], a new socket is registered exactly when fewer
    than [max] are connected; a refused one leaves the connections as they
    were.  (The code compares in 32 bits, so the count must fit.) *)
Theorem connection_limit m app h max :
  max_connections app = Some max ->
  let id := app_id app in
  let n := connection_count m id in
  handle_for_socket m id (h_socket_id h) = None -> (Z.of_nat n + 1 < 2 ^ 32)%Z ->
  let r := register_connection m app h in
  (is_ok r.1 = true <-> (Z.of_nat n < max)%Z) /\
  (is_ok r.1 = true ->
     handle_for_socket r.2 id (h_socket_id h) = Some h /\ connection_count r.2 id = S n /\
     (Z.of_nat (connection_count r.2 id) <= max)%Z) /\
  (is_ok r.1 = false -> connections (app_slot r.2 id) = connections (app_slot m id)).
Proof.
  intros Hmax id n Hfresh Hbound. unfold register_connection. rewrite Hmax.
  assert (connections (app_slot m id) !! h_socket_id h = None) as Hf.
  { unfold handle_for_socket in Hfresh. unfold app_slot. by destruct (m !! id). }
  assert (size (connections (app_slot m id)) = n) as Hn.
  { unfold n, connection_count, app_slot. by destruct (m !! id). }
  fold id. rewrite map_size_insert_None, Hn by done.
  unfold wrap_u32. rewrite Z.mod_small by lia. simpl.
  destruct (Z.ltb_spec max (Z.of_nat (S n))); simpl.
  - split_and!; [split; [done|lia]|done|]. intros _. unfold app_slot at 1.
    rewrite lookup_insert_eq. simpl. by rewrite delete_insert_id.
  - split_and!; [split; [lia|done]| |done]. intros _.
    unfold handle_for_socket, connection_count. rewrite lookup_insert_eq. simpl.
    rewrite lookup_insert_eq, map_size_insert_None, Hn by done. split_and!; [done|done|lia].
Qed.

(** The sockets a user is signed in on. *)
Definition user_sockets (m : Manager) (id : AppId) (uid : string) : list string :=
  default [] (user_index (app_slot m id) !! uid).

Lemma is_user_online_spec m id u :
  is_user_online m id u = true <-> user_sockets m id u <> [].
Proof.
  unfold is_user_online, user_sockets, app_slot. destruct (m !! id) as [s|]; simpl.
  - by destruct (user_index s !! u) as [[|]|].
  - by rewrite lookup_empty.
Qed.

Lemma user_sockets_insert m id s u :
  user_sockets (<[id := s]> m) id u = default [] (user_index s !! u).
Proof. unfold user_sockets, app_slot. by rewrite lookup_insert_eq. Qed.

Lemma existsb_eqb l s : existsb (fun x => String.eqb x s) l = bool_decide (s ∈ l).
Proof.
  apply eq_true_iff_eq. rewrite existsb_exists, bool_decide_eq_true, list_elem_of_In. split.
  - by intros (x & Hx & ->%String.eqb_eq).
  - intros H. exists s. by rewrite String.eqb_refl.
Qed.

Lemma bind_user_spec m id u s :
  (bind_user m id u s).1 = negb (is_user_online m id u) /\
  (forall v x, x ∈ user_sockets (bind_user m id u s).2 id v <->
     x ∈ user_sockets m id v \/ (v = u /\ x = s)).
Proof.
  unfold bind_user. simpl. split.
  - apply eq_true_iff_eq. rewrite negb_true_iff, <- not_true_iff_false, is_user_online_spec.
    fold (user_sockets m id u). destruct (user_sockets m id u); naive_solver.
  - intros v x. rewrite user_sockets_insert. simpl. rewrite existsb_eqb.
    destruct (decide (v = u)) as [->|Hne].
    + rewrite lookup_insert_eq. simpl. fold (user_sockets m id u).
      case_bool_decide as Hin; [|rewrite elem_of_app, list_elem_of_singleton; naive_solver].
      naive_solver.
    + rewrite lookup_insert_ne by done. fold (user_sockets m id v). naive_solver.
Qed.

Lemma unbind_user_sockets m id u s v x :
  x ∈ user_sockets (unbind_user m id u s).2 id v <->
  x ∈ user_sockets m id v /\ ~ (v = u /\ x = s).
Proof.
  unfold unbind_user. destruct (m !! id) as [slot|] eqn:Em; simpl.
  2:{ unfold user_sockets, app_slot. rewrite Em. simpl. rewrite lookup_empty. simpl. set_solver. }
  assert (forall v, user_sockets m id v = default [] (user_index slot !! v)) as Hu
    by (intros; unfold user_sockets, app_slot; by rewrite Em).
  destruct (user_index slot !! u) as [l|] eqn:El; simpl.
  - assert (forall y, y ∈ List.filter (fun y => negb (String.eqb y s)) l <-> y ∈ l /\ y <> s) as Hf.
    { intros y. rewrite !list_elem_of_In, List.filter_In, negb_true_iff, String.eqb_neq. done. }
    destruct (List.filter _ l) as [|y l'] eqn:Ef; simpl;
      rewrite user_sockets_insert, Hu; simpl; (destruct (decide (v = u)) as [->|Hne];
      [rewrite ?lookup_delete_eq, ?lookup_insert_eq, El|
       rewrite ?lookup_delete_ne, ?lookup_insert_ne by done]); simpl; naive_solver.
  - rewrite Hu. destruct (decide (v = u)) as [->|]; [rewrite El; set_solver|naive_solver].
Qed.

(** Signing in and out: [bind_user] reports a user exactly when it had no
    socket before and [unbind_user] exactly when it loses its last one, the
    sockets of every user change by that one socket only, and a user is online
    precisely while it has a socket. *)
Theorem user_transitions m id u s :
  manager_wf m ->
  let b := bind_user m id u s in
  let r := unbind_user m id u s in
  b.1 = negb (is_user_online m id u) /\ is_user_online b.2 id u = true /\
  (forall v x, x ∈ user_sockets b.2 id v <-> x ∈ user_sockets m id v \/ (v = u /\ x = s)) /\
  (r.1 = true <-> is_user_online m id u = true /\ is_user_online r.2 id u = false) /\
  (forall v x, x ∈ user_sockets r.2 id v <-> x ∈ user_sockets m id v /\ ~ (v = u /\ x = s)).
Proof.
  intros Hwf b r. destruct (bind_user_spec m id u s) as [Hb1 Hb2].
  split_and!; [done| |done| |apply unbind_user_sockets].
  - apply is_user_online_spec. intros He. specialize (Hb2 u s). fold b in Hb2.
    rewrite He in Hb2. set_solver.
  - rewrite <- not_true_iff_false, !is_user_online_spec. unfold r, unbind_user.
    destruct (m !! id) as [slot|] eqn:Em; simpl.
    2:{ split; [done|]. intros [? H]. by destruct H. }
    assert (user_sockets m id u = default [] (user_index slot !! u)) as Hu
      by (unfold user_sockets, app_slot; by rewrite Em).
    destruct (user_index slot !! u) as [l|] eqn:El; simpl.
    + destruct (slot_users _ (Hwf _ _ Em) _ _ El) as [Hl _].
      destruct (List.filter _ l) as [|y l']; simpl; rewrite user_sockets_insert, Hu; simpl;
        rewrite ?lookup_delete_eq, ?lookup_insert_eq; simpl; [naive_solver|].
      split; [done|]. intros [_ H]. by destruct H.
    + split; [done|]. intros [H _]. by rewrite Hu in H.
Qed.

Section Watchlists.
Context `{HI : HashIter}.

(** Who watches [w]. *)
Definition watch_set (m : Manager) (id : AppId) (w : string) : gset string :=
  default ∅ (watchers (app_slot m id) !! w).

Lemma watchers_of_spec m id w x : x ∈ watchers_of m id w <-> x ∈ watch_set m id w.
Proof.
  unfold watchers_of, watch_set, app_slot. destruct (m !! id) as [s|]; simpl.
  - destruct (watchers s !! w); simpl; [apply elem_of_hset_iter|set_solver].
  - rewrite lookup_empty. set_solver.
Qed.

Lemma drop_watches_offline names u ws w :
  default ∅ (drop_watches names false u ws !! w)
  = if decide (w ∈ names) then default ∅ (ws !! w) ∖ {[u]} else default ∅ (ws !! w).
Proof.
  revert ws. induction names as [|n names IH]; intros ws; cbn [drop_watches]; [done|].
  assert (forall ws', default ∅ (ws' !! n) = default ∅ (ws !! n) ∖ {[u]} ->
    (forall w, w <> n -> ws' !! w = ws !! w) ->
    default ∅ (drop_watches names false u ws' !! w)
    = if decide (w ∈ n :: names) then default ∅ (ws !! w) ∖ {[u]} else default ∅ (ws !! w)) as Hstep.
  { intros ws' Hn Ho. rewrite IH. destruct (decide (w = n)) as [->|Hne].
    - rewrite Hn. case_decide as Hd1; case_decide as Hd2; try done; set_solver.
    - rewrite Ho by done. case_decide as Hd1; case_decide as Hd2; try done; set_solver. }
  destruct (ws !! n) as [s|] eqn:E.
  - cbv zeta. apply Hstep.
    + destruct (decide (s ∖ {[u]} = ∅)) as [Hd|Hd]; simpl;
        [rewrite lookup_delete_eq, Hd|rewrite lookup_insert_eq]; done.
    + intros w' Hw. destruct (decide (s ∖ {[u]} = ∅)); [by rewrite lookup_delete_ne|by rewrite lookup_insert_ne].
  - apply Hstep; [|done]. rewrite E. simpl. set_solver.
Qed.

Lemma drop_watches_online names u ws : drop_watches names true u ws = ws.
Proof.
  revert ws. induction names as [|n names IH]; intros ws; simpl; [done|].
  by destruct (ws !! n).
Qed.

(** Adding a watcher adds it to exactly that watchlist entry; dropping the
    watches of a user removes it from every entry when it is offline and does
    nothing while one of its sockets is still signed in. *)
Theorem watchlist_updates m id w u :
  let a := add_watcher m id w u in
  let d := remove_all_watches_for m id u in
  (forall w' x, x ∈ watchers_of a id w' <-> x ∈ watchers_of m id w' \/ (w' = w /\ x = u)) /\
  (forall w' x, x ∈ watchers_of d id w' <->
     x ∈ watchers_of m id w' /\ (x <> u \/ is_user_online m id u = true)).
Proof.
  split; intros w' x; rewrite !watchers_of_spec.
  - unfold add_watcher, watch_set at 1, app_slot at 1. rewrite lookup_insert_eq. simpl.
    destruct (decide (w' = w)) as [->|Hne].
    + rewrite lookup_insert_eq. simpl. fold (watch_set m id w). set_solver.
    + rewrite lookup_insert_ne by done. fold (watch_set m id w'). naive_solver.
  - unfold remove_all_watches_for, is_user_online.
    destruct (m !! id) as [slot|] eqn:Em.
    2:{ unfold watch_set, app_slot. rewrite Em. simpl. rewrite lookup_empty. set_solver. }
    assert (watch_set m id w' = default ∅ (watchers slot !! w')) as Hw
      by (unfold watch_set, app_slot; by rewrite Em).
    rewrite Hw. unfold watch_set, app_slot. rewrite lookup_insert_eq. simpl.
    destruct (match user_index slot !! u with Some (_ :: _) => true | _ => false end).
    + rewrite drop_watches_online. naive_solver.
    + rewrite drop_watches_offline. case_decide as Hd; [set_solver|].
      destruct (watchers slot !! w') eqn:E; simpl; [|set_solver].
      destruct Hd. apply elem_of_hkeys. eauto.
Qed.
End Watchlists.

(** ** Membership

    The sockets in a channel, seen through the manager: what joins, leaves and
    sweeps do to it. *)

Definition chans_seats (chans : gmap string Channel) (name : string) : gmap string Member :=
  match chans !! name with Some ch => ch_members ch | None => ∅ end.

(** The members of a channel, none if there is no such channel. *)
Definition seats (m : Manager) (id : AppId) (name : string) : gmap string Member :=
  chans_seats (channels (app_slot m id)) name.

Definition member (m : Manager) (id : AppId) (name : string) (s : SocketId) : Prop :=
  exists ch, find_channel m id name = Some ch /\ is_Some (ch_members ch !! s).

Definition chans_member (chans : gmap string Channel) (name : string) (s : SocketId) : Prop :=
  exists ch, chans !! name = Some ch /\ is_Some (ch_members ch !! s).

Lemma chans_member_seats chans name s : chans_member chans name s <-> is_Some (chans_seats chans name !! s).
Proof.
  unfold chans_member, chans_seats. destruct (chans !! name); [naive_solver|].
  rewrite lookup_empty. split; [naive_solver|by intros [? [=]]].
Qed.

Lemma member_slot m id name s : member m id name s <-> chans_member (channels (app_slot m id)) name s.
Proof. unfold member, chans_member. by setoid_rewrite find_channel_slot. Qed.

Lemma member_seats m id name s : member m id name s <-> is_Some (seats m id name !! s).
Proof. by rewrite member_slot, chans_member_seats. Qed.

Lemma seats_find m id name :
  seats m id name = match find_channel m id name with Some ch => ch_members ch | None => ∅ end.
Proof. unfold seats, chans_seats. by rewrite find_channel_slot. Qed.

Lemma seats_insert m id slot id' name :
  seats (<[id := slot]> m) id' name = if decide (id' = id) then chans_seats (channels slot) name else seats m id' name.
Proof.
  unfold seats, app_slot. case_decide as Hd; [subst; by rewrite lookup_insert_eq|]. by rewrite lookup_insert_ne.
Qed.

Lemma chans_seats_insert chans name ch name' :
  chans_seats (<[name := ch]> chans) name' = if decide (name' = name) then ch_members ch else chans_seats chans name'.
Proof.
  unfold chans_seats. case_decide as Hd; [subst; by rewrite lookup_insert_eq|]. by rewrite lookup_insert_ne.
Qed.

(** Only channels without members are ever collected. *)
Lemma chans_seats_idle chans name now name' :
  chans_seats (remove_if_idle chans name now).2 name' = chans_seats chans name'.
Proof.
  unfold remove_if_idle. destruct (chans !! name) as [ch|] eqn:E; [|done].
  destruct (idle_test_frame ch now) as (_ & _ & Hm).
  assert ((idle_test ch now).1 = true -> ch_members ch = ∅) as Hempty.
  { unfold idle_test, is_empty. by case_bool_decide. }
  destruct (idle_test ch now) as [[] ch']; simpl in *.
  - unfold chans_seats. destruct (decide (name' = name)) as [->|Hne].
    + rewrite lookup_delete_eq, E. by rewrite Hempty.
    + by rewrite lookup_delete_ne.
  - rewrite chans_seats_insert. case_decide as Hd; [subst|done]. unfold chans_seats. by rewrite E.
Qed.

Lemma default_channel_seats chans name ttl :
  ch_members (default (with_cache_ttl name ttl) (chans !! name)) = chans_seats chans name.
Proof. unfold chans_seats. by destruct (chans !! name). Qed.

Lemma member_insert m id slot id' name s :
  member (<[id := slot]> m) id' name s <->
  if decide (id' = id) then chans_member (channels slot) name s else member m id' name s.
Proof.
  unfold member, chans_member, find_channel. case_decide as Hd; [subst; by rewrite lookup_insert_eq|].
  by rewrite lookup_insert_ne.
Qed.

Lemma chans_member_insert chans name ch name' s :
  chans_member (<[name := ch]> chans) name' s <->
  if decide (name' = name) then is_Some (ch_members ch !! s) else chans_member chans name' s.
Proof.
  unfold chans_member. case_decide as Hd; [subst; rewrite lookup_insert_eq; naive_solver|].
  by rewrite lookup_insert_ne.
Qed.

Lemma chans_member_idle chans name now name' s :
  chans_member (remove_if_idle chans name now).2 name' s <-> chans_member chans name' s.
Proof. by rewrite !chans_member_seats, chans_seats_idle. Qed.

Lemma default_channel_members chans name ttl s :
  is_Some (ch_members (default (with_cache_ttl name ttl) (chans !! name)) !! s) <-> chans_member chans name s.
Proof. by rewrite default_channel_seats, chans_member_seats. Qed.

Lemma subscribe_is_member c s h p s' :
  is_Some (ch_members (subscribe c s h p).2 !! s') <-> is_Some (ch_members c !! s') \/ s' = s.
Proof.
  rewrite subscribe_members. destruct (ch_members c !! s) as [x|] eqn:E.
  - split; [by left|]. intros [?| ->]; [done|eauto].
  - rewrite lookup_insert_is_Some. destruct (decide (s' = s)) as [->|]; naive_solver.
Qed.

Section Membership.
Context `{HI : HashIter} {E : Type}.

(** Whether a join is admitted. *)
Definition admitted (m : Manager) (app : App) (name : ChannelName) (admits : Channel -> E -> bool * E) (e : E) : bool :=
  (admits (default (with_cache_ttl name (from_secs <$> cache_ttl_seconds app))
            (find_channel m (app_id app) name)) e).1.

Lemma subscribe_with_member m app name s h p admits on_sub now (e : E) id' name' s' :
  let r := subscribe_with m app name s h p admits on_sub now e in
  (member r.1.2 id' name' s' <->
   member m id' name' s' \/
   (admitted m app name admits e = true /\ id' = app_id app /\ name' = name /\ s' = s)) /\
  (is_Some r.1.1 <-> admitted m app name admits e = true) /\
  (forall id, other_state (app_slot r.1.2 id) = other_state (app_slot m id)).
Proof.
  unfold admitted, subscribe_with. rewrite find_channel_slot.
  set (slot := app_slot m (app_id app)). set (ch := default _ (channels slot !! name)).
  assert (forall slot', other_state slot' = other_state slot ->
    forall id, other_state (app_slot (<[app_id app := slot']> m) id) = other_state (app_slot m id)) as Hother.
  { intros slot' Hs id. unfold app_slot at 1. destruct (decide (id = app_id app)) as [->|].
    - by rewrite lookup_insert_eq.
    - by rewrite lookup_insert_ne. }
  pose proof (default_channel_members (channels slot) name (from_secs <$> cache_ttl_seconds app)) as Hdef.
  fold ch in Hdef. destruct (admits ch e) as [[] e1]; simpl.
  - pose proof (subscribe_is_member ch s h p) as Hsub.
    destruct (subscribe ch s h p) as [r c]. simpl in Hsub.
    set (cp := if is_cache (ch_kind c) then cached_payload c now else (None, c)).
    assert (ch_members cp.2 = ch_members c) as Hm.
    { unfold cp. destruct (is_cache (ch_kind c)); [apply cached_payload_frame|done]. }
    destruct cp as [pl c2]. simpl in *. split; [|split; [by split; eauto|by apply Hother]].
    rewrite member_insert. case_decide as Hd; [subst id'|naive_solver].
    rewrite member_slot. fold slot. simpl. rewrite chans_member_insert, Hm.
    case_decide as Hn; [subst name'; rewrite Hsub, Hdef|]; naive_solver.
  - split; [|split; [by split; [intros [? [=]]|]|by apply Hother]].
    rewrite member_insert. case_decide as Hd; [subst id'|naive_solver].
    rewrite member_slot. fold slot. simpl. rewrite chans_member_idle, chans_member_insert.
    case_decide as Hn; [subst name'; rewrite Hdef|]; naive_solver.
Qed.

Lemma unsubscribe_with_member m id name s on_unsub now (e : E) id' name' s' :
  let r := unsubscribe_with m id name s on_unsub now e in
  (member r.1.2 id' name' s' <-> member m id' name' s' /\ ~ (id' = id /\ name' = name /\ s' = s)) /\
  (forall i, other_state (app_slot r.1.2 i) = other_state (app_slot m i)).
Proof.
  unfold unsubscribe_with.
  assert (find_channel m id name = None ->
    (member m id' name' s' <-> member m id' name' s' /\ ~ (id' = id /\ name' = name /\ s' = s))) as Hnone.
  { intros Hf. split; [|naive_solver]. intros Hm. split; [done|]. intros (-> & -> & ->).
    destruct Hm as (ch & Hc & _). congruence. }
  unfold find_channel in Hnone. destruct (m !! id) as [slot|] eqn:Em; [|simpl; by split; [apply Hnone|]].
  simpl in Hnone. destruct (channels slot !! name) as [ch|] eqn:Ec; [|simpl; by split; [apply Hnone|]].
  assert (app_slot m id = slot) as Hslot by (unfold app_slot; by rewrite Em).
  pose proof (unsubscribe_members ch s) as Hu. destruct (unsubscribe ch s) as [o c]. simpl in *. split.
  - rewrite member_insert. case_decide as Hd; [subst id'|naive_solver].
    rewrite member_slot, Hslot. simpl. rewrite chans_member_idle, chans_member_insert, Hu.
    case_decide as Hn; [subst name'|naive_solver].
    rewrite lookup_delete_is_Some. unfold chans_member. rewrite Ec. naive_solver.
  - intros i. unfold app_slot at 1. destruct (decide (i = id)) as [->|].
    + by rewrite lookup_insert_eq, Hslot.
    + by rewrite lookup_insert_ne.
Qed.

(** What a join or a leave does to the members of every channel. *)
Lemma subscribe_with_seats m app name s h p admits on_sub now (e : E) id' name' :
  seats (subscribe_with m app name s h p admits on_sub now e).1.2 id' name'
  = if decide (id' = app_id app /\ name' = name /\ admitted m app name admits e = true)
    then ch_members (subscribe (default (with_cache_ttl name (from_secs <$> cache_ttl_seconds app))
                                  (find_channel m (app_id app) name)) s h p).2
    else seats m id' name'.
Proof.
  unfold admitted, subscribe_with. rewrite find_channel_slot.
  set (slot := app_slot m (app_id app)). set (ch := default _ (channels slot !! name)).
  assert (ch_members ch = chans_seats (channels slot) name) as Hdef by apply default_channel_seats.
  destruct (admits ch e) as [[] e1]; simpl.
  - destruct (subscribe ch s h p) as [r c].
    set (cp := if is_cache (ch_kind c) then cached_payload c now else (None, c)).
    assert (ch_members cp.2 = ch_members c) as Hm.
    { unfold cp. destruct (is_cache (ch_kind c)); [apply cached_payload_frame|done]. }
    destruct cp as [pl c2]. simpl in *. rewrite seats_insert. simpl. rewrite chans_seats_insert, Hm.
    repeat case_decide; subst; naive_solver.
  - rewrite (decide_False _ _ (P := _ /\ _ /\ _)) by naive_solver.
    rewrite seats_insert. simpl. rewrite chans_seats_idle, chans_seats_insert.
    repeat case_decide; subst; done.
Qed.

Lemma unsubscribe_with_seats m id name s on_unsub now (e : E) id' name' :
  seats (unsubscribe_with m id name s on_unsub now e).1.2 id' name'
  = if decide (id' = id /\ name' = name) then delete s (seats m id name) else seats m id' name'.
Proof.
  unfold unsubscribe_with.
  assert (find_channel m id name = None -> seats m id' name'
    = if decide (id' = id /\ name' = name) then delete s (seats m id name) else seats m id' name') as Hnone.
  { intros Hf. case_decide as Hd; [|done]. destruct Hd as [-> ->]. rewrite seats_find, Hf. by rewrite delete_empty. }
  unfold find_channel in Hnone. destruct (m !! id) as [slot|] eqn:Em; [|by apply Hnone].
  simpl in Hnone. destruct (channels slot !! name) as [ch|] eqn:Ec; [|by apply Hnone].
  assert (seats m id name = ch_members ch) as Hs by (rewrite seats_find; unfold find_channel; rewrite Em; simpl; by rewrite Ec).
  pose proof (unsubscribe_members ch s) as Hu. destruct (unsubscribe ch s) as [o c]. simpl in *.
  rewrite seats_insert. simpl. rewrite chans_seats_idle, chans_seats_insert, Hs.
  assert (app_slot m id = slot) as Hslot by (unfold app_slot; by rewrite Em).
  repeat case_decide; subst; try naive_solver; unfold seats; by rewrite Hslot.
Qed.

(** The effects a join or a leave runs. *)
Lemma subscribe_with_run m app name s h p admits on_sub now (e : E) :
  (subscribe_with m app name s h p admits on_sub now e).2
  = let ch := default (with_cache_ttl name (from_secs <$> cache_ttl_seconds app)) (find_channel m (app_id app) name) in
    if (admits ch e).1 then on_sub (subscribe ch s h p).2 (subscribe ch s h p).1 (admits ch e).2
    else (admits ch e).2.
Proof.
  unfold subscribe_with. rewrite find_channel_slot. cbv zeta. destruct (admits _ e) as [[] e1]; simpl; [|done].
  destruct (subscribe _ s h p) as [r c]. by destruct (if is_cache (ch_kind c) then cached_payload c now else (None, c)).
Qed.

Lemma unsubscribe_with_run m id name s on_unsub now (e : E) :
  (unsubscribe_with m id name s on_unsub now e).2
  = match find_channel m id name with
    | Some ch => on_unsub (unsubscribe ch s).2 (unsubscribe ch s).1 e
    | None => e
    end.
Proof.
  unfold unsubscribe_with, find_channel. destruct (m !! id) as [slot|]; [|done]. simpl.
  destruct (channels slot !! name) as [ch|]; [|done]. by destruct (unsubscribe ch s).
Qed.

(** Whatever the caller's closures preserve, a join or leave preserves. *)
Lemma subscribe_with_effect (P : E -> Prop) m app name s h p admits on_sub now e :
  (forall ch e, P e -> P (admits ch e).2) -> (forall ch r e, P e -> P (on_sub ch r e)) ->
  P e -> P (subscribe_with m app name s h p admits on_sub now e).2.
Proof.
  intros Ha Hs He. unfold subscribe_with.
  pose proof (Ha (default (with_cache_ttl name (from_secs <$> cache_ttl_seconds app))
    (channels (app_slot m (app_id app)) !! name)) e He) as Ha'.
  destruct (admits _ e) as [[] e1]; simpl in *; [|done].
  destruct (subscribe _ s h p) as [r c].
  destruct (if is_cache (ch_kind c) then cached_payload c now else (None, c)). simpl. auto.
Qed.

Lemma unsubscribe_with_effect (P : E -> Prop) m id name s on_unsub now e :
  (forall ch o e, P e -> P (on_unsub ch o e)) ->
  P e -> P (unsubscribe_with m id name s on_unsub now e).2.
Proof.
  intros Hu He. unfold unsubscribe_with. destruct (m !! id) as [slot|]; [|done].
  destruct (channels slot !! name) as [ch|]; [|done]. destruct (unsubscribe ch s). simpl. auto.
Qed.
End Membership.

(** ** Witnesses *)

Definition demo_app (id : AppId) (max : option Z) : App :=
  {| app_id := id; app_key := "key"; app_secret := "secret"; ping_interval := 60;
     activity_timeout := 30; max_message_size := 10000; max_connections := max;
     accept_client_events_from := AcceptAll; rate_limiting := None; allowed_origins_raw := ["*"];
     allowed_origins := ["*"]; app_webhooks := []; emit_subscription_count := true;
     encryption_master_key := None; cache_ttl_seconds := Some 60%Z;
     max_presence_members_per_channel := 100; max_presence_member_size_bytes := 2048;
     max_channels_per_connection := 100 |}.

#[local] Instance wit_iter : HashIter := canonical_iter.

Definition demo_manager : Manager :=
  (subscribe_with ∅ (demo_app "a" (Some 1%Z)) "room" "1.1" (demo_handle "1.1" 0) None
     (fun _ e => (true, e)) (fun _ _ e => e) 0%Z tt).1.2.

Lemma manager_invariant_witness : manager_wf demo_manager.
Proof.
  apply manager_invariant. eapply reach_step; [apply reach_new|]. apply (step_subscribe unit).
Defined.

Lemma app_isolation_witness :
  (bind_user demo_manager "b" "u" "9.9").2 !! "a" = demo_manager !! "a".
Proof. apply (app_isolation "b"); [apply step_bind|done]. Defined.

Lemma rejected_join_witness :
  find_channel (subscribe_with demo_manager (demo_app "a" None) "other" "1.1" (demo_handle "1.1" 0)
    None (fun _ e => (false, e)) (fun _ _ e => e) 0%Z tt).1.2 "a" "other" = None.
Proof.
  exact (proj2 (proj2 (proj2 (proj2 (rejected_join unit demo_manager (demo_app "a" None) "other"
    "1.1" (demo_handle "1.1" 0) None (fun _ e => (false, e)) (fun _ _ e => e) 0%Z tt eq_refl))))).
Defined.

Lemma admitted_join_witness :
  exists ch, find_channel (subscribe_with demo_manager (demo_app "a" None) "room" "2.2"
    (demo_handle "2.2" 1) None (fun _ e => (true, e)) (fun _ _ e => e) 0%Z tt).1.2 "a" "room"
    = Some ch /\ is_Some (ch_members ch !! "2.2").
Proof.
  destruct (admitted_join unit demo_manager (demo_app "a" None) "room" "2.2" (demo_handle "2.2" 1)
    None (fun _ e => (true, e)) (fun _ _ e => e) 0%Z tt eq_refl)
    as (out & ch & _ & H & _ & Hs & _). eauto.
Defined.

Lemma connection_limit_witness :
  is_ok (register_connection ∅ (demo_app "a" (Some 1%Z)) (demo_handle "1.1" 0)).1 = true.
Proof.
  apply (connection_limit ∅ (demo_app "a" (Some 1%Z)) (demo_handle "1.1" 0) 1%Z eq_refl);
    vm_compute; reflexivity.
Defined.

Lemma user_transitions_witness : (bind_user ∅ "a" "u" "1.1").1 = true.
Proof. apply (user_transitions ∅ "a" "u" "1.1" manager_wf_empty). Defined.
