(* ===== verification/Apps.v ===== *)
(** * zatat-config: the applications table

    Models [crates/zatat-config/src/lib.rs]: how the raw entries of the
    configuration become the table of applications, how [ZATAT_APPS__n__F]
    variables override them, and how a reload compares the old table with the
    new one.  Reading the file and merging values is figment's: a parameter.
    The [server] block is in file Settings. *)

From S2P Require Import Prelude.
From S2P Require Import Core.
From S2P Require Import Json.
From S2P Require Import Manager.
From stdpp Require Import options.

Record RawApp := {
  raw_id : string;
  raw_key : string;
  raw_secret : string;
  raw_ping_interval : Z;
  raw_activity_timeout : Z;
  raw_max_message_size : Z;
  raw_max_connections : option Z;
  raw_allowed_origins : list string;
  raw_accept_client_events_from : AcceptClientEventsFrom;
  raw_rate_limiting : option RateLimitConfig;
  raw_webhooks : list Value;
  raw_emit_subscription_count : bool;
  raw_encryption_master_key : option string;
  raw_cache_ttl_seconds : Z;
  raw_max_presence_members : Z;
  raw_max_presence_member_size : Z;
  raw_max_channels : Z
}.

(** [figment]: layers of values by path, from an entry or empty, and their
    reading back as an entry.  [fig_text] keeps a value as text, [fig_parse]
    reads it as a TOML value. *)
Class Figment := {
  FigError : Type;
  Fig : Type;
  FigValue : Type;
  fig_new : Fig;
  fig_defaults : RawApp -> Fig;
  fig_text : string -> FigValue;
  fig_parse : string -> FigValue;
  fig_merge : Fig -> string -> FigValue -> Fig;
  fig_extract : Fig -> result RawApp FigError
}.

Inductive ConfigError `{FG : Figment} :=
| ErrFigment (e : FigError)
| ErrApplication (e : ApplicationError)
| DuplicateAppKey (key : string)
| DuplicateAppId (id : string)
| AppEnvIndexGap (index count : Z).

Record AppIndex := { by_id : gmap AppId App; by_key : gmap AppKey App }.

Definition app_by_id (idx : AppIndex) (id : AppId) : option App := by_id idx !! id.
Definition app_by_key (idx : AppIndex) (key : AppKey) : option App := by_key idx !! key.

Section Build.
Context `{GL : GlobLib} `{FG : Figment}.

(** The application of one entry. *)
Definition compile_app (raw : RawApp) : result App ApplicationError :=
  match Application_new (raw_id raw) (raw_key raw) (raw_secret raw) (raw_ping_interval raw)
          (raw_activity_timeout raw) (raw_max_message_size raw) (raw_max_connections raw)
          (raw_accept_client_events_from raw) (raw_rate_limiting raw) (raw_allowed_origins raw) with
  | Err e => Err e
  | Ok app =>
      let app := with_webhooks app (raw_webhooks raw) in
      let app := with_subscription_count app (raw_emit_subscription_count raw) in
      let app := with_encryption_master_key app (raw_encryption_master_key raw) in
      let app := with_cache_ttl_seconds app
                   (if (raw_cache_ttl_seconds raw =? 0)%Z then None else Some (raw_cache_ttl_seconds raw)) in
      let app := with_presence_limits app (raw_max_presence_members raw) (raw_max_presence_member_size raw) in
      Ok (with_max_channels_per_connection app (raw_max_channels raw))
  end.

(** The loop over the entries: both tables are filled, a repeated id or key is
    refused. *)
Fixpoint index_apps (raws : list RawApp) (idx : AppIndex) : result AppIndex ConfigError :=
  match raws with
  | [] => Ok idx
  | raw :: rest =>
      match compile_app raw with
      | Err e => Err (ErrApplication e)
      | Ok app =>
          match by_id idx !! app_id app with
          | Some _ => Err (DuplicateAppId (raw_id raw))
          | None =>
              match by_key idx !! app_key app with
              | Some _ => Err (DuplicateAppKey (raw_key raw))
              | None => index_apps rest {| by_id := <[app_id app := app]> (by_id idx);
                                           by_key := <[app_key app := app]> (by_key idx) |}
              end
          end
      end
  end.

Definition build_app_index (raws : list RawApp) : result AppIndex ConfigError :=
  index_apps raws {| by_id := ∅; by_key := ∅ |}.
End Build.

(** ** Reloading *)

Record AppsReload := { loaded : nat; revoked : list AppId; origins_changed : list AppId }.

Section Reload.
Context `{HI : HashIter} `{GL : GlobLib} `{FG : Figment}.

(** One old application against the new table. *)
Definition compare_app (next : AppIndex) (reload : AppsReload) (e : AppId * App) : AppsReload :=
  let '(id, old) := e in
  match by_id next !! id with
  | None => {| loaded := loaded reload; revoked := revoked reload ++ [id];
               origins_changed := origins_changed reload |}
  | Some new =>
      if negb (String.eqb (app_key new) (app_key old))
      then {| loaded := loaded reload; revoked := revoked reload ++ [id];
              origins_changed := origins_changed reload |}
      else if negb (bool_decide (allowed_origins_raw new = allowed_origins_raw old))
      then {| loaded := loaded reload; revoked := revoked reload;
              origins_changed := origins_changed reload ++ [id] |}
      else reload
  end.

(** [raws] is what [load_raw_with] read; on an error the table stays. *)
Definition reload_apps_with (previous : AppIndex) (raws : result (list RawApp) ConfigError)
  : result AppsReload ConfigError * AppIndex :=
  match raws with
  | Err e => (Err e, previous)
  | Ok raws =>
      match build_app_index raws with
      | Err e => (Err e, previous)
      | Ok next =>
          (Ok (foldl (compare_app next)
                 {| loaded := size (by_id next); revoked := []; origins_changed := [] |}
                 (hiter (by_id previous))), next)
      end
  end.
End Reload.

(** ** Environment overrides *)

Definition ENV_PREFIX : string := "ZATAT_".
Definition APP_ENV_PREFIX : string := "ZATAT_APPS__".
Definition APP_TEXT_FIELDS : list string := ["id"; "key"; "secret"; "encryption_master_key"].

(** [s.get(..p.len()).filter(|x| x.eq_ignore_ascii_case(p)).map(|_| &s[p.len()..])]. *)
Definition strip_prefix_ignore_case (p s : string) : option string :=
  let n := String.length p in
  if (n <=? String.length s) && eq_ignore_ascii_case (String.substring 0 n s) p
  then Some (String.substring n (String.length s - n) s) else None.

(** [s.replace("__", ".")]. *)
Fixpoint dotted (s : string) : string :=
  match s with
  | String "_" (String "_" rest) => String "." (dotted rest)
  | String c rest => String c (dotted rest)
  | EmptyString => EmptyString
  end%char.

Definition env_path (name : string) : option string :=
  (fun key => dotted (to_ascii_lowercase key)) <$> strip_prefix_ignore_case ENV_PREFIX name.

(** [str::parse::<usize>]: an optional plus sign, at least one digit, within range. *)
Definition parse_usize (s : string) : option Z :=
  let digits := match s with String "+" rest => rest | _ => s end%char in
  if is_empty_str digits then None
  else match parse_digits digits 0 with
       | Some n => if (n <? 2 ^ 64)%Z then Some n else None
       | None => None
       end.

Definition app_env_index (key : string) : option Z :=
  match strip_prefix_ignore_case "apps__" key with
  | None => None
  | Some rest =>
      match split_once_str "__" rest with
      | None => None
      | Some (index, field) => if is_empty_str field then None else parse_usize index
      end
  end.

(** The application index a variable names, if any. *)
Definition env_target (name : string) : option (Z * string) :=
  match strip_prefix_ignore_case ENV_PREFIX name with
  | None => None
  | Some key =>
      match app_env_index key with
      | None => None
      | Some index =>
          let start := String.length APP_ENV_PREFIX - String.length ENV_PREFIX in
          let rest := String.substring start (String.length key - start) key in
          Some (index, match split_once_str "__" rest with Some (_, f) => f | None => EmptyString end)
      end
  end.

Abbreviation Overrides := (gmap Z (list (string * string))) (only parsing).

Definition collect_override (acc : Overrides) (var : string * string) : Overrides :=
  match env_target var.1 with
  | None => acc
  | Some (index, field) => <[index := default [] (acc !! index) ++ [(field, var.2)]]> acc
  end.

(** A [BTreeMap] is read in the order of its keys. *)
Definition overrides_iter (o : Overrides) : list (Z * list (string * string)) :=
  omap (fun k => (fun v => (k, v)) <$> o !! k) (merge_sort Z.le (elements (dom o))).

Section EnvOverrides.
Context `{FG : Figment}.

Definition merge_field (fig : Fig) (fv : string * string) : Fig :=
  let path := dotted (to_ascii_lowercase fv.1) in
  fig_merge fig path (if existsb (String.eqb path) APP_TEXT_FIELDS then fig_text fv.2 else fig_parse fv.2).

Definition override_app (apps : list RawApp) (index : Z) (fields : list (string * string))
  : result (list RawApp) ConfigError :=
  if (Z.of_nat (length apps) <? index)%Z then Err (AppEnvIndexGap index (Z.of_nat (length apps)))
  else
    let fig := match apps !! Z.to_nat index with
               | Some app => fig_defaults app
               | None => fig_new
               end in
    match fig_extract (foldl merge_field fig fields) with
    | Err e => Err (ErrFigment e)
    | Ok app => if (index =? Z.of_nat (length apps))%Z then Ok (apps ++ [app])
                else Ok (<[Z.to_nat index := app]> apps)
    end.

Fixpoint override_apps (apps : list RawApp) (l : list (Z * list (string * string)))
  : result (list RawApp) ConfigError :=
  match l with
  | [] => Ok apps
  | (index, fields) :: rest =>
      match override_app apps index fields with
      | Err e => Err e
      | Ok apps => override_apps apps rest
      end
  end.

Definition apply_app_env_overrides (apps : list RawApp) (vars : list (string * string))
  : result (list RawApp) ConfigError :=
  override_apps apps (overrides_iter (foldl collect_override ∅ vars)).
End EnvOverrides.

(** ** Properties *)

(** The two tables hold the same applications, each under its own id and key. *)
Record index_wf (idx : AppIndex) : Prop := {
  index_ids : forall id a, by_id idx !! id = Some a -> app_id a = id;
  index_keys : forall key a, by_key idx !! key = Some a -> app_key a = key;
  index_same : forall a, by_id idx !! app_id a = Some a <-> by_key idx !! app_key a = Some a
}.

Lemma index_wf_empty : index_wf {| by_id := ∅; by_key := ∅ |}.
Proof. split; simpl; intros; by rewrite ?lookup_empty in *. Qed.

Lemma index_wf_insert idx a :
  index_wf idx -> by_id idx !! app_id a = None -> by_key idx !! app_key a = None ->
  index_wf {| by_id := <[app_id a := a]> (by_id idx); by_key := <[app_key a := a]> (by_key idx) |}.
Proof.
  intros [H1 H2 H3] Hi Hk. split; simpl.
  - intros id b [[<- <-]|[_ H]]%lookup_insert_Some; auto.
  - intros key b [[<- <-]|[_ H]]%lookup_insert_Some; auto.
  - intros b. rewrite !lookup_insert_Some, H3.
    split; (intros [[_ <-]|[Hne H]]; [by left|right]); split; try done; intros Heq.
    + rewrite Heq in Hk. congruence.
    + apply H3 in H. rewrite Heq in Hi. congruence.
Qed.

Section BuildProps.
Context `{GL : GlobLib} `{FG : Figment}.

Lemma compile_app_names raw app :
  compile_app raw = Ok app -> app_id app = raw_id raw /\ app_key app = raw_key raw.
Proof.
  unfold compile_app, Application_new. destruct (build_origin_globset _); [|done]. by intros [= <-].
Qed.

Lemma index_apps_Ok raws idx idx' :
  index_wf idx -> index_apps raws idx = Ok idx' ->
  index_wf idx' /\ dom (by_id idx') = dom (by_id idx) ∪ list_to_set (raw_id <$> raws) /\
  size (by_id idx') = size (by_id idx) + length raws /\
  NoDup (raw_id <$> raws) /\ NoDup (raw_key <$> raws) /\
  (forall raw, raw ∈ raws -> by_id idx !! raw_id raw = None /\ by_key idx !! raw_key raw = None /\
     exists app, compile_app raw = Ok app /\ by_id idx' !! raw_id raw = Some app) /\
  (forall id a, by_id idx !! id = Some a -> by_id idx' !! id = Some a).
Proof.
  revert idx. induction raws as [|raw raws IH]; intros idx Hw; simpl.
  { intros [= <-]. split; [done|]. split; [set_solver|]. split; [lia|].
    split; [constructor|]. split; [constructor|]. set_solver. }
  destruct (compile_app raw) as [app|] eqn:Ec; [|done].
  destruct (compile_app_names _ _ Ec) as [Hid Hkey]. rewrite Hid, Hkey.
  destruct (by_id idx !! raw_id raw) eqn:Ei; [done|].
  destruct (by_key idx !! raw_key raw) eqn:Ek; [done|]. intros H.
  rewrite <- Hid, <- Hkey in H. apply IH in H as (H1 & H2 & H3 & H4 & H5 & H6 & H7);
    [|by apply index_wf_insert; rewrite ?Hid, ?Hkey].
  simpl in *. rewrite Hid, Hkey in *. split_and!; [done|set_solver| | | | |].
  - rewrite H3, map_size_insert_None by done. lia.
  - constructor; [|done]. intros (r & Hr & Hin)%list_elem_of_fmap.
    destruct (H6 r Hin) as (Hn & _). rewrite <- Hr, lookup_insert_eq in Hn. done.
  - constructor; [|done]. intros (r & Hr & Hin)%list_elem_of_fmap.
    destruct (H6 r Hin) as (_ & Hn & _). rewrite <- Hr, lookup_insert_eq in Hn. done.
  - intros r [->|Hin]%elem_of_cons.
    + split_and!; [done|done|]. exists app. split; [done|]. apply H7. by rewrite lookup_insert_eq.
    + destruct (H6 r Hin) as (Hn & Hn' & Hx).
      apply lookup_insert_None in Hn as [Hn _]. by apply lookup_insert_None in Hn' as [Hn' _].
  - intros id a Ha. apply H7. rewrite lookup_insert_ne; [done|]. intros <-. congruence.
Qed.

Lemma index_apps_succeeds raws idx :
  (forall raw, raw ∈ raws -> is_ok (compile_app raw) = true /\ by_id idx !! raw_id raw = None /\
     by_key idx !! raw_key raw = None) ->
  NoDup (raw_id <$> raws) -> NoDup (raw_key <$> raws) -> is_ok (index_apps raws idx) = true.
Proof.
  revert idx. induction raws as [|raw raws IH]; intros idx H Hi Hk; simpl; [done|].
  destruct (H raw) as (Hc & Hni & Hnk); [by left|].
  destruct (compile_app raw) as [app|] eqn:Ec; [|done].
  destruct (compile_app_names _ _ Ec) as [-> ->]. rewrite Hni, Hnk.
  apply NoDup_cons in Hi as [Hi1 Hi2]. apply NoDup_cons in Hk as [Hk1 Hk2].
  apply IH; [|done|done]. intros r Hin. destruct (H r) as (Hc' & Hni' & Hnk'); [by right|]. simpl.
  split; [done|]. split.
  - rewrite lookup_insert_ne; [done|]. intros Heq. apply Hi1. rewrite Heq. by apply list_elem_of_fmap_2.
  - rewrite lookup_insert_ne; [done|]. intros Heq. apply Hk1. rewrite Heq. by apply list_elem_of_fmap_2.
Qed.

(** The table of applications is built exactly when every entry compiles and
    no id and no key repeats; it then holds each entry under its id and its
    key, and nothing else. *)
Theorem app_index_exact raws :
  (is_ok (build_app_index raws) = true <->
     (forall raw, raw ∈ raws -> is_ok (compile_app raw) = true) /\
     NoDup (raw_id <$> raws) /\ NoDup (raw_key <$> raws)) /\
  forall idx, build_app_index raws = Ok idx ->
    index_wf idx /\ size (by_id idx) = length raws /\
    (forall raw, raw ∈ raws -> exists app, compile_app raw = Ok app /\
       app_by_id idx (raw_id raw) = Some app /\ app_by_key idx (raw_key raw) = Some app) /\
    (forall id, is_Some (app_by_id idx id) <-> id ∈ raw_id <$> raws).
Proof.
  unfold build_app_index. split.
  - split.
    + destruct (index_apps raws _) as [idx|] eqn:E; [|done]. intros _.
      apply index_apps_Ok in E as (_ & _ & _ & H4 & H5 & H6 & _); [|apply index_wf_empty].
      split; [|done]. intros raw Hin. by destruct (H6 raw Hin) as (_ & _ & app & -> & _).
    + intros (Hc & Hi & Hk). apply index_apps_succeeds; [|done|done].
      intros raw Hin. split; [by apply Hc|]. split; apply lookup_empty.
  - intros idx E. apply index_apps_Ok in E as (H1 & H2 & H3 & _ & _ & H6 & _); [|apply index_wf_empty].
    simpl in *. rewrite map_size_empty in H3. split_and!; [done|done| |].
    + intros raw Hin. destruct (H6 raw Hin) as (_ & _ & app & Hc & Ha). exists app.
      destruct (compile_app_names _ _ Hc) as [Hid Hkey]. split_and!; [done|done|].
      unfold app_by_key. rewrite <- Hkey. apply H1. by rewrite Hid.
    + intros id. unfold app_by_id. rewrite <- elem_of_dom, H2. set_solver.
Qed.
End BuildProps.

Section ReloadProps.
Context `{HI : HashIter} `{GL : GlobLib} `{FG : Figment}.

(** Whether an application kept its identity, and its origin list. *)
Definition identity_lost (old : App) (next : AppIndex) : Prop :=
  match by_id next !! app_id old with
  | None => True
  | Some new => app_key new <> app_key old
  end.
Definition origins_differ (old : App) (next : AppIndex) : Prop :=
  exists new, by_id next !! app_id old = Some new /\ app_key new = app_key old /\
    allowed_origins_raw new <> allowed_origins_raw old.

Lemma compare_step next r old :
  let r' := compare_app next r (app_id old, old) in
  loaded r' = loaded r /\
  (forall x, x ∈ revoked r' <-> x ∈ revoked r \/ (x = app_id old /\ identity_lost old next)) /\
  (forall x, x ∈ origins_changed r' <->
     x ∈ origins_changed r \/ (x = app_id old /\ origins_differ old next)).
Proof.
  unfold compare_app, identity_lost, origins_differ.
  destruct (by_id next !! app_id old) as [new|]; simpl.
  - destruct (String.eqb_spec (app_key new) (app_key old)); simpl;
      [case_bool_decide; simpl|]; split_and!; try done; intros x;
      rewrite ?elem_of_app, ?list_elem_of_singleton; naive_solver.
  - split_and!; [done| |]; intros x; rewrite ?elem_of_app, ?list_elem_of_singleton; naive_solver.
Qed.

Lemma compare_fold next l r :
  (forall id old, (id, old) ∈ l -> app_id old = id) ->
  let r' := foldl (compare_app next) r l in
  loaded r' = loaded r /\
  (forall id, id ∈ revoked r' <-> id ∈ revoked r \/ exists old, (id, old) ∈ l /\ identity_lost old next) /\
  (forall id, id ∈ origins_changed r' <->
     id ∈ origins_changed r \/ exists old, (id, old) ∈ l /\ origins_differ old next).
Proof.
  revert r. induction l as [|[id0 old0] l IH]; intros r Hl; [cbn [foldl]; set_solver|].
  assert (app_id old0 = id0) as <- by (apply Hl; by left).
  cbn [foldl]. destruct (compare_step next r old0) as (S1 & S2 & S3).
  destruct (IH (compare_app next r (app_id old0, old0))) as (H1 & H2 & H3);
    [intros; apply Hl; by right|].
  rewrite H1. setoid_rewrite H2. setoid_rewrite H3. setoid_rewrite S2. setoid_rewrite S3.
  setoid_rewrite elem_of_cons. split_and!; [done| |]; intros id; naive_solver.
Qed.

Lemma reload_spec previous raws r next :
  index_wf previous -> reload_apps_with previous raws = (Ok r, next) ->
  index_wf next /\ loaded r = size (by_id next) /\
  (forall id, id ∈ revoked r <->
     exists old, app_by_id previous id = Some old /\ identity_lost old next) /\
  (forall id, id ∈ origins_changed r <->
     exists old, app_by_id previous id = Some old /\ origins_differ old next).
Proof.
  intros Hp. unfold reload_apps_with. destruct raws as [raws|]; [|done].
  destruct (build_app_index raws) as [idx|] eqn:E; [|done]. intros [= <- <-].
  apply index_apps_Ok in E as [Hw _]; [|apply index_wf_empty].
  match goal with |- context [foldl ?f ?a ?l] => destruct (compare_fold idx l a) as (H1 & H2 & H3) end.
  { intros id old Hin. apply elem_of_hiter in Hin. by apply (index_ids _ Hp). }
  simpl in *. split_and!; [done|done| |]; intros id; [rewrite H2|rewrite H3]; setoid_rewrite elem_of_hiter;
    unfold app_by_id; set_solver.
Qed.
End ReloadProps.

(** ** Overrides touch only the applications they name *)

Lemma collect_override_dom vars acc i :
  is_Some (foldl collect_override acc vars !! i) <->
  is_Some (acc !! i) \/ exists var f, var ∈ vars /\ env_target var.1 = Some (i, f).
Proof.
  revert acc. induction vars as [|var vars IH]; intros acc; cbn [foldl]; [set_solver|].
  rewrite IH. setoid_rewrite elem_of_cons. unfold collect_override.
  destruct (env_target var.1) as [[j f]|] eqn:E; [|naive_solver].
  rewrite lookup_insert_is_Some. destruct (decide (j = i)) as [->|]; naive_solver.
Qed.

Lemma overrides_iter_spec (o : Overrides) i v : (i, v) ∈ overrides_iter o <-> o !! i = Some v.
Proof.
  unfold overrides_iter. rewrite list_elem_of_omap. setoid_rewrite merge_sort_Permutation.
  setoid_rewrite elem_of_elements. setoid_rewrite elem_of_dom. split.
  - intros (k & Hk & H). destruct (o !! k) as [w|] eqn:E; simpl in H; naive_solver.
  - intros H. exists i. rewrite H. eauto.
Qed.

Lemma parse_digits_nonneg s acc n : (0 <= acc)%Z -> parse_digits s acc = Some n -> (0 <= n)%Z.
Proof.
  revert acc. induction s as [|c s IH]; intros acc H; simpl; [by intros [= <-]|].
  destruct (_ && _); [|done]. apply IH. lia.
Qed.

Lemma env_target_nonneg name i f : env_target name = Some (i, f) -> (0 <= i)%Z.
Proof.
  unfold env_target, app_env_index. destruct (strip_prefix_ignore_case _ _) as [key|]; [|done].
  destruct (strip_prefix_ignore_case "apps__" key) as [rest|]; [|done].
  destruct (split_once_str "__" rest) as [[index field]|]; [|done].
  destruct (is_empty_str field); [done|]. unfold parse_usize. cbv zeta.
  destruct (is_empty_str _); [done|]. destruct (parse_digits _ 0) as [n|] eqn:E; [|done].
  destruct (n <? 2 ^ 64)%Z; [|done]. intros [= <- _]. by eapply parse_digits_nonneg.
Qed.

Section EnvProps.
Context `{FG : Figment}.

Lemma override_app_spec apps index fields apps' :
  (0 <= index)%Z -> override_app apps index fields = Ok apps' ->
  length apps <= length apps' /\
  (forall i a, apps !! i = Some a -> Z.of_nat i <> index -> apps' !! i = Some a) /\
  (forall i, length apps <= i < length apps' -> Z.of_nat i = index).
Proof.
  intros H0. unfold override_app. destruct (Z.ltb_spec (Z.of_nat (length apps)) index) as [|Hle]; [done|].
  destruct (fig_extract _) as [app|]; [|done].
  destruct (Z.eqb_spec index (Z.of_nat (length apps))) as [->|Hne]; intros [= <-].
  - rewrite length_app. simpl. split_and!; [lia| |lia]. intros i a Ha _. by apply lookup_app_l_Some.
  - rewrite length_insert. split_and!; [lia| |lia]. intros i a Ha Hi. rewrite list_lookup_insert_ne; [done|lia].
Qed.

Lemma override_apps_spec l apps apps' :
  (forall i f, (i, f) ∈ l -> (0 <= i)%Z) -> override_apps apps l = Ok apps' ->
  length apps <= length apps' /\
  (forall i a, apps !! i = Some a -> (forall f, (Z.of_nat i, f) ∉ l) -> apps' !! i = Some a) /\
  (forall i, length apps <= i < length apps' -> exists f, (Z.of_nat i, f) ∈ l).
Proof.
  revert apps. induction l as [|[index fields] l IH]; intros apps Hl; simpl.
  { intros [= <-]. split_and!; [done|done|lia]. }
  destruct (override_app apps index fields) as [apps1|] eqn:E; [|done]. intros H.
  apply override_app_spec in E as (A1 & A2 & A3); [|eapply Hl; by left].
  apply IH in H as (B1 & B2 & B3); [|intros; eapply Hl; by right].
  setoid_rewrite elem_of_cons. split_and!; [lia| |].
  - intros i a Ha Hn. apply B2; [|naive_solver]. apply A2; [done|]. intros <-. naive_solver.
  - intros i Hi. destruct (decide (i < length apps1)) as [Hlt|Hge].
    + rewrite <- (A3 i) by lia. eauto.
    + destruct (B3 i) as [f Hf]; [lia|]. eauto.
Qed.

(** An environment variable changes only the application whose index it names,
    and an application is added only where a variable names it: the entries of
    the file that no variable addresses are read as they are. *)
Theorem env_overrides_local apps vars apps' :
  apply_app_env_overrides apps vars = Ok apps' ->
  length apps <= length apps' /\
  (forall i a, apps !! i = Some a ->
     (forall var f, var ∈ vars -> env_target var.1 <> Some (Z.of_nat i, f)) -> apps' !! i = Some a) /\
  (forall i, length apps <= i < length apps' ->
     exists var f, var ∈ vars /\ env_target var.1 = Some (Z.of_nat i, f)).
Proof.
  intros H. pose proof (collect_override_dom vars ∅) as Hd.
  apply override_apps_spec in H as (H1 & H2 & H3).
  - split_and!; [done| |].
    + intros i a Ha Hn. apply H2; [done|]. intros f Hf%overrides_iter_spec.
      destruct (proj1 (Hd (Z.of_nat i)) (ex_intro _ f Hf)) as [[? He]|(var & g & Hv & Hg)];
        [by rewrite lookup_empty in He|]. by eapply Hn.
    + intros i Hi. destruct (H3 i Hi) as [f Hf%overrides_iter_spec].
      destruct (proj1 (Hd (Z.of_nat i)) (ex_intro _ f Hf)) as [[? He]|Hx]; [by rewrite lookup_empty in He|done].
  - intros i f Hf%overrides_iter_spec.
    destruct (proj1 (Hd i) (ex_intro _ f Hf)) as [[? He]|(var & g & Hv & Hg)]; [by rewrite lookup_empty in He|].
    by eapply env_target_nonneg.
Qed.
End EnvProps.

Example env_index_example :
  env_target "zatat_apps__0__SECRET" = Some (0%Z, "SECRET") /\ env_path "ZATAT_SERVER__TLS__CERT" = Some "server.tls.cert".
Proof. split; reflexivity. Qed.

(** ** Witness *)

Section Witness.
(** A library that keeps the entry it is given and reads back its text values. *)
#[local] Instance a_figment : Figment :=
  {| FigError := unit; Fig := option RawApp; FigValue := string; fig_new := None; fig_defaults := Some;
     fig_text := fun s => s; fig_parse := fun s => s; fig_merge := fun f _ _ => f;
     fig_extract := fun f => match f with Some a => Ok a | None => Err tt end |}.

Definition plain_raw (id : string) : RawApp :=
  {| raw_id := id; raw_key := "key"; raw_secret := "secret"; raw_ping_interval := 60;
     raw_activity_timeout := 30; raw_max_message_size := 10000; raw_max_connections := None;
     raw_allowed_origins := ["*"]; raw_accept_client_events_from := AcceptMembers;
     raw_rate_limiting := None; raw_webhooks := []; raw_emit_subscription_count := false;
     raw_encryption_master_key := None; raw_cache_ttl_seconds := 1800; raw_max_presence_members := 100;
     raw_max_presence_member_size := 2048; raw_max_channels := 100 |}.

Lemma env_overrides_local_witness :
  apply_app_env_overrides [plain_raw "a"; plain_raw "b"] [("ZATAT_APPS__1__SECRET", "s")]
    = Ok [plain_raw "a"; plain_raw "b"] /\
  [plain_raw "a"; plain_raw "b"] !! 0 = Some (plain_raw "a").
Proof.
  split; [vm_compute; reflexivity|].
  destruct (env_overrides_local [plain_raw "a"; plain_raw "b"] [("ZATAT_APPS__1__SECRET", "s")]
    [plain_raw "a"; plain_raw "b"]) as (_ & H & _); [vm_compute; reflexivity|].
  apply (H 0 (plain_raw "a") eq_refl).
  intros var f ->%list_elem_of_singleton. vm_compute. discriminate.
Defined.
End Witness.
