(* ===== verification/Settings.v ===== *)
(** * zatat-config: the server block and the loading of a configuration

    Models [crates/zatat-config/src/lib.rs] apart from the table of applications
    (file Apps): the raw server block with the defaults of its fields, its
    compilation, and the loading of a file overlaid with the environment.
    Reading TOML and merging layers is the figment crate, a parameter; which
    variable sets what, and as text or as a parsed value, is the code's. *)

From S2P Require Import Prelude.
From S2P Require Import Core.
From S2P Require Import Json.
From S2P Require Import Manager.
From S2P Require Import Apps.
From stdpp Require Import options.

(** ** The compiled settings *)

Inductive OverflowMode := ModeBestEffort | ModeBlock.

Record TlsConfig := { tls_cert : string; tls_key : string }.

Record RedisConfig := {
  redis_url : option string;
  redis_host : string;
  redis_port : Z;
  redis_db : Z;
  redis_username : option string;
  redis_password : option string;
  redis_timeout_seconds : Z
}.

Record ScalingConfig := {
  sc_enabled : bool;
  sc_channel : string;
  sc_redis : RedisConfig;
  sc_overflow_mode : OverflowMode
}.

Record PrometheusConfig := { pm_listen : string; pm_bearer_token : option string }.

Record ServerConfig := {
  sv_host : string;
  sv_port : Z;
  sv_path : string;
  sv_max_request_size : Z;
  sv_restart_signal_file : string;
  sv_restart_poll_interval : Duration;
  sv_tls : option TlsConfig;
  sv_scaling : option ScalingConfig;
  sv_prometheus : option PrometheusConfig;
  sv_webhook_overflow_mode : OverflowMode
}.

(** ** The raw settings and the defaults of their fields *)

Definition default_host : string := "0.0.0.0".
Definition default_port : Z := 8080.
Definition default_max_request_size : Z := 10000.
Definition default_restart_signal_file : string := "/tmp/zatat.restart".
Definition default_restart_poll : Z := 5.
Definition default_scaling_channel : string := "zatat".
Definition default_redis_host : string := "127.0.0.1".
Definition default_redis_port : Z := 6379.
Definition default_redis_timeout : Z := 60.
Definition default_prometheus_listen : string := "127.0.0.1:9090".
Definition default_ping_interval : Z := 30.
Definition default_activity_timeout : Z := 30.
Definition default_max_message_size : Z := 10000.
Definition default_cache_ttl_seconds : Z := 1800.

Inductive RawOverflowMode := RawBestEffort | RawBlock.

Definition RawOverflowMode_default : RawOverflowMode := RawBestEffort.

Definition overflow_of_raw (r : RawOverflowMode) : OverflowMode :=
  match r with RawBestEffort => ModeBestEffort | RawBlock => ModeBlock end.

Record RawTls := { rt_cert : string; rt_key : string }.

Record RawRedis := {
  rr_url : option string;
  rr_host : string;
  rr_port : Z;
  rr_db : Z;
  rr_username : option string;
  rr_password : option string;
  rr_timeout_seconds : Z
}.

Definition RawRedis_default : RawRedis :=
  {| rr_url := None; rr_host := default_redis_host; rr_port := default_redis_port; rr_db := 0;
     rr_username := None; rr_password := None; rr_timeout_seconds := default_redis_timeout |}.

Record RawScaling := {
  rs_enabled : bool;
  rs_channel : string;
  rs_redis : RawRedis;
  rs_overflow_mode : RawOverflowMode
}.

Record RawPrometheus := { rp_listen : string; rp_bearer_token : option string }.

Record RawServer := {
  rv_host : string;
  rv_port : Z;
  rv_path : string;
  rv_max_request_size : Z;
  rv_restart_signal_file : string;
  rv_restart_poll_interval_seconds : Z;
  rv_tls : option RawTls;
  rv_scaling : option RawScaling;
  rv_prometheus : option RawPrometheus;
  rv_webhook_overflow_mode : RawOverflowMode
}.

Definition RawServer_default : RawServer :=
  {| rv_host := default_host; rv_port := default_port; rv_path := EmptyString;
     rv_max_request_size := default_max_request_size;
     rv_restart_signal_file := default_restart_signal_file;
     rv_restart_poll_interval_seconds := default_restart_poll;
     rv_tls := None; rv_scaling := None; rv_prometheus := None;
     rv_webhook_overflow_mode := RawOverflowMode_default |}.

Record RawConfig := { raw_server : RawServer; raw_apps : list RawApp }.

(** ** Deserialization with defaults

    What a layered configuration says of a block: a field is [None] when no
    layer sets it, and the [serde(default)] attributes fill it in. *)

Record RedisFields := {
  rf_url : option string; rf_host : option string; rf_port : option Z; rf_db : option Z;
  rf_username : option string; rf_password : option string; rf_timeout_seconds : option Z
}.

Definition RawRedis_de (f : RedisFields) : RawRedis :=
  {| rr_url := rf_url f; rr_host := default default_redis_host (rf_host f);
     rr_port := default default_redis_port (rf_port f); rr_db := default 0%Z (rf_db f);
     rr_username := rf_username f; rr_password := rf_password f;
     rr_timeout_seconds := default default_redis_timeout (rf_timeout_seconds f) |}.

Record ScalingFields := {
  sf_enabled : option bool; sf_channel : option string; sf_redis : option RedisFields;
  sf_overflow_mode : option RawOverflowMode
}.

Definition RawScaling_de (f : ScalingFields) : RawScaling :=
  {| rs_enabled := default false (sf_enabled f);
     rs_channel := default default_scaling_channel (sf_channel f);
     rs_redis := match sf_redis f with Some r => RawRedis_de r | None => RawRedis_default end;
     rs_overflow_mode := default RawOverflowMode_default (sf_overflow_mode f) |}.

Record PrometheusFields := { pf_listen : option string; pf_bearer_token : option string }.

Definition RawPrometheus_de (f : PrometheusFields) : RawPrometheus :=
  {| rp_listen := default default_prometheus_listen (pf_listen f); rp_bearer_token := pf_bearer_token f |}.

Record ServerFields := {
  vf_host : option string; vf_port : option Z; vf_path : option string; vf_max_request_size : option Z;
  vf_restart_signal_file : option string; vf_restart_poll_interval_seconds : option Z;
  vf_tls : option RawTls; vf_scaling : option ScalingFields; vf_prometheus : option PrometheusFields;
  vf_webhook_overflow_mode : option RawOverflowMode
}.

Definition RawServer_de (f : ServerFields) : RawServer :=
  {| rv_host := default default_host (vf_host f); rv_port := default default_port (vf_port f);
     rv_path := default EmptyString (vf_path f);
     rv_max_request_size := default default_max_request_size (vf_max_request_size f);
     rv_restart_signal_file := default default_restart_signal_file (vf_restart_signal_file f);
     rv_restart_poll_interval_seconds := default default_restart_poll (vf_restart_poll_interval_seconds f);
     rv_tls := vf_tls f; rv_scaling := RawScaling_de <$> vf_scaling f;
     rv_prometheus := RawPrometheus_de <$> vf_prometheus f;
     rv_webhook_overflow_mode := default RawOverflowMode_default (vf_webhook_overflow_mode f) |}.

(** A scalar of a layer, and its text: string fields accept any scalar.  The
    text of a float is the standard library's. *)
Inductive Scalar := SText (s : string) | SInt (z : Z) | SFloat (text : string) | SBool (b : bool) | SChar (c : string).

Definition ScalarString (v : Scalar) : string :=
  match v with
  | SText s => s
  | SInt z => dec_signed z
  | SFloat t => t
  | SBool b => if b then "true" else "false"
  | SChar c => c
  end.

Definition scalar_string (v : Scalar) : string := ScalarString v.
Definition opt_scalar_string (v : option Scalar) : option string := ScalarString <$> v.

(** ** Loading *)

Definition SERVER_TEXT_FIELDS : list string :=
  ["server.host"; "server.path"; "server.restart_signal_file"; "server.tls.cert"; "server.tls.key";
   "server.scaling.channel"; "server.scaling.redis.url"; "server.scaling.redis.host";
   "server.scaling.redis.username"; "server.scaling.redis.password"; "server.prometheus.listen";
   "server.prometheus.bearer_token"].

(** figment on whole configurations: the layer of a TOML file, by its contents
    ([None] when there is no such file), and the fields the layers set. *)
Class ConfigLayers `{FG : Figment} := {
  fig_toml : Fig -> option string -> Fig;
  fig_extract_config : Fig -> result (option ServerFields * option (list RawApp)) FigError
}.

(** The figment layer of one variable, if it is not an application's. *)
Definition server_layer (var : string * string) : option (string * bool * string) :=
  match env_path var.1 with
  | None => None
  | Some path =>
      if is_empty_str path then None
      else
        let key := String.substring (String.length ENV_PREFIX)
                     (String.length var.1 - String.length ENV_PREFIX) var.1 in
        if starts_with "apps." path && bool_decide (is_Some (app_env_index key)) then None
        else Some (path, existsb (String.eqb path) SERVER_TEXT_FIELDS, var.2)
  end.

Record LoadedConfig := { lc_server : ServerConfig; lc_apps : AppIndex }.

Section Load.
Context `{FG : Figment} `{CL : !ConfigLayers} `{GL : GlobLib} `{HI : HashIter}.

Definition merge_var (fig : Fig) (var : string * string) : Fig :=
  match server_layer var with
  | None => fig
  | Some (path, text, value) => fig_merge fig path (if (text : bool) then fig_text value else fig_parse value)
  end.

Definition load_raw_with (file : option (option string)) (vars : list (string * string))
  : result RawConfig ConfigError :=
  let fig := match file with Some contents => fig_toml fig_new contents | None => fig_new end in
  match fig_extract_config (foldl merge_var fig vars) with
  | Err e => Err (ErrFigment e)
  | Ok (server, apps) =>
      match apply_app_env_overrides (default [] apps) vars with
      | Err e => Err e
      | Ok apps => Ok {| raw_server := match server with Some f => RawServer_de f | None => RawServer_default end;
                         raw_apps := apps |}
      end
  end.

Definition compile_server (s : RawServer) : ServerConfig :=
  {| sv_host := rv_host s; sv_port := rv_port s; sv_path := rv_path s;
     sv_max_request_size := rv_max_request_size s;
     sv_restart_signal_file := rv_restart_signal_file s;
     sv_restart_poll_interval := from_secs (rv_restart_poll_interval_seconds s);
     sv_tls := (fun t => {| tls_cert := rt_cert t; tls_key := rt_key t |}) <$> rv_tls s;
     sv_scaling := (fun c => {| sc_enabled := rs_enabled c; sc_channel := rs_channel c;
        sc_redis := {| redis_url := rr_url (rs_redis c); redis_host := rr_host (rs_redis c);
                       redis_port := rr_port (rs_redis c); redis_db := rr_db (rs_redis c);
                       redis_username := rr_username (rs_redis c); redis_password := rr_password (rs_redis c);
                       redis_timeout_seconds := rr_timeout_seconds (rs_redis c) |};
        sc_overflow_mode := overflow_of_raw (rs_overflow_mode c) |}) <$> rv_scaling s;
     sv_prometheus := (fun p => {| pm_listen := rp_listen p; pm_bearer_token := rp_bearer_token p |})
                        <$> rv_prometheus s;
     sv_webhook_overflow_mode := overflow_of_raw (rv_webhook_overflow_mode s) |}.

Definition compile (raw : RawConfig) : result LoadedConfig ConfigError :=
  match build_app_index (raw_apps raw) with
  | Err e => Err e
  | Ok index => Ok {| lc_server := compile_server (raw_server raw); lc_apps := index |}
  end.

(** [Config::load] and [Config::load_from_env]. *)
Definition Config_load (contents : option string) (vars : list (string * string)) : result LoadedConfig ConfigError :=
  match load_raw_with (Some contents) vars with Err e => Err e | Ok raw => compile raw end.

Definition Config_load_from_env (vars : list (string * string)) : result LoadedConfig ConfigError :=
  match load_raw_with None vars with Err e => Err e | Ok raw => compile raw end.

(** [Config::reload_apps_from]: the applications of the file, the server block
    of the running configuration. *)
Definition reload_apps_from (c : LoadedConfig) (contents : option string) (vars : list (string * string))
  : result AppsReload ConfigError * LoadedConfig :=
  let raws := match load_raw_with (Some contents) vars with Err e => Err e | Ok raw => Ok (raw_apps raw) end in
  let '(r, next) := reload_apps_with (lc_apps c) raws in
  (r, {| lc_server := lc_server c; lc_apps := next |}).
End Load.

(** ** Properties *)

(** The key of a variable: its name without the prefix. *)
Definition env_key (name : string) : option string := strip_prefix_ignore_case ENV_PREFIX name.

Lemma substring_strip p name key :
  strip_prefix_ignore_case p name = Some key ->
  String.substring (String.length p) (String.length name - String.length p) name = key.
Proof. unfold strip_prefix_ignore_case. destruct (_ && _); [by intros [= <-]|done]. Qed.

Lemma env_target_key name :
  is_Some (env_target name) <-> exists key, env_key name = Some key /\ is_Some (app_env_index key).
Proof.
  unfold env_target, env_key. destruct (strip_prefix_ignore_case ENV_PREFIX name) as [key|].
  - destruct (app_env_index key) as [i|] eqn:E; [naive_solver|].
    split; [by intros [? H]|]. intros (k & [= <-] & H). rewrite E in H. by destruct H.
  - split; [by intros [? H]|naive_solver].
Qed.

Lemma length_to_lower s : String.length (to_ascii_lowercase s) = String.length s.
Proof. induction s; simpl; auto. Qed.

Lemma lower_substring n s :
  to_ascii_lowercase (String.substring 0 n s) = String.substring 0 n (to_ascii_lowercase s).
Proof. revert n. induction s as [|a s IH]; intros [|n]; simpl; [done..|by rewrite IH]. Qed.

Lemma substring_prefix n s : exists r, s = (String.substring 0 n s +:+ r).
Proof.
  revert n. induction s as [|a s IH]; intros [|n]; simpl; try by eexists.
  destruct (IH n) as [r Hr]. exists r. by rewrite str_app_cons, <- Hr.
Qed.

(** The path of an application's variable starts with [apps.]. *)
Lemma app_env_path key : is_Some (app_env_index key) -> starts_with "apps." (dotted (to_ascii_lowercase key)) = true.
Proof.
  unfold app_env_index. destruct (strip_prefix_ignore_case _ key) as [rest|] eqn:E; [|by intros [? H]]. intros _.
  unfold strip_prefix_ignore_case in E. destruct (_ && _) eqn:E1; [|done]. apply andb_true_iff in E1 as [_ E2].
  unfold eq_ignore_ascii_case in E2. apply String.eqb_eq in E2. simpl in E2.
  rewrite lower_substring in E2. destruct (substring_prefix 6 (to_ascii_lowercase key)) as [r ->].
  by rewrite E2.
Qed.

Lemma server_layer_key name value :
  is_Some (server_layer (name, value)) <->
  exists key, env_key name = Some key /\ key <> EmptyString /\ app_env_index key = None.
Proof.
  unfold server_layer, env_path. cbn [fst snd].
  change (strip_prefix_ignore_case ENV_PREFIX name) with (env_key name).
  destruct (env_key name) as [key|] eqn:E; cbn [fmap option_fmap option_map]; [|split; [by intros [? H]|naive_solver]].
  pose proof (substring_strip _ _ _ E) as Hs. cbv zeta. rewrite Hs.
  assert (is_empty_str (dotted (to_ascii_lowercase key)) = is_empty_str key) as ->.
  { destruct key as [|a [|b k]]; simpl; [done|..]; destruct (lower_byte a) as [[] [] [] [] [] [] [] []]; try done;
      by destruct (lower_byte b) as [[] [] [] [] [] [] [] []]. }
  destruct key as [|a k]; [split; [by intros [? H]|naive_solver]|]. set (key := String a k) in *.
  change (is_empty_str key) with false. cbv iota.
  destruct (app_env_index key) as [i|] eqn:Ei.
  - rewrite app_env_path by (rewrite Ei; by eexists). rewrite bool_decide_true by by eexists. simpl.
    split; [by intros [? H]|]. intros (k' & [= <-] & _ & H). congruence.
  - rewrite (bool_decide_false (is_Some None)) by (by intros [? H]). rewrite andb_false_r.
    split; [|by eexists]. intros _. exists key. split_and!; done.
Qed.

Lemma foldl_filter {A B} (f : A -> B -> A) (p : B -> bool) l a :
  (forall a b, p b = false -> f a b = a) -> foldl f a l = foldl f a (List.filter p l).
Proof.
  intros H. revert a. induction l as [|b l IH]; intros a; simpl; [done|].
  destruct (p b) eqn:E; [apply IH|by rewrite H, IH].
Qed.

Section LoadProps.
Context `{FG : Figment} `{CL : !ConfigLayers} `{GL : GlobLib} `{HI : HashIter}.

Definition addressed (var : string * string) : bool := bool_decide (is_Some (env_key var.1)).

Lemma load_ignores file vars : load_raw_with file vars = load_raw_with file (List.filter addressed vars).
Proof.
  assert (forall var, addressed var = false -> server_layer var = None /\ env_target var.1 = None) as Hn.
  { intros [name value] H. unfold addressed in H. apply bool_decide_eq_false in H. simpl in *. split.
    - apply eq_None_not_Some. rewrite server_layer_key. intros (k & Hk & _). apply H. by eexists.
    - apply eq_None_not_Some. rewrite env_target_key. intros (k & Hk & _). apply H. by eexists. }
  unfold load_raw_with, apply_app_env_overrides.
  rewrite (foldl_filter merge_var addressed), (foldl_filter collect_override addressed); [done|..].
  - intros a b H. unfold collect_override. by rewrite (proj2 (Hn b H)).
  - intros a b H. unfold merge_var. by rewrite (proj1 (Hn b H)).
Qed.

(** Every variable is used in at most one way: with the prefix and an
    application's index it overrides a field of that application, with the
    prefix alone it sets a path of the configuration, and any other variable of
    the environment has no influence at all.  The server block does not depend
    on the applications' variables. *)
Theorem env_routing file vars :
  (forall name value, ~ (is_Some (server_layer (name, value)) /\ is_Some (env_target name)) /\
     (server_layer (name, value) = None -> env_target name = None ->
      default EmptyString (env_key name) = EmptyString)) /\
  load_raw_with file vars = load_raw_with file (List.filter addressed vars) /\
  forall vars' raw raw',
    omap server_layer vars = omap server_layer vars' ->
    load_raw_with file vars = Ok raw -> load_raw_with file vars' = Ok raw' -> raw_server raw = raw_server raw'.
Proof.
  split_and!; [|apply load_ignores|].
  - intros name value. split.
    + intros [(k & Hk & _ & Hn)%server_layer_key (k' & Hk' & Hs)%env_target_key].
      rewrite Hk in Hk'. injection Hk' as <-. rewrite Hn in Hs. by destruct Hs.
    + intros H1 H2. destruct (env_key name) as [key|] eqn:E; [simpl|done].
      destruct (app_env_index key) eqn:Ei.
      { destruct (proj2 (env_target_key name)) as [? H]; [|congruence]. exists key. split; [done|by rewrite Ei]. }
      destruct (decide (key = EmptyString)) as [|Hne]; [done|].
      destruct (proj2 (server_layer_key name value)) as [? H]; [naive_solver|congruence].
  - intros vars' raw raw' Hl.
    assert (forall vs fig, foldl merge_var fig vs
      = foldl (fun f (l : string * bool * string) =>
                 fig_merge f l.1.1 (if l.1.2 then fig_text l.2 else fig_parse l.2)) fig (omap server_layer vs)) as Hm.
    { clear. induction vs as [|v vs IH]; intros fig; simpl; [done|]. rewrite IH. unfold merge_var.
      by destruct (server_layer v) as [[[p t] x]|]. }
    unfold load_raw_with. rewrite !Hm, Hl. destruct (fig_extract_config _) as [[server apps]|]; [|done].
    destruct (apply_app_env_overrides _ vars); [|done]. destruct (apply_app_env_overrides _ vars'); [|done].
    by intros [= <-] [= <-].
Qed.

(** C37: A reload reads the applications as a restart would: it succeeds exactly
    when loading the file afresh does and installs the table that gives, the
    server block staying as it was; on an error nothing changes. *)
Theorem reload_equals_restart c contents vars :
  match Config_load contents vars, reload_apps_from c contents vars with
  | Ok fresh, (Ok _, c') => lc_apps c' = lc_apps fresh /\ lc_server c' = lc_server c
  | Err e, (Err e', c') => e = e' /\ c' = c
  | _, _ => False
  end.
Proof.
  unfold Config_load, reload_apps_from, compile, reload_apps_with.
  destruct (load_raw_with _ _) as [raw|e]; [|by destruct c].
  destruct (build_app_index _) as [idx|e]; [done|by destruct c].
Qed.

(** Leaving out the server section is the same as leaving out each of its
    fields. *)
Theorem missing_server_section :
  RawServer_de {| vf_host := None; vf_port := None; vf_path := None; vf_max_request_size := None;
    vf_restart_signal_file := None; vf_restart_poll_interval_seconds := None; vf_tls := None;
    vf_scaling := None; vf_prometheus := None; vf_webhook_overflow_mode := None |} = RawServer_default /\
  RawScaling_de {| sf_enabled := None; sf_channel := None; sf_redis := None; sf_overflow_mode := None |}
  = RawScaling_de {| sf_enabled := None; sf_channel := None; sf_overflow_mode := None;
      sf_redis := Some {| rf_url := None; rf_host := None; rf_port := None; rf_db := None;
        rf_username := None; rf_password := None; rf_timeout_seconds := None |} |}.
Proof. split; reflexivity. Qed.
End LoadProps.
