(* ===== verification/Metrics.v ===== *)
(** * zatat-metrics: the metrics endpoint

    Models [crates/zatat-metrics/src/lib.rs]: the start-up guard of the
    endpoint, its authorization check, the metrics it describes and the series it
    registers.  The recorder and the rendering are the exporter crate. *)

From S2P Require Import Prelude.
From S2P Require Import Auth.
From stdpp Require Import options.

Definition COUNTER_CONNECTIONS_TOTAL : string := "zatat_connections_total".
Definition COUNTER_CONNECTIONS_CLOSED : string := "zatat_connections_closed_total".
Definition GAUGE_CONNECTIONS : string := "zatat_connections".
Definition COUNTER_MESSAGES_SENT : string := "zatat_messages_sent_total".
Definition COUNTER_MESSAGES_RECEIVED : string := "zatat_messages_received_total".
Definition GAUGE_CHANNELS : string := "zatat_channels_total".
Definition COUNTER_RATE_LIMITED : string := "zatat_rate_limited_total".
Definition COUNTER_REDIS_RECONNECTS : string := "zatat_redis_reconnects_total".

(** ** The series

    The recorder's registry, by metric name and the value of the one label; a series
    without a label has the empty one. *)
Abbreviation Registry := (gmap (string * string) Z) (only parsing).

Definition increment (r : Registry) (name app : string) (n : Z) : Registry :=
  <[(name, app) := (default 0 (r !! (name, app)) + n)%Z]> r.

Definition register_app (r : Registry) (app : string) : Registry :=
  let r := foldl (fun r name => increment r name app 0) r
             [COUNTER_CONNECTIONS_TOTAL; COUNTER_CONNECTIONS_CLOSED; COUNTER_MESSAGES_SENT;
              COUNTER_MESSAGES_RECEIVED; COUNTER_RATE_LIMITED] in
  let r := increment r GAUGE_CONNECTIONS app 0 in
  increment r GAUGE_CHANNELS app 0.

(** [Counter::absolute] never lowers a counter; [Gauge::set] sets a gauge. *)
Definition absolute (r : Registry) (name : string) (n : Z) : Registry :=
  <[(name, EmptyString) := Z.max (default 0%Z (r !! (name, EmptyString))) n]> r.
Definition set_gauge (r : Registry) (name label : string) (v : Z) : Registry := <[(name, label) := v]> r.

Inductive MetricKind := MCounter | MGauge | MHistogram.

(** The [describe_*] calls of [install], in order. *)
Definition descriptions : list (MetricKind * string * string) :=
  [(MCounter, COUNTER_CONNECTIONS_TOTAL, "total WebSocket connections accepted");
   (MCounter, COUNTER_CONNECTIONS_CLOSED, "total WebSocket connections closed");
   (MGauge, GAUGE_CONNECTIONS, "current live WebSocket connections");
   (MCounter, COUNTER_MESSAGES_SENT, "total frames sent to clients");
   (MCounter, COUNTER_MESSAGES_RECEIVED, "total frames received from clients");
   (MGauge, GAUGE_CHANNELS, "current number of channels");
   (MCounter, COUNTER_RATE_LIMITED, "total rate-limit rejections");
   (MCounter, COUNTER_REDIS_RECONNECTS, "Redis (re)connections per client (publisher / subscriber)");
   (MCounter, "zatat_redis_connection_errors_total", "Redis connection errors per client");
   (MGauge, "zatat_redis_connected", "1 while the Redis client is connected, 0 after a connection error");
   (MCounter, "zatat_redis_publish_failures_total", "cross-node payloads Redis rejected; peers never saw them");
   (MCounter, "zatat_scaling_publish_timeouts_total", "cross-node payloads in batches that did not finish within 5s");
   (MCounter, "zatat_scaling_publish_drops_total", "cross-node payloads dropped because the publish queue was full");
   (MCounter, "zatat_webhooks_dropped_total", "webhook events dropped because the queue was full");
   (MCounter, "zatat_webhooks_failed_total", "webhook deliveries abandoned after the retry window");
   (MHistogram, "zatat_http_request_duration_seconds", "HTTP API request latency by route, method and status");
   (MCounter, "zatat_ws_write_timeouts_total", "connections closed because a socket write stalled")].

(** The series [install] registers. *)
Definition register_common (r : Registry) : Registry :=
  let r := absolute r "zatat_redis_publish_failures_total" 0 in
  let r := absolute r "zatat_scaling_publish_drops_total" 0 in
  absolute r "zatat_webhooks_dropped_total" 0.

(** ** The endpoint *)

(** [std::net::IpAddr], a version 6 address by its 128 bits. *)
Inductive IpAddr := V4 (a b c d : Z) | V6 (bits : Z).

Definition is_loopback (ip : IpAddr) : bool :=
  match ip with
  | V4 a _ _ _ => (a =? 127)%Z
  | V6 bits => (bits =? 1)%Z
  end.

Record SocketAddr := { addr_ip : IpAddr; addr_port : Z }.

Record MetricsInstaller := { mi_listen : SocketAddr; mi_bearer_token : option string }.

(** [show] is the address's [Display]; [recorder] tells whether the global
    recorder could be installed, or why not. *)
Definition install (show : SocketAddr -> string) (recorder : result unit string) (listen : SocketAddr)
    (bearer_token : option string) : result MetricsInstaller string :=
  if negb (is_loopback (addr_ip listen)) && negb (bool_decide (is_Some bearer_token))
  then Err ("[server.prometheus] listen=" +:+ show listen +:+
            " is non-loopback but no bearer_token is set — set server.prometheus.bearer_token or bind to 127.0.0.1")
  else match recorder with
       | Err e => Err ("failed to install recorder: " +:+ e)
       | Ok _ => Ok {| mi_listen := listen; mi_bearer_token := bearer_token |}
       end.

Definition authorize_metrics (m : MetricsInstaller) (auth_header : option string) : bool :=
  match mi_bearer_token m with
  | Some expected =>
      match auth_header with
      | None => false
      | Some header =>
          match strip_prefix "Bearer " header with
          | None => false
          | Some token => ct_eq_bytes expected token
          end
      end
  | None => true
  end.

(** ** Properties *)

(** An endpoint that could be installed answers a request without the exact
    bearer token only when no token is configured, and then it listens on the
    loopback interface. *)
Theorem metrics_guarded show recorder listen token m header :
  install show recorder listen token = Ok m ->
  authorize_metrics m header = true <->
  match token with
  | Some t => header = Some ("Bearer " +:+ t)
  | None => is_loopback (addr_ip listen) = true
  end.
Proof.
  unfold install. destruct (negb _ && _) eqn:E; [done|]. destruct recorder as [u|]; [|done]. intros [= <-].
  unfold authorize_metrics. cbn [mi_bearer_token mi_listen]. destruct token as [t|].
  - destruct header as [h|]; [|done]. destruct (strip_prefix "Bearer " h) as [r|] eqn:Es.
    + apply strip_prefix_Some in Es as ->. unfold ct_eq_bytes. split; [intros H%String.eqb_eq; by subst|].
      intros H%(inj Some)%str_app_inj_l. by apply String.eqb_eq.
    + split; [done|]. intros [= ->].
      assert (strip_prefix "Bearer " ("Bearer " +:+ t) = Some t) by (by apply strip_prefix_Some). congruence.
  - rewrite andb_true_r in E. by destruct (is_loopback _).
Qed.

Lemma increment_zero r name app k v : r !! k = Some v -> increment r name app 0 !! k = Some v.
Proof.
  intros H. unfold increment. destruct (decide (k = (name, app))) as [->|].
  - rewrite lookup_insert_eq, H. simpl. f_equal. lia.
  - by rewrite lookup_insert_ne.
Qed.

Lemma increment_noop r name app v : r !! (name, app) = Some v -> increment r name app 0 = r.
Proof. intros H. unfold increment. rewrite H. simpl. rewrite Z.add_0_r. by apply insert_id. Qed.

Lemma increment_there r name app : is_Some (increment r name app 0 !! (name, app)).
Proof. unfold increment. rewrite lookup_insert_eq. by eexists. Qed.

#[local] Hint Resolve increment_zero increment_there : core.

Lemma increment_keeps r name app k : is_Some (r !! k) -> is_Some (increment r name app 0 !! k).
Proof. intros [v H]. eauto. Qed.
#[local] Hint Resolve increment_keeps : core.

(** Registering an application creates its series and never lowers or resets a
    value that is already there; doing it again changes nothing. *)
Theorem register_app_idempotent r app :
  (forall k v, r !! k = Some v -> register_app r app !! k = Some v) /\
  register_app (register_app r app) app = register_app r app.
Proof.
  split.
  - intros k v H. unfold register_app. simpl. auto 10.
  - unfold register_app at 1. cbn [foldl].
    repeat (match goal with |- context [increment (register_app r app) ?n app 0] =>
      let v := fresh in
      assert (is_Some (register_app r app !! (n, app))) as [v ?] by (unfold register_app; simpl; auto 12);
      erewrite (increment_noop (register_app r app) n app) by eassumption end).
    done.
Qed.

(** A registry that only holds described series. *)
Definition described (r : Registry) : Prop :=
  forall k, is_Some (r !! k) -> k.1 ∈ (fun d : MetricKind * string * string => d.1.2) <$> descriptions.

Lemma described_insert (r : Registry) name label v :
  bool_decide (name ∈ (fun d : MetricKind * string * string => d.1.2) <$> descriptions) = true ->
  described r -> described (<[(name, label) := v]> r).
Proof.
  intros Hn%bool_decide_eq_true Hr k [w Hk]. apply lookup_insert_Some in Hk as [[<- _]|[_ Hk]]; [done|]. apply Hr. eauto.
Qed.

(** Every series a node registers at its start has a description, no metric is described
    twice, and a series of an application always carries its label: the start
    leaves no unlabelled series of it. *)
Theorem series_described apps :
  let r := foldl register_app (register_common ∅) apps in
  described r /\ NoDup ((fun d : MetricKind * string * string => d.1.2) <$> descriptions) /\
  (EmptyString ∉ apps -> forall name, is_Some (r !! (name, EmptyString)) -> is_Some (register_common ∅ !! (name, EmptyString))).
Proof.
  cbv zeta. split; [|split].
  - assert (described (register_common ∅)) as H0.
    { unfold register_common, absolute. do 3 (apply described_insert; [reflexivity|]). intros k [v H]. by rewrite lookup_empty in H. }
    revert H0. generalize (register_common ∅). induction apps as [|a apps IH]; intros r Hr; [done|]. apply IH.
    unfold register_app, increment. simpl. by repeat (apply described_insert; [reflexivity|]).
  - apply (bool_decide_eq_true_1 _). reflexivity.
  - generalize (register_common ∅). induction apps as [|a apps IH]; intros r Hn name H; [done|]. cbn [foldl] in H.
    apply not_elem_of_cons in Hn as [Ha Hn]. apply (IH _ Hn) in H. revert H. unfold register_app, increment. simpl.
    by rewrite !lookup_insert_ne by congruence.
Qed.

Lemma metrics_guarded_witness :
  authorize_metrics {| mi_listen := {| addr_ip := V4 0 0 0 0; addr_port := 9090 |}; mi_bearer_token := Some "t" |} None
  = false.
Proof.
  destruct (authorize_metrics _ None) eqn:E; [|reflexivity].
  apply (metrics_guarded (fun _ => EmptyString) (Ok tt) {| addr_ip := V4 0 0 0 0; addr_port := 9090 |} (Some "t")) in E;
    [discriminate E|reflexivity].
Defined.
