(* ===== verification/Redis.v ===== *)
(** * zatat-scaling: the providers behind the bus

    Models [crates/zatat-scaling/src/provider.rs] and [redis.rs]: the interface
    the dispatcher publishes through, the local provider, and the Redis
    provider's own logic: which endpoint its clients use, what its bridge
    passes on, when its watchdog forces a reconnection, and what its listeners
    record.  The client itself
    (the fred crate) is third-party: its answers are inputs. *)

From S2P Require Import Prelude.
From S2P Require Import Settings.
From S2P Require Import Metrics.
From stdpp Require Import options.

(** ** Providers *)

(** What is on the wire: the messages published so far, by Redis channel. *)
Inductive RedisValue := RBytes (b : string) | RString (s : string) | ROther.
Record RedisMessage := { msg_channel : string; msg_value : RedisValue }.

(** A provider: publishing extends what peers can receive. *)
Class PubSubProvider (P : Type) := {
  publish : P -> list RedisMessage -> bool -> string -> list RedisMessage
}.

Inductive LocalOnlyProvider := LocalOnly.

(** [accepted] tells whether the server took the message; a failure is counted
    and logged, the payload is lost. *)
#[export] Instance local_only : PubSubProvider LocalOnlyProvider :=
  {| publish := fun _ wire _ _ => wire |}.

Record RedisPubSubProvider := { subscribe_channel : string }.

#[export] Instance redis_provider : PubSubProvider RedisPubSubProvider :=
  {| publish := fun p wire accepted payload =>
       if (accepted : bool) then wire ++ [{| msg_channel := subscribe_channel p; msg_value := RBytes payload |}]
       else wire |}.

(** ** Connecting *)

Inductive Endpoint :=
| FromUrl (url : string)
| Centralized (host : string) (port db : Z) (username password : option string).

Record Builder := {
  b_endpoint : Endpoint;
  b_max_attempts : Z;
  b_min_delay_ms : Z;
  b_max_delay_ms : Z;
  b_multiplier : Z;
  b_command_timeout : Duration;
  b_broadcast_capacity : Z
}.

(** [valid_url] is the client's parser of connection URLs. *)
Definition build_builder (valid_url : string -> result unit string) (cfg : RedisConfig) : result Builder string :=
  let finish endpoint :=
    {| b_endpoint := endpoint; b_max_attempts := 0; b_min_delay_ms := 100; b_max_delay_ms := 1000;
       b_multiplier := 2; b_command_timeout := from_secs (redis_timeout_seconds cfg);
       b_broadcast_capacity := 65536 |} in
  match redis_url cfg with
  | Some url => match valid_url url with Err e => Err e | Ok _ => Ok (finish (FromUrl url)) end
  | None => Ok (finish (Centralized (redis_host cfg) (redis_port cfg) (redis_db cfg)
                          (redis_username cfg) (redis_password cfg)))
  end.

(** The steps of [connect] after the builder, each with the prefix of its error. *)
Record ClientSteps := {
  st_build_publisher : result unit string;
  st_build_subscriber : result unit string;
  st_init_publisher : result unit string;
  st_init_subscriber : result unit string;
  st_subscribe : result unit string
}.

Fixpoint first_error (l : list (string * result unit string)) : result unit string :=
  match l with
  | [] => Ok tt
  | (what, Err e) :: _ => Err (what +:+ ": " +:+ e)
  | (_, Ok _) :: rest => first_error rest
  end.

Definition connect (valid_url : string -> result unit string) (steps : ClientSteps) (cfg : RedisConfig)
    (channel : string) : result RedisPubSubProvider string :=
  match build_builder valid_url cfg with
  | Err e => Err ("redis config: " +:+ e)
  | Ok _ =>
      match first_error [("redis publisher build", st_build_publisher steps);
                         ("redis subscriber build", st_build_subscriber steps);
                         ("redis publisher init", st_init_publisher steps);
                         ("redis subscriber init", st_init_subscriber steps);
                         ("redis subscribe", st_subscribe steps)] with
      | Err e => Err e
      | Ok _ => Ok {| subscribe_channel := channel |}
      end
  end.

(** ** The bridge *)

(** What the client's stream delivers. *)
Inductive BridgeEvent := BMessage (m : RedisMessage) | BLagged (n : Z) | BClosed.

Definition bridge_message (bridge_channel : string) (m : RedisMessage) : option string :=
  if negb (String.eqb (msg_channel m) bridge_channel) then None
  else match msg_value m with
       | RBytes b => Some b
       | RString s => Some s
       | ROther => None
       end.

(** The payloads passed on until the stream ends. *)
Fixpoint bridge (bridge_channel : string) (events : list BridgeEvent) : list string :=
  match events with
  | [] => []
  | BMessage m :: rest =>
      match bridge_message bridge_channel m with
      | Some b => b :: bridge bridge_channel rest
      | None => bridge bridge_channel rest
      end
  | BLagged _ :: rest => bridge bridge_channel rest
  | BClosed :: _ => []
  end.

(** ** The watchdog *)

Definition SUBSCRIBER_PING_INTERVAL : Duration := from_secs 5.
Definition SUBSCRIBER_PING_TIMEOUT : Duration := from_secs 3.
Definition SUBSCRIBER_MAX_FAILED_PINGS : Z := 2.

(** One turn: the failure counter and whether a reconnection is forced. *)
Definition watchdog_turn (failures : Z) (ok : bool) : Z * bool :=
  if ok then (0%Z, false)
  else
    let failures := wrap_u32 (failures + 1) in
    if (SUBSCRIBER_MAX_FAILED_PINGS <=? failures)%Z then (0%Z, true) else (failures, false).

(** The reconnections forced for a sequence of ping results. *)
Fixpoint subscriber_watchdog (failures : Z) (pings : list bool) : list bool :=
  match pings with
  | [] => []
  | ok :: rest => let '(failures, forced) := watchdog_turn failures ok in
                  forced :: subscriber_watchdog failures rest
  end.

(** What the watchdog records after a ping. *)
Definition watchdog_record (r : gmap (string * string) Z) (ok : bool) : gmap (string * string) Z :=
  let r := set_gauge r "zatat_redis_connected" "subscriber" (if ok then 1 else 0) in
  if ok then r else increment r "zatat_redis_connection_errors_total" "subscriber" 1.

(** ** The listeners of a client *)

Inductive ConnectionEvent := Reconnected | ConnectionError.

(** What the listeners of the client named [role] record. *)
Definition watch_connection_events (role : string) (r : gmap (string * string) Z) (e : ConnectionEvent)
  : gmap (string * string) Z :=
  match e with
  | Reconnected => set_gauge (increment r COUNTER_REDIS_RECONNECTS role 1) "zatat_redis_connected" role 1
  | ConnectionError => set_gauge (increment r "zatat_redis_connection_errors_total" role 1) "zatat_redis_connected" role 0
  end.

(** ** Properties *)

(** What happens to the subscriber's client: its listeners, and the pings of the watchdog. *)
Inductive SubscriberEvent := Listened (e : ConnectionEvent) | Pinged (ok : bool).
Definition subscriber_record (r : gmap (string * string) Z) (e : SubscriberEvent) : gmap (string * string) Z :=
  match e with Listened e => watch_connection_events "subscriber" r e | Pinged ok => watchdog_record r ok end.

Definition is_reconnect (e : SubscriberEvent) : bool := match e with Listened Reconnected => true | _ => false end.
Definition is_error (e : SubscriberEvent) : bool := match e with Listened ConnectionError | Pinged false => true | _ => false end.
Definition is_up (e : SubscriberEvent) : bool := match e with Listened Reconnected => true | Pinged ok => ok | _ => false end.

(** The gauge of the subscriber's client tells what was last seen of it, the two counters
    count reconnections, and errors with failed pings, and the series of the other client are left alone. *)
Theorem connection_gauge r events :
  let r' := foldl subscriber_record r events in
  let count p := Z.of_nat (length (List.filter p events)) in
  let value r name := default 0%Z (r !! (name, "subscriber")) in
  value r' COUNTER_REDIS_RECONNECTS = (value r COUNTER_REDIS_RECONNECTS + count is_reconnect)%Z /\
  value r' "zatat_redis_connection_errors_total"
  = (value r "zatat_redis_connection_errors_total" + count is_error)%Z /\
  match last events with
  | Some e => r' !! ("zatat_redis_connected", "subscriber") = Some (if is_up e then 1 else 0)%Z
  | None => r' = r
  end /\
  forall name other, other <> "subscriber" -> r' !! (name, other) = r !! (name, other).
Proof.
  cbv zeta. induction events as [|e events (I1 & I2 & I3 & I4)] using rev_ind; [split_and!; simpl; [lia|lia|done|done]|].
  rewrite foldl_snoc, !List.filter_app, !length_app, last_snoc. destruct e as [[]|[]]; simpl; unfold watchdog_record, set_gauge, increment;
    (split_and!; [| | |intros name other Hne; rewrite !lookup_insert_ne by congruence; by apply I4]);
    rewrite ?lookup_insert_eq; repeat (rewrite lookup_insert_ne by (vm_compute; congruence));
    rewrite ?lookup_insert_eq; simpl; try done; lia.
Qed.

(** What one node's provider publishes is what another node's bridge passes on,
    exactly when both use the same Redis channel. *)
Theorem published_is_bridged (a b : RedisPubSubProvider) payloads :
  bridge (subscribe_channel b)
    (BMessage <$> foldl (fun wire p => publish a wire true p) [] payloads)
  = if bool_decide (subscribe_channel a = subscribe_channel b) then payloads else [].
Proof.
  assert (forall wire, foldl (fun wire p => publish a wire true p) wire payloads
    = wire ++ ((fun p => {| msg_channel := subscribe_channel a; msg_value := RBytes p |}) <$> payloads)) as ->.
  { induction payloads as [|p l IH]; intros wire; simpl; [by rewrite app_nil_r|].
    rewrite IH. simpl. by rewrite <- app_assoc. }
  rewrite app_nil_l. induction payloads as [|p l IH]; [by case_bool_decide|].
  rewrite !fmap_cons. cbn [bridge]. rewrite IH. unfold bridge_message. cbn [msg_channel msg_value].
  destruct (String.eqb_spec (subscribe_channel a) (subscribe_channel b)) as [He|He].
  - by rewrite bool_decide_true.
  - by rewrite bool_decide_false.
Qed.

Definition failures_ok (f : Z) : Prop := (f = 0 \/ f = 1)%Z.

Lemma watchdog_turn_ok f ok : failures_ok f -> failures_ok (watchdog_turn f ok).1.
Proof. intros [->| ->]; destruct ok; vm_compute; auto. Qed.

(** The state the watchdog is in after [pings]. *)
Definition watchdog_state (pings : list bool) : Z := foldl (fun f ok => (watchdog_turn f ok).1) 0%Z pings.

Lemma watchdog_state_ok pings : failures_ok (watchdog_state pings).
Proof.
  unfold watchdog_state. assert (failures_ok 0) as H by (by left). revert H. generalize 0%Z.
  induction pings as [|ok l IH]; intros f Hf; simpl; [done|]. by apply IH, watchdog_turn_ok.
Qed.

Lemma watchdog_app f l1 l2 :
  subscriber_watchdog f (l1 ++ l2)
  = subscriber_watchdog f l1 ++ subscriber_watchdog (foldl (fun f ok => (watchdog_turn f ok).1) f l1) l2.
Proof.
  revert f. induction l1 as [|ok l IH]; intros f; simpl; [done|].
  destruct (watchdog_turn f ok) as [f' b]. simpl. by rewrite IH.
Qed.

Lemma watchdog_length f l : length (subscriber_watchdog f l) = length l.
Proof.
  revert f. induction l as [|ok l IH]; intros f; simpl; [done|].
  destruct (watchdog_turn f ok). simpl. by rewrite IH.
Qed.

(** The watchdog forces a reconnection only after two pings in a row failed,
    and never lets two failures in a row pass without one: after any history a
    successful ping forces none, the first failure after a success forces
    none, the second does. *)
Theorem watchdog_two_strikes history :
  let after l := drop (length history) (subscriber_watchdog 0 (history ++ l)) in
  after [true; false; false] = [false; false; true] /\
  after [true; false; true; false] = [false; false; false; false] /\
  (after [false; false] = [false; true] \/ after [false; false] = [true; false]).
Proof.
  intros after.
  assert (forall l, after l = subscriber_watchdog (watchdog_state history) l) as H.
  { intros l. unfold after. by rewrite watchdog_app, drop_app_length' by (by rewrite watchdog_length). }
  rewrite !H. destruct (watchdog_state_ok history) as [-> | ->]; vm_compute; auto.
Qed.
