(* ===== verification/Router.v ===== *)
(** * zatat-ws: admitting a WebSocket

    Models [crates/zatat-ws/src/router.rs]: the checks of [ws_upgrade], the
    host an origin header names and the transport limit.  Every refusal but the
    one of a draining node is an upgraded socket that is told an error and
    closed ([run_rejected_connection] of [handler.rs]). *)

From S2P Require Import Prelude.
From S2P Require Import Core.
From S2P Require Import Json.
From S2P Require Import Envelope.
From S2P Require Import Manager.
From S2P Require Import Apps.
From stdpp Require Import options.

(** [s.split(c).next().unwrap_or(..)]. *)
Definition first_piece (c : ascii) (s : string) : string := default EmptyString (head (split_on c s)).

Definition url_host_or_self (raw : string) : string :=
  match split_once_str "://" raw with
  | Some (_, rest) =>
      let authority := first_piece "/" rest in
      match strip_prefix "[" authority with
      | Some rest => first_piece "]" rest
      | None => first_piece ":" authority
      end
  | None => raw
  end.

(** [usize::saturating_mul], then the floor of 64 KiB. *)
Definition transport_message_limit (app_max_message_size : Z) : Z :=
  Z.max (Z.min (app_max_message_size * 4) (2 ^ 64 - 1)) (64 * 1024).

Inductive Upgrade :=
| Unavailable
| Refused (limit code : Z) (reason : string)
| Upgraded (limit : Z) (app : App) (origin : option string).

(** The [origin] header of a request: not sent, sent with bytes that [to_str]
    does not read as text, or text. *)
Inductive OriginHeader := OriginAbsent | OriginUndecodable | OriginText (value : string).

(** [headers.get("origin").and_then(|v| v.to_str().ok())]. *)
Definition origin_text (header : OriginHeader) : option string :=
  match header with OriginText value => Some value | OriginUndecodable | OriginAbsent => None end.

Section Router.
Context `{GL : GlobLib}.

Definition origin_blocked (app : App) (origin : option string) : bool :=
  match origin with
  | Some hdr => negb (origin_is_allowed app (url_host_or_self hdr))
  | None => false
  end.

Definition supported_protocol (p : option string) : bool :=
  match p with
  | Some v => existsb (String.eqb v) ["5"; "6"; "7"]
  | None => true
  end.

Definition ws_upgrade (draining : bool) (idx : AppIndex) (key : AppKey)
    (protocol : option string) (header : OriginHeader) : Upgrade :=
  if draining then Unavailable
  else match app_by_key idx key with
  | None => Refused (64 * 1024) 4001 ("Application does not exist for key '" +:+ key +:+ "'")
  | Some app =>
      let limit := transport_message_limit (max_message_size app) in
      if negb (supported_protocol protocol)
      then Refused limit 4007 ("Unsupported protocol version '" +:+ default EmptyString protocol +:+
                               "' — server supports 5, 6, 7")
      else
      let origin := origin_text header in
      if origin_blocked app origin
      then Refused limit 4009 ("Origin '" +:+ default EmptyString origin +:+
                               "' is not in the allowed list for app '" +:+ app_id app +:+ "'")
      else Upgraded limit app origin
  end.
End Router.

(** ** Properties *)

Lemma split_on_none c s : has_char c s = false -> split_on c s = [s].
Proof.
  induction s as [|a s IH]; simpl; [done|]. destruct (Ascii.eqb a c); [done|]. simpl.
  intros H. by rewrite (IH H).
Qed.

Lemma first_piece_cons c a s :
  first_piece c (String a s) = if Ascii.eqb a c then EmptyString else String a (first_piece c s).
Proof.
  unfold first_piece. simpl. destruct (Ascii.eqb a c); [done|].
  assert (split_on c s <> []) as Hne.
  { destruct s as [|b s]; simpl; [done|]. destruct (Ascii.eqb b c); [done|]. by destruct (split_on c s). }
  by destruct (split_on c s).
Qed.

Lemma first_piece_app c s t : has_char c s = false -> first_piece c (s +:+ String c t) = s.
Proof.
  induction s as [|a s IH]; [intros _; change (first_piece c (String c t) = ""); by rewrite first_piece_cons, Ascii.eqb_refl|].
  rewrite has_char_cons, str_app_cons, first_piece_cons. intros [-> H]%orb_false_iff. by rewrite IH.
Qed.

Lemma first_piece_none c s : has_char c s = false -> first_piece c s = s.
Proof. unfold first_piece. intros H. by rewrite split_on_none. Qed.

(** [split_once_str] finds the first separator; a separator whose first byte
    does not occur before it is the first one. *)
Lemma split_once_str_first c sep l r :
  has_char c l = false -> split_once_str (String c sep) (l +:+ String c sep +:+ r) = Some (l, r).
Proof.
  induction l as [|a l IH]; simpl.
  - intros _. rewrite Ascii.eqb_refl. by rewrite (proj2 (strip_prefix_Some sep _ r) eq_refl).
  - intros [H1 H2]%orb_false_iff. rewrite Ascii.eqb_sym, H1. by rewrite (IH H2).
Qed.

(** What may follow the host in an origin: nothing, a port or a path. *)
Definition after_host (t : string) : bool := is_empty_str t || starts_with ":" t || starts_with "/" t.

Lemma first_piece_host c d host t :
  has_char c host = false -> has_char d host = false -> after_host t = true ->
  (c = ":" /\ d = "/")%char -> first_piece c (first_piece d (host +:+ t)) = host.
Proof.
  intros Hc Hd Ht [-> ->]. unfold after_host in Ht.
  destruct t as [|a t]; [by rewrite str_app_nil_r, (first_piece_none "/"), first_piece_none|].
  destruct (Ascii.eqb_spec a "/") as [->|Hne].
  { by rewrite first_piece_app, first_piece_none. }
  assert (a = ":"%char) as ->.
  { cbn [is_empty_str orb] in Ht. apply orb_true_iff in Ht as [[r Hr]%starts_with_spec|[r Hr]%starts_with_spec];
      [by injection Hr|]. by injection Hr as -> _. }
  assert (exists u, first_piece "/" (host +:+ String ":" t) = (host +:+ String ":" u)) as [u ->];
    [|by rewrite first_piece_app].
  clear Hc Ht Hne. revert Hd. induction host as [|b host IH].
  - intros _. exists (first_piece "/" t). change (first_piece "/" (String ":" t) = String ":" (first_piece "/" t)).
    by rewrite first_piece_cons.
  - rewrite has_char_cons, !str_app_cons, first_piece_cons. intros [-> Hh]%orb_false_iff.
    destruct (IH Hh) as [u ->]. by exists u.
Qed.

(** The host of an origin is found whatever its scheme, port and path. *)
Lemma url_host scheme host t :
  has_char ":" scheme = false -> has_char ":" host = false -> has_char "/" host = false ->
  starts_with "[" host = false -> is_empty_str host = false -> after_host t = true ->
  url_host_or_self (scheme +:+ "://" +:+ host +:+ t) = host.
Proof.
  intros Hs Hc Hd Hb He Ht. unfold url_host_or_self. rewrite split_once_str_first by done.
  assert (first_piece ":" (first_piece "/" (host +:+ t)) = host) as Hp by (by apply first_piece_host).
  assert (strip_prefix "[" (first_piece "/" (host +:+ t)) = None) as ->; [|done].
  destruct (strip_prefix "[" (first_piece "/" (host +:+ t))) as [r|] eqn:E; [|done].
  apply strip_prefix_Some in E. destruct host as [|b host]; [done|].
  rewrite E in Hp. assert (b = "["%char) as ->; [|by unfold starts_with in Hb].
  revert Hp. rewrite str_app_cons, first_piece_cons. destruct (Ascii.eqb "[" ":") eqn:Ea; congruence.
Qed.

Section RouterProps.
Context `{GL : GlobLib}.

(** C34: A socket is admitted exactly when the node is not draining, the key names
    an application, the protocol version is one of 5, 6, 7 or not given, and
    the host of the origin is allowed if an origin was sent as readable text;
    an origin header that cannot be read as text counts as none and is
    admitted.  The transport lets every message through that the application's
    own limit allows. *)
Theorem upgrade_admits_iff draining idx key protocol header limit app o :
  (ws_upgrade draining idx key protocol header = Upgraded limit app o <->
     draining = false /\ app_by_key idx key = Some app /\
     limit = transport_message_limit (max_message_size app) /\
     (forall v, protocol = Some v -> v ∈ ["5"; "6"; "7"]) /\
     match header with
     | OriginText h => o = Some h /\ origin_is_allowed app (url_host_or_self h) = true
     | OriginUndecodable | OriginAbsent => o = None
     end) /\
  ((max_message_size app < 2 ^ 32)%Z ->
     (max_message_size app <= transport_message_limit (max_message_size app) < 2 ^ 64)%Z).
Proof.
  assert (supported_protocol protocol = true <-> (forall v, protocol = Some v -> v ∈ ["5"; "6"; "7"])) as Hp.
  { unfold supported_protocol. destruct protocol as [v|]; [|by split]. rewrite existsb_exists. split.
    - intros (x & Hin & ->%String.eqb_eq) w [= <-]. by apply list_elem_of_In.
    - intros H. exists v. split; [by apply list_elem_of_In, H|apply String.eqb_refl]. }
  split; [|unfold transport_message_limit; lia].
  unfold ws_upgrade. destruct draining; [naive_solver|].
  destruct (app_by_key idx key) as [a|]; [|naive_solver].
  rewrite <- Hp. destruct (supported_protocol protocol); simpl; [|naive_solver].
  destruct header as [| |h]; simpl; [naive_solver|naive_solver|].
  destruct (origin_is_allowed a (url_host_or_self h)) eqn:Ea; simpl; split.
  - by intros [= <- <- <-].
  - by intros (_ & [= <-] & -> & _ & -> & _).
  - done.
  - intros (_ & [= <-] & _ & _ & _ & Hb). congruence.
Qed.
End RouterProps.

Example url_host_examples :
  url_host_or_self "https://example.com:8443" = "example.com" /\
  url_host_or_self "http://[2001:db8::1]/x" = "2001:db8::1".
Proof. split; reflexivity. Qed.
