(* ===== verification/Message.v ===== *)
(** * zatat-scaling: messages on the scaling bus

    Models [crates/zatat-scaling/src/message.rs].  The encoding of an envelope
    ([serde_json::to_vec] of the derived [Serialize]) and its parser are
    parameters ([Wire]). *)

From S2P Require Import Prelude.
From S2P Require Import Core.
From S2P Require Import Json.
From S2P Require Import Envelope.
From stdpp Require Import options.

Definition SCALING_VERSION : Z := 2.
Definition SNAPSHOT_TTL : Duration := from_secs 15.

Record AppRef := { ref_id : string; ref_key : string }.

Record PresenceSnapshotMember := { psm_user_id : string; psm_user_info : option Value }.

Record ChannelCount := { cc_channel : string; cc_count : Z }.

Record MetricsQuery := {
  filter_by_prefix : option string;
  mq_info : option string;
  connections_only : bool
}.

Record ChannelMetric := {
  cm_name : string;
  cm_occupied : bool;
  cm_subscription_count : Z;
  cm_user_count : option Z;
  cm_has_cached_payload : bool;
  cm_presence_user_ids : list string
}.

Inductive ScalingPayload :=
| PMessage (origin_node_id channel event data : string) (except_socket_id : option string)
| PTerminate (socket_id : string)
| PTerminateUser (origin_node_id user_id : string)
| PClientEvent (origin_node_id channel event data socket_id : string) (user_id : option string)
| PPresenceSnapshot (node_id channel : string) (members : list PresenceSnapshotMember)
| PUserEvent (origin_node_id user_id event data : string)
| PMetricsRequest (request_id requester_node_id : string) (query : MetricsQuery)
| PMetricsResponse (request_id node_id : string) (channels : list ChannelMetric) (connections : Z)
| PMemberAdded (origin_node_id channel user_id : string) (user_info : option Value)
| PMemberRemoved (origin_node_id channel user_id : string) (webhook_withheld vacated_withheld : bool)
| PSubscriptionCount (origin_node_id channel : string) (count : Z) (vacated_withheld : bool)
| PUserOnline (origin_node_id user_id : string)
| PUserOffline (origin_node_id user_id : string)
| PChannelCountSnapshot (node_id : string) (counts : list ChannelCount)
| PUserSessionSnapshot (node_id : string) (user_ids : list string).

Record ScalingEnvelope := {
  version : Z;
  env_seq : Z;
  env_app : AppRef;
  payload : ScalingPayload
}.

(** What a message says of the state of the node it comes from: who is in a
    presence channel, how many subscribe to another channel, who is signed in. *)
Inductive News :=
| Joined (channel user : string)
| Departed (channel user : string)
| Roster (channel : string) (users : list string)
| Counted (channel : string) (n : Z)
| Counts (l : list (string * Z))
| Online (user : string)
| Offline (user : string)
| Sessions (users : list string).

(** The node that speaks, and the news. *)
Definition news_of (p : ScalingPayload) : option (string * News) :=
  match p with
  | PMemberAdded o c u _ => Some (o, Joined c u)
  | PMemberRemoved o c u _ _ => Some (o, Departed c u)
  | PPresenceSnapshot o c ms => Some (o, Roster c (psm_user_id <$> ms))
  | PSubscriptionCount o c n _ => Some (o, Counted c n)
  | PChannelCountSnapshot o l => Some (o, Counts ((fun e => (cc_channel e, cc_count e)) <$> l))
  | PUserOnline o u => Some (o, Online u)
  | PUserOffline o u => Some (o, Offline u)
  | PUserSessionSnapshot o us => Some (o, Sessions us)
  | _ => None
  end.

(** [serde]'s encoding of an envelope; [parse] is [serde_json::from_slice]. *)
Class Wire := {
  to_vec : ScalingEnvelope -> string;
  parse : string -> option ScalingEnvelope
}.
