(* ===== verification/PeerState.v ===== *)
(** * zatat-scaling: per-peer caches

    Models [crates/zatat-scaling/src/peer_state.rs] and
    [crates/zatat-scaling/src/presence_cache.rs]: what the other nodes reported
    last, with the time of the report.  An entry older than [SNAPSHOT_TTL] is
    invisible to the queries until [gc_expired] reaps and reports it.

    The three caches have one shape, a two-level table from a key and a node to
    a time-stamped entry; Section [Tables] holds what they share. *)

From S2P Require Import Prelude.
From S2P Require Import Core.
From S2P Require Import Json.
From S2P Require Import Envelope.
From S2P Require Import Message.
From stdpp Require Import options.

Class Stamped (A : Type) := inserted_at : A -> Instant.

(** [now.duration_since(e.inserted_at) <= SNAPSHOT_TTL]. *)
Definition fresh {A} `{Stamped A} (now : Instant) (e : A) : bool :=
  (duration_since now (inserted_at e) <=? SNAPSHOT_TTL)%Z.

Section Tables.
Context `{HI : HashIter} {K : Type} `{Countable K} {A : Type} `{ST : Stamped A}.

Abbreviation Table := (gmap K (gmap string A)).

(** One key's part of [gc_expired]: collect the stale nodes, then remove them. *)
Definition reap_node (acc : list (string * A) * gmap string A) (node : string)
  : list (string * A) * gmap string A :=
  match acc.2 !! node with
  | Some e => (acc.1 ++ [(node, e)], delete node acc.2)
  | None => acc
  end.

Definition stale_nodes (inner : gmap string A) (now : Instant) : list string :=
  (List.filter (fun e : string * A => negb (fresh now e.2)) (hiter inner)).*1.

Definition reap_nodes (inner : gmap string A) (now : Instant)
  : list (string * A) * gmap string A :=
  foldl reap_node ([], inner) (stale_nodes inner now).

(** [gc_expired]: what was dropped, and the table left.  [prune] tells whether
    keys without nodes are removed. *)
Definition gc_key (prune : bool) (now : Instant) (acc : list (K * (string * A)) * Table) (key : K)
  : list (K * (string * A)) * Table :=
  match acc.2 !! key with
  | None => acc
  | Some inner =>
      let '(dropped, inner') := reap_nodes inner now in
      (acc.1 ++ (pair key <$> dropped),
       if prune && bool_decide (inner' = ∅) then delete key acc.2
       else <[key := inner']> acc.2)
  end.

Definition gc_table (prune : bool) (t : Table) (now : Instant)
  : list (K * (string * A)) * Table :=
  foldl (gc_key prune now) ([], t) (hkeys t).

Definition nodes_of (t : Table) (key : K) : gmap string A := default ∅ (t !! key).
End Tables.

(** ** Subscription counts of non-presence channels *)

Module PeerChannelCounts.
Record CountEntry := { count : Z; ce_inserted_at : Instant }.
#[global] Instance CountEntry_stamped : Stamped CountEntry := ce_inserted_at.

(** Keys are [(app_id, channel)]. *)
Abbreviation Counts := (gmap (string * string) (gmap string CountEntry)) (only parsing).

Definition set (t : Counts) (app_id channel node_id : string) (n : Z) (now : Instant) : Z * Counts :=
  let key := (app_id, channel) in
  let inner := nodes_of t key in
  (default 0%Z (count <$> inner !! node_id),
   <[key := <[node_id := {| count := n; ce_inserted_at := now |}]> inner]> t).

Definition touch (t : Counts) (app_id channel node_id : string) (now : Instant) : Counts :=
  let key := (app_id, channel) in
  match t !! key with
  | None => t
  | Some inner =>
      match inner !! node_id with
      | None => t
      | Some e => <[key := <[node_id := {| count := count e; ce_inserted_at := now |}]> inner]> t
      end
  end.

Definition remove (t : Counts) (app_id channel node_id : string) : Z * Counts :=
  let key := (app_id, channel) in
  match t !! key with
  | None => (0%Z, t)
  | Some inner => (default 0%Z (count <$> inner !! node_id), <[key := delete node_id inner]> t)
  end.

Section Queries.
Context `{HI : HashIter}.

(** Sums of [usize] wrap around (release build). *)
Definition sum (t : Counts) (app_id channel : string) (now : Instant) : Z :=
  match t !! (app_id, channel) with
  | None => 0%Z
  | Some inner =>
      foldl (fun acc e => wrap_u64 (acc + count e)) 0%Z (List.filter (fresh now) (hvalues inner))
  end.

Definition gc_expired (t : Counts) (now : Instant)
  : list (string * string * string * Z) * Counts :=
  let '(dropped, t') := gc_table true t now in
  ((fun d : (string * string) * (string * CountEntry) =>
      (d.1.1, d.1.2, d.2.1, count d.2.2)) <$> dropped, t').

(** The [FnMut] test [may_drop] works on the caller's state [E]. *)
Definition retain_node_channels {E : Type} (t : Counts) (app_id node_id : string)
    (present : gset string) (may_drop : string -> E -> bool * E) (e : E)
  : list string * Counts * E :=
  foldl (fun acc key =>
           let '(dropped, t, e) := acc in
           match t !! key with
           | None => (dropped, t, e)
           | Some inner =>
               if String.eqb key.1 app_id && negb (bool_decide (key.2 ∈ present)) &&
                  match inner !! node_id with Some _ => true | None => false end
               then let '(ok, e') := may_drop key.2 e in
                    if (ok : bool)
                    then (dropped ++ [key.2], <[key := delete node_id inner]> t, e')
                    else (dropped, t, e')
               else (dropped, t, e)
           end) ([], t, e) (hkeys t).
End Queries.
End PeerChannelCounts.

(** ** Signed-in users *)

Module PeerUserSessions.
Record UserSessionEntry := { users : gset string; us_inserted_at : Instant }.
#[global] Instance UserSessionEntry_stamped : Stamped UserSessionEntry := us_inserted_at.

(** Keys are application ids. *)
Abbreviation Sessions := (gmap string (gmap string UserSessionEntry)) (only parsing).

Definition add (t : Sessions) (app_id node_id user_id : string) (now : Instant) : bool * Sessions :=
  let inner := nodes_of t app_id in
  let us := default ∅ (users <$> inner !! node_id) in
  (negb (bool_decide (user_id ∈ us)),
   <[app_id := <[node_id := {| users := {[user_id]} ∪ us; us_inserted_at := now |}]> inner]> t).

Definition remove (t : Sessions) (app_id node_id user_id : string) (now : Instant)
  : bool * Sessions :=
  match t !! app_id with
  | None => (false, t)
  | Some inner =>
      match inner !! node_id with
      | None => (false, t)
      | Some peer =>
          (bool_decide (user_id ∈ users peer),
           <[app_id := <[node_id := {| users := users peer ∖ {[user_id]}; us_inserted_at := now |}]>
                         inner]> t)
      end
  end.

Definition users_of (t : Sessions) (app_id node_id : string) : gset string :=
  default ∅ (users <$> nodes_of t app_id !! node_id).

Definition touch (t : Sessions) (app_id node_id : string) (now : Instant) : Sessions :=
  let inner := nodes_of t app_id in
  <[app_id := <[node_id := {| users := default ∅ (users <$> inner !! node_id);
                              us_inserted_at := now |}]> inner]> t.

Definition replace_snapshot (t : Sessions) (app_id node_id : string) (us : list string)
    (now : Instant) : Sessions :=
  <[app_id := <[node_id := {| users := list_to_set us; us_inserted_at := now |}]>
                (nodes_of t app_id)]> t.

Section Queries.
Context `{HI : HashIter}.

(** The loop over the nodes: the excepted and the stale ones are skipped. *)
Definition is_present_excluding (t : Sessions) (app_id user_id : string)
    (except_node : option string) (now : Instant) : bool :=
  match t !! app_id with
  | None => false
  | Some inner =>
      existsb (fun e : string * UserSessionEntry =>
        if match except_node with Some n => String.eqb n e.1 | None => false end then false
        else if negb (fresh now e.2) then false
        else bool_decide (user_id ∈ users e.2)) (hiter inner)
  end.

Definition gc_expired (t : Sessions) (now : Instant) : list (string * string * string) * Sessions :=
  let '(dropped, t') := gc_table false t now in
  (dropped ≫= (fun d : string * (string * UserSessionEntry) =>
     (fun u => (d.1, d.2.1, u)) <$> hset_iter (users d.2.2)), t').
End Queries.
End PeerUserSessions.

(** ** Presence rosters *)

Module PresenceCache.
Record ExpiredMember := { em_app_id : string; em_channel : string; em_user_id : string }.

Record PeerSnapshot := {
  ps_inserted_at : Instant;
  members : gmap string (option Value)
}.
#[global] Instance PeerSnapshot_stamped : Stamped PeerSnapshot := ps_inserted_at.

(** Collecting into a [HashMap]: a later entry for a user replaces an earlier. *)
Definition PeerSnapshot_new (ms : list PresenceSnapshotMember) (now : Instant) : PeerSnapshot :=
  {| ps_inserted_at := now;
     members := foldl (fun acc m => <[psm_user_id m := psm_user_info m]> acc) ∅ ms |}.

(** Keys are [(app_id, channel)]. *)
Abbreviation Cache := (gmap (string * string) (gmap string PeerSnapshot)) (only parsing).

Definition insert_snapshot (t : Cache) (app_id channel node_id : string)
    (ms : list PresenceSnapshotMember) (now : Instant) : Cache :=
  let key := (app_id, channel) in
  <[key := <[node_id := PeerSnapshot_new ms now]> (nodes_of t key)]> t.

Definition touch (t : Cache) (app_id channel node_id : string) (now : Instant) : Cache :=
  let key := (app_id, channel) in
  match t !! key with
  | None => t
  | Some inner =>
      match inner !! node_id with
      | None => t
      | Some peer =>
          <[key := <[node_id := {| ps_inserted_at := now; members := members peer |}]> inner]> t
      end
  end.

Definition add_live (t : Cache) (app_id channel node_id user_id : string)
    (user_info : option Value) (now : Instant) : bool * Cache :=
  let key := (app_id, channel) in
  let inner := nodes_of t key in
  let ms := members (default (PeerSnapshot_new [] now) (inner !! node_id)) in
  (match ms !! user_id with None => true | Some _ => false end,
   <[key := <[node_id := {| ps_inserted_at := now; members := <[user_id := user_info]> ms |}]>
              inner]> t).

Definition remove_live (t : Cache) (app_id channel node_id user_id : string) (now : Instant)
  : bool * Cache :=
  let key := (app_id, channel) in
  match t !! key with
  | None => (false, t)
  | Some inner =>
      match inner !! node_id with
      | None => (false, t)
      | Some peer =>
          (match members peer !! user_id with Some _ => true | None => false end,
           <[key := <[node_id := {| ps_inserted_at := now;
                                    members := delete user_id (members peer) |}]> inner]> t)
      end
  end.

Section Queries.
Context `{HI : HashIter}.

Definition is_present_excluding (t : Cache) (app_id channel user_id : string)
    (except_node : option string) (now : Instant) : bool :=
  match t !! (app_id, channel) with
  | None => false
  | Some inner =>
      existsb (fun e : string * PeerSnapshot =>
        if match except_node with Some n => String.eqb n e.1 | None => false end then false
        else if negb (fresh now e.2) then false
        else match members e.2 !! user_id with Some _ => true | None => false end) (hiter inner)
  end.

Definition announced_user_ids (t : Cache) (app_id channel : string) : gset string :=
  match t !! (app_id, channel) with
  | None => ∅
  | Some inner => list_to_set (hvalues inner ≫= (fun peer => hkeys (members peer)))
  end.

(** The two nested loops of [remote_members_for] with their [seen] set. *)
Definition see_remote (acc : list PresenceSnapshotMember * gset string)
    (m : string * option Value) : list PresenceSnapshotMember * gset string :=
  if bool_decide (m.1 ∈ acc.2) then acc
  else (acc.1 ++ [{| psm_user_id := m.1; psm_user_info := m.2 |}], {[m.1]} ∪ acc.2).

Definition remote_members_for (t : Cache) (app_id channel : string) (now : Instant)
  : list PresenceSnapshotMember :=
  match t !! (app_id, channel) with
  | None => []
  | Some inner =>
      (foldl (fun acc peer =>
                if negb (fresh now peer) then acc
                else foldl see_remote acc (hiter (members peer)))
         ([], ∅) (hvalues inner)).1
  end.

Definition gc_expired (t : Cache) (now : Instant) : list ExpiredMember * Cache :=
  let '(dropped, t') := gc_table true t now in
  (dropped ≫= (fun d : (string * string) * (string * PeerSnapshot) =>
     (fun u => {| em_app_id := d.1.1; em_channel := d.1.2; em_user_id := u |})
       <$> hkeys (members d.2.2)), t').
End Queries.
End PresenceCache.

(** ** The sweep, for every table *)

Section Sweeping.
Context `{HI : HashIter} {K : Type} `{Countable K} {A : Type} `{ST : Stamped A}.
Implicit Types t : gmap K (gmap string A).
Implicit Types inner : gmap string A.

Lemma elem_of_stale_nodes inner now n :
  n ∈ stale_nodes inner now <-> exists e, inner !! n = Some e /\ fresh now e = false.
Proof.
  unfold stale_nodes. rewrite list_elem_of_fmap. split.
  - intros ([n' e] & -> & Hin). apply list_elem_of_In, List.filter_In in Hin as [Hin Hf].
    apply list_elem_of_In, elem_of_hiter in Hin. exists e. by apply negb_true_iff in Hf.
  - intros (e & Hl & Hf). exists (n, e). split; [done|].
    apply list_elem_of_In, List.filter_In. simpl. rewrite Hf. split; [|done].
    by apply list_elem_of_In, elem_of_hiter.
Qed.

Lemma filter_fmap_NoDup {B C} (f : B -> C) (p : B -> bool) l :
  NoDup (f <$> l) -> NoDup (f <$> List.filter p l).
Proof.
  induction l as [|x l IH]; simpl; [done|]. intros [Hx Hl]%NoDup_cons.
  destruct (p x); simpl; [|by apply IH]. apply NoDup_cons. split; [|by apply IH].
  intros (y & Hy & Hin)%list_elem_of_fmap. apply Hx. rewrite Hy.
  apply list_elem_of_fmap_2. apply list_elem_of_In, List.filter_In in Hin as [Hin _].
  by apply list_elem_of_In.
Qed.

Lemma NoDup_stale_nodes inner now : NoDup (stale_nodes inner now).
Proof. apply filter_fmap_NoDup, NoDup_hkeys. Qed.

(** Removing a list of distinct nodes. *)
Lemma reap_fold names inner out :
  NoDup names -> NoDup out -> (forall n e, (n, e) ∈ out -> n ∉ names) ->
  let r := foldl reap_node (out, inner) names in
  (forall n, r.2 !! n = if decide (n ∈ names) then None else inner !! n) /\
  (forall n e, (n, e) ∈ r.1 <-> (n, e) ∈ out \/ (n ∈ names /\ inner !! n = Some e)) /\
  NoDup r.1.
Proof.
  revert inner out. induction names as [|x names IH]; intros inner out Hnd Hout Hdis r.
  { unfold r. simpl. split_and!; [done| |done]. set_solver. }
  apply NoDup_cons in Hnd as [Hx Hnd]. unfold r. cbn [foldl]. unfold reap_node at 2 4 6. simpl.
  destruct (inner !! x) as [e|] eqn:E.
  - destruct (IH (delete x inner) (out ++ [(x, e)])) as (H1 & H2 & H3); [done| | |].
    + apply NoDup_app. split_and!; [done| |apply NoDup_singleton].
      intros [n e'] Hin [= -> ->]%list_elem_of_singleton. by apply (Hdis _ _ Hin); left.
    + intros n e' [Hin|[= -> ->]%list_elem_of_singleton]%elem_of_app; [|done].
      intros Hn. apply (Hdis _ _ Hin). by right.
    + split_and!; [| |done].
      * intros n. rewrite H1. destruct (decide (n = x)) as [->|Hne].
        -- rewrite lookup_delete_eq. repeat case_decide; set_solver.
        -- rewrite lookup_delete_ne by done. repeat case_decide; set_solver.
      * intros n e'. rewrite H2, elem_of_app, list_elem_of_singleton, lookup_delete_Some, elem_of_cons.
        split; [|destruct (decide (n = x)); naive_solver].
        intros [[?|[= -> ->]]|(? & ? & ?)]; auto.
  - destruct (IH inner out) as (H1 & H2 & H3); [done|done| |].
    + intros n e Hin Hn. apply (Hdis _ _ Hin). by right.
    + split_and!; [| |done].
      * intros n. rewrite H1. repeat case_decide; set_solver.
      * intros n e. rewrite H2, elem_of_cons. split; [naive_solver|].
        intros [?|[[->|?] ?]]; [auto|congruence|auto].
Qed.

Lemma reap_nodes_spec inner now :
  (forall n e, (reap_nodes inner now).2 !! n = Some e <-> inner !! n = Some e /\ fresh now e = true) /\
  (forall n e, (n, e) ∈ (reap_nodes inner now).1 <-> inner !! n = Some e /\ fresh now e = false) /\
  NoDup (reap_nodes inner now).1.
Proof.
  destruct (reap_fold (stale_nodes inner now) inner []) as (H1 & H2 & H3);
    [apply NoDup_stale_nodes|constructor|set_solver|].
  fold (reap_nodes inner now) in H1, H2, H3. split_and!; [| |done].
  - intros n e. unfold reap_nodes. rewrite H1. clear H1 H2 H3.
    case_decide as Hd; rewrite elem_of_stale_nodes in Hd; split; try done.
    + intros [Hl Hf]. destruct Hd as (e' & He' & Hs). congruence.
    + intros Hl. split; [done|]. destruct (fresh now e) eqn:E; [done|]. destruct Hd; eauto.
    + naive_solver.
  - intros n e. unfold reap_nodes. rewrite H2, elem_of_stale_nodes. split; [|naive_solver].
    intros [Hin|[(e' & He' & Hf) Hl]]; [set_solver|]. by simplify_eq.
Qed.

Lemma NoDup_pair_fmap {B} (k : K) (l : list B) : NoDup l -> NoDup (pair k <$> l).
Proof. apply NoDup_fmap_2. intros ? ? [= ->]. done. Qed.

(** One pass over distinct keys: [done] are the keys already swept. *)
Lemma gc_fold prune now keys t0 t out :
  NoDup keys ->
  (forall k, k ∈ keys -> t !! k = t0 !! k) ->
  (forall k d, (k, d) ∈ out -> k ∉ keys) -> NoDup out ->
  let r := foldl (gc_key prune now) (out, t) keys in
  (forall k, k ∉ keys -> r.2 !! k = t !! k) /\
  (forall k, k ∈ keys -> nodes_of r.2 k = (reap_nodes (nodes_of t0 k) now).2) /\
  (forall k d, (k, d) ∈ r.1 <->
     (k, d) ∈ out \/ (k ∈ keys /\ d ∈ (reap_nodes (nodes_of t0 k) now).1)) /\
  NoDup r.1.
Proof.
  revert t out. induction keys as [|x keys IH]; intros t out Hnd Ht Hout Hno r.
  { unfold r. simpl. split_and!; [done|set_solver|set_solver|done]. }
  apply NoDup_cons in Hnd as [Hx Hnd]. unfold r. cbn [foldl]. unfold gc_key at 2 4 6 8. simpl.
  pose proof (Ht x (list_elem_of_here _ _)) as Htx.
  destruct (t !! x) as [inner|] eqn:E.
  - assert (nodes_of t0 x = inner) as Hnx by (unfold nodes_of; by rewrite <- Htx).
    destruct (reap_nodes inner now) as [dropped inner'] eqn:Er.
    set (t1 := if prune && bool_decide (inner' = ∅) then delete x t else <[x := inner']> t).
    assert (forall k, k <> x -> t1 !! k = t !! k) as Ho.
    { intros k Hk. unfold t1. destruct (_ && _); [by rewrite lookup_delete_ne|by rewrite lookup_insert_ne]. }
    assert (nodes_of t1 x = inner') as Hn1.
    { unfold nodes_of, t1. destruct (prune && bool_decide (inner' = ∅)) eqn:Ep.
      - rewrite lookup_delete_eq. apply andb_true_iff in Ep as [_ Ep].
        by apply bool_decide_eq_true in Ep.
      - by rewrite lookup_insert_eq. }
    destruct (IH t1 (out ++ (pair x <$> dropped))) as (H1 & H2 & H3 & H4); [done| | | |].
    + intros k Hk. rewrite Ho by (intros ->; done). apply Ht. by right.
    + intros k d [Hin|Hin]%elem_of_app.
      * intros Hk. apply (Hout _ _ Hin). by right.
      * apply list_elem_of_fmap in Hin as (? & [= -> ->] & ?). done.
    + apply NoDup_app. split_and!; [done| |].
      * intros [k d] Hin Hin'. apply list_elem_of_fmap in Hin' as (? & [= -> ->] & ?).
        apply (Hout _ _ Hin). by left.
      * apply NoDup_pair_fmap. pose proof (reap_nodes_spec inner now) as (_ & _ & Hn). by rewrite Er in Hn.
    + split_and!; [| | |done].
      * intros k Hk. rewrite H1 by set_solver. apply Ho. set_solver.
      * intros k [->|Hk]%elem_of_cons; [|by apply H2].
        unfold nodes_of at 1. rewrite H1 by done. fold (nodes_of t1 x). by rewrite Hn1, Hnx, Er.
      * intros k d. rewrite H3, elem_of_app, elem_of_cons, list_elem_of_fmap. split.
        -- intros [[?|(d' & [= -> ->] & ?)]|[? ?]]; auto. right. split; [by left|]. by rewrite Hnx, Er.
        -- intros [?|[[->|?] Hd]]; auto. left. right. exists d. split; [done|]. by rewrite Hnx, Er in Hd.
  - assert (nodes_of t0 x = ∅) as Hnx by (unfold nodes_of; by rewrite <- Htx).
    destruct (IH t out) as (H1 & H2 & H3 & H4); [done| | |done|].
    + intros k Hk. apply Ht. by right.
    + intros k d Hin Hk. apply (Hout _ _ Hin). by right.
    + assert (forall d, d ∉ (reap_nodes (A := A) ∅ now).1) as Hnone.
      { intros [n e] (Hl & _)%(proj1 (proj2 (reap_nodes_spec ∅ now))). by rewrite lookup_empty in Hl. }
      split_and!; [| | |done].
      * intros k Hk. apply H1. set_solver.
      * intros k [->|Hk]%elem_of_cons; [|by apply H2].
        unfold nodes_of at 1. rewrite H1, E by done. rewrite Hnx. simpl. symmetry. apply map_empty.
        intros n. destruct ((reap_nodes ∅ now).2 !! n) as [e|] eqn:En; [|done].
        apply (proj1 (reap_nodes_spec ∅ now)) in En as [En _]. by rewrite lookup_empty in En.
      * intros k d. rewrite H3, elem_of_cons. split; [naive_solver|].
        intros [?|[[->|?] Hd]]; auto. rewrite Hnx in Hd. by apply Hnone in Hd.
Qed.

(** The sweep keeps exactly the fresh entries and reports exactly the stale
    ones, each once. *)
Lemma gc_table_spec prune t now :
  (forall k n e, nodes_of (gc_table prune t now).2 k !! n = Some e <->
     nodes_of t k !! n = Some e /\ fresh now e = true) /\
  (forall k n e, (k, (n, e)) ∈ (gc_table prune t now).1 <->
     nodes_of t k !! n = Some e /\ fresh now e = false) /\
  NoDup (gc_table prune t now).1.
Proof.
  destruct (gc_fold prune now (hkeys t) t t []) as (H1 & H2 & H3 & H4);
    [apply NoDup_hkeys|done|set_solver|constructor|].
  fold (gc_table prune t now) in H1, H2, H3, H4.
  assert (forall k, k ∉ hkeys t -> nodes_of t k = ∅) as Hno.
  { intros k Hk. unfold nodes_of. destruct (t !! k) eqn:E; [|done]. destruct Hk.
    apply elem_of_hkeys. eauto. }
  split_and!; [| |exact H4].
  - intros k n e. unfold gc_table. destruct (decide (k ∈ hkeys t)) as [Hk|Hk].
    + rewrite H2 by done. apply reap_nodes_spec.
    + unfold nodes_of at 1. rewrite H1 by done. fold (nodes_of t k). rewrite Hno by done.
      rewrite lookup_empty. naive_solver.
  - intros k n e. unfold gc_table. rewrite H3. split.
    + intros [?|[_ Hd]]; [set_solver|]. by apply reap_nodes_spec.
    + intros Hl. right. split; [|by apply reap_nodes_spec].
      destruct (decide (k ∈ hkeys t)) as [|Hk]; [done|]. rewrite (Hno k Hk), lookup_empty in Hl. naive_solver.
Qed.

(** Freshness is lost with time, never regained. *)
Lemma fresh_mono (e : A) now now' : (now <= now')%Z -> fresh now' e = true -> fresh now e = true.
Proof. unfold fresh, duration_since. rewrite !Z.leb_le. lia. Qed.
End Sweeping.

(** ** What the caches promise *)

Section Promises.
Context `{HI : HashIter}.

(** *** Presence rosters *)

(** Node [n] reported user [u] in the channel, and the report is fresh. *)
Definition reports (t : PresenceCache.Cache) (app_id channel n u : string) (now : Instant) : Prop :=
  exists peer, nodes_of t (app_id, channel) !! n = Some peer /\ fresh now peer = true /\
    is_Some (PresenceCache.members peer !! u).

Lemma present_iff t a c u ex now :
  PresenceCache.is_present_excluding t a c u ex now = true <->
  exists n, ex <> Some n /\ reports t a c n u now.
Proof.
  unfold PresenceCache.is_present_excluding, reports, nodes_of.
  destruct (t !! (a, c)) as [inner|]; simpl.
  - rewrite existsb_exists. split.
    + intros ([n peer] & Hin & Hp). apply list_elem_of_In, elem_of_hiter in Hin. simpl in Hp.
      exists n. split.
      * intros ->. by rewrite String.eqb_refl in Hp.
      * exists peer. destruct (match ex with Some _ => _ | None => _ end); [done|].
        destruct (fresh now peer); [|done]. simpl in Hp.
        destruct (PresenceCache.members peer !! u); [|done]. eauto.
    + intros (n & Hex & peer & Hl & Hf & [x Hx]). exists (n, peer). simpl. split.
      * by apply list_elem_of_In, elem_of_hiter.
      * rewrite Hf, Hx. simpl. destruct ex as [n'|]; [|done].
        destruct (String.eqb_spec n' n) as [->|]; [done|done].
  - split; [done|]. intros (n & _ & peer & Hl & _). by rewrite lookup_empty in Hl.
Qed.

Lemma nodes_of_insert {K} `{Countable K} {A} (t : gmap K (gmap string A)) k k' inner :
  nodes_of (<[k := inner]> t) k' = if decide (k' = k) then inner else nodes_of t k'.
Proof.
  unfold nodes_of. case_decide as Hd; [subst; by rewrite lookup_insert_eq|].
  by rewrite lookup_insert_ne.
Qed.

Lemma fresh_now {A} `{Stamped A} (e : A) now : inserted_at e = now -> fresh now e = true.
Proof. intros <-. unfold fresh, duration_since. apply Z.leb_le. rewrite Z.sub_diag. done. Qed.

Lemma reports_insert t a c n peer a' c' n' u now :
  reports (<[(a, c) := <[n := peer]> (nodes_of t (a, c))]> t) a' c' n' u now <->
  if decide ((a', c', n') = (a, c, n))
  then fresh now peer = true /\ is_Some (PresenceCache.members peer !! u)
  else reports t a' c' n' u now.
Proof.
  unfold reports. rewrite nodes_of_insert.
  destruct (decide ((a', c', n') = (a, c, n))) as [Hd|Hd]; [simplify_eq|].
  - rewrite decide_True by done. rewrite lookup_insert_eq. naive_solver.
  - case_decide as Hk; [simplify_eq|done].
    rewrite lookup_insert_ne by congruence. done.
Qed.

Lemma PeerSnapshot_members ms now u :
  is_Some (PresenceCache.members (PresenceCache.PeerSnapshot_new ms now) !! u) <->
  u ∈ psm_user_id <$> ms.
Proof.
  simpl. assert (forall acc : gmap string (option Value),
    is_Some (foldl (fun acc m => <[psm_user_id m := psm_user_info m]> acc) acc ms !! u) <->
    is_Some (acc !! u) \/ u ∈ psm_user_id <$> ms) as Hg.
  { induction ms as [|m ms IH]; intros acc; simpl; [set_solver|]. rewrite IH, elem_of_cons.
    destruct (decide (u = psm_user_id m)) as [->|Hne].
    - rewrite lookup_insert_eq. naive_solver.
    - rewrite lookup_insert_ne by done. naive_solver. }
  rewrite Hg, lookup_empty. split; [|by right]. intros [[? [=]]|?]; done.
Qed.

(** A live join, a live leave and a roster snapshot from a node change what
    that node is taken to report for that channel exactly as they say, refresh
    the report, and change nothing that other nodes, channels or applications
    report (a live leave or a refresh of an unknown node is ignored). *)
Theorem presence_reports t a c n u info ms now :
  (forall a' c' n' u', reports (PresenceCache.add_live t a c n u info now).2 a' c' n' u' now <->
     if decide ((a', c', n') = (a, c, n))
     then u' = u \/ exists p, nodes_of t (a, c) !! n = Some p /\ is_Some (PresenceCache.members p !! u')
     else reports t a' c' n' u' now) /\
  (forall a' c' n' u', reports (PresenceCache.remove_live t a c n u now).2 a' c' n' u' now <->
     if decide ((a', c', n') = (a, c, n))
     then u' <> u /\ exists p, nodes_of t (a, c) !! n = Some p /\ is_Some (PresenceCache.members p !! u')
     else reports t a' c' n' u' now) /\
  (forall a' c' n' u', reports (PresenceCache.insert_snapshot t a c n ms now) a' c' n' u' now <->
     if decide ((a', c', n') = (a, c, n)) then u' ∈ psm_user_id <$> ms
     else reports t a' c' n' u' now).
Proof.
  split_and!; intros a' c' n' u'.
  - unfold PresenceCache.add_live. simpl. rewrite reports_insert. case_decide as Hd; [|done].
    rewrite fresh_now by done. simpl. destruct (nodes_of t (a, c) !! n) as [p|] eqn:E; simpl.
    + destruct (decide (u' = u)) as [->|Hne].
      * rewrite lookup_insert_eq. naive_solver.
      * rewrite lookup_insert_ne by done. naive_solver.
    + rewrite lookup_insert_is_Some, lookup_empty. split.
      * intros [_ [->|[_ [? [=]]]]]. by left.
      * intros [->|(? & [=] & _)]. eauto.
  - unfold PresenceCache.remove_live. unfold nodes_of at 1.
    destruct (t !! (a, c)) as [inner|] eqn:E; simpl.
    + destruct (inner !! n) as [p|] eqn:En; simpl.
      * assert (nodes_of t (a, c) = inner) as Hi by (unfold nodes_of; by rewrite E).
        rewrite <- Hi at 1. rewrite reports_insert. case_decide as Hd; [|done].
        rewrite fresh_now by done. simpl. rewrite lookup_delete_is_Some. naive_solver.
      * case_decide as Hd; [simplify_eq|done]. unfold reports, nodes_of. rewrite E. simpl.
        rewrite En. naive_solver.
    + case_decide as Hd; [simplify_eq|done]. unfold reports, nodes_of. rewrite E. simpl.
      setoid_rewrite lookup_empty. naive_solver.
  - unfold PresenceCache.insert_snapshot. rewrite reports_insert. case_decide as Hd; [|done].
    rewrite fresh_now by done. rewrite PeerSnapshot_members. naive_solver.
Qed.

Lemma reports_gc t a c n u now now' :
  (now <= now')%Z ->
  reports (PresenceCache.gc_expired t now).2 a c n u now' <-> reports t a c n u now'.
Proof.
  intros Hle. unfold PresenceCache.gc_expired.
  destruct (gc_table_spec true t now) as (H1 & _ & _).
  destruct (gc_table true t now) as [d t']. simpl in *. unfold reports. split.
  - intros (p & Hp & Hf & Hu). apply H1 in Hp as [Hp _]. eauto.
  - intros (p & Hp & Hf & Hu). exists p. split; [|done]. apply H1. split; [done|].
    by apply (fresh_mono p now now').
Qed.

(** Sweeping expired peers is invisible to every later query, and reports
    exactly the members of the rosters it drops: those of the nodes that were
    not heard of within the time to live. *)
Theorem presence_gc t now now' a c u ex :
  (now <= now')%Z ->
  let r := PresenceCache.gc_expired t now in
  PresenceCache.is_present_excluding r.2 a c u ex now'
    = PresenceCache.is_present_excluding t a c u ex now' /\
  ({| PresenceCache.em_app_id := a; PresenceCache.em_channel := c;
      PresenceCache.em_user_id := u |} ∈ r.1 <->
   exists n p, nodes_of t (a, c) !! n = Some p /\ fresh now p = false /\
     is_Some (PresenceCache.members p !! u)).
Proof.
  intros Hle r. split.
  - apply eq_true_iff_eq. rewrite !present_iff.
    split; intros (n & Hn & Hr); exists n; (split; [done|]); by apply (reports_gc t a c n u now now').
  - unfold r, PresenceCache.gc_expired.
    destruct (gc_table_spec true t now) as (_ & H2 & _).
    destruct (gc_table true t now) as [d t']. simpl in *. rewrite list_elem_of_bind. split.
    + intros ([[a' c'] [n p]] & Hin & Hd). apply list_elem_of_fmap in Hin as (u' & [= -> -> ->] & Hu).
      apply H2 in Hd as [Hl Hf]. apply elem_of_hkeys in Hu. eauto.
    + intros (n & p & Hl & Hf & Hu). exists ((a, c), (n, p)). split; [|by apply H2].
      apply list_elem_of_fmap. exists u. split; [done|]. by apply elem_of_hkeys.
Qed.

(** The fleet's members of a channel, each listed once. *)
Lemma see_remote_fold ms acc :
  (forall u, u ∈ acc.2 <-> u ∈ psm_user_id <$> acc.1) -> NoDup (psm_user_id <$> acc.1) ->
  let r := foldl PresenceCache.see_remote acc ms in
  (forall u, u ∈ r.2 <-> u ∈ psm_user_id <$> r.1) /\ NoDup (psm_user_id <$> r.1) /\
  (forall u, u ∈ r.2 <-> u ∈ acc.2 \/ u ∈ ms.*1).
Proof.
  revert acc. induction ms as [|[u i] ms IH]; intros acc Ha Hn; [simpl; set_solver|].
  cbn [foldl]. unfold PresenceCache.see_remote at 2 4 6 8. simpl. case_bool_decide as Hu.
  - destruct (IH acc Ha Hn) as (H1 & H2 & H3). split_and!; [done|done|].
    intros v. rewrite H3. set_solver.
  - edestruct IH as (H1 & H2 & H3).
    3:{ split_and!; [exact H1|exact H2|]. intros v. rewrite H3. simpl. set_solver. }
    + intros v. simpl. rewrite fmap_app. simpl. set_solver.
    + simpl. rewrite fmap_app. simpl. apply NoDup_app. split_and!; [done| |apply NoDup_singleton].
      intros v Hv ->%list_elem_of_singleton. by apply Hu, Ha.
Qed.

Lemma remote_members_spec t a c now :
  NoDup (psm_user_id <$> PresenceCache.remote_members_for t a c now) /\
  (forall u, u ∈ psm_user_id <$> PresenceCache.remote_members_for t a c now <->
     exists n, reports t a c n u now).
Proof.
  unfold PresenceCache.remote_members_for, reports, nodes_of.
  destruct (t !! (a, c)) as [inner|]; simpl.
  2:{ split; [constructor|]. intros u. split; [set_solver|].
      intros (n & p & Hl & _). by rewrite lookup_empty in Hl. }
  set (f := fun acc peer => if negb (fresh now peer) then acc
              else foldl PresenceCache.see_remote acc (hiter (PresenceCache.members peer))).
  assert (forall peers acc,
    (forall u, u ∈ acc.2 <-> u ∈ psm_user_id <$> acc.1) -> NoDup (psm_user_id <$> acc.1) ->
    let r := foldl f acc peers in
    (forall u, u ∈ r.2 <-> u ∈ psm_user_id <$> r.1) /\ NoDup (psm_user_id <$> r.1) /\
    (forall u, u ∈ r.2 <-> u ∈ acc.2 \/ exists p, p ∈ peers /\ fresh now p = true /\
       is_Some (PresenceCache.members p !! u))) as Hg.
  { induction peers as [|p peers IH]; intros acc Ha Hn; [simpl; set_solver|].
    cbn [foldl]. unfold f at 2 4 6 8. destruct (fresh now p) eqn:Ef; cbn [negb].
    - destruct (see_remote_fold (hiter (PresenceCache.members p)) acc Ha Hn) as (H1 & H2 & H3).
      destruct (IH _ H1 H2) as (H4 & H5 & H6). split_and!; [done|done|].
      intros u. pose proof (elem_of_hkeys (PresenceCache.members p) u) as Hk. unfold hkeys in Hk.
      rewrite H6, H3, Hk. setoid_rewrite elem_of_cons. clear -Ef. naive_solver.
    - destruct (IH acc Ha Hn) as (H1 & H2 & H3). split_and!; [done|done|].
      intros u. rewrite H3. setoid_rewrite elem_of_cons. clear -Ef. split.
      + intros [?|(q & ? & ?)]; eauto 6.
      + intros [?|(q & [->|?] & Hq & ?)]; [auto|congruence|eauto 6]. }
  destruct (Hg (hvalues inner) ([], ∅)) as (H1 & H2 & H3); [set_solver|constructor|].
  split; [done|]. intros u. rewrite <- H1, H3. simpl. split.
  - intros [?|(p & Hp & Hf & Hu)]; [set_solver|]. apply elem_of_hvalues in Hp as [n Hl]. eauto.
  - intros (n & p & Hl & Hf & Hu). right. exists p. rewrite elem_of_hvalues. eauto.
Qed.
End Promises.

(** *** Subscription counts *)

Section CountPromises.
Context `{HI : HashIter}.
Import PeerChannelCounts.

(** The total of the fresh counts. *)
Definition live_total (inner : gmap string CountEntry) (now : Instant) : Z :=
  map_fold (fun _ e acc => if fresh now e then (count e + acc)%Z else acc) 0%Z inner.

Lemma wrap_fold l acc :
  foldl (fun acc e => wrap_u64 (acc + count e)) (wrap_u64 acc) l
  = wrap_u64 (acc + foldr (fun e s => count e + s) 0 l)%Z.
Proof.
  revert acc. induction l as [|e l IH]; intros acc; simpl; [by rewrite Z.add_0_r|].
  assert (wrap_u64 (wrap_u64 acc + count e) = wrap_u64 (acc + count e)) as ->
    by (unfold wrap_u64; apply Zplus_mod_idemp_l).
  rewrite IH. f_equal. lia.
Qed.

Lemma foldr_count_perm l1 l2 :
  Permutation l1 l2 ->
  foldr (fun e s => count e + s)%Z 0%Z l1 = foldr (fun e s => count e + s)%Z 0%Z l2.
Proof. induction 1; simpl; lia. Qed.

Lemma sum_spec t a c now : sum t a c now = wrap_u64 (live_total (nodes_of t (a, c)) now).
Proof.
  unfold sum, nodes_of. destruct (t !! (a, c)) as [inner|]; simpl; [|done].
  change 0%Z with (wrap_u64 0) at 1. rewrite wrap_fold. f_equal.
  unfold hvalues. rewrite (foldr_count_perm _ (List.filter (fresh now) (map_to_list inner).*2))
    by (apply filter_perm; by rewrite hiter_perm).
  unfold live_total. rewrite map_fold_foldr.
  rewrite Z.add_0_l. induction (map_to_list inner) as [|[n e] l IH]; [done|].
  cbn. rewrite <- IH. by destruct (fresh now e).
Qed.

Lemma live_total_insert inner n e now :
  live_total (<[n := e]> inner) now
  = ((if fresh now e then count e else 0) + live_total (delete n inner) now)%Z.
Proof.
  unfold live_total. rewrite <- insert_delete_eq.
  rewrite map_fold_insert_L; [by destruct (fresh now e)| |apply lookup_delete_eq].
  intros. destruct (fresh now z1), (fresh now z2); lia.
Qed.

Lemma live_total_filter inner inner' now :
  (forall n e, inner' !! n = Some e <-> inner !! n = Some e /\ fresh now e = true) ->
  live_total inner' now = live_total inner now.
Proof.
  intros H. assert (inner' = filter (fun kv => fresh now kv.2 = true) inner) as ->.
  { apply map_eq. intros n. apply option_eq. intros e. by rewrite map_lookup_filter_Some, H. }
  clear H. induction inner as [|n e inner Hn IH] using map_ind.
  - by rewrite map_filter_empty.
  - rewrite map_filter_insert, !live_total_insert. simpl. case_decide as Hf.
    + rewrite live_total_insert. rewrite !delete_id; [|done|by apply map_lookup_filter_None; left].
      by rewrite IH.
    + rewrite map_filter_delete. destruct (fresh now e); [done|].
      rewrite !delete_id; [|done|by apply map_lookup_filter_None; left]. by rewrite IH.
Qed.

Lemma live_total_subset inner inner' now now' :
  (now <= now')%Z ->
  (forall n e, inner' !! n = Some e <-> inner !! n = Some e /\ fresh now e = true) ->
  live_total inner' now' = live_total inner now'.
Proof.
  intros Hle H. transitivity (live_total (filter (fun kv => fresh now' kv.2 = true) inner) now').
  - symmetry. apply live_total_filter. intros n e. rewrite map_lookup_filter_Some, H. simpl.
    split; [|naive_solver]. intros [? Hf]. pose proof (fresh_mono e now now' Hle Hf). naive_solver.
  - apply live_total_filter. intros n e. by rewrite map_lookup_filter_Some.
Qed.

(** The subscription count cache adds up: the sum over the peers is the
    total (modulo 2^64) of the counts reported within the time to live, a new
    report replaces that node's share, a refresh keeps its count, and sweeping
    expired nodes changes no later sum and reports exactly what it dropped. *)
Theorem count_cache t a c n k now now' :
  (now <= now')%Z ->
  sum (set t a c n k now).2 a c now
    = wrap_u64 (k + live_total (delete n (nodes_of t (a, c))) now) /\
  (set t a c n k now).1 = default 0%Z (count <$> nodes_of t (a, c) !! n) /\
  (forall a' c', (a', c') <> (a, c) -> sum (set t a c n k now).2 a' c' now = sum t a' c' now) /\
  (forall n', count <$> nodes_of (touch t a c n now) (a, c) !! n' = count <$> nodes_of t (a, c) !! n') /\
  sum (gc_expired t now).2 a c now' = sum t a c now' /\
  ((a, c, n, k) ∈ (gc_expired t now).1 <->
     exists e, nodes_of t (a, c) !! n = Some e /\ fresh now e = false /\ count e = k).
Proof.
  intros Hle. split_and!.
  - rewrite sum_spec. simpl. rewrite nodes_of_insert, decide_True by done.
    rewrite live_total_insert, fresh_now by done. done.
  - done.
  - intros a' c' Hne. rewrite !sum_spec. simpl. by rewrite nodes_of_insert, decide_False.
  - intros n'. unfold touch. destruct (t !! (a, c)) as [inner|] eqn:E; [|done].
    destruct (inner !! n) as [e|] eqn:En; [|done]. rewrite nodes_of_insert, decide_True by done.
    unfold nodes_of. rewrite E. simpl. destruct (decide (n' = n)) as [->|Hne].
    + by rewrite lookup_insert_eq, En.
    + by rewrite lookup_insert_ne.
  - rewrite !sum_spec. f_equal. unfold gc_expired.
    destruct (gc_table_spec true t now) as (H1 & _ & _). destruct (gc_table true t now) as [d t'].
    apply (live_total_subset _ _ now now' Hle). apply H1.
  - unfold gc_expired. destruct (gc_table_spec true t now) as (_ & H2 & _).
    destruct (gc_table true t now) as [d t']. simpl in *. rewrite list_elem_of_fmap. split.
    + intros ([[a' c'] [n' e]] & [= -> -> -> ->] & Hd). apply H2 in Hd as [? ?]. eauto.
    + intros (e & Hl & Hf & <-). exists ((a, c), (n, e)). split; [done|]. by apply H2.
Qed.
End CountPromises.

(** *** Signed-in users *)

Section SessionPromises.
Context `{HI : HashIter}.
Import PeerUserSessions.

Lemma session_present_iff t a u ex now :
  is_present_excluding t a u ex now = true <->
  exists n e, ex <> Some n /\ nodes_of t a !! n = Some e /\ fresh now e = true /\ u ∈ users e.
Proof.
  unfold is_present_excluding, nodes_of. destruct (t !! a) as [inner|]; simpl.
  - rewrite existsb_exists. split.
    + intros ([n e] & Hin & Hp). apply list_elem_of_In, elem_of_hiter in Hin. simpl in Hp.
      exists n, e. split; [intros ->; by rewrite String.eqb_refl in Hp|].
      destruct (match ex with Some _ => _ | None => _ end); [done|].
      destruct (fresh now e); [|done]. simpl in Hp. by apply bool_decide_eq_true in Hp.
    + intros (n & e & Hex & Hl & Hf & Hu). exists (n, e). simpl. split.
      * by apply list_elem_of_In, elem_of_hiter.
      * rewrite Hf. simpl. rewrite bool_decide_true by done. destruct ex as [n'|]; [|done].
        by destruct (String.eqb_spec n' n) as [->|].
  - split; [done|]. intros (n & e & _ & Hl & _). by rewrite lookup_empty in Hl.
Qed.

Lemma session_gc t now now' a u ex :
  (now <= now')%Z ->
  is_present_excluding (gc_expired t now).2 a u ex now' = is_present_excluding t a u ex now'.
Proof.
  intros Hle. apply eq_true_iff_eq. rewrite !session_present_iff. unfold gc_expired.
  destruct (gc_table_spec false t now) as (H1 & _ & _). destruct (gc_table false t now) as [d t'].
  split; intros (n & e & Hex & Hl & Hf & Hu); exists n, e; split_and!; try done.
  - by apply H1 in Hl as [? _].
  - apply H1. split; [done|]. by apply (fresh_mono e now now').
Qed.
End SessionPromises.

(** ** Witnesses *)

#[local] Instance wit_iter_peers : HashIter := canonical_iter.

Lemma presence_gc_witness :
  let t := (PresenceCache.add_live ∅ "a" "presence-x" "n1" "u" None 0%Z).2 in
  {| PresenceCache.em_app_id := "a"; PresenceCache.em_channel := "presence-x";
     PresenceCache.em_user_id := "u" |} ∈ (PresenceCache.gc_expired t (from_secs 16)).1 /\
  PresenceCache.is_present_excluding (PresenceCache.gc_expired t (from_secs 16)).2
    "a" "presence-x" "u" None (from_secs 17) = false.
Proof.
  intros t. destruct (presence_gc t (from_secs 16) (from_secs 17) "a" "presence-x" "u" None)
    as [H1 H2]; [vm_compute; discriminate|]. split.
  - apply H2. exists "n1", {| PresenceCache.ps_inserted_at := 0%Z; PresenceCache.members := {["u" := None]} |}.
    split_and!; [reflexivity|reflexivity|vm_compute; eauto].
  - rewrite H1. reflexivity.
Defined.

Lemma count_cache_witness :
  let t := (PeerChannelCounts.set ∅ "a" "room" "n1" 3 0%Z).2 in
  PeerChannelCounts.sum (PeerChannelCounts.set t "a" "room" "n2" 4 0%Z).2 "a" "room" 0%Z = 7%Z.
Proof.
  intros t. rewrite (proj1 (count_cache t "a" "room" "n2" 4 0%Z 0%Z (Z.le_refl _))). reflexivity.
Defined.
