(* ===== verification/Encryption.v ===== *)
(** * zatat-protocol: end-to-end encrypted channels

    Models [crates/zatat-protocol/src/encryption.rs] and the two functions of
    [crates/zatat-scaling/src/dispatcher.rs] that use it before a publish.
    Base64, SHA-256, XSalsa20-Poly1305 and the [serde] encoding of the envelope
    are third-party code: parameters of class [SecretBox].  The nonce the
    operating system draws is an argument. *)

From S2P Require Import Prelude.
From S2P Require Import Core.
From S2P Require Import Json.
From stdpp Require Import options.

Inductive EncryptionError :=
  InvalidMasterKey | WrongMasterKeyLength | EncryptFailed | DecryptFailed | BadEnvelope.

Definition err_text (e : EncryptionError) : string :=
  match e with
  | InvalidMasterKey => "master key is not valid base64"
  | WrongMasterKeyLength => "master key must be 32 bytes"
  | EncryptFailed => "encryption failed"
  | DecryptFailed => "decryption failed"
  | BadEnvelope => "bad encrypted envelope"
  end.

Record EncryptedEnvelope := { nonce : string; ciphertext : string }.

Class SecretBox := {
  b64_encode : string -> string;
  b64_decode : string -> option string;
  sha256 : string -> string;
  (** [encrypt(key, nonce, plaintext)] and [decrypt(key, nonce, ciphertext)]. *)
  box_encrypt : string -> string -> string -> option string;
  box_decrypt : string -> string -> string -> option string;
  (** [serde_json] on the derived envelope type. *)
  env_to_json : EncryptedEnvelope -> option string;
  env_from_json : string -> option EncryptedEnvelope
}.

Section Functions.
Context `{SJ : SerdeJson} `{SB : SecretBox}.

Definition looks_encrypted (data : string) : bool :=
  match from_str data with
  | None => false
  | Some v => match value_get v "nonce", value_get v "ciphertext" with
              | Some _, Some _ => true
              | _, _ => false
              end
  end.

Definition decode_master_key (b64 : string) : result string EncryptionError :=
  match b64_decode b64 with
  | None => Err InvalidMasterKey
  | Some bytes => if (len bytes =? 32)%Z then Ok bytes else Err WrongMasterKeyLength
  end.

Definition derive_shared_secret (channel master : string) : string := sha256 (channel +:+ master).

Definition encrypt_payload (nonce_bytes plaintext secret : string) : result string EncryptionError :=
  match box_encrypt secret nonce_bytes plaintext with
  | None => Err EncryptFailed
  | Some ct =>
      match env_to_json {| nonce := b64_encode nonce_bytes; ciphertext := b64_encode ct |} with
      | None => Err EncryptFailed
      | Some s => Ok s
      end
  end.

Definition decrypt_payload (envelope_json secret : string) : result string EncryptionError :=
  match env_from_json envelope_json with
  | None => Err BadEnvelope
  | Some env =>
      match b64_decode (nonce env) with
      | None => Err BadEnvelope
      | Some nonce_bytes =>
          if negb (len nonce_bytes =? 24)%Z then Err BadEnvelope
          else match b64_decode (ciphertext env) with
               | None => Err BadEnvelope
               | Some ct_bytes =>
                   match box_decrypt secret nonce_bytes ct_bytes with
                   | None => Err DecryptFailed
                   | Some plain => Ok plain
                   end
               end
      end
  end.

(** ** Before a publish *)

Inductive PublishError :=
| MissingMasterKey
| PInvalidMasterKey (e : string)
| PEncryptionFailed (e : string).

Definition maybe_encrypt (app : Application Value) (k : ChannelKind) (channel_name data : string)
    (nonce_bytes : string) : result string PublishError :=
  if negb (is_encrypted k) || looks_encrypted data then Ok data
  else match encryption_master_key app with
       | None => Err MissingMasterKey
       | Some master_b64 =>
           match decode_master_key master_b64 with
           | Err err => Err (PInvalidMasterKey (err_text err))
           | Ok master =>
               match encrypt_payload nonce_bytes data (derive_shared_secret channel_name master) with
               | Err err => Err (PEncryptionFailed (err_text err))
               | Ok s => Ok s
               end
           end
       end.

Definition validate_publish (app : Application Value) (channel_name data : string)
  : result unit PublishError :=
  if negb (is_encrypted (from_name channel_name)) || looks_encrypted data then Ok tt
  else match encryption_master_key app with
       | None => Err MissingMasterKey
       | Some master_b64 =>
           match decode_master_key master_b64 with
           | Err err => Err (PInvalidMasterKey (err_text err))
           | Ok _ => Ok tt
           end
       end.
End Functions.

(** ** What the libraries document *)

Class SecretBoxLaws `(SJ : SerdeJson) `(SB : SecretBox) : Prop := {
  b64_roundtrip : forall s, b64_decode (b64_encode s) = Some s;
  box_roundtrip : forall k n p ct, box_encrypt k n p = Some ct -> box_decrypt k n ct = Some p;
  env_roundtrip : forall e s, env_to_json e = Some s -> env_from_json s = Some e;
  env_json : forall e s, env_to_json e = Some s ->
    from_str s = Some (Object [("nonce", VString (nonce e)); ("ciphertext", VString (ciphertext e))])
}.

Section Laws.
Set Default Proof Using "Type*".
Context `{SJ : SerdeJson} `{SB : SecretBox} `{!SecretBoxLaws SJ SB}.

Lemma encrypt_ok n p k s :
  encrypt_payload n p k = Ok s -> len n = 24%Z ->
  decrypt_payload s k = Ok p /\ looks_encrypted s = true.
Proof.
  unfold encrypt_payload, decrypt_payload, looks_encrypted. intros H Hn.
  destruct (box_encrypt k n p) as [ct|] eqn:Eb; [|done].
  destruct (env_to_json _) as [s'|] eqn:Ee; [|done]. injection H as ->.
  rewrite (env_roundtrip _ _ Ee), (env_json _ _ Ee). simpl.
  rewrite !b64_roundtrip, Hn. simpl. by rewrite (box_roundtrip _ _ _ _ Eb).
Qed.

(** What may go out on a channel for [data]: on an encrypted channel only an
    envelope, either the data itself, which the publisher encrypted, or one that
    decrypts to the data under the key derived from the channel name and the
    application's 32-byte master key; on any other channel the data as it is. *)
Definition sealed_for (app : Application Value) (channel data out : string) : Prop :=
  if is_encrypted (from_name channel) then
    looks_encrypted out = true /\
    (out = data \/
     exists b64 master, encryption_master_key app = Some b64 /\ b64_decode b64 = Some master /\
       len master = 32%Z /\ decrypt_payload out (derive_shared_secret channel master) = Ok data)
  else out = data.

Lemma maybe_encrypt_sealed app channel data nonce_bytes out :
  len nonce_bytes = 24%Z ->
  maybe_encrypt app (from_name channel) channel data nonce_bytes = Ok out ->
  sealed_for app channel data out.
Proof.
  intros Hn. unfold maybe_encrypt, sealed_for. destruct (is_encrypted (from_name channel)); simpl.
  - destruct (looks_encrypted data) eqn:El; [intros [= ->]; auto|].
    destruct (encryption_master_key app) as [b64|]; [|done].
    unfold decode_master_key. destruct (b64_decode b64) as [m|] eqn:Eb; [|done].
    destruct (Z.eqb_spec (len m) 32); [|done].
    destruct (encrypt_payload _ _ _) as [s|] eqn:Ee; [|done]. intros [= ->].
    destruct (encrypt_ok _ _ _ _ Ee Hn) as [Hd Hl]. split; [done|]. right. eauto 6.
  - by intros [= ->].
Qed.

(** The check before a request agrees with the publish itself: the only way a
    validated event still fails is the cipher. *)
Lemma validate_publish_agrees app channel data nonce_bytes :
  match validate_publish app channel data with
  | Ok _ => forall e, maybe_encrypt app (from_name channel) channel data nonce_bytes = Err e ->
              e = PEncryptionFailed (err_text EncryptFailed)
  | Err e => maybe_encrypt app (from_name channel) channel data nonce_bytes = Err e
  end.
Proof.
  unfold validate_publish, maybe_encrypt.
  destruct (negb _ || _); [done|]. destruct (encryption_master_key app) as [b64|]; [|done].
  destruct (decode_master_key b64) as [m|]; [|done]. unfold encrypt_payload.
  intros e. destruct (box_encrypt _ _ _); [destruct (env_to_json _)|]; congruence.
Qed.
End Laws.

(** ** A toy instance

    An instance of the libraries in which an envelope is the nonce and the
    ciphertext separated by a bar. *)

Definition toy_box : SecretBox :=
  {| b64_encode := id; b64_decode := Some; sha256 := id;
     box_encrypt := fun _ _ p => Some ("#" +:+ p);
     box_decrypt := fun _ _ ct => strip_prefix "#" ct;
     env_to_json := fun e => if has_char "|" (nonce e) then None
                             else Some (nonce e +:+ String "|" (ciphertext e));
     env_from_json := fun s => match split_once "|" s with
                               | Some (n, c) => Some {| nonce := n; ciphertext := c |}
                               | None => None
                               end |}.

Definition toy_json : SerdeJson :=
  {| from_str := fun s => match split_once "|" s with
                          | Some (n, c) => Some (Object [("nonce", VString n); ("ciphertext", VString c)])
                          | None => None
                          end;
     to_string := fun _ => "" |}.

Lemma toy_laws : SecretBoxLaws toy_json toy_box.
Proof.
  split.
  - done.
  - intros k n p ct [= <-]. reflexivity.
  - intros [n c] s. simpl. destruct (has_char "|" n) eqn:E; [done|]. intros [= <-].
    by rewrite (proj2 (split_once_Some "|" _ n c) (conj eq_refl E)).
  - intros [n c] s. simpl. destruct (has_char "|" n) eqn:E; [done|]. intros [= <-].
    by rewrite (proj2 (split_once_Some "|" _ n c) (conj eq_refl E)).
Qed.

Definition toy_app : Application Value :=
  {| app_id := "a"; app_key := "k"; app_secret := "s"; ping_interval := 60;
     activity_timeout := 30; max_message_size := 10000; max_connections := None;
     accept_client_events_from := AcceptAll; rate_limiting := None; allowed_origins_raw := ["*"];
     allowed_origins := ["*"]; app_webhooks := []; emit_subscription_count := true;
     encryption_master_key := Some "0123456789abcdef0123456789abcdef"; cache_ttl_seconds := None;
     max_presence_members_per_channel := 100; max_presence_member_size_bytes := 2048;
     max_channels_per_connection := 100 |}.
