(* ===== verification/Bus.v ===== *)
(** * zatat-scaling: the outbound side of the bus

    Models the publishing half of [crates/zatat-scaling/src/dispatcher.rs]: the
    bounded queue in front of the publisher worker, [Block] mode's staging
    buffer with its byte budget and forwarder task, the sequence numbers, and
    the drop accounting.  A queued item is the encoded envelope. *)

From S2P Require Import Prelude.
From S2P Require Import Core.
From S2P Require Import Json.
From S2P Require Import Envelope.
From S2P Require Import Message.
From stdpp Require Import options.

Definition PUBLISH_QUEUE_CAPACITY : Z := 32768.
Definition PUBLISH_DROP_WARN_INTERVAL : Duration := from_secs 5.
Definition BLOCK_STAGING_MAX_BYTES : Z := 256 * 1024 * 1024.

Inductive PublishOverflow := BestEffort | Block.

(** The staging queue, oldest first, and the bytes reserved for it. *)
Record BlockStaging := { st_queue : list string; st_bytes : Z; st_limit : Z }.

(** [publish_tx] is the bounded queue, oldest first; [batch] is what the worker
    has taken off it ([buf] in [run_publisher]), and [publishing] the counter
    other tasks read, which the worker sets a moment after it took the batch.  The two 64-bit counters, [publish_drops] and
    [seq], hold how often they were incremented; reading one reduces it modulo
    2^64 ([publish_drops_total], [next_seq]), as the wrap-around of
    [fetch_add] does. *)
Record Bus := {
  publish_tx : option (list string);
  block_tx : option BlockStaging;
  publish_drops : Z;
  last_publish_drop_warn : option Instant;
  batch : list string;
  publishing : nat;
  seq : Z
}.

Definition bus_new (scaling_enabled : bool) (overflow : PublishOverflow) : Bus :=
  {| publish_tx := if scaling_enabled then Some [] else None;
     block_tx := match overflow with
                 | Block => if scaling_enabled
                            then Some {| st_queue := []; st_bytes := 0; st_limit := BLOCK_STAGING_MAX_BYTES |}
                            else None
                 | BestEffort => None
                 end;
     publish_drops := 0; last_publish_drop_warn := None; batch := []; publishing := 0; seq := 0 |}.

Definition set_publish_tx (b : Bus) q : Bus :=
  {| publish_tx := q; block_tx := block_tx b; publish_drops := publish_drops b;
     last_publish_drop_warn := last_publish_drop_warn b; batch := batch b; publishing := publishing b; seq := seq b |}.
Definition set_block_tx (b : Bus) st : Bus :=
  {| publish_tx := publish_tx b; block_tx := st; publish_drops := publish_drops b;
     last_publish_drop_warn := last_publish_drop_warn b; batch := batch b; publishing := publishing b; seq := seq b |}.
Definition set_drops (b : Bus) n warn : Bus :=
  {| publish_tx := publish_tx b; block_tx := block_tx b; publish_drops := n;
     last_publish_drop_warn := warn; batch := batch b; publishing := publishing b; seq := seq b |}.
Definition set_batch (b : Bus) l n : Bus :=
  {| publish_tx := publish_tx b; block_tx := block_tx b; publish_drops := publish_drops b;
     last_publish_drop_warn := last_publish_drop_warn b; batch := l; publishing := n; seq := seq b |}.
Definition set_seq (b : Bus) n : Bus :=
  {| publish_tx := publish_tx b; block_tx := block_tx b; publish_drops := publish_drops b;
     last_publish_drop_warn := last_publish_drop_warn b; batch := batch b; publishing := publishing b; seq := n |}.

(** [fetch_add(1) + 1], which wraps around at 64 bits. *)
Definition next_seq (b : Bus) : Z * Bus :=
  (wrap_u64 (seq b + 1), set_seq b (seq b + 1)).

Definition publish_drops_total (b : Bus) : Z := wrap_u64 (publish_drops b).

(** Throttled warning: [Some now] when the log line is written. *)
Definition record_publish_drop (b : Bus) (now : Instant) : Bus :=
  let should_warn := match last_publish_drop_warn b with
                     | None => true
                     | Some t => (PUBLISH_DROP_WARN_INTERVAL <=? duration_since now t)%Z
                     end in
  set_drops b (publish_drops b + 1)
    (if should_warn then Some now else last_publish_drop_warn b).

Section Publishing.
Context `{WI : Wire} (overflow : PublishOverflow).

Definition with_seq (env : ScalingEnvelope) (n : Z) : ScalingEnvelope :=
  {| version := version env; env_seq := n; env_app := env_app env; payload := payload env |}.

Definition spawn_publish (b : Bus) (env : ScalingEnvelope) (now : Instant) : Bus :=
  match publish_tx b with
  | None => b
  | Some q =>
      let '(env, b) := if (env_seq env =? 0)%Z
                       then let '(n, b') := next_seq b in (with_seq env n, b')
                       else (env, b) in
      let bytes := to_vec env in
      match overflow with
      | BestEffort =>
          if (Z.of_nat (length q) <? PUBLISH_QUEUE_CAPACITY)%Z
          then set_publish_tx b (Some (q ++ [bytes]))
          else record_publish_drop b now
      | Block =>
          match block_tx b with
          | None => b
          | Some st =>
              if (st_bytes st + len bytes <=? st_limit st)%Z
              then set_block_tx b (Some {| st_queue := st_queue st ++ [bytes];
                                           st_bytes := st_bytes st + len bytes;
                                           st_limit := st_limit st |})
              else record_publish_drop b now
          end
      end
  end.

(** ** The two background tasks *)

(** One turn of [Block] mode's forwarder: the oldest staged item moves to the
    bounded queue once that has a free slot, and its bytes are released. *)
Definition forward_one (b : Bus) : Bus :=
  match publish_tx b, block_tx b with
  | Some q, Some st =>
      match st_queue st with
      | [] => b
      | item :: rest =>
          if (Z.of_nat (length q) <? PUBLISH_QUEUE_CAPACITY)%Z
          then set_block_tx (set_publish_tx b (Some (q ++ [item])))
                 (Some {| st_queue := rest; st_bytes := st_bytes st - len item; st_limit := st_limit st |})
          else b
      end
  | _, _ => b
  end.

(** One turn of [run_publisher] is three steps, between which other tasks can
    look: [recv_many] takes a batch of at most 64, the counter is set to its
    size, and once the provider has it both are cleared. *)
Definition publisher_take (b : Bus) : Bus :=
  match publish_tx b, batch b with
  | Some q, [] => set_batch (set_publish_tx b (Some (skipn 64 q))) (firstn 64 q) (publishing b)
  | _, _ => b
  end.

Definition publisher_mark (b : Bus) : Bus := set_batch b (batch b) (length (batch b)).

Definition publisher_done (b : Bus) : Bus := set_batch b [] 0.
End Publishing.

Definition publish_queue_depth (b : Bus) : nat :=
  match publish_tx b with Some q => length q | None => 0 end.

(** [pending_publishes] loads the staged bytes, then the depth of the queue, then
    the counter; the bus may move on in between, so it is given as it is at
    each of the three loads. *)
Definition pending_publishes (b1 b2 b3 : Bus) : nat :=
  let staged := match block_tx b1 with
                | Some st => if (0 <? st_bytes st)%Z then 1 else 0
                | None => 0
                end in
  publish_queue_depth b2 + staged + publishing b3.

(** ** The bus is a bounded FIFO *)

Section Fifo.
Context `{WI : Wire} (overflow : PublishOverflow).

Definition staged (b : Bus) : list string :=
  match block_tx b with Some st => st_queue st | None => [] end.

(** What is waiting, oldest first: the specification's queue. *)
Definition contents (b : Bus) : list string :=
  batch b ++ default [] (publish_tx b) ++ staged b.

Definition total_len (l : list string) : Z := foldr (fun s n => (len s + n)%Z) 0%Z l.

Record bus_wf (b : Bus) : Prop := {
  bus_queue : (Z.of_nat (publish_queue_depth b) <= PUBLISH_QUEUE_CAPACITY)%Z;
  bus_batch : length (batch b) <= 64 /\ (publishing b = 0 \/ publishing b = length (batch b));
  bus_mode : match publish_tx b, block_tx b with
             | Some _, None => overflow = BestEffort
             | Some _, Some st => overflow = Block /\ st_bytes st = total_len (st_queue st) /\
                                  (st_bytes st <= st_limit st)%Z /\ st_limit st = BLOCK_STAGING_MAX_BYTES
             | None, None => batch b = []
             | None, Some _ => False
             end
}.

Inductive BusOp := Publish (env : ScalingEnvelope) (now : Instant) | Forward | Take | Mark | Finish.

Definition bus_step (o : BusOp) (b : Bus) : Bus :=
  match o with
  | Publish env now => spawn_publish overflow b env now
  | Forward => forward_one b
  | Take => publisher_take b
  | Mark => publisher_mark b
  | Finish => publisher_done b
  end.

(** The encoding [spawn_publish] queues: a sequence number is filled in. *)
Definition encoded (b : Bus) (env : ScalingEnvelope) : string :=
  to_vec (if (env_seq env =? 0)%Z then with_seq env (next_seq b).1 else env).

(** The documented condition for accepting an item. *)
Definition has_room (b : Bus) (item : string) : bool :=
  match overflow with
  | BestEffort => (Z.of_nat (publish_queue_depth b) <? PUBLISH_QUEUE_CAPACITY)%Z
  | Block => (total_len (staged b) + len item <=? BLOCK_STAGING_MAX_BYTES)%Z
  end.

(** The specification of a history: accepted items in, finished batches out. *)
Fixpoint history (ops : list BusOp) (b : Bus) : list string * list string * Bus :=
  match ops with
  | [] => ([], [], b)
  | o :: ops =>
      let '(ins, outs, b') := history ops (bus_step o b) in
      let i := match o, publish_tx b with
               | Publish env _, Some _ => if has_room b (encoded b env) then [encoded b env] else []
               | _, _ => []
               end in
      let x := match o with Finish => batch b | _ => [] end in
      (i ++ ins, x ++ outs, b')
  end.

Lemma total_len_app l1 l2 : total_len (l1 ++ l2) = (total_len l1 + total_len l2)%Z.
Proof. induction l1 as [|s l1 IH]; simpl; lia. Qed.

Lemma len_nonneg s : (0 <= len s)%Z.
Proof. unfold len. lia. Qed.

Lemma total_len_nonneg l : (0 <= total_len l)%Z.
Proof. induction l as [|s l IH]; simpl; [lia|pose proof (len_nonneg s); lia]. Qed.

Lemma next_seq_frame b :
  publish_tx (next_seq b).2 = publish_tx b /\ block_tx (next_seq b).2 = block_tx b /\
  batch (next_seq b).2 = batch b /\ publish_drops (next_seq b).2 = publish_drops b /\
  publishing (next_seq b).2 = publishing b.
Proof. done. Qed.

(** A publish appends the encoded envelope, or counts a drop when there is no room. *)
Lemma spawn_publish_spec b env now :
  bus_wf b ->
  let b' := spawn_publish overflow b env now in
  bus_wf b' /\
  match publish_tx b with
  | None => b' = b
  | Some _ =>
      if has_room b (encoded b env)
      then contents b' = contents b ++ [encoded b env] /\
           publish_drops b' = publish_drops b
      else contents b' = contents b /\
           publish_drops b' = (publish_drops b + 1)%Z
  end.
Proof.
  intros Hw. pose proof Hw as [Hq Hb Hm]. unfold spawn_publish, encoded, has_room, contents, staged, publish_queue_depth in *.
  destruct (publish_tx b) as [q|] eqn:Eq; [|done].
  set (eb := if (env_seq env =? 0)%Z then _ else (env, b)).
  assert (eb = (if (env_seq env =? 0)%Z then with_seq env (next_seq b).1 else env,
                if (env_seq env =? 0)%Z then (next_seq b).2 else b)) as ->
    by (unfold eb; by destruct (env_seq env =? 0)%Z).
  set (item := to_vec _). set (b1 := if (env_seq env =? 0)%Z then (next_seq b).2 else b).
  assert (publish_tx b1 = Some q /\ block_tx b1 = block_tx b /\ batch b1 = batch b /\ publishing b1 = publishing b /\
          publish_drops b1 = publish_drops b) as (H1 & H2 & H3 & H3' & H4)
    by (unfold b1; by destruct (env_seq env =? 0)%Z).
  clearbody b1 item. destruct overflow eqn:Eo.
  - destruct (block_tx b) as [st|] eqn:Eb; [by destruct Hm|].
    destruct (Z.ltb_spec (Z.of_nat (length q)) PUBLISH_QUEUE_CAPACITY).
    + simpl. rewrite H2, H3, H4. split; [|by rewrite !app_nil_r, app_assoc].
      split; simpl; [unfold publish_queue_depth; simpl; rewrite length_app; simpl; lia|by rewrite ?H3, ?H3'|by rewrite ?H2].
    + simpl. rewrite H1, H2, H3, H4. split; [|done].
      split; simpl; [unfold publish_queue_depth; simpl; by rewrite ?H1|by rewrite ?H3, ?H3'|by rewrite ?H1, ?H2].
  - rewrite H2. destruct (block_tx b) as [st|] eqn:Eb; [|done].
    destruct Hm as (_ & Hbytes & Hle & Hlim). rewrite <- Hbytes, Hlim.
    destruct (Z.leb_spec (st_bytes st + len item) BLOCK_STAGING_MAX_BYTES).
    + simpl. rewrite H1, H3, H4. split; [|by rewrite !app_assoc].
      split; simpl; [unfold publish_queue_depth; simpl; by rewrite ?H1|by rewrite ?H3, ?H3'|rewrite ?H1].
      rewrite total_len_app. simpl. split_and!; [done|lia|lia|lia].
    + simpl. rewrite H1, H2, H3, H4. split; [|done].
      split; simpl; [unfold publish_queue_depth; simpl; by rewrite ?H1|by rewrite ?H3, ?H3'|rewrite ?H1, ?H2; by split_and!].
Qed.

Lemma forward_one_spec b : bus_wf b -> bus_wf (forward_one b) /\ contents (forward_one b) = contents b.
Proof.
  intros Hw. pose proof Hw as [Hq Hb Hm]. unfold forward_one, contents, staged, publish_queue_depth in *.
  destruct (publish_tx b) as [q|] eqn:Eq; [|by rewrite ?Eq].
  destruct (block_tx b) as [st|] eqn:Eb; [|by rewrite ?Eq, ?Eb].
  destruct (st_queue st) as [|item rest] eqn:Es; [by rewrite ?Eq, ?Eb, ?Es|].
  destruct Hm as (Hmode & Hbytes & Hle & Hlim).
  destruct (Z.ltb_spec (Z.of_nat (length q)) PUBLISH_QUEUE_CAPACITY).
  - simpl. split; [|by rewrite <- !app_assoc]. simpl in Hbytes. pose proof (len_nonneg item).
    split; simpl; [unfold publish_queue_depth; simpl; rewrite length_app; simpl; lia|done|].
    split_and!; [done|lia|lia|done].
  - by rewrite Eq, Eb, Es.
Qed.

Lemma publisher_take_spec b : bus_wf b -> bus_wf (publisher_take b) /\ contents (publisher_take b) = contents b.
Proof.
  intros Hw. pose proof Hw as [Hq Hb Hm]. unfold publisher_take, contents, staged, publish_queue_depth in *.
  destruct (publish_tx b) as [q|] eqn:Eq; [|by rewrite ?Eq].
  destruct (batch b) as [|x l] eqn:Ep; [|by rewrite Eq, Ep].
  simpl. split; [|by rewrite app_assoc, firstn_skipn].
  split; simpl; [unfold publish_queue_depth; simpl; rewrite length_drop; lia|rewrite length_take; simpl in Hb; lia|done].
Qed.

Lemma publisher_mark_spec b : bus_wf b -> bus_wf (publisher_mark b) /\ contents (publisher_mark b) = contents b.
Proof. intros [Hq [Hb _] Hm]. split; [|done]. split; simpl; [done|split; [done|by right]|done]. Qed.

Lemma publisher_done_spec b :
  bus_wf b -> bus_wf (publisher_done b) /\ contents b = batch b ++ contents (publisher_done b).
Proof.
  intros [Hq Hb Hm]. split; [|done]. split; simpl; [done|split; [lia|by left]|].
  destruct (publish_tx b), (block_tx b); done.
Qed.

Lemma bus_new_wf enabled : bus_wf (bus_new enabled overflow).
Proof.
  split; [by destruct enabled|simpl; split; [lia|by left]|].
  unfold bus_new. by destruct enabled; destruct overflow eqn:Eo.
Qed.

Lemma history_fifo ops b :
  bus_wf b ->
  let '(ins, outs, b') := history ops b in bus_wf b' /\ contents b ++ ins = outs ++ contents b'.
Proof.
  revert b. induction ops as [|o ops IH]; intros b Hb; simpl; [by rewrite app_nil_r|].
  destruct o as [env now| | | |].
  - destruct (spawn_publish_spec b env now Hb) as [Hw Hc]. specialize (IH _ Hw). simpl.
    destruct (history ops _) as [[ins outs] b']. destruct IH as [Hw' IH]. split; [done|]. simpl.
    destruct (publish_tx b); [|by rewrite Hc in IH].
    destruct (has_room b (encoded b env)); destruct Hc as [Hc _]; rewrite Hc in IH; [|done].
    by rewrite app_assoc.
  - destruct (forward_one_spec b Hb) as [Hw Hc]. specialize (IH _ Hw). rewrite Hc in IH.
    by destruct (history ops _) as [[ins outs] b'].
  - destruct (publisher_take_spec b Hb) as [Hw Hc]. specialize (IH _ Hw). rewrite Hc in IH.
    by destruct (history ops _) as [[ins outs] b'].
  - destruct (publisher_mark_spec b Hb) as [Hw Hc]. specialize (IH _ Hw). rewrite Hc in IH.
    by destruct (history ops _) as [[ins outs] b'].
  - destruct (publisher_done_spec b Hb) as [Hw Hc]. specialize (IH _ Hw). simpl.
    destruct (history ops _) as [[ins outs] b']. destruct IH as [Hw' IH]. split; [done|].
    rewrite Hc, <- !app_assoc, IH. by rewrite app_assoc.
Qed.

(** C36: The outbound bus is a bounded first-in-first-out queue in both overflow
    modes: over any history of publishes and turns of the background tasks,
    the envelopes accepted are, in order, those handed to the provider followed
    by those still waiting; the queue never exceeds its capacity, the staging
    buffer never its byte budget, whose account is exact. *)
Theorem bus_fifo enabled ops :
  let '(ins, outs, b) := history ops (bus_new enabled overflow) in
  ins = outs ++ contents b /\
  (Z.of_nat (publish_queue_depth b) <= PUBLISH_QUEUE_CAPACITY)%Z /\
  match block_tx b with
  | Some st => st_bytes st = total_len (st_queue st) /\ (st_bytes st <= BLOCK_STAGING_MAX_BYTES)%Z
  | None => True
  end.
Proof.
  pose proof (history_fifo ops _ (bus_new_wf enabled)) as H.
  destruct (history ops _) as [[ins outs] b]. destruct H as [[Hq _ Hm] Hc].
  assert (contents (bus_new enabled overflow) = []) as Hnil by (unfold bus_new; by destruct enabled, overflow).
  rewrite Hnil in Hc. split_and!; [done|done|].
  destruct (publish_tx b), (block_tx b); try done. destruct Hm as (_ & ? & ? & Hl). by rewrite <- Hl.
Qed.

(** ** What an idle reading means *)

(** One operation stages no more than it accepts, and takes nothing out of the
    worker's hands but what it hands on. *)
Lemma bus_step_moves o b :
  bus_wf b ->
  let i := match o, publish_tx b with
           | Publish env _, Some _ => if has_room b (encoded b env) then 1 else 0
           | _, _ => 0
           end in
  length (staged (bus_step o b)) <= length (staged b) + i /\
  length (batch b) <= match o with Finish => length (batch b) | _ => 0 end + length (batch (bus_step o b)).
Proof.
  intros Hw. destruct o as [env now| | | |]; simpl.
  - destruct (spawn_publish_spec b env now Hw) as [Hw' Hc].
    assert (batch (spawn_publish overflow b env now) = batch b /\
            (overflow = BestEffort -> publish_tx b <> None -> staged b = [] /\ staged (spawn_publish overflow b env now) = []) /\
            (overflow = Block -> default [] (publish_tx (spawn_publish overflow b env now)) = default [] (publish_tx b)))
      as (Hb & Hs & Hq).
    { unfold spawn_publish, staged, record_publish_drop. destruct Hw as [_ _ Hm].
      destruct (publish_tx b) as [q|] eqn:Eq; [|by rewrite Eq].
      destruct (env_seq env =? 0)%Z; simpl; destruct overflow; destruct (block_tx b) as [st|] eqn:Eb; try done;
        try (by destruct Hm); case_ifs; simpl; rewrite ?Eq, ?Eb; done. }
    rewrite Hb. split; [|lia]. destruct (publish_tx b) as [q|] eqn:Eq; [|rewrite Hc; lia].
    destruct overflow; [destruct (Hs eq_refl ltac:(done)) as [-> ->]; simpl; lia|].
    specialize (Hq eq_refl). unfold contents in Hc. rewrite Hb, Hq, Eq in Hc. simpl in Hc.
    destruct (has_room b (encoded b env)); destruct Hc as [Hc _]; apply (f_equal length) in Hc;
      rewrite !length_app in Hc; simpl in Hc; lia.
  - unfold forward_one, staged. destruct (publish_tx b); [|lia]. destruct (block_tx b) as [st|] eqn:E; [|rewrite E; lia].
    destruct (st_queue st) eqn:Es; [rewrite E, Es; simpl; lia|]. case_ifs; simpl; [lia|rewrite E, Es; simpl; lia].
  - unfold publisher_take, staged. destruct (publish_tx b); [|lia]. destruct (batch b) eqn:E; simpl; [lia|rewrite E; simpl; lia].
  - unfold staged. simpl. lia.
  - unfold staged. simpl. lia.
Qed.

Lemma history_moves ops b :
  bus_wf b ->
  let '(ins, outs, b') := history ops b in
  length (staged b') <= length (staged b) + length ins /\ length (batch b) <= length outs + length (batch b').
Proof.
  revert b. induction ops as [|o ops IH]; intros b Hb; simpl; [lia|].
  destruct (bus_step_moves o b Hb) as [H1 H2].
  assert (bus_wf (bus_step o b)) as Hw.
  { destruct o; simpl; [apply spawn_publish_spec|apply forward_one_spec|apply publisher_take_spec|
      apply publisher_mark_spec|apply publisher_done_spec]; done. }
  specialize (IH _ Hw). destruct (history ops (bus_step o b)) as [[ins outs] b']. rewrite !length_app.
  destruct o as [env now| | | |], (publish_tx b); simpl in *; try (destruct (has_room _ _); simpl in * ); lia.
Qed.

(** When the three loads of [pending_publishes] add up to zero, everything that
    was waiting at the first of them has been handed to the provider, but for
    a batch the worker has taken and not yet counted. *)
Lemma pending_publishes_zero ops1 ops2 b1 :
  bus_wf b1 -> Forall (fun s => (0 < len s)%Z) (staged b1) ->
  let '(ins1, outs1, b2) := history ops1 b1 in
  let '(ins2, outs2, b3) := history ops2 b2 in
  pending_publishes b1 b2 b3 = 0 ->
  contents b1 `prefix_of` outs1 ++ outs2 ++ batch b3 /\ publishing b3 = 0.
Proof.
  intros Hw Hpos. pose proof (history_fifo ops1 b1 Hw) as F1. pose proof (history_moves ops1 b1 Hw) as M1.
  destruct (history ops1 b1) as [[ins1 outs1] b2]. destruct F1 as [Hw2 F1].
  pose proof (history_fifo ops2 b2 Hw2) as F2. pose proof (history_moves ops2 b2 Hw2) as M2.
  destruct (history ops2 b2) as [[ins2 outs2] b3]. destruct F2 as [Hw3 F2]. unfold pending_publishes. intros Hz.
  split; [|lia].
  assert (staged b1 = []) as Hs1.
  { destruct Hw as [_ _ Hm]. unfold staged in *. destruct (block_tx b1) as [st|]; [|done].
    destruct (publish_tx b1) as [q|]; [|done]. destruct Hm as (_ & Hb & _). destruct (st_queue st) as [|x l]; [done|].
    apply Forall_cons in Hpos as [Hx _]. rewrite Hb in Hz. simpl in Hz.
    pose proof (total_len_nonneg l).
    destruct (Z.ltb_spec 0 (len x + total_len l)); lia. }
  assert (default [] (publish_tx b2) = []) as Hq2.
  { unfold publish_queue_depth in Hz. destruct (publish_tx b2) as [[|x l]|]; simpl in *; [done|lia|done]. }
  rewrite Hs1 in M1. simpl in M1.
  assert (contents b1 ++ ins1 ++ ins2 = (outs1 ++ outs2 ++ batch b3) ++ default [] (publish_tx b3) ++ staged b3) as Heq.
  { rewrite app_assoc, F1, <- !app_assoc. f_equal. rewrite F2. done. }
  assert (length (contents b1) <= length (outs1 ++ outs2 ++ batch b3)) as Hle.
  { apply (f_equal length) in F1. unfold contents at 2 in F1. rewrite Hq2 in F1. simpl in F1. rewrite !length_app in *. lia. }
  exists (drop (length (contents b1)) (outs1 ++ outs2 ++ batch b3)).
  rewrite <- (take_drop (length (contents b1)) (outs1 ++ outs2 ++ batch b3)) at 1. f_equal.
  apply (f_equal (take (length (contents b1)))) in Heq. rewrite take_app_length, take_app_le in Heq by done. done.
Qed.
End Fifo.

(** ** What an operation adds to the queue *)

Section Saying.
Context `{WI : Wire} (overflow : PublishOverflow).

(** [b'] is [b] after [kept] was queued; other envelopes may have been dropped,
    and sequence numbers drawn. *)
Record bus_says (b b' : Bus) (kept : list ScalingEnvelope) : Prop := {
  says_wf : bus_wf overflow b';
  says_seq : (seq b <= seq b')%Z;
  says_drops : (publish_drops b <= publish_drops b')%Z;
  says_on : is_Some (publish_tx b') <-> is_Some (publish_tx b);
  says_contents : contents b' = contents b ++ (to_vec <$> kept)
}.

(** Nothing that was queued is news of the node's state. *)
Definition bus_quiet (b b' : Bus) : Prop :=
  bus_wf overflow b ->
  exists kept, bus_says b b' kept /\ Forall (fun env => news_of (payload env) = None) kept.

Lemma bus_says_refl b : bus_wf overflow b -> bus_says b b [].
Proof. intros H. split; [done|lia|lia|done|by rewrite app_nil_r]. Qed.

Lemma bus_says_trans b1 b2 b3 k1 k2 : bus_says b1 b2 k1 -> bus_says b2 b3 k2 -> bus_says b1 b3 (k1 ++ k2).
Proof.
  intros [W1 S1 D1 O1 C1] [W2 S2 D2 O2 C2].
  split; [done|lia|lia|by rewrite O2|]. by rewrite C2, C1, fmap_app, app_assoc.
Qed.

#[export] Instance bus_quiet_preorder : PreOrder bus_quiet.
Proof.
  split.
  - intros b H. exists []. split; [by apply bus_says_refl|done].
  - intros b1 b2 b3 H1 H2 Hw. destruct (H1 Hw) as (k1 & S1 & F1).
    destruct (H2 (says_wf _ _ _ S1)) as (k2 & S2 & F2). exists (k1 ++ k2).
    split; [by eapply bus_says_trans|by apply Forall_app].
Qed.

Lemma next_seq_says b : bus_wf overflow b -> bus_says b (next_seq b).2 [].
Proof.
  intros [H1 H2 H3]. split; [by split|simpl; lia|simpl; lia|done|].
  simpl. by rewrite app_nil_r.
Qed.

(** A publish queues the envelope, with a sequence number, or counts a drop. *)
Lemma spawn_publish_says b env now :
  bus_wf overflow b ->
  let b' := spawn_publish overflow b env now in
  let sent := if (env_seq env =? 0)%Z then with_seq env (next_seq b).1 else env in
  exists kept, bus_says b b' kept /\ (kept = [] \/ kept = [sent] /\ is_Some (publish_tx b)) /\
    (is_Some (publish_tx b) -> publish_drops b' = publish_drops b -> kept = [sent]) /\
    (is_Some (publish_tx b) -> env_seq env = 0%Z -> seq b' = (seq b + 1)%Z).
Proof.
  intros Hw b' sent. destruct (spawn_publish_spec overflow b env now Hw) as [Hw' Hspec]. fold b' in Hw', Hspec.
  assert ((seq b <= seq b')%Z /\ (is_Some (publish_tx b') <-> is_Some (publish_tx b)) /\
          (is_Some (publish_tx b) -> env_seq env = 0%Z -> seq b' = (seq b + 1)%Z)) as (Hs & Ho & Hn).
  { unfold b', spawn_publish, record_publish_drop. destruct (publish_tx b) as [q|] eqn:Eq; [|rewrite Eq; split_and!; [lia|done|by intros [? [=]]]].
    destruct (Z.eqb_spec (env_seq env) 0); simpl; destruct overflow;
      try (destruct (_ <? _)%Z); try (destruct (block_tx b)); try (destruct (_ <=? _)%Z); simpl; rewrite ?Eq;
      split_and!; try lia; try done; naive_solver. }
  destruct (publish_tx b) as [q|] eqn:Eq.
  - destruct (has_room overflow b (encoded b env)).
    + destruct Hspec as [Hc Hd]. exists [sent]. split_and!; [|by eauto|done|done].
      split; [done|done|lia|by rewrite Ho, Eq|exact Hc].
    + destruct Hspec as [Hc Hd]. exists []. split_and!; [|by left|lia|done].
      split; [done|done|lia|by rewrite Ho, Eq|]. by rewrite Hc, app_nil_r.
  - exists []. rewrite Hspec. split_and!; [by apply bus_says_refl|by left|by intros [? [=]]|by intros [? [=]]].
Qed.

Lemma publish_quiet b env now : news_of (payload env) = None -> bus_quiet b (spawn_publish overflow b env now).
Proof.
  intros Hn Hw. destruct (spawn_publish_says b env now Hw) as (kept & Hs & Hk & _).
  exists kept. split; [done|]. destruct Hk as [->|[-> _]]; [done|]. apply Forall_singleton.
  by destruct (env_seq env =? 0)%Z.
Qed.
End Saying.
