(* ===== verification/Dispatcher.v ===== *)
(** * zatat-scaling: the event dispatcher

    Models [crates/zatat-scaling/src/dispatcher.rs]: what a node does with its
    own events and with the messages of its peers.  The state a node shares
    between its components is one record, [Node]; [W] is the state behind the
    transition sink (the server wires it to the webhook dispatcher).

    Each operation runs under the lock the code takes for it, or on single map
    entries; it is a function on the node's state at one reading of the clock. *)

From S2P Require Import Prelude.
From S2P Require Import Core.
From S2P Require Import Json.
From S2P Require Import Envelope.
From S2P Require Import Connection.
From S2P Require Import Channel.
From S2P Require Import Manager.
From S2P Require Import Message.
From S2P Require Import PeerState.
From S2P Require Import Encryption.
From S2P Require Import Bus.
From stdpp Require Import options.

Definition WITHHELD_WINDOW : Duration := from_secs 60.

Inductive FleetTransition :=
| FMemberRemoved (channel user_id : string)
| FChannelVacated (channel : string).

(** What is fixed when the dispatcher is created. *)
Record Config := {
  scaling_enabled : bool;
  node_id : string;
  publish_overflow : PublishOverflow
}.

(** What the peers reported: [peers_seen], the caches, and the highest sequence
    applied per (origin node, app, state key). *)
Record PeerView := {
  presence_cache : PresenceCache.Cache;
  peer_channel_counts : PeerChannelCounts.Counts;
  peer_user_sessions : PeerUserSessions.Sessions;
  peers_seen : gmap string Instant;
  peer_seqs : gmap (string * string * string) (Z * Instant)
}.

Record Node {W : Type} := {
  nd_channels : Manager;
  nd_mbs : Mailboxes;
  nd_bus : Bus;
  nd_view : PeerView;
  nd_withheld : gmap (string * string * option string) Instant;
  (** Responses received for a request and not yet read. *)
  nd_inflight : gmap string (list (string * list ChannelMetric * Z));
  nd_future_drops : Z;
  nd_future_warn : option Instant;
  nd_sink : W
}.
Arguments Node : clear implicits.

Definition set_cache_view (v : PeerView) x : PeerView :=
  {| presence_cache := x; peer_channel_counts := peer_channel_counts v;
     peer_user_sessions := peer_user_sessions v; peers_seen := peers_seen v; peer_seqs := peer_seqs v |}.
Definition set_counts_view (v : PeerView) x : PeerView :=
  {| presence_cache := presence_cache v; peer_channel_counts := x;
     peer_user_sessions := peer_user_sessions v; peers_seen := peers_seen v; peer_seqs := peer_seqs v |}.
Definition set_sessions_view (v : PeerView) x : PeerView :=
  {| presence_cache := presence_cache v; peer_channel_counts := peer_channel_counts v;
     peer_user_sessions := x; peers_seen := peers_seen v; peer_seqs := peer_seqs v |}.
Definition set_peers_view (v : PeerView) x : PeerView :=
  {| presence_cache := presence_cache v; peer_channel_counts := peer_channel_counts v;
     peer_user_sessions := peer_user_sessions v; peers_seen := x; peer_seqs := peer_seqs v |}.
Definition set_seqs_view (v : PeerView) x : PeerView :=
  {| presence_cache := presence_cache v; peer_channel_counts := peer_channel_counts v;
     peer_user_sessions := peer_user_sessions v; peers_seen := peers_seen v; peer_seqs := x |}.

Section NodeSetters.
Context {W : Type}.
Implicit Types nd : Node W.

Definition set_local nd m mbs : Node W :=
  {| nd_channels := m; nd_mbs := mbs; nd_bus := nd_bus nd; nd_view := nd_view nd;
     nd_withheld := nd_withheld nd; nd_inflight := nd_inflight nd;
     nd_future_drops := nd_future_drops nd; nd_future_warn := nd_future_warn nd; nd_sink := nd_sink nd |}.
Definition set_mbs nd mbs : Node W := set_local nd (nd_channels nd) mbs.
Definition set_manager nd m : Node W := set_local nd m (nd_mbs nd).
Definition set_bus nd b : Node W :=
  {| nd_channels := nd_channels nd; nd_mbs := nd_mbs nd; nd_bus := b; nd_view := nd_view nd;
     nd_withheld := nd_withheld nd; nd_inflight := nd_inflight nd;
     nd_future_drops := nd_future_drops nd; nd_future_warn := nd_future_warn nd; nd_sink := nd_sink nd |}.
Definition set_view nd v : Node W :=
  {| nd_channels := nd_channels nd; nd_mbs := nd_mbs nd; nd_bus := nd_bus nd; nd_view := v;
     nd_withheld := nd_withheld nd; nd_inflight := nd_inflight nd;
     nd_future_drops := nd_future_drops nd; nd_future_warn := nd_future_warn nd; nd_sink := nd_sink nd |}.
Definition set_withheld nd w : Node W :=
  {| nd_channels := nd_channels nd; nd_mbs := nd_mbs nd; nd_bus := nd_bus nd; nd_view := nd_view nd;
     nd_withheld := w; nd_inflight := nd_inflight nd;
     nd_future_drops := nd_future_drops nd; nd_future_warn := nd_future_warn nd; nd_sink := nd_sink nd |}.
Definition set_inflight nd i : Node W :=
  {| nd_channels := nd_channels nd; nd_mbs := nd_mbs nd; nd_bus := nd_bus nd; nd_view := nd_view nd;
     nd_withheld := nd_withheld nd; nd_inflight := i;
     nd_future_drops := nd_future_drops nd; nd_future_warn := nd_future_warn nd; nd_sink := nd_sink nd |}.
Definition set_future nd n w : Node W :=
  {| nd_channels := nd_channels nd; nd_mbs := nd_mbs nd; nd_bus := nd_bus nd; nd_view := nd_view nd;
     nd_withheld := nd_withheld nd; nd_inflight := nd_inflight nd;
     nd_future_drops := n; nd_future_warn := w; nd_sink := nd_sink nd |}.
Definition set_sink nd w : Node W :=
  {| nd_channels := nd_channels nd; nd_mbs := nd_mbs nd; nd_bus := nd_bus nd; nd_view := nd_view nd;
     nd_withheld := nd_withheld nd; nd_inflight := nd_inflight nd;
     nd_future_drops := nd_future_drops nd; nd_future_warn := nd_future_warn nd; nd_sink := w |}.
End NodeSetters.

(** Replies wait in the unbounded channel of the request. *)
Definition dispatcher_new {W} (cfg : Config) (m : Manager) (mbs : Mailboxes) (sink : W) : Node W :=
  {| nd_channels := m; nd_mbs := mbs; nd_bus := bus_new (scaling_enabled cfg) (publish_overflow cfg);
     nd_view := {| presence_cache := ∅; peer_channel_counts := ∅; peer_user_sessions := ∅;
                   peers_seen := ∅; peer_seqs := ∅ |};
     nd_withheld := ∅; nd_inflight := ∅; nd_future_drops := 0; nd_future_warn := None;
     nd_sink := sink |}.

(** ** Sequence numbers *)

Definition accept_seq (v : PeerView) (node app key : string) (seq : Z) (now : Instant)
  : bool * PeerView :=
  if (seq =? 0)%Z then (true, v)
  else
    let map_key := (node, app, key) in
    let entry := default (0%Z, now) (peer_seqs v !! map_key) in
    if (seq <=? entry.1)%Z
    then (false, set_seqs_view v (<[map_key := entry]> (peer_seqs v)))
    else (true, set_seqs_view v (<[map_key := (seq, now)]> (peer_seqs v))).

Definition gc_peer_sequences (v : PeerView) (now : Instant) : PeerView :=
  set_seqs_view v (filter (fun e => (duration_since now e.2.2 <? SNAPSHOT_TTL * 4)%Z = true) (peer_seqs v)).

(** ** Peers *)

Definition payload_node_id (p : ScalingPayload) : option string :=
  match p with
  | PMessage origin _ _ _ _ | PTerminateUser origin _ | PClientEvent origin _ _ _ _ _
  | PUserEvent origin _ _ _ | PMemberAdded origin _ _ _ | PMemberRemoved origin _ _ _ _
  | PSubscriptionCount origin _ _ _ | PUserOnline origin _ | PUserOffline origin _ => Some origin
  | PPresenceSnapshot node _ _ | PMetricsResponse _ node _ _ | PChannelCountSnapshot node _
  | PUserSessionSnapshot node _ => Some node
  | PMetricsRequest _ requester _ => Some requester
  | PTerminate _ => None
  end.

Section Peers.
Context `{HI : HashIter} (cfg : Config).

(** The lowest id among the live peers and this node. *)
Definition is_fleet_leader (v : PeerView) (now : Instant) : bool :=
  forallb (fun e : string * Instant =>
    (SNAPSHOT_TTL <? duration_since now e.2)%Z || String.ltb (node_id cfg) e.1) (hiter (peers_seen v)).

Definition live_peer_count (v : PeerView) (now : Instant) : nat :=
  length (List.filter (fun e : string * Instant =>
    (duration_since now e.2 <=? SNAPSHOT_TTL)%Z) (hiter (peers_seen v))).
End Peers.

(** ** Withheld webhooks *)

Section Withholding.
Context {W : Type}.
Implicit Types nd : Node W.

Definition note_withheld nd (app : App) (channel : string) (user_id : option string) (now : Instant)
  : Node W :=
  let kept := filter (fun e => (duration_since now e.2 <? WITHHELD_WINDOW)%Z = true) (nd_withheld nd) in
  set_withheld nd (<[(app_id app, channel, user_id) := now]> kept).

Definition claim_withheld nd (app : App) (channel : string) (user_id : option string) (now : Instant)
  : bool * Node W :=
  let key := (app_id app, channel, user_id) in
  match nd_withheld nd !! key with
  | None => (false, nd)
  | Some t => ((duration_since now t <? WITHHELD_WINDOW)%Z,
               set_withheld nd (delete key (nd_withheld nd)))
  end.

Definition log_future_version nd (now : Instant) : Node W :=
  let should_warn := match nd_future_warn nd with
                     | None => true
                     | Some t => (from_secs 30 <=? duration_since now t)%Z
                     end in
  set_future nd (wrap_u64 (nd_future_drops nd + 1)) (if should_warn then Some now else nd_future_warn nd).
End Withholding.

(** ** Publishing *)

Section Publishing.
Context `{WI : Wire} (cfg : Config) {W : Type}.
Implicit Types nd : Node W.

Definition mk_env (app : App) (seq : Z) (p : ScalingPayload) : ScalingEnvelope :=
  {| version := SCALING_VERSION; env_seq := seq;
     env_app := {| ref_id := app_id app; ref_key := app_key app |}; payload := p |}.

(** [self.spawn_publish(env)]. *)
Definition publish_env nd (env : ScalingEnvelope) (now : Instant) : Node W :=
  set_bus nd (spawn_publish (publish_overflow cfg) (nd_bus nd) env now).

(** The [if !self.scaling_enabled { return; }] of the publishing functions. *)
Definition when_scaling nd (env : ScalingEnvelope) (now : Instant) : Node W :=
  if scaling_enabled cfg then publish_env nd env now else nd.

Definition publish_client_event nd (app : App) (channel event data : string) (socket_id : SocketId)
    (user_id : option string) (now : Instant) : Node W :=
  when_scaling nd (mk_env app 0 (PClientEvent (node_id cfg) channel event data socket_id user_id)) now.

Definition publish_terminate nd (app : App) (socket_id : SocketId) (now : Instant) : Node W :=
  when_scaling nd (mk_env app 0 (PTerminate socket_id)) now.

Definition publish_terminate_user nd (app : App) (user_id : string) (now : Instant) : Node W :=
  when_scaling nd (mk_env app 0 (PTerminateUser (node_id cfg) user_id)) now.

Definition publish_presence_snapshot nd (app : App) (channel : string)
    (members : list PresenceSnapshotMember) (seq : Z) (now : Instant) : Node W :=
  when_scaling nd (mk_env app seq (PPresenceSnapshot (node_id cfg) channel members)) now.

Definition publish_member_added nd (app : App) (channel user_id : string)
    (user_info : option Value) (now : Instant) : Node W :=
  when_scaling nd (mk_env app 0 (PMemberAdded (node_id cfg) channel user_id user_info)) now.

Definition publish_member_removed nd (app : App) (channel user_id : string)
    (webhook_withheld vacated_withheld : bool) (now : Instant) : Node W :=
  when_scaling nd (mk_env app 0
    (PMemberRemoved (node_id cfg) channel user_id webhook_withheld vacated_withheld)) now.

Definition publish_subscription_count nd (app : App) (channel : string) (count : Z)
    (vacated_withheld : bool) (now : Instant) : Node W :=
  when_scaling nd (mk_env app 0 (PSubscriptionCount (node_id cfg) channel count vacated_withheld)) now.

Definition publish_user_online nd (app : App) (user_id : string) (now : Instant) : Node W :=
  when_scaling nd (mk_env app 0 (PUserOnline (node_id cfg) user_id)) now.

Definition publish_user_offline nd (app : App) (user_id : string) (now : Instant) : Node W :=
  when_scaling nd (mk_env app 0 (PUserOffline (node_id cfg) user_id)) now.

Definition publish_channel_count_snapshot nd (app : App) (counts : list ChannelCount) (seq : Z)
    (now : Instant) : Node W :=
  when_scaling nd (mk_env app seq (PChannelCountSnapshot (node_id cfg) counts)) now.

Definition publish_user_session_snapshot nd (app : App) (user_ids : list string) (seq : Z)
    (now : Instant) : Node W :=
  when_scaling nd (mk_env app seq (PUserSessionSnapshot (node_id cfg) user_ids)) now.
End Publishing.

(** ** Local delivery *)

Section Delivery.
Context `{HI : HashIter} `{SJ : SerdeJson} {W : Type}.
Implicit Types nd : Node W.

Definition deliver_user_event_locally nd (id : AppId) (user_id event data : string) : Node W :=
  let channel_name := "#server-to-user-" +:+ user_id in
  let frame := encode_envelope_raw_data event (Some data) (Some channel_name) in
  set_mbs nd (send_all (connections_for_user (nd_channels nd) id user_id) (Text frame) (nd_mbs nd)).

Definition broadcast_locally_with_app nd (id : AppId) (app : option App)
    (channel event data : string) (except : option SocketId) (now : Instant) : Node W :=
  match strip_prefix "#server-to-user-" channel with
  | Some user_id => deliver_user_event_locally nd id user_id event data
  | None =>
      let '(ch, m) :=
        match app with
        | Some a => let '(ch, m) := get_or_create_cache_channel (nd_channels nd) a channel in
                    (match ch with Some c => Some c | None => find_channel m id channel end, m)
        | None => (find_channel (nd_channels nd) id channel, nd_channels nd)
        end in
      match ch with
      | None => set_manager nd m
      | Some c =>
          let frame := encode_envelope_raw_data event (Some data) (Some channel) in
          let '(c', mbs) := broadcast c frame except now (nd_mbs nd) in
          set_local nd (put_channel m id channel c') mbs
      end
  end.

Definition broadcast_locally nd (id : AppId) (channel event data : string)
    (except : option SocketId) (now : Instant) : Node W :=
  broadcast_locally_with_app nd id None channel event data except now.

Definition emit_local_watchlist_event nd (id : AppId) (user_id event_name : string) : Node W :=
  match watchers_of (nd_channels nd) id user_id with
  | [] => nd
  | ws => set_mbs nd (send_all (ws ≫= connections_for_user (nd_channels nd) id)
                        (Text (watchlist_frame event_name [user_id])) (nd_mbs nd))
  end.
End Delivery.

(** ** Events of this node *)

Section Dispatching.
Context `{HI : HashIter} `{WI : Wire} `{SJ : SerdeJson} `{SB : SecretBox} (cfg : Config) {W : Type}.
Implicit Types nd : Node W.

Definition dispatch_message nd (app : App) (channel_name event data : string)
    (except_socket_id : option SocketId) (nonce_bytes : string) (now : Instant)
  : result unit PublishError * Node W :=
  match maybe_encrypt app (from_name channel_name) channel_name data nonce_bytes with
  | Err err => (Err err, nd)
  | Ok data =>
      let nd := broadcast_locally_with_app nd (app_id app) (Some app) channel_name event data
                  except_socket_id now in
      (Ok tt, when_scaling cfg nd
                (mk_env app 0 (PMessage (node_id cfg) channel_name event data except_socket_id)) now)
  end.

Definition dispatch_user_event nd (app : App) (user_id event data : string) (now : Instant) : Node W :=
  let nd := deliver_user_event_locally nd (app_id app) user_id event data in
  when_scaling cfg nd (mk_env app 0 (PUserEvent (node_id cfg) user_id event data)) now.
End Dispatching.

(** ** Messages of the peers *)

Section Incoming.
Context `{HI : HashIter} `{WI : Wire} `{SJ : SerdeJson} (cfg : Config) {W : Type}.
(** The transition sink, when one is set. *)
Context (sink : option (App -> FleetTransition -> Instant -> W -> W)).
Implicit Types nd : Node W.

Definition report_transition nd (app : App) (tr : FleetTransition) (now : Instant) : Node W :=
  match sink with
  | Some f => set_sink nd (f app tr now (nd_sink nd))
  | None => nd
  end.

Definition node_accept nd (node : string) (app : App) (key : string) (seq : Z) (now : Instant)
  : bool * Node W :=
  let '(ok, v) := accept_seq (nd_view nd) node (app_id app) key seq now in (ok, set_view nd v).

(** Sending a protocol frame to the local members of the channel, if it exists. *)
Definition to_local nd (local : option Channel) (frame : string) : Node W :=
  match local with
  | Some ch => set_mbs nd (broadcast_protocol ch frame None (nd_mbs nd))
  | None => nd
  end.

Definition has_user (local : option Channel) (uid : string) : bool :=
  match local with Some ch => has_user_id ch uid | None => false end.

Definition locally_empty (local : option Channel) : bool :=
  match local with Some ch => is_empty ch | None => true end.

Definition apply_remote_member_added nd (app : App) (origin channel uid : string)
    (info : option Value) (now : Instant) : Node W :=
  let local := find_channel (nd_channels nd) (app_id app) channel in
  let v := nd_view nd in
  let locally_present := has_user local uid in
  let remote_present := PresenceCache.is_present_excluding (presence_cache v) (app_id app) channel uid
                          (Some origin) now in
  let nd := set_view nd (set_cache_view v
              (PresenceCache.add_live (presence_cache v) (app_id app) channel origin uid info now).2) in
  if locally_present || remote_present then nd
  else to_local nd local (member_added channel uid info).

Definition apply_remote_member_removed nd (app : App) (origin channel uid : string)
    (webhook_withheld vacated_withheld : bool) (now : Instant) : Node W :=
  let local := find_channel (nd_channels nd) (app_id app) channel in
  let v := set_cache_view (nd_view nd)
             (PresenceCache.remove_live (presence_cache (nd_view nd)) (app_id app) channel origin uid now).2 in
  let nd := set_view nd v in
  let still_locally := has_user local uid in
  let still_remotely := PresenceCache.is_present_excluding (presence_cache v) (app_id app) channel uid None now in
  let gone := negb still_locally && negb still_remotely in
  let nd := if gone then to_local nd local (member_removed channel uid) else nd in
  let empty := locally_empty local &&
               match PresenceCache.remote_members_for (presence_cache v) (app_id app) channel now with
               | [] => true | _ => false end in
  let tie_break := String.ltb (node_id cfg) origin in
  let nd := if gone && webhook_withheld && tie_break
            then let '(claimed, nd) := claim_withheld nd app channel (Some uid) now in
                 if claimed then report_transition nd app (FMemberRemoved channel uid) now else nd
            else nd in
  if empty && vacated_withheld && tie_break
  then let '(claimed, nd) := claim_withheld nd app channel None now in
       if claimed then report_transition nd app (FChannelVacated channel) now else nd
  else nd.

(** [usize] arithmetic. *)
Definition fleet_total (v : PeerView) (id : AppId) (channel : string) (ch : Channel) (now : Instant) : Z :=
  wrap_u64 (Z.of_nat (ch_len ch) + PeerChannelCounts.sum (peer_channel_counts v) id channel now).

Definition apply_remote_subscription_count nd (app : App) (origin channel : string) (count : Z)
    (vacated_withheld : bool) (now : Instant) : Node W :=
  let v := set_counts_view (nd_view nd)
             (PeerChannelCounts.set (peer_channel_counts (nd_view nd)) (app_id app) channel origin count now).2 in
  let nd := set_view nd v in
  let local := find_channel (nd_channels nd) (app_id app) channel in
  let nd :=
    if (count =? 0)%Z && vacated_withheld && String.ltb (node_id cfg) origin then
      let fleet_empty := (PeerChannelCounts.sum (peer_channel_counts v) (app_id app) channel now =? 0)%Z in
      if locally_empty local && fleet_empty
      then let '(claimed, nd) := claim_withheld nd app channel None now in
           if claimed then report_transition nd app (FChannelVacated channel) now else nd
      else nd
    else nd in
  match local with
  | None => nd
  | Some ch =>
      if is_presence (ch_kind ch) || negb (emit_subscription_count app) then nd
      else to_local nd local (subscription_count channel (fleet_total v (app_id app) channel ch now))
  end.

Definition apply_remote_user_online nd (app : App) (origin uid : string) (now : Instant) : Node W :=
  let nd := set_manager nd (touch_slot (nd_channels nd) (app_id app)) in
  let v := nd_view nd in
  let was_globally_online :=
    is_user_online (nd_channels nd) (app_id app) uid ||
    PeerUserSessions.is_present_excluding (peer_user_sessions v) (app_id app) uid (Some origin) now in
  let nd := set_view nd (set_sessions_view v
              (PeerUserSessions.add (peer_user_sessions v) (app_id app) origin uid now).2) in
  if was_globally_online then nd
  else emit_local_watchlist_event nd (app_id app) uid "online".

Definition apply_remote_user_offline nd (app : App) (origin uid : string) (now : Instant) : Node W :=
  let nd := set_manager nd (touch_slot (nd_channels nd) (app_id app)) in
  let v := set_sessions_view (nd_view nd)
             (PeerUserSessions.remove (peer_user_sessions (nd_view nd)) (app_id app) origin uid now).2 in
  let nd := set_view nd v in
  let still_locally := is_user_online (nd_channels nd) (app_id app) uid in
  let still_remotely :=
    PeerUserSessions.is_present_excluding (peer_user_sessions v) (app_id app) uid None now in
  if negb still_locally && negb still_remotely
  then emit_local_watchlist_event nd (app_id app) uid "offline" else nd.

(** The two announcement loops of a presence snapshot. *)
Definition announce_left (local : option Channel) (channel : string) nd (uid : string) : Node W :=
  if has_user local uid then nd else to_local nd local (member_removed channel uid).
Definition announce_joined (local : option Channel) (channel : string)
    (info_by_user : gmap string (option Value)) nd (uid : string) : Node W :=
  if has_user local uid then nd
  else to_local nd local (member_added channel uid (mjoin (info_by_user !! uid))).

Definition apply_remote_presence_snapshot nd (app : App) (node channel : string)
    (ms : list PresenceSnapshotMember) (seq : Z) (now : Instant) : Node W :=
  let '(ok, nd) := node_accept nd node app ("p:" +:+ channel) seq now in
  let v := nd_view nd in
  if negb ok then
    set_view nd (set_cache_view v (PresenceCache.touch (presence_cache v) (app_id app) channel node now))
  else
    let local := find_channel (nd_channels nd) (app_id app) channel in
    let before := PresenceCache.announced_user_ids (presence_cache v) (app_id app) channel in
    let info_by_user := PresenceCache.members (PresenceCache.PeerSnapshot_new ms now) in
    let v := set_cache_view v
               (PresenceCache.insert_snapshot (presence_cache v) (app_id app) channel node ms now) in
    let nd := set_view nd v in
    match local with
    | None => nd
    | Some _ =>
        let after := PresenceCache.announced_user_ids (presence_cache v) (app_id app) channel in
        let nd := foldl (announce_left local channel) nd (hset_iter (before ∖ after)) in
        foldl (announce_joined local channel info_by_user) nd (hset_iter (after ∖ before))
    end.

(** One entry of a count snapshot. *)
Definition apply_count (app : App) (node : string) (seq : Z) (now : Instant) nd (c : ChannelCount) : Node W :=
  let '(ok, nd) := node_accept nd node app ("c:" +:+ cc_channel c) seq now in
  let v := nd_view nd in
  set_view nd (set_counts_view v
    (if ok : bool
     then (PeerChannelCounts.set (peer_channel_counts v) (app_id app) (cc_channel c) node (cc_count c) now).2
     else PeerChannelCounts.touch (peer_channel_counts v) (app_id app) (cc_channel c) node now)).

Definition emit_total (app : App) (now : Instant) nd (channel : string) : Node W :=
  match find_channel (nd_channels nd) (app_id app) channel with
  | None => nd
  | Some ch =>
      if is_presence (ch_kind ch) then nd
      else to_local nd (Some ch)
             (subscription_count channel (fleet_total (nd_view nd) (app_id app) channel ch now))
  end.

Definition apply_remote_channel_count_snapshot nd (app : App) (node : string)
    (counts : list ChannelCount) (seq : Z) (now : Instant) : Node W :=
  let present : gset string := list_to_set (cc_channel <$> counts) in
  let nd := foldl (apply_count app node seq now) nd counts in
  let '(dropped, t, v) :=
    PeerChannelCounts.retain_node_channels (peer_channel_counts (nd_view nd)) (app_id app) node present
      (fun channel v => accept_seq v node (app_id app) ("c:" +:+ channel) seq now) (nd_view nd) in
  let nd := set_view nd (set_counts_view v t) in
  if negb (emit_subscription_count app) then nd
  else foldl (emit_total app now) nd ((cc_channel <$> counts) ++ dropped).

(** One user of a session snapshot, in either direction. *)
Definition session_update (app : App) (node : string) (seq : Z) (now : Instant) (online : bool)
    nd (uid : string) : Node W :=
  let '(ok, nd) := node_accept nd node app ("u:" +:+ uid) seq now in
  if negb ok then nd
  else if online then apply_remote_user_online nd app node uid now
  else apply_remote_user_offline nd app node uid now.

Definition apply_remote_user_session_snapshot nd (app : App) (node : string)
    (user_ids : list string) (seq : Z) (now : Instant) : Node W :=
  let v := set_sessions_view (nd_view nd)
             (PeerUserSessions.touch (peer_user_sessions (nd_view nd)) (app_id app) node now) in
  let nd := set_view nd v in
  let reported : gset string := list_to_set user_ids in
  let previous := PeerUserSessions.users_of (peer_user_sessions v) (app_id app) node in
  let nd := foldl (session_update app node seq now true) nd (hset_iter (reported ∖ previous)) in
  foldl (session_update app node seq now false) nd (hset_iter (previous ∖ reported)).

(** *** Fleet-wide statistics *)

(** One channel's metric; reading its statistics clears an expired payload. *)
Definition channel_metric (id : AppId) (now : Instant) (acc : list ChannelMetric * Manager)
    (ch : Channel) : list ChannelMetric * Manager :=
  let '(st, ch') := stats ch now in
  let presence_ids :=
    if is_presence (ch_kind ch)
    then bt_set (list_to_set (omap (fun e : string * ConnectionHandle * option PresenceMember =>
                                      user_id <$> e.2) (members_iter ch)))
    else [] in
  (acc.1 ++ [{| cm_name := ch_name ch; cm_occupied := cs_occupied st;
                cm_subscription_count := Z.of_nat (cs_subscription_count st);
                cm_user_count := Z.of_nat <$> cs_user_count st;
                cm_has_cached_payload := cs_has_cached_payload st;
                cm_presence_user_ids := presence_ids |}],
   put_channel acc.2 id (ch_name ch) ch').

Definition respond_to_metrics_request nd (app : App) (request_id : string) (query : MetricsQuery)
    (now : Instant) : Node W :=
  let chs := if connections_only query then [] else all_channels (nd_channels nd) (app_id app) in
  let wanted := List.filter (fun ch => match filter_by_prefix query with
                                       | Some p => starts_with p (ch_name ch)
                                       | None => true
                                       end) chs in
  let '(metrics, m) := foldl (channel_metric (app_id app) now) ([], nd_channels nd) wanted in
  let nd := set_manager nd m in
  publish_env cfg nd
    (mk_env app 0 (PMetricsResponse request_id (node_id cfg) metrics
                     (Z.of_nat (connection_count m (app_id app))))) now.

(** Closing a socket on behalf of a peer. *)
Definition close_terminated : Outbound := Close 4009 "terminated".

(** *** The dispatcher of incoming messages *)

(** The arms for the counts and the sessions of the peers. *)
Definition handle_peer_state nd (app : App) (seq : Z) (p : ScalingPayload) (now : Instant) : Node W :=
  match p with
  | PSubscriptionCount origin channel count vacated_withheld =>
      if String.eqb origin (node_id cfg) then nd
      else let '(ok, nd) := node_accept nd origin app ("c:" +:+ channel) seq now in
           if ok then apply_remote_subscription_count nd app origin channel count vacated_withheld now
           else nd
  | PUserOnline origin uid =>
      if String.eqb origin (node_id cfg) then nd
      else let '(ok, nd) := node_accept nd origin app ("u:" +:+ uid) seq now in
           if ok then apply_remote_user_online nd app origin uid now else nd
  | PUserOffline origin uid =>
      if String.eqb origin (node_id cfg) then nd
      else let '(ok, nd) := node_accept nd origin app ("u:" +:+ uid) seq now in
           if ok then apply_remote_user_offline nd app origin uid now else nd
  | PChannelCountSnapshot node counts =>
      if String.eqb node (node_id cfg) then nd
      else apply_remote_channel_count_snapshot nd app node counts seq now
  | PUserSessionSnapshot node user_ids =>
      if String.eqb node (node_id cfg) then nd
      else apply_remote_user_session_snapshot nd app node user_ids seq now
  | _ => nd
  end.

Definition handle_payload nd (app : App) (seq : Z) (p : ScalingPayload) (now : Instant) : Node W :=
  match p with
  | PMessage origin channel event data except =>
      if String.eqb origin (node_id cfg) then nd
      else broadcast_locally_with_app nd (app_id app) (Some app) channel event data except now
  | PClientEvent origin channel event data socket_id uid =>
      if String.eqb origin (node_id cfg) then nd
      else match find_channel (nd_channels nd) (app_id app) channel with
           | None => nd
           | Some ch =>
               let uid := if is_presence (ch_kind ch) then uid else None in
               let frame := encode_client_event event data channel uid in
               set_mbs nd (broadcast_client_event ch frame (Some socket_id) (nd_mbs nd))
           end
  | PTerminate socket_id =>
      match handle_for_socket (nd_channels nd) (app_id app) socket_id with
      | Some h => set_mbs nd (try_send h close_terminated (nd_mbs nd)).2
      | None => nd
      end
  | PTerminateUser origin uid =>
      if String.eqb origin (node_id cfg) then nd
      else set_mbs nd (send_all (connections_for_user (nd_channels nd) (app_id app) uid)
                         close_terminated (nd_mbs nd))
  | PPresenceSnapshot node channel ms =>
      if String.eqb node (node_id cfg) then nd
      else apply_remote_presence_snapshot nd app node channel ms seq now
  | PUserEvent origin uid event data =>
      if String.eqb origin (node_id cfg) then nd
      else deliver_user_event_locally nd (app_id app) uid event data
  | PMetricsRequest request_id requester query =>
      if String.eqb requester (node_id cfg) then nd
      else respond_to_metrics_request nd app request_id query now
  | PMetricsResponse request_id node metrics connections =>
      match nd_inflight nd !! request_id with
      | Some received =>
          set_inflight nd (<[request_id := received ++ [(node, metrics, connections)]]> (nd_inflight nd))
      | None => nd
      end
  | PMemberAdded origin channel uid info =>
      if String.eqb origin (node_id cfg) then nd
      else let '(ok, nd) := node_accept nd origin app ("p:" +:+ channel) seq now in
           if ok then apply_remote_member_added nd app origin channel uid info now else nd
  | PMemberRemoved origin channel uid webhook_withheld vacated_withheld =>
      if String.eqb origin (node_id cfg) then nd
      else let '(ok, nd) := node_accept nd origin app ("p:" +:+ channel) seq now in
           if ok then apply_remote_member_removed nd app origin channel uid
                        webhook_withheld vacated_withheld now else nd
  | PSubscriptionCount _ _ _ _ | PUserOnline _ _ | PUserOffline _ _ | PChannelCountSnapshot _ _
  | PUserSessionSnapshot _ _ => handle_peer_state nd app seq p now
  end.

(** Noting that a peer was heard of. *)
Definition saw_peer nd (p : ScalingPayload) (now : Instant) : Node W :=
  match payload_node_id p with
  | Some id => if String.eqb id (node_id cfg) then nd
               else set_view nd (set_peers_view (nd_view nd) (<[id := now]> (peers_seen (nd_view nd))))
  | None => nd
  end.

Definition handle_incoming nd (env : ScalingEnvelope) (apps_by_id : AppId -> option App)
    (now : Instant) : Node W :=
  if (SCALING_VERSION <? version env)%Z then log_future_version nd now
  else
    let nd := saw_peer nd (payload env) now in
    match apps_by_id (ref_id (env_app env)) with
    | None => nd
    | Some app => handle_payload nd app (env_seq env) (payload env) now
    end.

(** *** Asking the fleet

    [ask_fleet] registers the request and publishes it; the loop then reads
    the responses that arrive before the deadline. *)

(** The query of [ask_fleet_for_connections]. *)
Definition connections_query : MetricsQuery :=
  {| filter_by_prefix := None; mq_info := None; connections_only := true |}.

Definition ask_fleet_start nd (app : App) (query : MetricsQuery) (request_id : string) (now : Instant)
  : option (nat * Node W) :=
  if negb (scaling_enabled cfg) then None
  else
    let expected := live_peer_count (nd_view nd) now in
    let nd := set_inflight nd (<[request_id := []]> (nd_inflight nd)) in
    Some (expected,
          publish_env cfg nd (mk_env app 0 (PMetricsRequest request_id (node_id cfg) query)) now).

(** The receive loop on the responses that arrived in time: it stops early once
    as many distinct nodes answered as were expected. *)
Fixpoint collect_responses (expected : nat) (responders : gset string)
    (out : list ChannelMetric) (conns : Z) (arrived : list (string * list ChannelMetric * Z))
  : list ChannelMetric * Z :=
  match arrived with
  | [] => (out, conns)
  | (node, metrics, peer_connections) :: rest =>
      let out := out ++ metrics in
      let conns := wrap_u64 (conns + peer_connections) in
      let responders := {[node]} ∪ responders in
      if (0 <? expected) && (expected <=? size responders) then (out, conns)
      else collect_responses expected responders out conns rest
  end.

Definition ask_fleet_finish nd (request_id : string) (expected : nat)
  : list ChannelMetric * Z * Node W :=
  let arrived := default [] (nd_inflight nd !! request_id) in
  (collect_responses expected ∅ [] 0 arrived,
   set_inflight nd (delete request_id (nd_inflight nd))).
End Incoming.

(** ** Sequence numbers protect newer state *)

Section Ordering.
Context `{HI : HashIter} `{WI : Wire} `{SJ : SerdeJson} (cfg : Config) {W : Type}.
Context (sink : option (App -> FleetTransition -> Instant -> W -> W)).
Implicit Types nd : Node W.

(** The highest sequence applied so far, 0 if none. *)
Definition applied (v : PeerView) (node app key : string) : Z :=
  default 0%Z (fst <$> peer_seqs v !! (node, app, key)).

(** A sequence is accepted when it is unknown (0) or newer than what was
    applied, and what was applied never decreases. *)
Lemma accept_seq_spec v node app key seq now :
  (0 <= seq)%Z -> (0 <= applied v node app key)%Z ->
  let r := accept_seq v node app key seq now in
  r.1 = ((seq =? 0) || (applied v node app key <? seq))%Z /\
  applied r.2 node app key = Z.max (applied v node app key) seq.
Proof.
  unfold accept_seq, applied. intros Hs Ha. destruct (Z.eqb_spec seq 0) as [->|Hne]; simpl; [lia|].
  destruct (peer_seqs v !! (node, app, key)) as [[s t]|]; simpl in *;
    [destruct (Z.leb_spec seq s), (Z.ltb_spec s seq)|destruct (Z.leb_spec seq 0), (Z.ltb_spec 0 seq)];
    simpl; try lia; (split; [done|]); rewrite lookup_insert_eq; simpl; lia.
Qed.

Lemma accept_seq_stale v node app key seq now :
  (0 < seq)%Z -> (seq <= applied v node app key)%Z ->
  (accept_seq v node app key seq now).1 = false /\
  presence_cache (accept_seq v node app key seq now).2 = presence_cache v.
Proof.
  intros Hs Ha. unfold accept_seq, applied in *. destruct (Z.eqb_spec seq 0); [lia|].
  destruct (peer_seqs v !! (node, app, key)) as [[s t]|]; simpl in *; [|lia].
  destruct (Z.leb_spec seq s); [done|lia].
Qed.

Lemma accept_seq_frame v node app key seq now :
  let v' := (accept_seq v node app key seq now).2 in
  presence_cache v' = presence_cache v /\ peer_channel_counts v' = peer_channel_counts v /\
  peer_user_sessions v' = peer_user_sessions v /\ peers_seen v' = peers_seen v.
Proof. unfold accept_seq. destruct (seq =? 0)%Z; [done|]. by destruct (seq <=? _)%Z. Qed.

(** What a peer's stored roster holds. *)
Definition roster_of (v : PeerView) (id : AppId) (channel node : string) : option (gmap string (option Value)) :=
  PresenceCache.members <$> nodes_of (presence_cache v) (id, channel) !! node.

Lemma touch_roster v id channel node now id' channel' node' :
  roster_of (set_cache_view v (PresenceCache.touch (presence_cache v) id channel node now)) id' channel' node'
  = roster_of v id' channel' node'.
Proof.
  unfold roster_of, PresenceCache.touch. simpl.
  destruct (presence_cache v !! (id, channel)) as [inner|] eqn:E; [|done].
  destruct (inner !! node) as [p|] eqn:Ep; [|done]. rewrite nodes_of_insert.
  destruct (decide ((id', channel') = (id, channel))) as [Hk|]; [|done]. simplify_eq.
  unfold nodes_of. rewrite E. simpl. destruct (decide (node' = node)) as [->|].
  - by rewrite lookup_insert_eq, Ep.
  - by rewrite lookup_insert_ne.
Qed.

Lemma to_local_view nd local frame : nd_view (to_local nd local frame) = nd_view nd.
Proof. by destruct local. Qed.

Lemma claim_withheld_view nd app channel uid now :
  nd_view (claim_withheld nd app channel uid now).2 = nd_view nd.
Proof. unfold claim_withheld. by destruct (nd_withheld nd !! _). Qed.

Lemma report_transition_view nd app tr now : nd_view (report_transition sink nd app tr now) = nd_view nd.
Proof. unfold report_transition. by destruct sink. Qed.

(** Claiming and reporting leave the view of the peers alone. *)
Lemma claim_report_view nd app channel uid tr now :
  nd_view (let '(claimed, nd) := claim_withheld nd app channel uid now in
           if claimed : bool then report_transition sink nd app tr now else nd) = nd_view nd.
Proof.
  pose proof (claim_withheld_view nd app channel uid now).
  destruct (claim_withheld nd app channel uid now) as [[] nd']; simpl in *; [|done].
  by rewrite report_transition_view.
Qed.

(** A live presence update of node [origin] for [channel]. *)
Definition live_presence (origin channel : string) (p : ScalingPayload) : Prop :=
  (exists uid info, p = PMemberAdded origin channel uid info) \/
  (exists uid ww vw, p = PMemberRemoved origin channel uid ww vw).

Lemma applied_ext v v' node app key : peer_seqs v = peer_seqs v' -> applied v node app key = applied v' node app key.
Proof. unfold applied. by intros ->. Qed.

Lemma saw_peer_frame nd p now :
  peer_seqs (nd_view (saw_peer cfg nd p now)) = peer_seqs (nd_view nd) /\
  presence_cache (nd_view (saw_peer cfg nd p now)) = presence_cache (nd_view nd) /\
  nd_mbs (saw_peer cfg nd p now) = nd_mbs nd.
Proof.
  unfold saw_peer. destruct (payload_node_id p) as [id|]; [|done]. by destruct (String.eqb id _).
Qed.

End Ordering.

(** ** Fleet-wide presence *)

Section Presence.
Context `{HI : HashIter} `{WI : Wire} `{SJ : SerdeJson} (cfg : Config) {W : Type}.
Context (sink : option (App -> FleetTransition -> Instant -> W -> W)).
Implicit Types nd : Node W.

(** The user is in the channel on this node or, as far as this node knows, on
    a peer other than [but]. *)
Definition fleet_has nd (id : AppId) (channel uid : string) (but : option string) (now : Instant) : Prop :=
  has_user (find_channel (nd_channels nd) id channel) uid = true \/
  exists n, but <> Some n /\ reports (presence_cache (nd_view nd)) id channel n uid now.

Lemma fleet_has_iff nd id channel uid but now :
  has_user (find_channel (nd_channels nd) id channel) uid
  || PresenceCache.is_present_excluding (presence_cache (nd_view nd)) id channel uid but now = true
  <-> fleet_has nd id channel uid but now.
Proof. unfold fleet_has. by rewrite orb_true_iff, present_iff. Qed.

(** Telling the local members of a channel. *)
Definition tell nd (id : AppId) (channel frame : string) : Mailboxes :=
  match find_channel (nd_channels nd) id channel with
  | Some ch => broadcast_protocol ch frame None (nd_mbs nd)
  | None => nd_mbs nd
  end.

Lemma to_local_mbs nd nd0 id channel frame :
  nd_mbs nd = nd_mbs nd0 ->
  nd_mbs (to_local nd (find_channel (nd_channels nd0) id channel) frame) = tell nd0 id channel frame.
Proof. unfold to_local, tell. intros H. destruct (find_channel _ _ _); simpl; by rewrite H. Qed.

Lemma claim_report_mbs nd app channel uid tr now :
  nd_mbs (let '(claimed, nd) := claim_withheld nd app channel uid now in
          if claimed : bool then report_transition sink nd app tr now else nd) = nd_mbs nd.
Proof.
  unfold claim_withheld, report_transition. destruct (nd_withheld nd !! _); [|done].
  destruct (_ <? _)%Z; [|done]. by destruct sink.
Qed.

Lemma claim_report_channels nd app channel uid tr now :
  nd_channels (let '(claimed, nd) := claim_withheld nd app channel uid now in
               if claimed : bool then report_transition sink nd app tr now else nd) = nd_channels nd.
Proof.
  unfold claim_withheld, report_transition. destruct (nd_withheld nd !! _); [|done].
  destruct (_ <? _)%Z; [|done]. by destruct sink.
Qed.

Lemma to_local_channels nd local frame : nd_channels (to_local nd local frame) = nd_channels nd.
Proof. by destruct local. Qed.

(** C18: Presence events of a peer reach the local subscribers exactly at the
    fleet-wide transitions: a join is announced when nobody else in the fleet
    had the user, a leave when after it nobody has the user any more; in every
    other case nothing is sent. *)
Theorem presence_transitions nd app origin channel uid info ww vw now :
  let added := apply_remote_member_added nd app origin channel uid info now in
  let removed := apply_remote_member_removed cfg sink nd app origin channel uid ww vw now in
  let id := app_id app in
  (fleet_has nd id channel uid (Some origin) now -> nd_mbs added = nd_mbs nd) /\
  (~ fleet_has nd id channel uid (Some origin) now ->
     nd_mbs added = tell nd id channel (member_added channel uid info)) /\
  (fleet_has removed id channel uid None now -> nd_mbs removed = nd_mbs nd) /\
  (~ fleet_has removed id channel uid None now ->
     nd_mbs removed = tell nd id channel (member_removed channel uid)).
Proof.
  intros added removed id.
  assert (forall b, (b = true <-> fleet_has nd id channel uid (Some origin) now) ->
    b = has_user (find_channel (nd_channels nd) id channel) uid
        || PresenceCache.is_present_excluding (presence_cache (nd_view nd)) id channel uid (Some origin) now ->
    (fleet_has nd id channel uid (Some origin) now -> nd_mbs added = nd_mbs nd) /\
    (~ fleet_has nd id channel uid (Some origin) now ->
       nd_mbs added = tell nd id channel (member_added channel uid info))) as Hadd.
  { intros b Hb He. unfold added, apply_remote_member_added. fold id. rewrite <- He. destruct b.
    - split; [done|]. intros Hno. destruct Hno. by apply Hb.
    - split; [intros Hy; by apply Hb in Hy|]. intros _. by apply to_local_mbs. }
  specialize (Hadd _ (fleet_has_iff _ _ _ _ _ _) eq_refl). split; [apply Hadd|]. split; [apply Hadd|].
  clear Hadd added.
  set (t := (PresenceCache.remove_live (presence_cache (nd_view nd)) id channel origin uid now).2).
  assert (nd_channels removed = nd_channels nd /\ presence_cache (nd_view removed) = t) as [Hch Hpc].
  { unfold removed, apply_remote_member_removed. fold id. cbv zeta. fold t.
    case_ifs; rewrite ?claim_report_channels, ?claim_report_view, ?to_local_channels, ?to_local_view; done. }
  assert (forall b, b = has_user (find_channel (nd_channels nd) id channel) uid
        || PresenceCache.is_present_excluding t id channel uid None now ->
     nd_mbs removed = if b : bool then nd_mbs nd else tell nd id channel (member_removed channel uid)) as Hm.
  { intros b ->. unfold removed, apply_remote_member_removed. fold id. cbv zeta. fold t. simpl.
    rewrite <- negb_orb. fold t.
    destruct (_ || PresenceCache.is_present_excluding t id channel uid None now); simpl;
      case_ifs; rewrite ?claim_report_mbs; try done; by apply to_local_mbs. }
  specialize (Hm _ eq_refl).
  pose proof (fleet_has_iff removed id channel uid None now) as Hiff. rewrite Hch, Hpc in Hiff.
  destruct (_ || _) in Hm, Hiff; split; intros Hf; try done.
  - destruct Hf. by apply Hiff.
  - by apply Hiff in Hf.
Qed.
End Presence.

(** ** One reporter per transition *)

Section Reporting.
Context `{HI : HashIter} `{WI : Wire} `{SJ : SerdeJson}.

(** A sink that records what it was given. *)
Definition log_sink : option (App -> FleetTransition -> Instant -> list FleetTransition -> list FleetTransition) :=
  Some (fun _ tr _ log => log ++ [tr]).

Implicit Types nd : Node (list FleetTransition).

(** The node withheld its own webhook for the user recently. *)
Definition withheld_recently nd (app : App) (channel : string) (uid : option string) (now : Instant) : Prop :=
  exists t, nd_withheld nd !! (app_id app, channel, uid) = Some t /\
            (duration_since now t <? WITHHELD_WINDOW)%Z = true.

Lemma ltb_flip (a b : string) : a <> b -> String.ltb a b = negb (String.ltb b a).
Proof.
  unfold String.ltb. rewrite (String.compare_antisym a b). intros Hne.
  destruct (String.compare b a) eqn:E; simpl; [|done|done].
  by apply String.compare_eq_iff in E.
Qed.

Lemma ltb_irrefl (a : string) : String.ltb a a = false.
Proof.
  unfold String.ltb. destruct (String.compare a a) eqn:E; [done| |done].
  pose proof (String.compare_antisym a a) as H. rewrite E in H. done.
Qed.

(** What a leave that a peer withheld makes this node report. *)
Lemma removed_log cfg nd app origin channel uid vw now :
  withheld_recently nd app channel (Some uid) now ->
  let nd' := apply_remote_member_removed cfg log_sink nd app origin channel uid true vw now in
  ~ fleet_has nd' (app_id app) channel uid None now ->
  if String.ltb (node_id cfg) origin
  then (exists rest, nd_sink nd' = nd_sink nd ++ FMemberRemoved channel uid :: rest /\
          (rest = [] \/ rest = [FChannelVacated channel] /\ withheld_recently nd app channel None now)) /\
       nd_withheld nd' !! (app_id app, channel, Some uid) = None
  else nd_sink nd' = nd_sink nd.
Proof.
  intros (t & Ht & Hw) nd' Hgone. set (id := app_id app) in *.
  set (c := (PresenceCache.remove_live (presence_cache (nd_view nd)) id channel origin uid now).2).
  assert (has_user (find_channel (nd_channels nd) id channel) uid
          || PresenceCache.is_present_excluding c id channel uid None now = false) as Hg.
  { destruct (_ || _) eqn:E; [|done]. destruct Hgone. apply fleet_has_iff.
    unfold nd', apply_remote_member_removed. fold id. cbv zeta. fold c.
    by case_ifs; rewrite ?claim_report_channels, ?claim_report_view, ?to_local_channels, ?to_local_view. }
  apply orb_false_iff in Hg as [Hg1 Hg2]. clear Hgone.
  unfold nd', apply_remote_member_removed. fold id. cbv zeta. fold c. simpl. fold c. rewrite Hg1, Hg2. simpl.
  destruct (String.ltb (node_id cfg) origin); [|rewrite !andb_false_r; by destruct (find_channel _ _ _)].
  set (local := find_channel _ _ _). set (nd1 := to_local _ local _).
  assert (nd_withheld nd1 = nd_withheld nd /\ nd_sink nd1 = nd_sink nd) as [E1 E2] by (unfold nd1; by destruct local).
  assert (claim_withheld nd1 app channel (Some uid) now
          = (true, set_withheld nd1 (delete (id, channel, Some uid) (nd_withheld nd)))) as ->
    by (unfold claim_withheld; fold id; by rewrite E1, Ht, Hw).
  cbn [set_sink report_transition log_sink]. rewrite andb_true_r.
  assert (forall nd2 rest, nd_sink nd2 = nd_sink nd ++ FMemberRemoved channel uid :: rest ->
    nd_withheld nd2 = delete (id, channel, Some uid) (nd_withheld nd) ->
    rest = [] \/ rest = [FChannelVacated channel] /\ withheld_recently nd app channel None now ->
    (exists rest, nd_sink nd2 = nd_sink nd ++ FMemberRemoved channel uid :: rest /\
       (rest = [] \/ rest = [FChannelVacated channel] /\ withheld_recently nd app channel None now)) /\
    nd_withheld nd2 !! (id, channel, Some uid) = None) as Hfin.
  { intros nd2 rest -> -> Hr. rewrite lookup_delete_eq. eauto. }
  destruct (_ && vw); [|apply (Hfin _ []); [simpl; by rewrite ?E2|simpl; by rewrite ?E1|by left]].
  unfold claim_withheld. fold id. simpl. rewrite lookup_delete_ne by done.
  destruct (nd_withheld nd !! (id, channel, None)) as [t'|] eqn:Et; [|apply (Hfin _ []); [simpl; by rewrite ?E2|simpl; by rewrite ?E1|by left]].
  destruct (duration_since now t' <? WITHHELD_WINDOW)%Z eqn:Ew; simpl; (split; [|by rewrite lookup_delete_ne, lookup_delete_eq by done]).
  - exists [FChannelVacated channel]. rewrite E2, <- app_assoc. split; [done|]. right. split; [done|]. by exists t'.
  - exists []. rewrite E2. auto.
Qed.

(** C20: When a user leaves two nodes at the same moment, so that each withheld
    its own webhook less than a minute ago because it still saw the user
    on the other, and each then handles the other's leave, the one with the
    lower node id reports the fleet-wide removal, once (its note is used up),
    and the other reports nothing.  If both had withheld that the channel
    became vacant, the one with the lower id may report that too, and nobody
    else does. *)
Theorem one_reporter cfgA cfgB ndA ndB app channel uid vwA vwB nowA nowB :
  String.ltb (node_id cfgA) (node_id cfgB) = true ->
  withheld_recently ndA app channel (Some uid) nowA ->
  withheld_recently ndB app channel (Some uid) nowB ->
  let a := apply_remote_member_removed cfgA log_sink ndA app (node_id cfgB) channel uid true vwB nowA in
  let b := apply_remote_member_removed cfgB log_sink ndB app (node_id cfgA) channel uid true vwA nowB in
  ~ fleet_has a (app_id app) channel uid None nowA ->
  ~ fleet_has b (app_id app) channel uid None nowB ->
  (exists rest, nd_sink a = nd_sink ndA ++ FMemberRemoved channel uid :: rest /\
     (rest = [] \/ rest = [FChannelVacated channel] /\ withheld_recently ndA app channel None nowA)) /\
  nd_withheld a !! (app_id app, channel, Some uid) = None /\
  nd_sink b = nd_sink ndB.
Proof.
  intros Hlt HA HB a b Ga Gb.
  pose proof (removed_log _ _ _ _ _ _ vwB _ HA Ga) as Ha. pose proof (removed_log _ _ _ _ _ _ vwA _ HB Gb) as Hb.
  rewrite Hlt in Ha. destruct (String.ltb (node_id cfgB) (node_id cfgA)) eqn:E.
  - rewrite ltb_flip, E in Hlt; [done|]. intros He. by rewrite He, ltb_irrefl in E.
  - split_and!; [apply Ha|apply Ha|exact Hb].
Qed.

(** At most one of two nodes that see each other alive takes itself for the
    fleet leader, and a node that sees no live peer with a lower id is one. *)
Theorem one_leader cfgA cfgB vA vB tA tB nowA nowB :
  node_id cfgA <> node_id cfgB ->
  peers_seen vA !! node_id cfgB = Some tB -> (duration_since nowA tB <= SNAPSHOT_TTL)%Z ->
  peers_seen vB !! node_id cfgA = Some tA -> (duration_since nowB tA <= SNAPSHOT_TTL)%Z ->
  ~ (is_fleet_leader cfgA vA nowA = true /\ is_fleet_leader cfgB vB nowB = true) /\
  (is_fleet_leader cfgA vA nowA = true <->
   forall n t, peers_seen vA !! n = Some t -> (duration_since nowA t <= SNAPSHOT_TTL)%Z ->
     String.ltb (node_id cfgA) n = true).
Proof.
  intros Hne HA HlA HB HlB.
  assert (forall cfg v now, is_fleet_leader cfg v now = true <->
    forall n t, peers_seen v !! n = Some t -> (duration_since now t <= SNAPSHOT_TTL)%Z ->
      String.ltb (node_id cfg) n = true) as Hspec.
  { intros cfg v now. unfold is_fleet_leader. rewrite forallb_forall. split.
    - intros H n t Hl Hf. apply elem_of_hiter, list_elem_of_In, H in Hl. simpl in Hl.
      apply orb_true_iff in Hl as [Hl|]; [|done]. apply Z.ltb_lt in Hl. lia.
    - intros H [n t] Hin. apply list_elem_of_In, elem_of_hiter in Hin. simpl.
      destruct (Z.ltb_spec SNAPSHOT_TTL (duration_since now t)); [done|]. simpl. by eapply H. }
  split; [|apply Hspec]. rewrite !Hspec. intros [H1 H2].
  specialize (H1 _ _ HA HlA). specialize (H2 _ _ HB HlB).
  rewrite ltb_flip, H2 in H1 by done. done.
Qed.
End Reporting.

(** ** Safety of incoming messages *)

Section Safety.
Context `{HI : HashIter} `{WI : Wire} `{SJ : SerdeJson} (cfg : Config) {W : Type}.
Context (sink : option (App -> FleetTransition -> Instant -> W -> W)).
Implicit Types nd : Node W.

(** A node ignores its own messages, messages of a newer protocol version
    (it only counts them) and messages for applications it does not serve (it
    only notes that the peer is alive). *)
Theorem incoming_ignored nd env apps now :
  ((SCALING_VERSION < version env)%Z ->
     exists n w, handle_incoming cfg sink nd env apps now = set_future nd n w) /\
  ((version env <= SCALING_VERSION)%Z -> apps (ref_id (env_app env)) = None ->
     exists seen, handle_incoming cfg sink nd env apps now
                  = set_view nd (set_peers_view (nd_view nd) seen)) /\
  ((version env <= SCALING_VERSION)%Z -> payload_node_id (payload env) = Some (node_id cfg) ->
     (forall r n ms c, payload env <> PMetricsResponse r n ms c) ->
     handle_incoming cfg sink nd env apps now = nd).
Proof.
  unfold handle_incoming. split_and!.
  - intros Hv. rewrite (proj2 (Z.ltb_lt _ _) Hv). unfold log_future_version. eauto.
  - intros Hv Ha. rewrite (proj2 (Z.ltb_ge _ _) Hv), Ha. unfold saw_peer.
    destruct (payload_node_id (payload env)) as [n|]; [destruct (String.eqb n _)|]; eauto;
      exists (peers_seen (nd_view nd)); by destruct nd as [? ? ? [] ? ? ? ? ?].
  - intros Hv Ho Hr. rewrite (proj2 (Z.ltb_ge _ _) Hv).
    unfold saw_peer. rewrite Ho, String.eqb_refl. destruct (apps _) as [app|]; [|done].
    destruct (payload env); simpl in Ho |- *; simplify_eq; rewrite ?String.eqb_refl; try done.
    by edestruct Hr.
Qed.

(** *** The invariants of the manager and of the bus are kept *)

Record node_wf nd : Prop := {
  node_manager : manager_wf (nd_channels nd);
  node_bus : bus_wf (publish_overflow cfg) (nd_bus nd)
}.

Lemma node_wf_ext nd nd' :
  nd_channels nd' = nd_channels nd -> nd_bus nd' = nd_bus nd -> node_wf nd -> node_wf nd'.
Proof. by intros H1 H2 [? ?]; split; rewrite ?H1, ?H2. Qed.

Lemma put_live_channel_wf m id name ch :
  manager_wf m -> chan_ok name ch -> chan_live ch -> manager_wf (put_channel m id name ch).
Proof.
  intros H Hok Hl. unfold put_channel. destruct (m !! id) as [slot|] eqn:E; [|done].
  pose proof (H _ _ E) as Hs. apply manager_wf_insert; [done|]. apply set_channels_wf; [done|].
  intros n c [[<- <-]|[_ Hc]]%lookup_insert_Some; [done|by apply (slot_channels _ Hs)].
Qed.

Lemma chan_live_ext ch ch' :
  ch_kind ch' = ch_kind ch -> ch_members ch' = ch_members ch -> chan_live ch -> chan_live ch'.
Proof. unfold chan_live. by intros -> ->. Qed.

Lemma broadcast_frame c p ex now mbs :
  ch_name (broadcast c p ex now mbs).1 = ch_name c /\ ch_kind (broadcast c p ex now mbs).1 = ch_kind c /\
  ch_members (broadcast c p ex now mbs).1 = ch_members c.
Proof. unfold broadcast. simpl. destruct (is_cache (ch_kind c)); [apply set_cached_payload_frame|done]. Qed.

Lemma get_or_create_found m app channel c m' :
  manager_wf m -> get_or_create_cache_channel m app channel = (Some c, m') ->
  manager_wf m' /\ chan_ok channel c /\ chan_live c.
Proof.
  intros H He. pose proof (get_or_create_wf m app channel H) as Hw. rewrite He in Hw. simpl in Hw.
  split; [done|]. unfold get_or_create_cache_channel in He.
  destruct (is_cache (from_name channel)) eqn:Ek; simpl in He; injection He as He Hm.
  - apply (find_channel_wf m' (app_id app)); [done|]. rewrite <- Hm, find_channel_insert. simpl.
    by rewrite lookup_insert_eq, He.
  - by apply (find_channel_wf m (app_id app)).
Qed.

Lemma broadcast_locally_wf nd id app channel event data ex now :
  manager_wf (nd_channels nd) ->
  manager_wf (nd_channels (broadcast_locally_with_app nd id app channel event data ex now)).
Proof.
  intros H. unfold broadcast_locally_with_app. destruct (strip_prefix _ channel); [done|].
  assert (forall m c, manager_wf m -> chan_ok channel c -> chan_live c ->
    manager_wf (nd_channels (let '(c', mbs) := broadcast c (encode_envelope_raw_data event (Some data) (Some channel))
       ex now (nd_mbs nd) in set_local nd (put_channel m id channel c') mbs))) as Hb.
  { intros m c Hm [Hn Hw] Hl.
    pose proof (broadcast_frame c (encode_envelope_raw_data event (Some data) (Some channel)) ex now (nd_mbs nd)) as (H1 & H2 & H3).
    pose proof (broadcast_wf c (encode_envelope_raw_data event (Some data) (Some channel)) ex now (nd_mbs nd) Hw) as Hw'.
    destruct (broadcast c _ ex now (nd_mbs nd)) as [c' mbs]. simpl in *.
    apply put_live_channel_wf; [done|split; [congruence|done]|]. by apply (chan_live_ext c). }
  destruct app as [a|].
  - destruct (get_or_create_cache_channel (nd_channels nd) a channel) as [[c|] m] eqn:E.
    + destruct (get_or_create_found _ _ _ _ _ H E) as (Hm & Hok & Hl). by apply Hb.
    + pose proof (get_or_create_wf (nd_channels nd) a channel H) as Hm. rewrite E in Hm. simpl in Hm.
      destruct (find_channel m id channel) as [c|] eqn:Ef; [|done].
      destruct (find_channel_wf _ _ _ _ Hm Ef) as [Hok Hl]. by apply Hb.
  - destruct (find_channel (nd_channels nd) id channel) as [c|] eqn:Ef; [|done].
    destruct (find_channel_wf _ _ _ _ H Ef) as [Hok Hl]. by apply Hb.
Qed.

Lemma stats_frame c now :
  ch_name (stats c now).2 = ch_name c /\ ch_kind (stats c now).2 = ch_kind c /\
  ch_members (stats c now).2 = ch_members c.
Proof.
  unfold stats, has_cached_payload. pose proof (cached_payload_frame c now).
  by destruct (cached_payload c now).
Qed.

Lemma metrics_fold_wf id now chs acc :
  Forall (fun ch => channel_wf ch /\ chan_live ch) chs -> manager_wf acc.2 ->
  manager_wf (foldl (channel_metric id now) acc chs).2.
Proof.
  revert acc. induction chs as [|ch chs IH]; intros acc; simpl; [done|].
  intros [[Hw Hl] Hall]%Forall_cons Hm. apply IH; [done|]. unfold channel_metric.
  pose proof (stats_frame ch now) as (H1 & H2 & H3). pose proof (stats_wf ch now Hw) as Hw'.
  destruct (stats ch now) as [st ch']. simpl in *.
  apply put_live_channel_wf; [done|by split|]. by apply (chan_live_ext ch).
Qed.

Lemma publish_env_wf nd env now : node_wf nd -> node_wf (publish_env cfg nd env now).
Proof. intros [H1 H2]. split; [done|]. by apply spawn_publish_spec. Qed.

Lemma foldl_node_wf {B} (f : Node W -> B -> Node W) l nd :
  (forall nd x, node_wf nd -> node_wf (f nd x)) -> node_wf nd -> node_wf (foldl f nd l).
Proof. intros Hf. revert nd. induction l as [|x l IH]; intros nd H; simpl; [done|]. by apply IH, Hf. Qed.

Lemma claim_report_wf nd app channel uid tr now :
  node_wf nd ->
  node_wf (let '(claimed, nd) := claim_withheld nd app channel uid now in
           if claimed : bool then report_transition sink nd app tr now else nd).
Proof.
  apply node_wf_ext; [apply claim_report_channels|].
  unfold claim_withheld, report_transition. destruct (nd_withheld nd !! _); [|done].
  destruct (_ <? _)%Z; [|done]. by destruct sink.
Qed.

Lemma to_local_wf nd local frame : node_wf nd -> node_wf (to_local nd local frame).
Proof. destruct local; [|done]. by apply node_wf_ext. Qed.

Lemma set_view_wf nd v : node_wf nd -> node_wf (set_view nd v).
Proof. by apply node_wf_ext. Qed.

Lemma set_mbs_wf nd mbs : node_wf nd -> node_wf (set_mbs nd mbs).
Proof. by apply node_wf_ext. Qed.

Lemma node_accept_wf nd node app key seq now : node_wf nd -> node_wf (node_accept nd node app key seq now).2.
Proof. unfold node_accept. destruct (accept_seq _ _ _ _ _ _). by apply set_view_wf. Qed.

Lemma watchlist_wf nd id uid ev : node_wf nd -> node_wf (emit_local_watchlist_event nd id uid ev).
Proof. unfold emit_local_watchlist_event. destruct (watchers_of _ _ _); [done|]. apply set_mbs_wf. Qed.

Lemma touch_node_wf nd id : node_wf nd -> node_wf (set_manager nd (touch_slot (nd_channels nd) id)).
Proof. intros [H1 H2]. split; [by apply touch_slot_wf|done]. Qed.
End Safety.

#[export] Hint Resolve publish_env_wf foldl_node_wf claim_report_wf to_local_wf set_view_wf
  set_mbs_wf node_accept_wf watchlist_wf touch_node_wf : zatat_pres.

Section IncomingWf.
Context `{HI : HashIter} `{WI : Wire} `{SJ : SerdeJson} (cfg : Config) {W : Type}.
Context (sink : option (App -> FleetTransition -> Instant -> W -> W)).
Implicit Types nd : Node W.

(** Finishes a preservation goal: conditionals, then the lemmas of the database. *)
Ltac keep := cbv zeta; case_ifs; eauto 6 with zatat_pres.

Lemma member_added_wf nd app origin channel uid info now :
  node_wf cfg nd -> node_wf cfg (apply_remote_member_added nd app origin channel uid info now).
Proof. intros H. unfold apply_remote_member_added. keep. Qed.

Lemma member_removed_wf nd app origin channel uid ww vw now :
  node_wf cfg nd -> node_wf cfg (apply_remote_member_removed cfg sink nd app origin channel uid ww vw now).
Proof. intros H. unfold apply_remote_member_removed. keep. Qed.

Lemma subscription_count_wf nd app origin channel n vw now :
  node_wf cfg nd -> node_wf cfg (apply_remote_subscription_count cfg sink nd app origin channel n vw now).
Proof.
  intros H. unfold apply_remote_subscription_count. cbv zeta.
  destruct (find_channel _ _ _); keep.
Qed.

Lemma user_online_wf nd app origin uid now :
  node_wf cfg nd -> node_wf cfg (apply_remote_user_online nd app origin uid now).
Proof. intros H. unfold apply_remote_user_online. keep. Qed.

Lemma user_offline_wf nd app origin uid now :
  node_wf cfg nd -> node_wf cfg (apply_remote_user_offline nd app origin uid now).
Proof. intros H. unfold apply_remote_user_offline. keep. Qed.

Lemma presence_snapshot_wf nd app node channel ms seq now :
  node_wf cfg nd -> node_wf cfg (apply_remote_presence_snapshot nd app node channel ms seq now).
Proof.
  intros H. unfold apply_remote_presence_snapshot.
  pose proof (node_accept_wf cfg nd node app ("p:" +:+ channel) seq now H) as Hn.
  destruct (node_accept _ _ _ _ _ _) as [ok nd']. simpl in Hn. cbv zeta.
  destruct ok; simpl; [|keep]. destruct (find_channel _ _ _); [|keep].
  apply foldl_node_wf; [intros; unfold announce_joined; keep|].
  apply foldl_node_wf; [intros; unfold announce_left; keep|keep].
Qed.

Lemma count_snapshot_wf nd app node counts seq now :
  node_wf cfg nd -> node_wf cfg (apply_remote_channel_count_snapshot nd app node counts seq now).
Proof.
  intros H. unfold apply_remote_channel_count_snapshot. cbv zeta.
  destruct (PeerChannelCounts.retain_node_channels _ _ _ _ _ _) as [[dropped t] v].
  assert (node_wf cfg (foldl (apply_count app node seq now) nd counts)) as Hf.
  { apply foldl_node_wf; [|done]. intros nd' x H'. unfold apply_count.
    pose proof (node_accept_wf cfg nd' node app ("c:" +:+ cc_channel x) seq now H').
    destruct (node_accept _ _ _ _ _ _). keep. }
  case_ifs; [keep|]. apply foldl_node_wf; [|keep]. intros nd' x H'. unfold emit_total.
  destruct (find_channel _ _ _); keep.
Qed.

Lemma session_snapshot_wf nd app node users seq now :
  node_wf cfg nd -> node_wf cfg (apply_remote_user_session_snapshot nd app node users seq now).
Proof.
  intros H. unfold apply_remote_user_session_snapshot. cbv zeta.
  assert (forall online nd x, node_wf cfg nd -> node_wf cfg (session_update app node seq now online nd x)) as Hs.
  { intros online nd' x H'. unfold session_update.
    pose proof (node_accept_wf cfg nd' node app ("u:" +:+ x) seq now H').
    destruct (node_accept _ _ _ _ _ _). case_ifs; [done|by apply user_online_wf|by apply user_offline_wf]. }
  apply foldl_node_wf; [by apply Hs|]. apply foldl_node_wf; [by apply Hs|keep].
Qed.

Lemma respond_wf nd app req query now :
  node_wf cfg nd -> node_wf cfg (respond_to_metrics_request cfg nd app req query now).
Proof.
  intros [H1 H2]. unfold respond_to_metrics_request.
  pose proof (metrics_fold_wf (app_id app) now (List.filter (fun ch => match filter_by_prefix query with
      | Some p => starts_with p (ch_name ch) | None => true end)
      (if connections_only query then [] else all_channels (nd_channels nd) (app_id app)))
      ([], nd_channels nd)) as Hm.
  destruct (foldl _ _ _) as [metrics m]. simpl in Hm. apply publish_env_wf. split; [|done].
  apply Hm; [|done]. apply Forall_forall. intros ch Hin.
  apply list_elem_of_In, List.filter_In in Hin as [Hin _]. apply list_elem_of_In in Hin.
  destruct (connections_only query); [set_solver|]. unfold all_channels in Hin.
  destruct (nd_channels nd !! app_id app) as [slot|] eqn:E; [|set_solver].
  apply elem_of_hvalues in Hin as [name Hl].
  by destruct (slot_channels _ (H1 _ _ E) _ _ Hl) as [[_ ?] ?].
Qed.

Lemma handle_payload_wf nd app seq p now :
  node_wf cfg nd -> node_wf cfg (handle_payload cfg sink nd app seq p now).
Proof.
  intros H. destruct p; cbn [handle_payload handle_peer_state].
  all: try (destruct (String.eqb _ _); [done|]).
  all: try (match goal with |- context [node_accept ?n ?o ?a ?k ?s ?t] =>
        pose proof (node_accept_wf cfg n o a k s t H); destruct (node_accept n o a k s t) as [[] ?]; [|done] end).
  - destruct H. split; [by apply broadcast_locally_wf|].
    unfold broadcast_locally_with_app. destruct (strip_prefix _ _); [done|].
    destruct (get_or_create_cache_channel _ _ _) as [[c|] m]; [|destruct (find_channel _ _ _); [|done]];
      by destruct (broadcast _ _ _ _ _).
  - destruct (handle_for_socket _ _ _); keep.
  - keep.
  - destruct (find_channel _ _ _); keep.
  - by apply presence_snapshot_wf.
  - by apply set_mbs_wf.
  - by apply respond_wf.
  - destruct (nd_inflight nd !! _); [|done]. by apply (node_wf_ext cfg nd).
  - by apply member_added_wf.
  - by apply member_removed_wf.
  - by apply subscription_count_wf.
  - by apply user_online_wf.
  - by apply user_offline_wf.
  - by apply count_snapshot_wf.
  - by apply session_snapshot_wf.
Qed.

Lemma handle_incoming_wf nd env apps now :
  node_wf cfg nd -> node_wf cfg (handle_incoming cfg sink nd env apps now).
Proof.
  intros H. unfold handle_incoming. destruct (_ <? _)%Z; [by apply (node_wf_ext cfg nd)|].
  assert (node_wf cfg (saw_peer cfg nd (payload env) now)) as Hs.
  { unfold saw_peer. destruct (payload_node_id _); [|done]. keep. }
  destruct (apps _); [by apply handle_payload_wf|done].
Qed.

(** No message of a peer, whatever it says, can break this node: the
    manager stays well formed (no leaked or inconsistent channel, no dangling
    user or watchlist entry) and the outbound bus within its bounds. *)
Theorem incoming_safe nd env apps now :
  node_wf cfg nd -> node_wf cfg (handle_incoming cfg sink nd env apps now).
Proof. apply handle_incoming_wf. Qed.

(** A message published anywhere is retained everywhere it is replayed
    from: after a peer's message on a cache channel, this node has the channel
    even if nobody is subscribed to it here, and it holds exactly that frame,
    from that moment, for later subscribers. *)
Theorem cache_replicated nd app seq origin channel event data ex now :
  manager_wf (nd_channels nd) -> is_cache (from_name channel) = true -> origin <> node_id cfg ->
  let nd' := handle_payload cfg sink nd app seq (PMessage origin channel event data ex) now in
  exists ch, find_channel (nd_channels nd') (app_id app) channel = Some ch /\
    ch_cached_payload ch
    = Some (Some {| cp_payload := encode_envelope_raw_data event (Some data) (Some channel);
                    cp_inserted_at := now |}).
Proof.
  intros Hm Hk Ho nd'. unfold nd'. cbn [handle_payload handle_peer_state]. rewrite (proj2 (String.eqb_neq _ _) Ho).
  unfold broadcast_locally_with_app.
  destruct (strip_prefix "#server-to-user-" channel) as [u|] eqn:Es.
  { apply strip_prefix_Some in Es. subst channel. discriminate Hk. }
  destruct (get_or_create_cache_channel (nd_channels nd) app channel) as [o m] eqn:E.
  pose proof E as E'. unfold get_or_create_cache_channel in E'. rewrite Hk in E'. simpl in E'.
  injection E' as <- Hm'.
  destruct (get_or_create_found _ _ _ _ _ Hm E) as (_ & [Hn [Hkind _ Hc]] & _).
  rewrite Hkind, Hn in Hc. unfold kind in Hc. rewrite Hk in Hc.
  set (c := default _ _) in *. unfold broadcast. rewrite Hkind, Hn. unfold kind. rewrite Hk. simpl.
  exists (set_cached_payload c (encode_envelope_raw_data event (Some data) (Some channel)) now). split.
  - unfold put_channel. rewrite <- Hm', lookup_insert_eq, find_channel_insert. simpl.
    by rewrite lookup_insert_eq.
  - unfold set_cached_payload. by destruct (ch_cached_payload c).
Qed.
End IncomingWf.

(** ** Witnesses *)

Section Witnesses.
#[local] Existing Instance canonical_iter.
#[local] Existing Instance toy_json.
#[local] Instance toy_wire : Wire := {| to_vec := fun _ => "x"; parse := fun _ => None |}.

Definition demo_cfg (id : string) : Config :=
  {| scaling_enabled := true; node_id := id; publish_overflow := BestEffort |}.

Definition demo_node (id : string) : Node (list FleetTransition) := dispatcher_new (demo_cfg id) ∅ ∅ [].

Definition demo_env (seq : Z) (p : ScalingPayload) : ScalingEnvelope :=
  {| version := 2; env_seq := seq; env_app := {| ref_id := "a"; ref_key := "key" |}; payload := p |}.

Definition demo_apps (id : AppId) : option App :=
  if String.eqb id "a" then Some (demo_app "a" None) else None.

(** Two nodes that both withheld the departure; "n1" reports it. *)
Lemma one_reporter_witness :
  let ndA := note_withheld (demo_node "n1") (demo_app "a" None) "presence-x" (Some "u") 0%Z in
  let ndB := note_withheld (demo_node "n2") (demo_app "a" None) "presence-x" (Some "u") 0%Z in
  let a := apply_remote_member_removed (demo_cfg "n1") log_sink ndA (demo_app "a" None) "n2"
             "presence-x" "u" true false 1%Z in
  let b := apply_remote_member_removed (demo_cfg "n2") log_sink ndB (demo_app "a" None) "n1"
             "presence-x" "u" true false 1%Z in
  nd_sink a = [FMemberRemoved "presence-x" "u"] /\ nd_sink b = [].
Proof.
  intros ndA ndB a b.
  destruct (one_reporter (demo_cfg "n1") (demo_cfg "n2") ndA ndB (demo_app "a" None) "presence-x" "u" false false 1%Z 1%Z)
    as ((rest & Ha & Hr) & _ & Hb).
  - reflexivity.
  - exists 0%Z. split; vm_compute; reflexivity.
  - exists 0%Z. split; vm_compute; reflexivity.
  - rewrite <- fleet_has_iff. vm_compute. discriminate.
  - rewrite <- fleet_has_iff. vm_compute. discriminate.
  - split; [|exact Hb]. destruct Hr as [->|[_ (t & Ht & _)]]; [exact Ha|vm_compute in Ht; discriminate Ht].
Defined.

Lemma one_leader_witness :
  let v n := set_peers_view (nd_view (demo_node "n1")) {[ n := 0%Z ]} in
  ~ (is_fleet_leader (demo_cfg "n1") (v "n2") 1%Z = true /\
     is_fleet_leader (demo_cfg "n2") (v "n1") 1%Z = true).
Proof.
  intros v.
  apply (one_leader (demo_cfg "n1") (demo_cfg "n2") (v "n2") (v "n1") 0%Z 0%Z 1%Z 1%Z);
    vm_compute; congruence.
Defined.

Lemma incoming_safe_witness :
  node_wf (demo_cfg "n1") (handle_incoming (demo_cfg "n1") log_sink (demo_node "n1")
    (demo_env 0 (PMessage "n2" "cache-x" "e" "d" None)) demo_apps 0%Z).
Proof.
  apply incoming_safe. split; [apply manager_wf_empty|apply bus_new_wf].
Defined.

Lemma cache_replicated_witness :
  exists ch, find_channel (nd_channels (handle_payload (demo_cfg "n1") log_sink (demo_node "n1")
    (demo_app "a" None) 0 (PMessage "n2" "cache-x" "e" "d" None) 7%Z)) "a" "cache-x" = Some ch /\
    ch_cached_payload ch
    = Some (Some {| cp_payload := encode_envelope_raw_data "e" (Some "d") (Some "cache-x");
                    cp_inserted_at := 7%Z |}).
Proof.
  apply (cache_replicated (demo_cfg "n1") log_sink (demo_node "n1") (demo_app "a" None));
    [apply manager_wf_empty|reflexivity|discriminate].
Defined.
End Witnesses.
