(* ===== verification/Webhooks.v ===== *)
(** * zatat-webhooks: queueing, filtering and delivering webhooks

    Models [crates/zatat-webhooks/src/lib.rs] and the webhook parts of
    [crates/zatat-ws/src/state.rs].  The HTTP client is third-party: a delivery
    is a function of the outcomes of its attempts. *)

From S2P Require Import Prelude.
From S2P Require Import Core.
From S2P Require Import Json.
From S2P Require Import Auth.
From S2P Require Import Connection.
From S2P Require Import Message.
From S2P Require Import Dispatcher.
From stdpp Require Import options.

Record CompiledTarget := {
  t_app_id : string;
  t_app_key : string;
  t_app_secret : string;
  t_url : string;
  t_event_filter : list string;
  t_channel_prefix : option string
}.

Inductive WebhookEvent :=
| ChannelOccupied (channel : string)
| ChannelVacated (channel : string)
| MemberAdded (channel user_id : string)
| MemberRemoved (channel user_id : string)
| ClientEvent (channel event data : string) (socket_id user_id : option string)
| CacheMiss (channel : string)
| SubscriptionCount (channel : string) (count : Z).

Definition event_name (e : WebhookEvent) : string :=
  match e with
  | ChannelOccupied _ => "channel_occupied"
  | ChannelVacated _ => "channel_vacated"
  | MemberAdded _ _ => "member_added"
  | MemberRemoved _ _ => "member_removed"
  | ClientEvent _ _ _ _ _ => "client_event"
  | CacheMiss _ => "cache_miss"
  | SubscriptionCount _ _ => "subscription_count"
  end.

Definition event_channel (e : WebhookEvent) : string :=
  match e with
  | ChannelOccupied c | ChannelVacated c | MemberAdded c _ | MemberRemoved c _
  | ClientEvent c _ _ _ _ | CacheMiss c | SubscriptionCount c _ => c
  end.

Definition opt_len (s : option string) : Z := match s with Some s => len s | None => 0%Z end.

(** [base] is [size_of::<WebhookEvent>()], a constant of the target. *)
Definition approx_size (base : Z) (e : WebhookEvent) : Z :=
  let payload := match e with
                 | MemberAdded _ u | MemberRemoved _ u => len u
                 | ClientEvent _ ev data s u => (len ev + len data + opt_len s + opt_len u)%Z
                 | _ => 0%Z
                 end in
  (base + len (event_channel e) + payload)%Z.

Definition to_event_json (e : WebhookEvent) : Value :=
  let name := VString (event_name e) in
  match e with
  | ChannelOccupied c | ChannelVacated c | CacheMiss c => Object [("name", name); ("channel", VString c)]
  | MemberAdded c u | MemberRemoved c u =>
      Object [("name", name); ("channel", VString c); ("user_id", VString u)]
  | ClientEvent c ev data s u =>
      let obj := [("name", name); ("channel", VString c); ("event", VString ev); ("data", VString data)] in
      let obj := match s with Some s => map_insert obj "socket_id" (VString s) | None => obj end in
      Object (match u with Some u => map_insert obj "user_id" (VString u) | None => obj end)
  | SubscriptionCount c n =>
      Object [("name", name); ("channel", VString c); ("subscription_count", value_of_Z n)]
  end.

(** ** The queue *)

Definition WEBHOOK_QUEUE_CAPACITY : Z := 65536.
Definition DROP_WARN_INTERVAL : Duration := from_secs 5.
Definition WEBHOOK_STAGING_MAX_BYTES : Z := 64 * 1024 * 1024.

Inductive WebhookOverflow := WBestEffort | WBlock.

Abbreviation Item := (string * WebhookEvent)%type (only parsing).

Record WebhookDispatcher := {
  wh_tx : list Item;
  wh_staging : option (list Item * Z);
  wh_drops_total : Z;
  wh_last_drop_warn : option Instant
}.

Definition webhooks_new (overflow : WebhookOverflow) : WebhookDispatcher :=
  {| wh_tx := []; wh_staging := match overflow with WBlock => Some ([], 0%Z) | WBestEffort => None end;
     wh_drops_total := 0; wh_last_drop_warn := None |}.

Definition wh_set (w : WebhookDispatcher) (tx : list Item) (st : option (list Item * Z)) : WebhookDispatcher :=
  {| wh_tx := tx; wh_staging := st; wh_drops_total := wh_drops_total w;
     wh_last_drop_warn := wh_last_drop_warn w |}.

Definition record_drop (w : WebhookDispatcher) (now : Instant) : WebhookDispatcher :=
  let should_warn := match wh_last_drop_warn w with
                     | None => true
                     | Some t => (DROP_WARN_INTERVAL <=? duration_since now t)%Z
                     end in
  {| wh_tx := wh_tx w; wh_staging := wh_staging w;
     wh_drops_total := wrap_u64 (wh_drops_total w + 1);
     wh_last_drop_warn := if should_warn then Some now else wh_last_drop_warn w |}.

Section Queue.
Context (base : Z) (overflow : WebhookOverflow).

Definition enqueue (w : WebhookDispatcher) (app : string) (e : WebhookEvent) (now : Instant)
  : WebhookDispatcher :=
  match overflow with
  | WBestEffort =>
      if (Z.of_nat (length (wh_tx w)) <? WEBHOOK_QUEUE_CAPACITY)%Z
      then wh_set w (wh_tx w ++ [(app, e)]) (wh_staging w)
      else record_drop w now
  | WBlock =>
      match wh_staging w with
      | None => w
      | Some (q, bytes) =>
          let size := approx_size base e in
          if (bytes + size <=? WEBHOOK_STAGING_MAX_BYTES)%Z
          then wh_set w (wh_tx w) (Some (q ++ [(app, e)], (bytes + size)%Z))
          else record_drop w now
      end
  end.

(** The forwarder task of [Block] mode. *)
Definition wh_forward (w : WebhookDispatcher) : WebhookDispatcher :=
  match wh_staging w with
  | Some (item :: rest, bytes) =>
      if (Z.of_nat (length (wh_tx w)) <? WEBHOOK_QUEUE_CAPACITY)%Z
      then wh_set w (wh_tx w ++ [item]) (Some (rest, (bytes - approx_size base item.2)%Z))
      else w
  | _ => w
  end.
End Queue.

(** The sink [ServerState::new] gives the event dispatcher. *)
Definition transition_sink (base : Z) (overflow : WebhookOverflow)
    (app : Application Value) (tr : FleetTransition) (now : Instant) (w : WebhookDispatcher)
  : WebhookDispatcher :=
  enqueue base overflow w (app_id app)
    (match tr with
     | FMemberRemoved c u => MemberRemoved c u
     | FChannelVacated c => ChannelVacated c
     end) now.

(** ** Filtering *)

Definition matches_filters (t : CompiledTarget) (e : WebhookEvent) : bool :=
  if match t_event_filter t with [] => false | _ => true end &&
     negb (existsb (fun n => String.eqb n (event_name e)) (t_event_filter t))
  then false
  else match t_channel_prefix t with
       | Some prefix => starts_with prefix (event_channel e)
       | None => true
       end.

(** The deliveries the drain loop starts for one event. *)
Definition deliveries (lookup : string -> list CompiledTarget) (item : Item)
  : list (CompiledTarget * WebhookEvent) :=
  (fun t => (t, item.2)) <$> List.filter (fun t => matches_filters t item.2) (lookup item.1).

(** The crate's [Deserialize] of one webhook entry of the configuration. *)
Class WebhookConfigParser := {
  from_value : Value -> option (string * list string * option string)
}.

Definition compile_webhook_targets_for_app `{WebhookConfigParser} (app : Application Value)
  : list CompiledTarget :=
  omap (fun raw =>
    match from_value raw with
    | None => None
    | Some (url, types, prefix) =>
        Some {| t_app_id := app_id app; t_app_key := app_key app; t_app_secret := app_secret app;
                t_url := url; t_event_filter := types; t_channel_prefix := prefix |}
    end) (app_webhooks app).

(** ** One delivery *)

Definition RETRY_WINDOW : Duration := from_secs 300.
Definition INITIAL_RETRY_BACKOFF : Duration := from_secs 1.
Definition MAX_RETRY_BACKOFF : Duration := from_secs 60.
Definition MAX_PENDING_RETRIES : Z := 10000.

Record Request := { rq_url : string; rq_key : string; rq_signature : string; rq_body : string }.

Section Delivery.
Context `{CR : Crypto} `{SJ : SerdeJson}.

Definition sign_body (secret body : string) : string := hmac_hex secret body.

Definition delivery_request (t : CompiledTarget) (e : WebhookEvent) (time_ms : Z) : Request :=
  let body := to_string (Object [("time_ms", value_of_Z time_ms); ("events", Array [to_event_json e])]) in
  {| rq_url := t_url t; rq_key := t_app_key t; rq_signature := sign_body (t_app_secret t) body; rq_body := body |}.
End Delivery.

(** How attempt [n] (from 0) ends: whether it got a 2xx answer, and the time
    from the moment the attempt is due, which includes the wait for a free slot,
    to the end of the request. *)
Definition Outcomes : Type := nat -> bool * Duration.

(** The retry loop: [elapsed] is the time since the first attempt was started,
    [pending] the number of other deliveries waiting for a retry when this one
    first fails.  The result is whether it was delivered, the attempts made and
    by how much the pending counter is off afterwards.  (The semaphore the slots
    come from is never closed.) *)
Fixpoint deliver_loop (fuel : nat) (o : Outcomes) (pending : Z) (attempts : nat)
    (elapsed backoff : Duration) (counted : bool) : option (bool * nat * Z) :=
  match fuel with
  | O => None
  | S fuel =>
      let '(ok, took) := o attempts in
      let attempts := S attempts in
      let elapsed := (elapsed + took)%Z in
      let leave delivered (counted : bool) (counter : Z) :=
        Some (delivered, attempts, if counted then (counter - 1)%Z else counter) in
      if (ok : bool) then leave true counted (if counted then 1%Z else 0%Z)
      else if (RETRY_WINDOW <? elapsed + backoff)%Z
      then leave false counted (if counted then 1%Z else 0%Z)
      else if negb counted && (MAX_PENDING_RETRIES <=? pending)%Z
      then leave false false 0%Z
      else deliver_loop fuel o pending attempts (elapsed + backoff)%Z
             (Z.min (backoff * 2) MAX_RETRY_BACKOFF) true
  end.

Definition deliver (fuel : nat) (o : Outcomes) (pending : Z) : option (bool * nat * Z) :=
  deliver_loop fuel o pending 0 0%Z INITIAL_RETRY_BACKOFF false.

(** ** The queue is a bounded FIFO *)

Section QueueLaws.
Context (base : Z) (overflow : WebhookOverflow).
Hypothesis base_pos : (0 < base)%Z.
Set Default Proof Using "Type*".

Definition wh_contents (w : WebhookDispatcher) : list Item :=
  wh_tx w ++ match wh_staging w with Some (q, _) => q | None => [] end.

Definition staged_bytes (q : list Item) : Z := foldr (fun i n => (approx_size base i.2 + n)%Z) 0%Z q.

Record webhooks_wf (w : WebhookDispatcher) : Prop := {
  wh_bound : (Z.of_nat (length (wh_tx w)) <= WEBHOOK_QUEUE_CAPACITY)%Z;
  wh_mode : match wh_staging w with
            | None => overflow = WBestEffort
            | Some (q, bytes) => overflow = WBlock /\ bytes = staged_bytes q /\
                                 (bytes <= WEBHOOK_STAGING_MAX_BYTES)%Z
            end
}.

Lemma staged_bytes_app q i : staged_bytes (q ++ [i]) = (staged_bytes q + approx_size base i.2)%Z.
Proof. induction q as [|x q IH]; simpl; lia. Qed.

Lemma approx_size_nonneg e : (0 <= approx_size base e)%Z.
Proof. unfold approx_size, opt_len, len. destruct e; try lia. destruct socket_id, user_id; lia. Qed.

(** Queueing a webhook appends it, behind everything queued before, or,
    when the bounded queue or the staging budget is exhausted, drops exactly
    this event and counts it; the forwarder keeps the order, and queue and
    budget stay within their limits. *)
Theorem webhook_queue w app e now :
  webhooks_wf w ->
  let w' := enqueue base overflow w app e now in
  webhooks_wf w' /\ webhooks_wf (wh_forward base w) /\ wh_contents (wh_forward base w) = wh_contents w /\
  ((wh_contents w' = wh_contents w ++ [(app, e)] /\ wh_drops_total w' = wh_drops_total w) \/
   (wh_contents w' = wh_contents w /\ wh_drops_total w' = wrap_u64 (wh_drops_total w + 1) /\
    match wh_staging w with
    | None => Z.of_nat (length (wh_tx w)) = WEBHOOK_QUEUE_CAPACITY
    | Some (_, bytes) => (WEBHOOK_STAGING_MAX_BYTES < bytes + approx_size base e)%Z
    end)).
Proof.
  intros Hw w'. pose proof Hw as [Hb Hm].
  assert (webhooks_wf (wh_forward base w) /\ wh_contents (wh_forward base w) = wh_contents w) as [Hf1 Hf2].
  { unfold wh_forward, wh_contents. destruct (wh_staging w) as [[[|i q] n]|] eqn:E; [by rewrite E| |by rewrite E].
    destruct (Z.ltb_spec (Z.of_nat (length (wh_tx w))) WEBHOOK_QUEUE_CAPACITY); [|by rewrite E].
    destruct Hm as (Ho & Hn & Hle). simpl in Hn. pose proof (approx_size_nonneg i.2).
    simpl. split; [split; simpl; [rewrite length_app; simpl; lia|split_and!; [done|lia|lia]]|].
    by rewrite <- app_assoc. }
  split; [|split_and!; [done|done|]]; unfold w', enqueue, wh_contents.
  - destruct overflow eqn:Eo.
    + destruct (wh_staging w) as [[q n]|] eqn:E; [by destruct Hm|].
      destruct (Z.ltb_spec (Z.of_nat (length (wh_tx w))) WEBHOOK_QUEUE_CAPACITY);
        split; simpl; rewrite ?E; try done. rewrite length_app. simpl. lia.
    + destruct (wh_staging w) as [[q n]|] eqn:E; [|done]. destruct Hm as (_ & Hn & Hle).
      destruct (Z.leb_spec (n + approx_size base e) WEBHOOK_STAGING_MAX_BYTES);
        split; simpl; rewrite ?E, ?staged_bytes_app; simpl; try done; split_and!; try done; lia.
  - destruct overflow eqn:Eo.
    + destruct (wh_staging w) as [[q n]|] eqn:E; [by destruct Hm|].
      destruct (Z.ltb_spec (Z.of_nat (length (wh_tx w))) WEBHOOK_QUEUE_CAPACITY); simpl.
      * left. rewrite ?E, !app_nil_r. done.
      * right. rewrite E. split_and!; [done|done|lia].
    + destruct (wh_staging w) as [[q n]|] eqn:E; [|done].
      destruct (Z.leb_spec (n + approx_size base e) WEBHOOK_STAGING_MAX_BYTES); simpl.
      * left. by rewrite app_assoc.
      * right. by rewrite E.
Qed.
End QueueLaws.

(** ** Deliveries end *)

Section Retries.
Context (o : Outcomes) (pending : Z) (o_nonneg : forall n, (0 <= (o n).2)%Z).
Set Default Proof Using "Type*".

(** The pause after failed attempt [i]: 1, 2, 4, ..., 32 seconds, then a minute. *)
Definition pause (i : nat) : Duration := from_secs (Z.min (2 ^ Z.of_nat i) 60).

(** When attempt [i] is due, counted from the start of the delivery. *)
Fixpoint due_at (i : nat) : Duration :=
  match i with
  | O => 0
  | S i => due_at i + (o i).2 + pause i
  end%Z.

(** The run from attempt [a] on ends with [n] attempts: each but the last failed
    with the next one due within five minutes, the last decides, a failure is
    only given up on when another attempt would be due too late or 10000 others
    wait already, and the pending counter is restored. *)
Definition ends (a : nat) (r : option (bool * nat * Z)) : Prop :=
  exists ok n, r = Some (ok, n, 0%Z) /\ a < n <= 10 /\ (o (pred n)).1 = ok /\
    (forall i, a <= i < pred n -> (o i).1 = false /\ (due_at (S i) <= from_secs 300)%Z) /\
    (1 < n -> (pending < 10000)%Z) /\
    (ok = false -> (from_secs 300 < due_at n)%Z \/ n = 1 /\ (10000 <= pending)%Z).

Lemma pause_doubles i : Z.min (pause i * 2) MAX_RETRY_BACKOFF = pause (S i).
Proof. unfold pause, MAX_RETRY_BACKOFF, from_secs. rewrite Nat2Z.inj_succ, Z.pow_succ_r by lia. lia. Qed.

(** The eleventh attempt would be due after 303 seconds at the earliest. *)
Lemma tenth_is_last : (from_secs 300 < due_at 10)%Z.
Proof.
  pose proof (fun n => o_nonneg n) as H. unfold due_at, pause, from_secs.
  pose proof (H 0); pose proof (H 1); pose proof (H 2); pose proof (H 3); pose proof (H 4);
  pose proof (H 5); pose proof (H 6); pose proof (H 7); pose proof (H 8); pose proof (H 9). lia.
Qed.

Lemma deliver_loop_ends fuel a :
  a + fuel = 10 -> (due_at a <= from_secs 300)%Z -> (0 < a -> (pending < 10000)%Z) ->
  ends a (deliver_loop fuel o pending a (due_at a) (pause a) (0 <? a)).
Proof.
  revert a. induction fuel as [|fuel IH]; intros a Ha Hd Hp.
  { replace a with 10 in * by lia. pose proof tenth_is_last. lia. }
  cbn [deliver_loop]. destruct (o a) as [ok took] eqn:Eo. cbv zeta.
  assert (due_at (S a) = due_at a + took + pause a)%Z as Hs by (simpl; by rewrite Eo).
  assert ((ok = false -> (from_secs 300 < due_at (S a))%Z \/ S a = 1 /\ (10000 <= pending)%Z) ->
    ends a (Some (ok, S a, 0%Z))) as Hend.
  { intros. exists ok, (S a). cbn [pred]. rewrite Eo. split_and!; try done; try lia. }
  rewrite pause_doubles. unfold RETRY_WINDOW, MAX_PENDING_RETRIES. rewrite <- Hs.
  destruct ok; [destruct (0 <? a); by apply Hend|].
  destruct (Z.ltb_spec (from_secs 300) (due_at (S a))); [destruct (0 <? a); apply Hend; by left|].
  destruct (Nat.ltb_spec 0 a), (Z.leb_spec 10000 pending); cbn [negb andb]; try lia.
  2:{ apply Hend. right. split; [lia|done]. }
  all: destruct (IH (S a)) as (r & n & He & Hn & Hr & Hf & Hp' & Hg); [lia|done|lia|];
    exists r, n; split_and!; try done; try lia; intros i Hi;
    destruct (decide (i = a)) as [->|]; [by rewrite Eo|apply Hf; lia].
Qed.

(** C30: A webhook delivery always ends, and gives up only when it may.  However
    the target behaves, at most ten attempts are made (ten turns of the loop are
    enough): it stops at the first success; a failed attempt is followed by
    another after 1, 2, 4, ..., 32 seconds and then every minute as long as that
    is due within five minutes of the start; it is abandoned otherwise, or when
    10000 other deliveries are waiting to retry as it first fails; and the
    count of waiting deliveries is left as it was found. *)
Theorem deliver_ends : ends 0 (deliver 10 o pending).
Proof. apply (deliver_loop_ends 10 0); [done|done|lia]. Qed.
End Retries.

Lemma webhook_queue_witness :
  wh_contents (enqueue 100 WBestEffort (webhooks_new WBestEffort) "a" (CacheMiss "cache-x") 0%Z)
  = [("a", CacheMiss "cache-x")].
Proof.
  destruct (webhook_queue 100 WBestEffort eq_refl (webhooks_new WBestEffort) "a" (CacheMiss "cache-x") 0%Z)
    as (_ & _ & _ & [[H _]|(_ & _ & H)]); [by split| exact H | discriminate H].
Defined.

(** A target that answers at the fourth attempt, and one that never does. *)
Lemma deliver_ends_witness :
  ends (fun n => (n =? 3, 0%Z)) 0 0 (deliver 10 (fun n => (n =? 3, 0%Z)) 0) /\
  deliver 10 (fun n => (n =? 3, 0%Z)) 0 = Some (true, 4, 0%Z) /\
  ends (fun _ => (false, 0%Z)) 0 0 (deliver 10 (fun _ => (false, 0%Z)) 0) /\
  deliver 10 (fun _ => (false, 0%Z)) 0 = Some (false, 10, 0%Z).
Proof.
  split; [apply deliver_ends; intros; apply Z.le_refl|]. split; [reflexivity|].
  split; [apply deliver_ends; intros; apply Z.le_refl|reflexivity].
Defined.
