(* ===== verification/WebhookWorker.v ===== *)
(** * zatat-webhooks: the delivery worker

    Models the task of [WebhookDispatcher::spawn_with_overflow] that takes
    events off the queue, and the delivery tasks it spawns
    ([crates/zatat-webhooks/src/lib.rs], [deliver] and [pending]), as steps of
    one system: the semaphore that bounds the requests in flight, the counters
    and the retries.  A step is a turn of one task between two points where it
    waits; taking an event off the queue and marking it as held are two steps,
    since another thread can look at the counters in between. *)

From S2P Require Import Prelude.
From S2P Require Import Webhooks.
From stdpp Require Import options.

Definition MAX_IN_FLIGHT_DELIVERIES : Z := 256.

Abbreviation Delivery := (CompiledTarget * WebhookEvent)%type (only parsing).
Abbreviation Item := (string * WebhookEvent)%type (only parsing).

(** What the drain loop has in its hands. *)
Inductive Hold :=
| Idle
| Received (item : Item)
| Handing (rest : list Delivery).

(** A spawned delivery: a request in flight, or the pause before a retry. *)
Inductive Phase := Sending | Waiting.

Record DTask := {
  d_what : Delivery;
  d_phase : Phase;
  d_started : Instant;
  d_attempts : Z;
  d_backoff : Duration;
  d_counted : bool
}.

(** The shared state.  [w_started] and [w_finished] record the deliveries the
    loop took on and how each that ended went; no code reads them. *)
Record Worker := {
  w_queue : WebhookDispatcher;
  w_hold : Hold;
  w_dequeued : Z;
  w_in_flight : Z;
  w_permits : Z;
  w_pending_retries : Z;
  w_tasks : gmap nat DTask;
  w_started : list Delivery;
  w_finished : list (Delivery * bool)
}.

Definition worker_new (overflow : WebhookOverflow) : Worker :=
  {| w_queue := webhooks_new overflow; w_hold := Idle; w_dequeued := 0; w_in_flight := 0;
     w_permits := MAX_IN_FLIGHT_DELIVERIES; w_pending_retries := 0; w_tasks := ∅;
     w_started := []; w_finished := [] |}.

Definition w_with_queue (w : Worker) (q : WebhookDispatcher) (h : Hold) (dequeued : Z) : Worker :=
  {| w_queue := q; w_hold := h; w_dequeued := dequeued; w_in_flight := w_in_flight w;
     w_permits := w_permits w; w_pending_retries := w_pending_retries w; w_tasks := w_tasks w;
     w_started := w_started w; w_finished := w_finished w |}.

(** [rx.recv()]. *)
Definition w_recv (w : Worker) : option Worker :=
  match w_hold w, wh_tx (w_queue w) with
  | Idle, item :: rest =>
      Some (w_with_queue w (wh_set (w_queue w) rest (wh_staging (w_queue w))) (Received item) (w_dequeued w))
  | _, _ => None
  end.

(** [dequeued.store(1)], then the targets of the event are looked up. *)
Definition w_mark (lookup : string -> list CompiledTarget) (w : Worker) : option Worker :=
  match w_hold w with
  | Received item =>
      let ds := deliveries lookup item in
      Some {| w_queue := w_queue w; w_hold := Handing ds; w_dequeued := 1; w_in_flight := w_in_flight w;
              w_permits := w_permits w; w_pending_retries := w_pending_retries w; w_tasks := w_tasks w;
              w_started := w_started w ++ ds; w_finished := w_finished w |}
  | _ => None
  end.

(** One target: a permit is acquired and the delivery spawned, as task [i]. *)
Definition w_spawn (i : nat) (now : Instant) (w : Worker) : option Worker :=
  match w_hold w, w_tasks w !! i with
  | Handing (d :: rest), None =>
      if (0 <? w_permits w)%Z then
        Some {| w_queue := w_queue w; w_hold := Handing rest; w_dequeued := w_dequeued w;
                w_in_flight := wrap_u64 (w_in_flight w + 1); w_permits := (w_permits w - 1)%Z;
                w_pending_retries := w_pending_retries w;
                w_tasks := <[i := {| d_what := d; d_phase := Sending; d_started := now; d_attempts := 1;
                                     d_backoff := INITIAL_RETRY_BACKOFF; d_counted := false |}]> (w_tasks w);
                w_started := w_started w; w_finished := w_finished w |}
      else None
  | _, _ => None
  end.

(** Every target was handed off: [dequeued.store(0)]. *)
Definition w_handed (w : Worker) : option Worker :=
  match w_hold w with
  | Handing [] => Some (w_with_queue w (w_queue w) Idle 0)
  | _ => None
  end.

(** The delivery ends: its count among the pending retries and its count among
    the deliveries in flight are given back. *)
Definition w_end (i : nat) (k : DTask) (delivered : bool) (w : Worker) : Worker :=
  {| w_queue := w_queue w; w_hold := w_hold w; w_dequeued := w_dequeued w;
     w_in_flight := wrap_u64 (w_in_flight w - 1); w_permits := w_permits w;
     w_pending_retries := if d_counted k then wrap_u64 (w_pending_retries w - 1) else w_pending_retries w;
     w_tasks := delete i (w_tasks w); w_started := w_started w;
     w_finished := w_finished w ++ [(d_what k, delivered)] |}.

(** The answer to the request of task [i], or its failure; the slot is dropped. *)
Definition w_respond (i : nat) (ok : bool) (now : Instant) (w : Worker) : option Worker :=
  match w_tasks w !! i with
  | Some k =>
      match d_phase k with
      | Waiting => None
      | Sending =>
          let w := {| w_queue := w_queue w; w_hold := w_hold w; w_dequeued := w_dequeued w;
                      w_in_flight := w_in_flight w; w_permits := (w_permits w + 1)%Z;
                      w_pending_retries := w_pending_retries w; w_tasks := w_tasks w;
                      w_started := w_started w; w_finished := w_finished w |} in
          if ok then Some (w_end i k true w)
          else if (RETRY_WINDOW <? duration_since now (d_started k) + d_backoff k)%Z
          then Some (w_end i k false w)
          else if negb (d_counted k) && (MAX_PENDING_RETRIES <=? w_pending_retries w)%Z
          then Some (w_end i k false w)
          else Some {| w_queue := w_queue w; w_hold := w_hold w; w_dequeued := w_dequeued w;
                       w_in_flight := w_in_flight w; w_permits := w_permits w;
                       w_pending_retries := if d_counted k then w_pending_retries w
                                            else wrap_u64 (w_pending_retries w + 1);
                       w_tasks := <[i := {| d_what := d_what k; d_phase := Waiting; d_started := d_started k;
                                            d_attempts := d_attempts k; d_backoff := d_backoff k;
                                            d_counted := true |}]> (w_tasks w);
                       w_started := w_started w; w_finished := w_finished w |}
      end
  | None => None
  end.

(** The pause of task [i] is over and it got a permit: the next attempt. *)
Definition w_retry (i : nat) (w : Worker) : option Worker :=
  match w_tasks w !! i with
  | Some k =>
      match d_phase k with
      | Sending => None
      | Waiting =>
          if (0 <? w_permits w)%Z then
            Some {| w_queue := w_queue w; w_hold := w_hold w; w_dequeued := w_dequeued w;
                    w_in_flight := w_in_flight w; w_permits := (w_permits w - 1)%Z;
                    w_pending_retries := w_pending_retries w;
                    w_tasks := <[i := {| d_what := d_what k; d_phase := Sending; d_started := d_started k;
                                         d_attempts := wrap_u32 (d_attempts k + 1);
                                         d_backoff := Z.min (d_backoff k * 2) MAX_RETRY_BACKOFF;
                                         d_counted := d_counted k |}]> (w_tasks w);
                    w_started := w_started w; w_finished := w_finished w |}
          else None
      end
  | None => None
  end.

(** What the shutdown waits for.  [pending] loads the depth of the queue, the
    staged bytes, the mark of the drain loop and the count of deliveries one
    after the other; the worker is given as it is at each of the four loads. *)
Definition pending (w1 w2 w3 w4 : Worker) : Z :=
  let queued := Z.of_nat (length (wh_tx (w_queue w1))) in
  let staged := match wh_staging (w_queue w2) with
                | Some (_, bytes) => if (0 <? bytes)%Z then 1%Z else 0%Z
                | None => 0%Z
                end in
  (queued + staged + w_dequeued w3 + w_in_flight w4)%Z.

(** ** Histories *)

Section Steps.
Context (base : Z) (overflow : WebhookOverflow).

Inductive w_step : Worker -> Worker -> Prop :=
| ws_enqueue w app e now :
    w_step w (w_with_queue w (enqueue base overflow (w_queue w) app e now) (w_hold w) (w_dequeued w))
| ws_forward w : w_step w (w_with_queue w (wh_forward base (w_queue w)) (w_hold w) (w_dequeued w))
| ws_recv w w' : w_recv w = Some w' -> w_step w w'
| ws_mark lookup w w' : w_mark lookup w = Some w' -> w_step w w'
| ws_spawn i now w w' : w_spawn i now w = Some w' -> w_step w w'
| ws_handed w w' : w_handed w = Some w' -> w_step w w'
| ws_respond i ok now w w' : w_respond i ok now w = Some w' -> w_step w w'
| ws_retry i w w' : w_retry i w = Some w' -> w_step w w'.

Inductive w_reachable : Worker -> Prop :=
| w_init : w_reachable (worker_new overflow)
| w_next w w' : w_reachable w -> w_step w w' -> w_reachable w'.
End Steps.

(** ** Counting tasks *)

Definition is_sending (k : DTask) : bool := match d_phase k with Sending => true | Waiting => false end.

Lemma map_count_mono {A} (P Q : A -> bool) (m : gmap nat A) :
  (forall i a, m !! i = Some a -> P a = true -> Q a = true) -> map_count P m <= map_count Q m.
Proof.
  induction m as [|i a m Hi IH] using map_ind; intros H; [by rewrite !map_count_empty|].
  rewrite !map_count_insert by done.
  assert (map_count P m <= map_count Q m).
  { apply IH. intros j b Hj. apply (H j). rewrite lookup_insert_ne; [done|]. intros ->. congruence. }
  specialize (H i a (lookup_insert_eq _ _ _)). destruct (P a), (Q a); lia || (exfalso; by discriminate H).
Qed.

Lemma map_count_split {A} (P : A -> bool) (m : gmap nat A) :
  map_count P m + map_count (fun a => negb (P a)) m = size m.
Proof.
  induction m as [|i a m Hi IH] using map_ind; [by rewrite !map_count_empty|].
  rewrite !map_count_insert, map_size_insert_None by done. destruct (P a); simpl; lia.
Qed.

Lemma map_count_update {A} (P : A -> bool) (m : gmap nat A) i a b :
  m !! i = Some a ->
  map_count P (<[i := b]> m) + (if P a then 1 else 0) = map_count P m + (if P b then 1 else 0).
Proof.
  intros H. rewrite <- insert_delete_eq, map_count_insert by apply lookup_delete_eq.
  rewrite (map_count_delete P m i a H). destruct (P a), (P b); lia.
Qed.

(** The deliveries the tasks are about. *)
Definition whats (m : gmap nat DTask) : list Delivery := d_what <$> (map_to_list m).*2.

Lemma whats_insert m i k : m !! i = None -> whats (<[i := k]> m) ≡ₚ d_what k :: whats m.
Proof. intros H. unfold whats. by rewrite map_to_list_insert. Qed.

Lemma whats_delete m i k : m !! i = Some k -> whats m ≡ₚ d_what k :: whats (delete i m).
Proof.
  intros H. rewrite <- (insert_delete_id m i k H) at 1. apply whats_insert, lookup_delete_eq.
Qed.

Lemma whats_update m i k k' : m !! i = Some k -> d_what k' = d_what k -> whats (<[i := k']> m) ≡ₚ whats m.
Proof.
  intros H He. rewrite <- insert_delete_eq, whats_insert, He by apply lookup_delete_eq.
  by rewrite <- whats_delete.
Qed.

Section Invariant.
Context (base : Z) (overflow : WebhookOverflow).
Hypothesis base_pos : (0 < base)%Z.
Set Default Proof Using "Type*".

(** The counters are exact, requests and retries are within their limits, and
    no delivery is lost or made twice: those taken on are those that ended,
    those spawned and those still to be handed off. *)
Record worker_inv (w : Worker) : Prop := {
  wi_queue : webhooks_wf base overflow (w_queue w);
  wi_dequeued : w_dequeued w = match w_hold w with Handing _ => 1%Z | _ => 0%Z end;
  wi_permits : (w_permits w + Z.of_nat (map_count is_sending (w_tasks w)) = MAX_IN_FLIGHT_DELIVERIES)%Z;
  wi_permits_nonneg : (0 <= w_permits w)%Z;
  wi_flight : w_in_flight w = Z.of_nat (size (w_tasks w));
  wi_pending : w_pending_retries w = Z.of_nat (map_count d_counted (w_tasks w));
  wi_pending_bound : (w_pending_retries w <= MAX_PENDING_RETRIES)%Z;
  wi_waiting : forall i k, w_tasks w !! i = Some k -> is_sending k = false -> d_counted k = true;
  wi_account : w_started w ≡ₚ (w_finished w).*1 ++ whats (w_tasks w) ++
                 match w_hold w with Handing rest => rest | _ => [] end
}.

Lemma worker_new_inv : worker_inv (worker_new overflow).
Proof.
  split; simpl; rewrite ?map_count_empty, ?map_size_empty; try done.
  split; simpl; [done|]. by destruct overflow.
Qed.

Lemma tasks_bound w : worker_inv w -> (Z.of_nat (size (w_tasks w)) <= 10256)%Z.
Proof.
  intros [_ _ Hp Hn _ Hc Hb Hw _]. rewrite <- (map_count_split is_sending).
  pose proof (map_count_mono (fun k => negb (is_sending k)) d_counted (w_tasks w)) as Hm.
  unfold MAX_IN_FLIGHT_DELIVERIES, MAX_PENDING_RETRIES in *.
  assert (map_count (fun k => negb (is_sending k)) (w_tasks w) <= map_count d_counted (w_tasks w)); [|lia].
  apply Hm. intros i k Hi Hs. apply (Hw i k Hi). by destruct (is_sending k).
Qed.

Lemma wrap_small z : (0 <= z < 2 ^ 64)%Z -> wrap_u64 z = z.
Proof. apply Z.mod_small. Qed.

Lemma w_queue_inv w q :
  webhooks_wf base overflow q -> worker_inv w -> worker_inv (w_with_queue w q (w_hold w) (w_dequeued w)).
Proof. intros Hq [? ? ? ? ? ? ? ? ?]. by split. Qed.

Lemma w_recv_inv w w' : worker_inv w -> w_recv w = Some w' -> worker_inv w'.
Proof.
  intros [Hq Hd Hp Hn Hf Hc Hb Hw Ha]. unfold w_recv. destruct (w_hold w); try done.
  destruct (wh_tx (w_queue w)) as [|item rest] eqn:E; [done|]. intros [= <-]. split; simpl; try done.
  destruct Hq as [Hq1 Hq2]. split; simpl; [|done]. rewrite E in Hq1. simpl in Hq1. lia.
Qed.

Lemma w_mark_inv lookup w w' : worker_inv w -> w_mark lookup w = Some w' -> worker_inv w'.
Proof.
  intros [Hq Hd Hp Hn Hf Hc Hb Hw Ha]. unfold w_mark. destruct (w_hold w) eqn:E; try done. intros [= <-].
  split; simpl; try done. rewrite Ha, app_nil_r. by rewrite <- app_assoc.
Qed.

Lemma w_spawn_inv i now w w' : worker_inv w -> w_spawn i now w = Some w' -> worker_inv w'.
Proof.
  intros Hi. pose proof (tasks_bound w Hi) as Hs. destruct Hi as [Hq Hd Hp Hn Hf Hc Hb Hw Ha].
  unfold w_spawn. destruct (w_hold w) as [| |[|d rest]] eqn:E; try done.
  destruct (w_tasks w !! i) eqn:Ei; [done|]. destruct (Z.ltb_spec 0 (w_permits w)); [|done]. intros [= <-].
  split; simpl; rewrite ?map_count_insert, ?map_size_insert_None by done; simpl; try done; try lia.
  - rewrite wrap_small by lia. lia.
  - intros j k. rewrite lookup_insert_Some. intros [[_ <-]|[_ Hj]]; [done|by apply (Hw j)].
  - rewrite Ha, whats_insert by done. simpl. by rewrite Permutation_middle.
Qed.

Lemma w_handed_inv w w' : worker_inv w -> w_handed w = Some w' -> worker_inv w'.
Proof.
  intros [Hq Hd Hp Hn Hf Hc Hb Hw Ha]. unfold w_handed. destruct (w_hold w) as [| |[|]]; try done.
  intros [= <-]. by split.
Qed.

(** The end of a delivery, once its slot was given back. *)
Lemma w_end_inv i k delivered w :
  w_tasks w !! i = Some k -> is_sending k = true ->
  worker_inv w ->
  worker_inv (w_end i k delivered
    {| w_queue := w_queue w; w_hold := w_hold w; w_dequeued := w_dequeued w;
       w_in_flight := w_in_flight w; w_permits := (w_permits w + 1)%Z;
       w_pending_retries := w_pending_retries w; w_tasks := w_tasks w;
       w_started := w_started w; w_finished := w_finished w |}).
Proof.
  intros Hi Hk Hinv. pose proof (tasks_bound w Hinv) as Hs. destruct Hinv as [Hq Hd Hp Hn Hf Hc Hb Hw Ha].
  pose proof (map_count_delete is_sending _ _ _ Hi) as H1. rewrite Hk in H1.
  pose proof (map_count_delete d_counted _ _ _ Hi) as H2.
  pose proof (map_size_delete_Some i (w_tasks w) (mk_is_Some _ _ Hi)) as H3.
  assert (size (w_tasks w) <> 0) by (intros H0%map_size_empty_iff; by rewrite H0, lookup_empty in Hi).
  unfold MAX_PENDING_RETRIES in *.
  split; simpl; unfold MAX_PENDING_RETRIES; try done; try lia.
  - rewrite wrap_small by lia. lia.
  - revert H2. destruct (d_counted k); intros H2; [rewrite wrap_small by lia|]; lia.
  - revert H2. destruct (d_counted k); intros H2; [rewrite wrap_small by lia|]; lia.
  - intros j k' [_ Hj]%lookup_delete_Some. by apply (Hw j k').
  - rewrite Ha, (whats_delete _ _ _ Hi), fmap_app. simpl. by rewrite <- app_assoc.
Qed.

Lemma w_respond_inv i ok now w w' : worker_inv w -> w_respond i ok now w = Some w' -> worker_inv w'.
Proof.
  intros Hinv. unfold w_respond. destruct (w_tasks w !! i) as [k|] eqn:Hi; [|done].
  destruct (d_phase k) eqn:Ep; [|done]. assert (is_sending k = true) as Hk by (unfold is_sending; by rewrite Ep).
  destruct ok; [intros [= <-]; by apply w_end_inv|].
  destruct (RETRY_WINDOW <? _)%Z; [intros [= <-]; by apply w_end_inv|].
  destruct (negb _ && _) eqn:Ec; [intros [= <-]; by apply w_end_inv|]. intros [= <-]. simpl in Ec.
  pose proof (tasks_bound w Hinv) as Hs. destruct Hinv as [Hq Hd Hp Hn Hf Hc Hb Hw Ha].
  set (k' := {| d_what := d_what k; d_phase := Waiting; d_started := d_started k; d_attempts := d_attempts k;
                d_backoff := d_backoff k; d_counted := true |}).
  pose proof (map_count_update is_sending _ _ _ k' Hi) as H1. rewrite Hk in H1. simpl in H1.
  pose proof (map_count_update d_counted _ _ _ k' Hi) as H2. simpl in H2.
  assert (w_pending_retries w < MAX_PENDING_RETRIES \/ d_counted k = true)%Z as Hroom.
  { destruct (d_counted k); [by right|left]. simpl in Ec. apply Z.leb_gt in Ec. lia. }
  unfold MAX_PENDING_RETRIES in *.
  split; simpl; fold k'; unfold MAX_PENDING_RETRIES; try done; try lia.
  - rewrite map_size_insert_Some by eauto. done.
  - revert H2 Hroom. destruct (d_counted k); intros H2 Hroom; [|rewrite wrap_small by lia]; lia.
  - revert H2 Hroom. destruct (d_counted k); intros H2 [Hr|Hr]; try done. rewrite wrap_small by lia. lia.
  - intros j k0. rewrite lookup_insert_Some. intros [[_ <-]|[_ Hj]]; [done|by apply (Hw j)].
  - by rewrite Ha, (whats_update _ _ _ k' Hi).
Qed.

Lemma w_retry_inv i w w' : worker_inv w -> w_retry i w = Some w' -> worker_inv w'.
Proof.
  intros Hinv. unfold w_retry. destruct (w_tasks w !! i) as [k|] eqn:Hi; [|done].
  destruct (d_phase k) eqn:Ep; [done|]. destruct (Z.ltb_spec 0 (w_permits w)) as [Hpos|]; [|done]. intros [= <-].
  destruct Hinv as [Hq Hd Hp Hn Hf Hc Hb Hw Ha].
  match goal with |- context [<[i := ?x]> _] => set (k' := x) end.
  pose proof (map_count_update is_sending _ _ _ k' Hi) as H1.
  replace (is_sending k) with false in H1 by (unfold is_sending; by rewrite Ep).
  change (is_sending k') with true in H1. cbv iota in H1.
  pose proof (map_count_update d_counted _ _ _ k' Hi) as H2. change (d_counted k') with (d_counted k) in H2.
  split; simpl; try done; try lia.
  - rewrite map_size_insert_Some by eauto. done.
  - intros j k0. rewrite lookup_insert_Some. intros [[_ <-]|[_ Hj]]; [done|by apply (Hw j)].
  - by rewrite Ha, (whats_update _ _ _ k' Hi).
Qed.

Lemma worker_reachable_inv w : w_reachable base overflow w -> worker_inv w.
Proof.
  induction 1 as [|w w' _ IH Hs]; [apply worker_new_inv|].
  destruct Hs as [w app e now|w|w w' H|lookup w w' H|i now w w' H|w w' H|i ok now w w' H|i w w' H].
  - apply w_queue_inv; [|done]. by apply (webhook_queue base overflow), IH.
  - apply w_queue_inv; [|done]. by apply (webhook_queue base overflow base_pos (w_queue w) "" (CacheMiss "") 0%Z), IH.
  - by eapply w_recv_inv.
  - by eapply w_mark_inv.
  - by eapply w_spawn_inv.
  - by eapply w_handed_inv.
  - by eapply w_respond_inv.
  - by eapply w_retry_inv.
Qed.

(** C24: However events arrive, targets answer and tasks interleave, at most 256
    requests are in flight and at most 10000 deliveries await a retry, the
    counters are exact, and every delivery taken on is accounted for exactly
    once: ended, in progress or about to be handed off. *)
Theorem webhook_worker_invariant w :
  w_reachable base overflow w ->
  (Z.of_nat (map_count is_sending (w_tasks w)) <= 256)%Z /\
  (Z.of_nat (map_count d_counted (w_tasks w)) <= 10000)%Z /\
  w_in_flight w = Z.of_nat (size (w_tasks w)) /\
  w_pending_retries w = Z.of_nat (map_count d_counted (w_tasks w)) /\
  w_started w ≡ₚ (w_finished w).*1 ++ whats (w_tasks w) ++ match w_hold w with Handing rest => rest | _ => [] end.
Proof.
  intros H%worker_reachable_inv. destruct H as [_ _ Hp Hn Hf Hc Hb _ Ha].
  unfold MAX_IN_FLIGHT_DELIVERIES, MAX_PENDING_RETRIES in *. split_and!; [lia|lia|done|done|done].
Qed.

Lemma approx_size_pos e : (0 < approx_size base e)%Z.
Proof. unfold approx_size, opt_len, len. destruct e as [| | | |c ev data s u| |]; try lia. destruct s, u; lia. Qed.

Lemma staged_bytes_nonneg q : (0 <= staged_bytes base q)%Z.
Proof. induction q as [|x q IH]; simpl; [lia|]. pose proof (approx_size_pos x.2). lia. Qed.

Lemma pending_zero_iff w :
  w_reachable base overflow w -> (forall item, w_hold w <> Received item) ->
  pending w w w w = 0%Z <->
  wh_contents (w_queue w) = [] /\ w_hold w = Idle /\ w_tasks w = ∅.
Proof.
  intros H%worker_reachable_inv Hnr. destruct H as [[_ Hm] Hd _ _ Hf _ _ _ _].
  unfold pending, wh_contents. rewrite Hf.
  pose proof staged_bytes_nonneg as Hnn.
  assert (forall q, staged_bytes base q = 0%Z <-> q = []) as Hz.
  { intros [|x q]; [done|]. split; [|done]. simpl. specialize (Hnn q). intros Hs. exfalso.
    pose proof (approx_size_pos x.2). lia. }
  rewrite Hd. destruct (w_hold w) as [|item|rest] eqn:Eh; [|by destruct (Hnr item)|].
  - destruct (wh_staging (w_queue w)) as [[q bytes]|].
    + destruct Hm as (_ & -> & _). specialize (Hnn q). specialize (Hz q).
      destruct (Z.ltb_spec 0 (staged_bytes base q)).
      * split; [lia|]. intros (Hc & _ & _). apply app_eq_nil in Hc as [_ ->]. simpl in *. lia.
      * assert (q = []) as -> by (apply Hz; lia). rewrite app_nil_r, <- length_zero_iff_nil, <- map_size_empty_iff.
        split; [|lia]. intros. split_and!; [lia|done|lia].
    + rewrite app_nil_r, <- length_zero_iff_nil, <- map_size_empty_iff. split; [|lia].
      intros. split_and!; [lia|done|lia].
  - split; [|by intros (_ & ? & _)]. destruct (wh_staging (w_queue w)) as [[q bytes]|]; [destruct (0 <? bytes)%Z|]; lia.
Qed.

(** When [pending] is zero and nothing moved while it was read, nothing is queued
    or staged and every delivery taken on has ended, unless the loop is just
    between taking an event off the queue and marking it as held. *)
Theorem pending_zero_drained w :
  w_reachable base overflow w -> (forall item, w_hold w <> Received item) ->
  pending w w w w = 0%Z <->
  wh_contents (w_queue w) = [] /\ w_hold w = Idle /\ w_tasks w = ∅.
Proof. apply pending_zero_iff. Qed.

(** *** Reading while the worker runs *)

Definition handing (w : Worker) : list Delivery := match w_hold w with Handing rest => rest | _ => [] end.

(** What is about to be handed off was so before, or was taken on since. *)
Lemma w_step_started w w' :
  w_step base overflow w w' ->
  exists new, w_started w' = w_started w ++ new /\ handing w' ⊆+ handing w ++ new.
Proof.
  assert (forall w', w_started w' = w_started w -> handing w' = handing w ->
    exists new, w_started w' = w_started w ++ new /\ handing w' ⊆+ handing w ++ new) as Hsame.
  { intros x -> ->. exists []. by rewrite !app_nil_r. }
  destruct 1 as [w app e now|w|w w' H|lookup w w' H|i now w w' H|w w' H|i ok now w w' H|i w w' H]; try (by apply Hsame).
  - unfold w_recv in H. destruct (w_hold w) eqn:E; try done. destruct (wh_tx _); [done|]. injection H as <-.
    apply Hsame; [done|]. unfold handing. by rewrite E.
  - unfold w_mark in H. destruct (w_hold w) eqn:E; try done. injection H as <-. eexists. split; [done|].
    unfold handing. by rewrite E.
  - unfold w_spawn in H. destruct (w_hold w) as [| |[|d rest]] eqn:E; try done. destruct (w_tasks w !! i); [done|].
    destruct (_ <? _)%Z; [|done]. injection H as <-. exists []. unfold handing. rewrite E. simpl.
    rewrite !app_nil_r. split; [done|]. by apply submseteq_cons.
  - unfold w_handed in H. destruct (w_hold w) as [| |[|]] eqn:E; try done. injection H as <-. apply Hsame; [done|].
    unfold handing. by rewrite E.
  - unfold w_respond in H. destruct (w_tasks w !! i) as [k|]; [|done]. destruct (d_phase k); [|done].
    repeat case_match; simplify_eq; by apply Hsame.
  - unfold w_retry in H. destruct (w_tasks w !! i) as [k|]; [|done]. destruct (d_phase k); [done|].
    repeat case_match; simplify_eq; by apply Hsame.
Qed.

Lemma w_run_started w w' :
  rtc (w_step base overflow) w w' ->
  exists new, w_started w' = w_started w ++ new /\ handing w' ⊆+ handing w ++ new.
Proof.
  induction 1 as [w|w1 w2 w3 H12 _ (new2 & E2 & S2)]; [exists []; by rewrite !app_nil_r|].
  destruct (w_step_started _ _ H12) as (new1 & E1 & S1). exists (new1 ++ new2).
  rewrite E2, E1, <- app_assoc. split; [done|]. etrans; [exact S2|]. rewrite app_assoc. by apply submseteq_app.
Qed.

Lemma w_run_reachable w w' :
  w_reachable base overflow w -> rtc (w_step base overflow) w w' -> w_reachable base overflow w'.
Proof. intros Hr. induction 1; [done|]. apply IHrtc. by eapply w_next. Qed.

(** When the four loads of [pending] add up to zero, the queue was empty at the
    first and the staging at the second, and every delivery taken on by the
    third has ended by the fourth, however the worker went on in between. *)
Lemma pending_zero_read w1 w2 w3 w4 :
  w_reachable base overflow w1 -> rtc (w_step base overflow) w1 w2 -> rtc (w_step base overflow) w2 w3 ->
  rtc (w_step base overflow) w3 w4 -> pending w1 w2 w3 w4 = 0%Z ->
  wh_tx (w_queue w1) = [] /\ match wh_staging (w_queue w2) with Some (q, _) => q = [] | None => True end /\
  w_started w3 ⊆+ (w_finished w4).*1.
Proof.
  intros R1 R12 R23 R34 Hz.
  pose proof (w_run_reachable _ _ R1 R12) as R2. pose proof (w_run_reachable _ _ R2 R23) as R3.
  pose proof (w_run_reachable _ _ R3 R34) as R4.
  destruct (worker_reachable_inv w2 R2) as [[_ Hm2] _ _ _ _ _ _ _ _].
  destruct (worker_reachable_inv w3 R3) as [_ Hd3 _ _ _ _ _ _ _].
  destruct (worker_reachable_inv w4 R4) as [_ _ _ _ Hf4 _ _ _ Ha4].
  unfold pending in Hz. rewrite Hd3, Hf4 in Hz.
  assert (match wh_staging (w_queue w2) with Some (_, bytes) => (bytes <= 0)%Z | None => True end /\
          length (wh_tx (w_queue w1)) = 0 /\ handing w3 = [] /\ size (w_tasks w4) = 0) as (Hs & Hq & Hh & Ht).
  { unfold handing. destruct (w_hold w3), (wh_staging (w_queue w2)) as [[q bytes]|]; try destruct (Z.ltb_spec 0 bytes);
      split_and!; try lia; done. }
  split_and!; [by apply nil_length_inv| |].
  - destruct (wh_staging (w_queue w2)) as [[q bytes]|]; [|done]. destruct Hm2 as (_ & Hb & _). subst bytes.
    destruct q as [|x q]; [done|]. simpl in Hs. pose proof (staged_bytes_nonneg q). pose proof (approx_size_pos x.2). lia.
  - destruct (w_run_started _ _ R34) as (new & E & S). rewrite Hh in S. simpl in S.
    apply map_size_empty_iff in Ht. rewrite Ht, E in Ha4. change (whats ∅) with (@nil Delivery) in Ha4. simpl in Ha4.
    fold (handing w4) in Ha4. apply submseteq_Permutation in S as [k Hk].
    apply (submseteq_app_inv_r _ _ (handing w4)). rewrite <- Ha4, Hk.
    apply submseteq_app; [done|]. by apply submseteq_inserts_r.
Qed.
End Invariant.

(** ** Examples and witnesses *)

Definition demo_target : CompiledTarget :=
  {| t_app_id := "a"; t_app_key := "k"; t_app_secret := "s"; t_url := "http://h/"; t_event_filter := [];
     t_channel_prefix := None |}.

Definition demo_worker : Worker :=
  w_with_queue (worker_new WBestEffort)
    (enqueue 100 WBestEffort (webhooks_new WBestEffort) "a" (ChannelVacated "room") 0%Z) Idle 0.

Lemma demo_worker_reachable : w_reachable 100 WBestEffort demo_worker.
Proof. eapply w_next; [apply w_init|]. apply (ws_enqueue 100 WBestEffort (worker_new WBestEffort)). Qed.

(** Between [rx.recv()] and [dequeued.store(1)] an event is in nobody's count:
    the shutdown can see zero while the drain loop holds an event. *)
Theorem pending_misses_received :
  exists w item, w_reachable 100 WBestEffort w /\ w_hold w = Received item /\ pending w w w w = 0%Z.
Proof.
  destruct (w_recv demo_worker) as [w|] eqn:E; [|vm_compute in E; discriminate E].
  exists w, ("a", ChannelVacated "room"). split.
  - eapply w_next; [apply demo_worker_reachable|]. by apply ws_recv.
  - vm_compute in E. injection E as <-. split; reflexivity.
Qed.

(** In [Block] mode the queue is read before the staging: an event that moves
    from the one to the other in between is missed. *)
Definition staging_worker : Worker :=
  w_with_queue (worker_new WBlock)
    (enqueue 100 WBlock (webhooks_new WBlock) "a" (ChannelVacated "room") 0%Z) Idle 0.

Theorem pending_misses_forwarded :
  let moved := w_with_queue staging_worker (wh_forward 100 (w_queue staging_worker)) Idle 0 in
  w_reachable 100 WBlock staging_worker /\ w_step 100 WBlock staging_worker moved /\
  pending staging_worker moved moved moved = 0%Z /\ wh_tx (w_queue moved) = [("a", ChannelVacated "room")].
Proof.
  split_and!.
  - eapply w_next; [apply w_init|]. apply (ws_enqueue 100 WBlock (worker_new WBlock)).
  - apply (ws_forward 100 WBlock staging_worker).
  - vm_compute. reflexivity.
  - vm_compute. reflexivity.
Qed.

Lemma webhook_worker_invariant_witness :
  w_in_flight demo_worker = Z.of_nat (size (w_tasks demo_worker)).
Proof. apply (webhook_worker_invariant 100 WBestEffort eq_refl demo_worker demo_worker_reachable). Defined.

Lemma pending_zero_drained_witness : pending demo_worker demo_worker demo_worker demo_worker <> 0%Z.
Proof.
  intros H. apply (pending_zero_drained 100 WBestEffort eq_refl demo_worker demo_worker_reachable) in H as [H _].
  - discriminate H.
  - discriminate.
Defined.
