(* ===== verification/Routes.v ===== *)
(** * zatat-http: the HTTP API

    Models [crates/zatat-http/src/routes.rs]: authentication of a request, the
    validation and publication of events, the channel queries and the
    termination of a user's connections.  A handler is a function on the node's
    state that returns the JSON body of a 200 answer or an error with its
    status.  Parsing a body is the derived [Deserialize], a parameter; the
    reading of the body (its size and deadline) is axum's. *)

From S2P Require Import Prelude.
From S2P Require Import Core.
From S2P Require Import Json.
From S2P Require Import Envelope.
From S2P Require Import Auth.
From S2P Require Import HttpSign.
From S2P Require Import Connection.
From S2P Require Import Channel.
From S2P Require Import Manager.
From S2P Require Import Apps.
From S2P Require Import Message.
From S2P Require Import PeerState.
From S2P Require Import Encryption.
From S2P Require Import Bus.
From S2P Require Import Dispatcher.
From stdpp Require Import options.

Definition MAX_CHANNELS_PER_EVENT : nat := 100.

Record EventPayload := {
  ep_name : string;
  ep_data : Value;
  ep_channels : option (list string);
  ep_channel : option string;
  ep_socket_id : option string;
  ep_info : option string
}.

Record UserEventPayload := { up_name : string; up_data : Value }.

(** [serde_json::from_slice] into the three payload types; an error is its text. *)
Class BodyParser := {
  parse_event : string -> result EventPayload string;
  parse_batch : string -> result (list EventPayload) string;
  parse_user_event : string -> result UserEventPayload string
}.

Record ApiError := { ae_status : Z; ae_message : string }.
Definition api_error (status : Z) (msg : string) : ApiError := {| ae_status := status; ae_message := msg |}.

Record HttpRequest := { rq_method : string; rq_uri : Uri; rq_body : string }.

(** ** Small helpers *)

(** The white space of [char::is_whitespace], by its UTF-8 bytes, at the start
    of a string. *)
Fixpoint trim_start (s : string) : string :=
  match s with
  | EmptyString => EmptyString
  | String a s1 =>
      let x := nat_of_ascii a in
      if ((9 <=? x) && (x <=? 13)) || (x =? 32) then trim_start s1
      else match s1 with
           | EmptyString => s
           | String b s2 =>
               let y := nat_of_ascii b in
               if (x =? 194) && ((y =? 133) || (y =? 160)) then trim_start s2
               else match s2 with
                    | EmptyString => s
                    | String c s3 =>
                        let z := nat_of_ascii c in
                        if ((x =? 225) && (y =? 154) && (z =? 128)) ||
                           ((x =? 226) && (y =? 128) &&
                              (((128 <=? z) && (z <=? 138)) || (z =? 168) || (z =? 169) || (z =? 175))) ||
                           ((x =? 226) && (y =? 129) && (z =? 159)) ||
                           ((x =? 227) && (y =? 128) && (z =? 128))
                        then trim_start s3 else s
                    end
           end
  end.

(** A suffix of white space only is dropped. *)
Fixpoint trim_end (s : string) : string :=
  if is_empty_str (trim_start s) then EmptyString
  else match s with
       | EmptyString => EmptyString
       | String a rest => String a (trim_end rest)
       end.

Definition trim (s : string) : string := trim_end (trim_start s).

Definition wants (info_csv : option string) (attribute : string) : bool :=
  match info_csv with
  | Some s => existsb (fun p => String.eqb (trim p) attribute) (split_on "," s)
  | None => false
  end.

Definition opt_insert (m : list (string * Value)) (test : bool) (k : string) (v : option Value)
  : list (string * Value) :=
  if test then match v with Some v => map_insert m k v | None => m end else m.

Definition channel_stats_object (s : ChannelStats) (info_csv : option string) (cache : option Value) : Value :=
  let obj := opt_insert [] (wants info_csv "occupied") "occupied" (Some (VBool (cs_occupied s))) in
  let obj := opt_insert obj (wants info_csv "subscription_count") "subscription_count"
               (Some (value_of_nat (cs_subscription_count s))) in
  let obj := opt_insert obj (wants info_csv "user_count") "user_count" (value_of_nat <$> cs_user_count s) in
  let obj := opt_insert obj (wants info_csv "cache") "cache" (Some (default Null cache)) in
  Object obj.

Definition event_channels (ev : EventPayload) : list string :=
  match ep_channels ev with
  | Some list => list
  | None => match ep_channel ev with Some one => [one] | None => [] end
  end.

(** [PublishError]'s [Display]. *)
Definition publish_error_text (e : PublishError) : string :=
  match e with
  | MissingMasterKey =>
      "plaintext data for an encrypted channel and no encryption_master_key is configured"
  | PInvalidMasterKey e => "invalid encryption_master_key: " +:+ e
  | PEncryptionFailed e => "encryption failed: " +:+ e
  end.

Definition validate_event_name (name : string) : result unit ApiError :=
  if is_empty_str name then Err (api_error 400 "event name is required")
  else if (MAX_EVENT_NAME_LEN <? len name)%Z
  then Err (api_error 422 ("event name exceeds " +:+ dec_string MAX_EVENT_NAME_LEN +:+ " bytes"))
  else Ok tt.

Section Api.
Context `{HI : HashIter} `{WI : Wire} `{SJ : SerdeJson} `{CR : Crypto} `{SB : SecretBox} `{BP : BodyParser}.
Context (cfg : Config) (path_prefix : string) {W : Type}.
Implicit Types nd : Node W.

Definition data_to_string (v : Value) : string :=
  match v with VString s => s | _ => to_string v end.

(** ** Authentication *)

Definition resolve_app (apps : AppIndex) (id : string) : result App ApiError :=
  match app_by_id apps id with
  | Some app => Ok app
  | None => Err (api_error 404 "Application does not exist")
  end.

Definition verify_and_log (app : App) (rq : HttpRequest) (body : string) (now_seconds : Z) : result unit ApiError :=
  match verify_request app (rq_method rq) (rq_uri rq) path_prefix body now_seconds with
  | Ok _ => Ok tt
  | Err e => Err (api_error (ve_code e) (ve_message e))
  end.

(** The first two steps of every handler. *)
Definition authorize (apps : AppIndex) (id : string) (rq : HttpRequest) (body : string) (now_seconds : Z)
  : result App ApiError :=
  match resolve_app apps id with
  | Err e => Err e
  | Ok app => match verify_and_log app rq body now_seconds with Err e => Err e | Ok _ => Ok app end
  end.

(** ** Statistics *)

(** Reading the remaining lifetime clears an expired payload. *)
Definition cache_info nd (app : App) (channel : string) (now : Instant) : option Value * Node W :=
  match find_channel (nd_channels nd) (app_id app) channel with
  | None => (None, nd)
  | Some ch =>
      let '(r, ch') := cached_payload_with_ttl ch now in
      let nd := set_manager nd (put_channel (nd_channels nd) (app_id app) channel ch') in
      (match r with
       | None => None
       | Some (payload, ttl) =>
           let data := default Null (from_str payload ≫= fun frame => value_get frame "data") in
           Some (Object [("data", data);
                         ("ttl", match ttl with Some t => value_of_Z t | None => Null end)])
       end, nd)
  end.

(** The users of a channel, on this node and as the peers report them. *)
Definition fleet_users nd (app : App) (channel : string) (now : Instant) : gset string :=
  let local := match find_channel (nd_channels nd) (app_id app) channel with
               | Some ch => omap (fun e : string * ConnectionHandle * option PresenceMember =>
                                    user_id <$> e.2) (members_iter ch)
               | None => []
               end in
  list_to_set local ∪
  list_to_set (psm_user_id <$> PresenceCache.remote_members_for (presence_cache (nd_view nd))
                                 (app_id app) channel now).

Definition fleet_channel_stats nd (app : App) (channel : string) (now : Instant) : ChannelStats * Node W :=
  let '(local, m) := channel_stats (nd_channels nd) (app_id app) channel now in
  let nd := set_manager nd m in
  let local_count := match local with Some s => cs_subscription_count s | None => 0 end in
  let cached := match local with Some s => cs_has_cached_payload s | None => false end in
  let '(count, users, occupied) :=
    if is_presence (from_name channel) then
      let remote := PresenceCache.remote_members_for (presence_cache (nd_view nd)) (app_id app) channel now in
      (local_count, Some (size (fleet_users nd app channel now)),
       (0 <? local_count) || match remote with [] => false | _ => true end)
    else
      let peer_sum := PeerChannelCounts.sum (peer_channel_counts (nd_view nd)) (app_id app) channel now in
      (Z.to_nat (wrap_u64 (Z.of_nat local_count + peer_sum)), None,
       (0 <? local_count) || (0 <? peer_sum)%Z) in
  ({| cs_occupied := occupied; cs_subscription_count := count; cs_user_count := users;
      cs_has_cached_payload := cached |}, nd).

(** ** Publishing *)

(** The checks on one target channel. *)
Definition validate_channel (app : App) (data ch : string) : result unit ApiError :=
  if is_empty_str ch then Err (api_error 400 "channel name must not be empty")
  else if (MAX_CHANNEL_NAME_LEN <? len ch)%Z
  then Err (api_error 422 ("channel name exceeds " +:+ dec_string MAX_CHANNEL_NAME_LEN +:+ " bytes: " +:+ ch))
  else
    let bad := match strip_prefix "#server-to-user-" ch with
               | Some user_id => is_empty_str user_id
               | None => negb (is_valid_channel_name ch)
               end in
    if bad then Err (api_error 400 ("invalid channel name: " +:+ ch))
    else match validate_publish app ch data with
         | Err e => Err (api_error 400 (ch +:+ ": " +:+ publish_error_text e))
         | Ok _ => Ok tt
         end.

(** [for x in l { check(x)?; }]. *)
Fixpoint check_each {A} (f : A -> result unit ApiError) (l : list A) : result unit ApiError :=
  match l with
  | [] => Ok tt
  | x :: rest => match f x with Err e => Err e | Ok _ => check_each f rest end
  end.

Definition validate_event_payload (app : App) (ev : EventPayload) : result unit ApiError :=
  match validate_event_name (ep_name ev) with
  | Err e => Err e
  | Ok _ =>
      let channels := event_channels ev in
      if MAX_CHANNELS_PER_EVENT <? length channels
      then Err (api_error 400 ("an event may target at most " +:+
                  dec_string (Z.of_nat MAX_CHANNELS_PER_EVENT) +:+ " channels"))
      else
        let data := data_to_string (ep_data ev) in
        match channels with
        | [] => Err (api_error 400 "event must specify `channel` or `channels`")
        | _ => check_each (validate_channel app data) channels
        end
  end.

(** The loop of [dispatch_event].  [nonces] are the random nonces of the
    encryptions, one per channel. *)
Fixpoint dispatch_channels nd (app : App) (name data : string) (except : option SocketId)
    (channels nonces : list string) (now : Instant) : result unit ApiError * Node W :=
  match channels with
  | [] => (Ok tt, nd)
  | channel :: rest =>
      match dispatch_message cfg nd app channel name data except (default EmptyString (head nonces)) now with
      | (Err err, nd) => (Err (api_error 500 (publish_error_text err)), nd)
      | (Ok _, nd) => dispatch_channels nd app name data except rest (tail nonces) now
      end
  end.

Definition dispatch_event nd (app : App) (ev : EventPayload) (nonces : list string) (now : Instant)
  : result unit ApiError * Node W :=
  dispatch_channels nd app (ep_name ev) (data_to_string (ep_data ev)) (ep_socket_id ev)
    (event_channels ev) nonces now.

(** The per-channel answer of [publish_event]. *)
Definition add_channel_info (app : App) (info : string) (now : Instant)
    (acc : list (string * Value) * Node W) (ch : string) : list (string * Value) * Node W :=
  let '(obj, nd) := acc in
  let '(st, nd) := fleet_channel_stats nd app ch now in
  (map_insert obj ch (channel_stats_object st (Some info) None), nd).

Definition publish_event nd (apps : AppIndex) (id : string) (rq : HttpRequest) (nonces : list string)
    (now : Instant) (now_seconds : Z) : result Value ApiError * Node W :=
  match authorize apps id rq (rq_body rq) now_seconds with
  | Err e => (Err e, nd)
  | Ok app =>
      match parse_event (rq_body rq) with
      | Err e => (Err (api_error 422 ("invalid body: " +:+ e)), nd)
      | Ok ev =>
          match validate_event_payload app ev with
          | Err e => (Err e, nd)
          | Ok _ =>
              match dispatch_event nd app ev nonces now with
              | (Err e, nd) => (Err e, nd)
              | (Ok _, nd) =>
                  match ep_info ev with
                  | Some info =>
                      let '(obj, nd) := foldl (add_channel_info app info now) ([], nd) (event_channels ev) in
                      (Ok (Object [("channels", Object obj)]), nd)
                  | None => (Ok (Object []), nd)
                  end
              end
          end
      end
  end.

(** The second loop of [publish_batch_events]; event [i] uses the nonces
    [nonces i]. *)
Fixpoint dispatch_batch nd (app : App) (batch : list EventPayload) (nonces : nat -> list string)
    (i : nat) (now : Instant) (out : list Value) : result (list Value) ApiError * Node W :=
  match batch with
  | [] => (Ok out, nd)
  | ev :: rest =>
      match dispatch_event nd app ev (nonces i) now with
      | (Err e, nd) => (Err e, nd)
      | (Ok _, nd) =>
          let '(entry, nd) :=
            match ep_info ev, head (event_channels ev) with
            | Some info, Some ch =>
                let '(st, nd) := fleet_channel_stats nd app ch now in
                (channel_stats_object st (Some info) None, nd)
            | _, _ => (Object [], nd)
            end in
          dispatch_batch nd app rest nonces (S i) now (out ++ [entry])
      end
  end.

Definition publish_batch_events nd (apps : AppIndex) (id : string) (rq : HttpRequest)
    (nonces : nat -> list string) (now : Instant) (now_seconds : Z) : result Value ApiError * Node W :=
  match authorize apps id rq (rq_body rq) now_seconds with
  | Err e => (Err e, nd)
  | Ok app =>
      match parse_batch (rq_body rq) with
      | Err e => (Err (api_error 422 ("invalid body: " +:+ e)), nd)
      | Ok [] => (Err (api_error 400 "batch must contain at least one event"), nd)
      | Ok batch =>
          match check_each (validate_event_payload app) batch with
          | Err e => (Err e, nd)
          | Ok _ =>
              let any_info := existsb (fun ev => bool_decide (is_Some (ep_info ev))) batch in
              match dispatch_batch nd app batch nonces 0 now [] with
              | (Err e, nd) => (Err e, nd)
              | (Ok out, nd) =>
                  (Ok (if any_info then Object [("batch", Array out)] else Object []), nd)
              end
          end
      end
  end.

(** ** Users *)

Definition user_events nd (apps : AppIndex) (id uid : string) (rq : HttpRequest) (now : Instant)
    (now_seconds : Z) : result Value ApiError * Node W :=
  match authorize apps id rq (rq_body rq) now_seconds with
  | Err e => (Err e, nd)
  | Ok app =>
      match parse_user_event (rq_body rq) with
      | Err e => (Err (api_error 400 ("invalid body: " +:+ e)), nd)
      | Ok payload =>
          match validate_event_name (up_name payload) with
          | Err e => (Err e, nd)
          | Ok _ =>
              if is_empty_str uid then (Err (api_error 400 "user id is required"), nd)
              else
                let handles_before := length (connections_for_user (nd_channels nd) (app_id app) uid) in
                let nd := dispatch_user_event cfg nd app uid (up_name payload)
                            (data_to_string (up_data payload)) now in
                (Ok (Object [("delivered", value_of_nat handles_before)]), nd)
          end
      end
  end.

(** [DELETE /users/:user_id] passes an empty body, [POST
    .../terminate_connections] the request's. *)
Definition terminate_user_impl nd (apps : AppIndex) (id uid : string) (rq : HttpRequest) (body : string)
    (now : Instant) (now_seconds : Z) : result Value ApiError * Node W :=
  match authorize apps id rq body now_seconds with
  | Err e => (Err e, nd)
  | Ok app =>
      let handles := connections_for_user (nd_channels nd) (app_id app) uid in
      let nd := set_mbs nd (send_all handles close_terminated (nd_mbs nd)) in
      let nd := publish_terminate_user cfg nd app uid now in
      (Ok (Object [("terminated", value_of_nat (length handles))]), nd)
  end.

(** ** Queries *)

Definition channel_info nd (apps : AppIndex) (id channel : string) (rq : HttpRequest) (now : Instant)
    (now_seconds : Z) : result Value ApiError * Node W :=
  match authorize apps id rq EmptyString now_seconds with
  | Err e => (Err e, nd)
  | Ok app =>
      let info := find_param (String.eqb "info") (parse_query (rq_uri rq)) in
      let info_plus_occupied :=
        match info with
        | Some s => if is_empty_str s then "occupied,subscription_count"
                    else s +:+ ",occupied,subscription_count"
        | None => "occupied,subscription_count"
        end in
      let '(merged, nd) := fleet_channel_stats nd app channel now in
      let '(cache, nd) := if wants info "cache" then cache_info nd app channel now else (None, nd) in
      (Ok (channel_stats_object merged (Some info_plus_occupied) cache), nd)
  end.

Definition channel_users nd (apps : AppIndex) (id channel : string) (rq : HttpRequest) (now : Instant)
    (now_seconds : Z) : result Value ApiError :=
  match authorize apps id rq EmptyString now_seconds with
  | Err e => Err e
  | Ok app =>
      if negb (is_presence (from_name channel)) then Err (api_error 400 "not a presence channel")
      else Ok (Object [("users", Array ((fun u => Object [("id", VString u)])
                                          <$> bt_set (fleet_users nd app channel now)))])
  end.

(** What one channel of a listing accumulates over the nodes. *)
Record Merged := {
  mg_occupied : bool;
  mg_subscription_count : Z;
  mg_user_ids : gset string;
  mg_has_cached_payload : bool;
  mg_is_presence : bool
}.
Definition Merged_default : Merged :=
  {| mg_occupied := false; mg_subscription_count := 0; mg_user_ids := ∅;
     mg_has_cached_payload := false; mg_is_presence := false |}.

Definition merge_metric (merged : gmap string Merged) (m : ChannelMetric) : gmap string Merged :=
  let entry := default Merged_default (merged !! cm_name m) in
  let presence := bool_decide (is_Some (cm_user_count m)) in
  <[cm_name m :=
      {| mg_occupied := mg_occupied entry || cm_occupied m;
         mg_subscription_count := wrap_u64 (mg_subscription_count entry + cm_subscription_count m);
         mg_user_ids := if presence then mg_user_ids entry ∪ list_to_set (cm_presence_user_ids m)
                        else mg_user_ids entry;
         mg_has_cached_payload := mg_has_cached_payload entry || cm_has_cached_payload m;
         mg_is_presence := mg_is_presence entry || presence |}]> merged.

(** A local channel enters the listing as the metric this node would report
    for it to a peer ([channel_metric]). *)
Definition list_local nd (app : App) (filter : option string) (now : Instant) : gmap string Merged * Node W :=
  let wanted := List.filter (fun ch => match filter with
                                       | Some p => starts_with p (ch_name ch)
                                       | None => true
                                       end) (all_channels (nd_channels nd) (app_id app)) in
  let '(metrics, m) := foldl (channel_metric (app_id app) now) ([], nd_channels nd) wanted in
  (foldl merge_metric ∅ metrics, set_manager nd m).

(** One listed channel: the occupied ones only. *)
Definition list_entry (app : App) (info : option string) (now : Instant)
    (acc : list (string * Value) * Node W) (e : string * Merged) : list (string * Value) * Node W :=
  let '(obj, nd) := acc in
  let '(name, m) := e in
  if negb (mg_occupied m) then acc
  else
    let st := {| cs_occupied := mg_occupied m; cs_subscription_count := Z.to_nat (mg_subscription_count m);
                 cs_user_count := if mg_is_presence m then Some (size (mg_user_ids m)) else None;
                 cs_has_cached_payload := mg_has_cached_payload m |} in
    let '(cache, nd) := if wants info "cache" then cache_info nd app name now else (None, nd) in
    (map_insert obj name (channel_stats_object st info cache), nd).

(** [list_channels] up to the question to the fleet, and with its answer:
    [remote] is what [ask_fleet] collected, empty without scaling. *)
Definition list_channels_begin nd (apps : AppIndex) (id : string) (rq : HttpRequest) (request_id : string)
    (now : Instant) (now_seconds : Z) : result (App * gmap string Merged * option nat) ApiError * Node W :=
  match authorize apps id rq EmptyString now_seconds with
  | Err e => (Err e, nd)
  | Ok app =>
      let pairs := parse_query (rq_uri rq) in
      let filter := find_param (String.eqb "filter_by_prefix") pairs in
      let info := find_param (String.eqb "info") pairs in
      let '(merged, nd) := list_local nd app filter now in
      let query := {| filter_by_prefix := filter; mq_info := info; connections_only := false |} in
      match ask_fleet_start cfg nd app query request_id now with
      | None => (Ok (app, merged, None), nd)
      | Some (expected, nd) => (Ok (app, merged, Some expected), nd)
      end
  end.

Definition list_channels_finish nd (app : App) (merged : gmap string Merged)
    (remote : list ChannelMetric) (rq : HttpRequest) (now : Instant) : Value * Node W :=
  let info := find_param (String.eqb "info") (parse_query (rq_uri rq)) in
  let merged := foldl merge_metric merged remote in
  let '(obj, nd) := foldl (list_entry app info now) ([], nd) (bt_iter merged) in
  (Object [("channels", Object obj)], nd).

(** [connections]: [peers] is what the fleet answered, 0 without scaling. *)
Definition connections_finish (local : nat) (peers : Z) : Value :=
  Object [("connections", value_of_Z (wrap_u64 (Z.of_nat local + peers)))].

Definition connections_begin nd (apps : AppIndex) (id : string) (rq : HttpRequest) (request_id : string)
    (now : Instant) (now_seconds : Z) : result (App * nat * option nat) ApiError * Node W :=
  match authorize apps id rq EmptyString now_seconds with
  | Err e => (Err e, nd)
  | Ok app =>
      let local := connection_count (nd_channels nd) (app_id app) in
      let query := connections_query in
      match ask_fleet_start cfg nd app query request_id now with
      | None => (Ok (app, local, None), nd)
      | Some (expected, nd) => (Ok (app, local, Some expected), nd)
      end
  end.

(** ** The router *)

(** The routes of [build_api_router]; [DELETE] and [POST] both terminate. *)
Inductive Endpoint :=
| EEvents
| EBatchEvents
| EChannels
| EChannel (channel : string)
| EChannelUsers (channel : string)
| EConnections
| EUserEvents (user_id : string)
| ETerminate (user_id : string)
| ETerminatePusher (user_id : string).

(** The route of a request by its method and the segments of its path; an
    error is the status the router answers itself.  [get] also serves HEAD. *)
Definition route (method : string) (segments : list string) : result (string * Endpoint) Z :=
  let on m e := if existsb (String.eqb method) m then Ok e else Err 405%Z in
  let post := ["POST"] in let get := ["GET"; "HEAD"] in
  match segments with
  | root :: id :: rest =>
      if negb (String.eqb root "apps") then Err 404%Z
      else match rest with
           | [a] =>
               if String.eqb a "events" then on post (id, EEvents)
               else if String.eqb a "batch_events" then on post (id, EBatchEvents)
               else if String.eqb a "channels" then on get (id, EChannels)
               else if String.eqb a "connections" then on get (id, EConnections)
               else Err 404%Z
           | [a; x] =>
               if String.eqb a "channels" then on get (id, EChannel x)
               else if String.eqb a "users" then on ["DELETE"] (id, ETerminate x)
               else Err 404%Z
           | [a; x; b] =>
               if String.eqb a "channels" && String.eqb b "users" then on get (id, EChannelUsers x)
               else if String.eqb a "users" && String.eqb b "events" then on post (id, EUserEvents x)
               else if String.eqb a "users" && String.eqb b "terminate_connections"
               then on post (id, ETerminatePusher x)
               else Err 404%Z
           | _ => Err 404%Z
           end
  | _ => Err 404%Z
  end.

(** How reading the body within its deadline and size limit ended. *)
Inductive BodyRead := BodyTimeout | BodyTooLarge | BodyReceived (bytes : string).

(** An answer, or a question to the fleet that is being collected. *)
Inductive Reply :=
| Answer (r : result Value ApiError)
| ListPending (app : App) (merged : gmap string Merged) (expected : option nat)
| ConnectionsPending (app : App) (local : nat) (expected : option nat).

(** [deadline_and_metrics] around a handler. *)
Definition deadline_and_metrics (read : BodyRead) nd (handler : string -> Reply * Node W) : Reply * Node W :=
  match read with
  | BodyTimeout => (Answer (Err (api_error 408 "request body not received in time")), nd)
  | BodyTooLarge => (Answer (Err (api_error 413 "request body too large")), nd)
  | BodyReceived bytes => handler bytes
  end.

Definition answer (r : result Value ApiError * Node W) : Reply * Node W := (Answer r.1, r.2).

(** A request to the API. *)
Definition serve nd (apps : AppIndex) (method : string) (uri : Uri) (segments : list string) (read : BodyRead)
    (nonces : list string) (batch_nonces : nat -> list string) (request_id : string)
    (now : Instant) (now_seconds : Z) : Reply * Node W :=
  match route method segments with
  | Err status => (Answer (Err (api_error status EmptyString)), nd)
  | Ok (id, endpoint) =>
      deadline_and_metrics read nd (fun body =>
        let rq := {| rq_method := method; rq_uri := uri; rq_body := body |} in
        match endpoint with
        | EEvents => answer (publish_event nd apps id rq nonces now now_seconds)
        | EBatchEvents => answer (publish_batch_events nd apps id rq batch_nonces now now_seconds)
        | EChannels =>
            match list_channels_begin nd apps id rq request_id now now_seconds with
            | (Err e, nd) => (Answer (Err e), nd)
            | (Ok (app, merged, expected), nd) => (ListPending app merged expected, nd)
            end
        | EChannel channel => answer (channel_info nd apps id channel rq now now_seconds)
        | EChannelUsers channel => (Answer (channel_users nd apps id channel rq now now_seconds), nd)
        | EConnections =>
            match connections_begin nd apps id rq request_id now now_seconds with
            | (Err e, nd) => (Answer (Err e), nd)
            | (Ok (app, local, expected), nd) => (ConnectionsPending app local expected, nd)
            end
        | EUserEvents uid => answer (user_events nd apps id uid rq now now_seconds)
        | ETerminate uid => answer (terminate_user_impl nd apps id uid rq EmptyString now now_seconds)
        | ETerminatePusher uid => answer (terminate_user_impl nd apps id uid rq body now now_seconds)
        end)
  end.
End Api.
