(* ===== verification/Handler.v ===== *)
(** * zatat-ws: the connection handler

    Models [crates/zatat-ws/src/handler.rs]: what the server does with every
    frame a client sends, and when a connection opens and closes.  A handler is
    a function on the node's state and the connection's state; it returns the
    frame the caller writes to the socket, if any.  The consequences of a join
    or leave run inside [subscribe_with] and [unsubscribe_with], on the state
    as it is under the channel's lock. *)

From S2P Require Import Prelude.
From S2P Require Import Core.
From S2P Require Import Json.
From S2P Require Import Envelope.
From S2P Require Import Auth.
From S2P Require Import Connection.
From S2P Require Import Channel.
From S2P Require Import Manager.
From S2P Require Import Message.
From S2P Require Import PeerState.
From S2P Require Import Encryption.
From S2P Require Import Bus.
From S2P Require Import Dispatcher.
From S2P Require Import Webhooks.
From stdpp Require Import options.

Definition MAX_WATCHLIST_SIZE : nat := 100.

Record InboundFrame := { f_event : string; f_data : Value; f_channel : option string }.

(** [parse_inbound]: the derived [Deserialize] of [InboundFrame]. *)
Class InboundParser := { parse_inbound : string -> option InboundFrame }.

Abbreviation Conn := (Connection (Application Value)) (only parsing).
Abbreviation Server := (Node WebhookDispatcher) (only parsing).

Section Handlers.
Context `{HI : HashIter} `{WI : Wire} `{SJ : SerdeJson} `{CR : Crypto} `{IP : InboundParser}.
Context (cfg : Config) (base : Z) (overflow : WebhookOverflow).
Implicit Types nd : Server.
Implicit Types conn : Conn.

(** [state.webhooks.enqueue(app.id, event)]. *)
Definition hook nd (app : App) (e : WebhookEvent) (now : Instant) : Server :=
  set_sink nd (enqueue base overflow (nd_sink nd) (app_id app) e now).

(** [let _ = handle.try_send(Outbound::Text(..))]. *)
Definition send_text nd (handle : ConnectionHandle) (frame : string) : Server :=
  set_mbs nd (try_send handle (Text frame) (nd_mbs nd)).2.

Definition broadcast_proto nd (ch : Channel) (frame : string) (except : option SocketId) : Server :=
  set_mbs nd (broadcast_protocol ch frame except (nd_mbs nd)).

(** ** Helpers *)

Definition data_object (data : Value) : gmap string Value :=
  let obj := match data with
             | VString s => default Null (from_str s)
             | _ => data
             end in
  match obj with
  | Object m => foldl (fun out (kv : string * Value) => <[kv.1 := kv.2]> out) ∅ m
  | _ => ∅
  end.

Definition field_str (obj : gmap string Value) (key : string) : option string := obj !! key ≫= as_str.

(** The [user_id] and [id] fields: a string, or a number as it prints. *)
Definition id_text (v : option Value) : option string :=
  match v with
  | Some (VString s) => Some s
  | Some (Number n) => Some n
  | _ => None
  end.

Definition occupied_on_peers nd (id : AppId) (channel : string) (k : ChannelKind) (now : Instant) : bool :=
  if is_presence k
  then match PresenceCache.remote_members_for (presence_cache (nd_view nd)) id channel now with
       | [] => false | _ => true end
  else (0 <? PeerChannelCounts.sum (peer_channel_counts (nd_view nd)) id channel now)%Z.

Definition announce_subscription_count nd (app : App) (ch : Channel) (local_count : nat)
    (vacated_withheld : bool) (now : Instant) : Server :=
  let channel_name := ch_name ch in
  let nd :=
    if emit_subscription_count app then
      let peer_sum := PeerChannelCounts.sum (peer_channel_counts (nd_view nd)) (app_id app) channel_name now in
      let total := wrap_u64 (Z.of_nat local_count + peer_sum) in
      let nd := broadcast_proto nd ch (subscription_count channel_name total) None in
      hook nd app (SubscriptionCount channel_name total) now
    else nd in
  publish_subscription_count cfg nd app channel_name (Z.of_nat local_count) vacated_withheld now.

Definition fanout_watchlist_event nd (id : AppId) (uid event_name : string) : Server :=
  set_mbs nd (send_all (watchers_of (nd_channels nd) id uid ≫= connections_for_user (nd_channels nd) id)
                (Text (watchlist_frame event_name [uid])) (nd_mbs nd)).

Definition merge_one (acc : gmap string Value * gset string) (m : PresenceSnapshotMember)
  : gmap string Value * gset string :=
  match acc.1 !! psm_user_id m with
  | Some _ => acc
  | None => (<[psm_user_id m := default Null (psm_user_info m)]> acc.1, {[psm_user_id m]} ∪ acc.2)
  end.

Definition merge_presence (local : PresenceData) (remote : list PresenceSnapshotMember) : PresenceData :=
  let '(hash, ids) := foldl merge_one (pd_hash local, list_to_set (pd_ids local)) remote in
  let sorted_ids := bt_set ids in
  {| pd_count := length sorted_ids; pd_ids := sorted_ids; pd_hash := hash |}.

(** ** Subscribing *)

(** The effect state of a join: the node, and the two cells [admit] fills. *)
Abbreviation JoinState := (Server * list PresenceSnapshotMember * bool)%type.

Definition join_admit (app : App) (channel : string) (presence : option PresenceMember) (now : Instant)
    (ch : Channel) (e : JoinState) : bool * JoinState :=
  match presence with
  | None => (true, e)
  | Some pm =>
      let '(nd, _, _) := e in
      let cache := presence_cache (nd_view nd) in
      let remote_members := PresenceCache.remote_members_for cache (app_id app) channel now in
      let remotely_present :=
        PresenceCache.is_present_excluding cache (app_id app) channel (user_id pm) None now in
      let e := (nd, remote_members, remotely_present) in
      if has_user_id ch (user_id pm) || remotely_present then (true, e)
      else
        let remote_only : gset string :=
          list_to_set (List.filter (fun id => negb (has_user_id ch id)) (psm_user_id <$> remote_members)) in
        ((Z.of_nat (user_count ch + size remote_only) <? max_presence_members_per_channel app)%Z, e)
  end.

Definition join_effects (app : App) (channel : string) (presence : option PresenceMember)
    (socket_id : SocketId) (occupied_elsewhere : bool) (now : Instant)
    (ch : Channel) (r : SubscribeResult) (e : JoinState) : JoinState :=
  let '(nd, remote_members, remotely_present) := e in
  let nd :=
    if negb (sr_was_new r) then nd
    else
      let nd := if (sr_member_count r =? 1) && negb occupied_elsewhere
                then hook nd app (ChannelOccupied channel) now else nd in
      match presence with
      | None => announce_subscription_count nd app ch (sr_member_count r) false now
      | Some pm =>
          if negb (sr_user_added r) then nd
          else
            let nd :=
              if negb remotely_present then
                let nd := broadcast_proto nd ch (member_added channel (user_id pm) (user_info pm)) (Some socket_id) in
                hook nd app (MemberAdded channel (user_id pm)) now
              else nd in
            publish_member_added cfg nd app channel (user_id pm) (user_info pm) now
      end in
  (nd, remote_members, remotely_present).

(** The presence member a join presents: an error frame, or the member. *)
Definition presence_of_join (app : App) (k : ChannelKind) (channel_data : option string)
  : result (option PresenceMember) string :=
  if is_presence k then
    match channel_data with
    | None => Err (error InvalidMessageFormat)
    | Some cd_str =>
        if (max_presence_member_size_bytes app <? len cd_str)%Z
        then Err (error_with_message 4301 "Presence member data exceeds limit")
        else
          let parsed := default Null (from_str cd_str) in
          match id_text (value_get parsed "user_id") with
          | None => Err (error InvalidMessageFormat)
          | Some uid => Ok (Some {| user_id := uid; user_info := value_get parsed "user_info" |})
          end
    end
  else Ok None.

(** The checks before the join: an error frame, or the channel and the member. *)
Definition check_subscribe (app : App) conn (data : Value)
  : result (string * option PresenceMember) string :=
  let data_obj := data_object data in
  match field_str data_obj "channel" with
  | None => Err (error InvalidMessageFormat)
  | Some channel_name =>
      if (MAX_CHANNEL_NAME_LEN <? len channel_name)%Z then Err (error InvalidMessageFormat)
      else if negb (is_valid_channel_name channel_name) then Err (error InvalidMessageFormat)
      else
        let k := kind channel_name in
        let channel_data := field_str data_obj "channel_data" in
        let authorized :=
          if is_private k then
            match field_str data_obj "auth" with
            | None => false
            | Some auth => is_ok (verify_channel_auth (app_key app) (c_socket_id conn) channel_name
                                    channel_data auth (app_secret app))
            end
          else true in
        if negb authorized then Err (error Unauthorized)
        else if negb (is_subscribed conn channel_name) &&
                (max_channels_per_connection app <=? Z.of_nat (conn_subscription_count conn))%Z
        then Err (error_with_message 4301 "Connection is subscribed to the maximum number of channels")
        else match presence_of_join app k channel_data with
             | Err frame => Err frame
             | Ok presence => Ok (channel_name, presence)
             end
  end.

(** What follows a join on a cache channel: the payload, or a miss. *)
Definition replay_cache nd (app : App) (channel : string) (handle : ConnectionHandle)
    (cached : option string) (now : Instant) : Server :=
  match cached with
  | Some payload => send_text nd handle payload
  | None =>
      let nd :=
        match find_channel (nd_channels nd) (app_id app) channel with
        | None => nd
        | Some ch =>
            let '(notify, ch') := claim_cache_miss_notification ch now in
            let nd := set_manager nd (put_channel (nd_channels nd) (app_id app) channel ch') in
            if (notify : bool) then hook nd app (CacheMiss channel) now else nd
        end in
      send_text nd handle (cache_miss channel)
  end.

Definition handle_subscribe nd (app : App) conn (handle : ConnectionHandle) (data : Value) (now : Instant)
  : option string * Server * Conn :=
  match check_subscribe app conn data with
  | Err frame => (Some frame, nd, conn)
  | Ok (channel_name, presence) =>
      let k := kind channel_name in
      let occupied_elsewhere := occupied_on_peers nd (app_id app) channel_name k now in
      let '(outcome, m, (nd, remote_members, _)) :=
        subscribe_with (nd_channels nd) app channel_name (c_socket_id conn) handle presence
          (join_admit app channel_name presence now)
          (join_effects app channel_name presence (c_socket_id conn) occupied_elsewhere now)
          now (nd, [], false) in
      let nd := set_manager nd m in
      match outcome with
      | None => (Some (error_with_message 4301 "Presence channel is over capacity"), nd, conn)
      | Some outcome =>
          let conn := add_subscription conn channel_name in
          let succeeded :=
            if is_presence k then
              let merged := (fun local => match remote_members with
                                          | [] => local
                                          | _ => merge_presence local remote_members
                                          end) <$> so_presence_snapshot outcome in
              match merged with
              | Some p => subscription_succeeded_with_presence channel_name p
              | None => subscription_succeeded channel_name None
              end
            else subscription_succeeded channel_name None in
          let nd := if is_cache k then replay_cache nd app channel_name handle (so_cached_payload outcome) now
                    else nd in
          (Some succeeded, nd, conn)
      end
  end.

(** ** Leaving *)

Definition leave_effects (app : App) (channel : string) (now : Instant)
    (ch : Channel) (outcome : UnsubscribeOutcome) nd : Server :=
  let k := from_name channel in
  if negb (uo_was_member outcome) then nd
  else
    let vacated_withheld :=
      (uo_member_count outcome =? 0) && occupied_on_peers nd (app_id app) channel k now in
    let nd := if vacated_withheld then note_withheld nd app channel None now
              else if uo_member_count outcome =? 0 then hook nd app (ChannelVacated channel) now
              else nd in
    if negb (is_presence k)
    then announce_subscription_count nd app ch (uo_member_count outcome) vacated_withheld now
    else match uo_user_removed outcome with
         | None => nd
         | Some uid =>
             let still_remotely :=
               PresenceCache.is_present_excluding (presence_cache (nd_view nd)) (app_id app) channel uid None now in
             let nd :=
               if still_remotely then note_withheld nd app channel (Some uid) now
               else
                 let nd := broadcast_proto nd ch (member_removed channel uid) None in
                 hook nd app (MemberRemoved channel uid) now in
             publish_member_removed cfg nd app channel uid still_remotely vacated_withheld now
         end.

Definition leave_channel nd (app : App) (socket_id : SocketId) (channel : string) (now : Instant) : Server :=
  let '(_, m, nd) := unsubscribe_with (nd_channels nd) (app_id app) channel socket_id
                       (leave_effects app channel now) now nd in
  set_manager nd m.

Definition handle_unsubscribe nd (app : App) conn (data : Value) (now : Instant)
  : option string * Server * Conn :=
  match field_str (data_object data) "channel" with
  | None => (None, nd, conn)
  | Some channel_name =>
      (None, leave_channel nd app (c_socket_id conn) channel_name now, remove_subscription conn channel_name)
  end.

(** ** Signing in *)

(** The watchlist of the user data: absent, a list (cut to 100 entries), or malformed. *)
Definition read_watchlist (parsed : Value) : option (option (list string) * bool) :=
  match value_get parsed "watchlist" with
  | None => Some (None, false)
  | Some (Array arr) =>
      Some (Some (omap as_str (firstn MAX_WATCHLIST_SIZE arr)), MAX_WATCHLIST_SIZE <? length arr)
  | Some _ => None
  end.

Definition user_online_anywhere nd (id : AppId) (uid : string) (now : Instant) : bool :=
  is_user_online (nd_channels nd) id uid ||
  PeerUserSessions.is_present_excluding (peer_user_sessions (nd_view nd)) id uid None now.

(** The part under the user's lock. *)
Definition signin_transition nd (app : App) conn (handle : ConnectionHandle) (uid : string)
    (watchlist : option (list string)) (now : Instant) : Server * Conn :=
  let nd := set_manager nd (touch_slot (nd_channels nd) (app_id app)) in
  let was_online_locally := is_user_online (nd_channels nd) (app_id app) uid in
  let was_online_remotely :=
    PeerUserSessions.is_present_excluding (peer_user_sessions (nd_view nd)) (app_id app) uid None now in
  let conn := conn_bind_user conn uid in
  let '(first_local_socket, m) := bind_user (nd_channels nd) (app_id app) uid (c_socket_id conn) in
  let nd := set_manager nd m in
  let '(nd, conn) :=
    match watchlist with
    | None => (nd, conn)
    | Some list =>
        let nd := set_manager nd
                    (foldl (fun m watched => add_watcher m (app_id app) watched uid) (nd_channels nd) list) in
        let online := List.filter (fun u => user_online_anywhere nd (app_id app) u now) list in
        (send_text nd handle (watchlist_frame "online" online), set_watchlist conn list)
    end in
  let nd := if negb was_online_locally && negb was_online_remotely
            then fanout_watchlist_event nd (app_id app) uid "online" else nd in
  (if first_local_socket then publish_user_online cfg nd app uid now else nd, conn).

Definition handle_signin nd (app : App) conn (handle : ConnectionHandle) (data : Value) (now : Instant)
  : option string * Server * Conn :=
  let data_obj := data_object data in
  match field_str data_obj "auth", field_str data_obj "user_data" with
  | Some auth, Some user_data =>
      if negb (is_ok (verify_user_auth (app_key app) (c_socket_id conn) user_data auth (app_secret app)))
      then (Some (error Unauthorized), nd, conn)
      else
        let parsed := default Null (from_str user_data) in
        match id_text (value_get parsed "id") with
        | None => (Some (error InvalidMessageFormat), nd, conn)
        | Some uid =>
            if is_empty_str uid then (Some (error InvalidMessageFormat), nd, conn)
            else match c_user_id conn with
                 | Some existing =>
                     (Some (if String.eqb existing uid then signin_success user_data else error Unauthorized),
                      nd, conn)
                 | None =>
                     match read_watchlist parsed with
                     | None => (Some (error InvalidMessageFormat), nd, conn)
                     | Some (watchlist, truncated) =>
                         let '(nd, conn) := signin_transition nd app conn handle uid watchlist now in
                         let nd :=
                           if (truncated : bool) then
                             send_text nd handle
                               (error_with_message 4302 "Watchlist exceeds 100 users; only the first 100 are watched")
                           else nd in
                         (Some (signin_success user_data), nd, conn)
                     end
                 end
        end
  | _, _ => (Some (error Unauthorized), nd, conn)
  end.

(** ** Client events *)

Definition handle_client_event nd (app : App) conn (event : string) (frame : InboundFrame) (now : Instant)
  : option string * Server :=
  if decide (accept_client_events_from app = AcceptNone) then (Some (error ClientEventsDisabled), nd)
  else match f_channel frame with
  | None => (Some (error InvalidMessageFormat), nd)
  | Some channel_name =>
      let k := from_name channel_name in
      if negb (is_private k) then (Some (error ClientEventsDisabled), nd)
      else match find_channel (nd_channels nd) (app_id app) channel_name with
      | None => (Some (error NotChannelMember), nd)
      | Some channel =>
          if negb (contains channel (c_socket_id conn)) then (Some (error NotChannelMember), nd)
          else
            let data_str := match f_data frame with VString s => s | v => to_string v end in
            let sender_user_id := if is_presence k then presence_user_id channel (c_socket_id conn) else None in
            let encoded := encode_client_event event data_str channel_name sender_user_id in
            let nd := set_mbs nd (broadcast_client_event channel encoded (Some (c_socket_id conn)) (nd_mbs nd)) in
            let nd := publish_client_event cfg nd app channel_name event data_str (c_socket_id conn)
                        sender_user_id now in
            let reported := match sender_user_id with Some u => Some u | None => c_user_id conn end in
            (None, hook nd app (ClientEvent channel_name event data_str (Some (c_socket_id conn)) reported) now)
      end
  end.

(** ** One frame *)

Definition handle_inbound nd (app_by_id : AppId -> option App) (app : App) conn (handle : ConnectionHandle)
    (text : string) (now : Instant) : option string * Server * Conn :=
  let app := default app (app_by_id (app_id app)) in
  match parse_inbound text with
  | None => (Some (error InvalidMessageFormat), nd, conn)
  | Some frame =>
      let event := f_event frame in
      if String.eqb event "pusher:ping" then (Some pong, nd, conn)
      else if String.eqb event "pusher:subscribe" then handle_subscribe nd app conn handle (f_data frame) now
      else if String.eqb event "pusher:unsubscribe" then handle_unsubscribe nd app conn (f_data frame) now
      else if String.eqb event "pusher:signin" then handle_signin nd app conn handle (f_data frame) now
      else if starts_with "client-" event then
        if (MAX_EVENT_NAME_LEN <? len event)%Z then (Some (error InvalidMessageFormat), nd, conn)
        else let '(r, nd) := handle_client_event nd app conn event frame now in (r, nd, conn)
      else (None, nd, conn)
  end.

(** ** Closing *)

Definition cleanup_user nd (app : App) (uid : string) (socket_id : SocketId) (now : Instant) : Server :=
  let nd := set_manager nd (touch_slot (nd_channels nd) (app_id app)) in
  let '(last_socket, m) := unbind_user (nd_channels nd) (app_id app) uid socket_id in
  let nd := set_manager nd m in
  if negb last_socket then nd
  else
    let still_remotely :=
      PeerUserSessions.is_present_excluding (peer_user_sessions (nd_view nd)) (app_id app) uid None now in
    let nd := if negb still_remotely then fanout_watchlist_event nd (app_id app) uid "offline" else nd in
    let nd := publish_user_offline cfg nd app uid now in
    set_manager nd (remove_all_watches_for (nd_channels nd) (app_id app) uid).

Definition cleanup_connection nd (app : App) conn (socket_id : SocketId) (now : Instant) : Server :=
  let nd := foldl (fun nd name => leave_channel nd app socket_id name now) nd (subscriptions_snapshot conn) in
  let nd := match c_user_id conn with
            | Some uid => cleanup_user nd app uid socket_id now
            | None => nd
            end in
  set_manager nd (unregister_connection (nd_channels nd) (app_id app) socket_id).
End Handlers.
