(* ===== verification/Inbound.v ===== *)
(** * zatat-protocol: typed inbound data

    Models [crates/zatat-protocol/src/inbound.rs]: the records of the data of a
    frame and the two ways to read [data], which clients send as an object or as
    the text of one.  The derived deserializers are generated code and a parameter.
    The handlers read the fields themselves ([Handler.data_object]); the lemmas show
    that both readings agree. *)

From S2P Require Import Prelude.
From S2P Require Import Core.
From S2P Require Import Json.
From S2P Require Import Handler.
From stdpp Require Import options.

Record SubscribeData := { sd_channel : string; sd_auth : option string; sd_channel_data : option string }.
Record UnsubscribeData := { ud_channel : string }.
Record SigninData := { si_auth : string; si_user_data : string; si_watchlist : option (list string) }.

(** A derived [Deserialize]: from a value and from JSON text. *)
Class Deserialize (T : Type) := {
  deserialize : Value -> result T string;
  deserialize_str : string -> result T string
}.

Section Loose.
Context `{SJ : SerdeJson}.

Definition parse_data_loose {T} `{DE : Deserialize T} (data : Value) : result T string :=
  match data with
  | VString s => deserialize_str s
  | _ => deserialize data
  end.

Definition data_as_value (data : Value) : Value :=
  match data with
  | VString s => default (VString s) (from_str s)
  | _ => data
  end.

(** The fields of a value, as a map. *)
Definition fields (v : Value) : gmap string Value :=
  match v with
  | Object m => foldl (fun out (kv : string * Value) => <[kv.1 := kv.2]> out) ∅ m
  | _ => ∅
  end.

(** The handlers see the fields of what [data_as_value] reads. *)
Theorem data_read_alike data : data_object data = fields (data_as_value data).
Proof. destruct data as [| | |s| |]; try reflexivity. unfold data_object, data_as_value. by destruct (from_str s). Qed.

(** Reading typed data loosely is reading the value; a struct is never read from a bare
    string, and reading text is reading the value it denotes. *)
Theorem loose_reads_value {T} `{DE : Deserialize T} data x :
  (forall s v, from_str s = Some v -> deserialize_str s = Ok x <-> deserialize v = Ok x) ->
  (forall s, from_str s = None -> deserialize_str s <> Ok x) -> (forall s, deserialize (VString s) <> Ok x) ->
  parse_data_loose data = Ok x <-> deserialize (data_as_value data) = Ok x.
Proof.
  intros Hv Hn Hs. destruct data as [| | |s| |]; try reflexivity. simpl. destruct (from_str s) as [v|] eqn:E; simpl; [by apply Hv|].
  split; intros H; [by destruct (Hn s E)|by destruct (Hs s)].
Qed.
End Loose.

(** The data of a join, read as the derived code reads an object. *)
Definition string_field (v : Value) (name : string) : result string string :=
  match value_get v name with
  | Some (VString s) => Ok s
  | _ => Err "expected a string"
  end.
Definition optional_field (v : Value) (name : string) : result (option string) string :=
  match value_get v name with
  | Some (VString s) => Ok (Some s)
  | Some Null | None => Ok None
  | _ => Err "expected a string"
  end.

Section Example.
#[local] Instance text_json : SerdeJson :=
  {| from_str := fun s => if String.eqb s "x" then Some (Object [("channel", VString "x"); ("auth", VString "k:abc")]) else None;
     to_string := fun _ => EmptyString |}.

Definition subscribe_fields (v : Value) : result SubscribeData string :=
  (let? c := string_field v "channel" in let? a := optional_field v "auth" in
   let? d := optional_field v "channel_data" in Ok {| sd_channel := c; sd_auth := a; sd_channel_data := d |})%zatat.

#[local] Instance subscribe_data : Deserialize SubscribeData :=
  {| deserialize := subscribe_fields;
     deserialize_str := fun s => match from_str s with Some v => subscribe_fields v | None => Err "expected value" end |}.

(** The two forms of the same data, as the unit tests read them. *)
Lemma loose_reads_value_witness :
  parse_data_loose (VString "x") = Ok {| sd_channel := "x"; sd_auth := Some "k:abc"; sd_channel_data := None |}.
Proof.
  apply loose_reads_value; [| |discriminate|reflexivity].
  - intros s v H. cbn [deserialize deserialize_str subscribe_data]. rewrite H. reflexivity.
  - intros s H. cbn [deserialize_str subscribe_data]. rewrite H. discriminate.
Defined.
End Example.
