(* ===== verification/Tasks.v ===== *)
(** * zatat-ws: the background tasks

    Models [crates/zatat-ws/src/tasks.rs]: the connection tracker and its
    maintenance, the periodic snapshots a node sends its peers, the sweep of
    peers that fell silent, and what a reload of the applications closes.  One
    turn of each task is a function on the state of the server: its node, its
    open connections and its table of applications. *)

From S2P Require Import Prelude.
From S2P Require Import Core.
From S2P Require Import Json.
From S2P Require Import Envelope.
From S2P Require Import Connection.
From S2P Require Import Channel.
From S2P Require Import Manager.
From S2P Require Import Apps.
From S2P Require Import Router.
From S2P Require Import Message.
From S2P Require Import PeerState.
From S2P Require Import Bus.
From S2P Require Import Dispatcher.
From S2P Require Import Webhooks.
From S2P Require Import Handler.
From stdpp Require Import options.

(** An open connection, as its task and the tracker hold it. *)
Record Task := {
  k_app : App;
  k_conn : Conn;
  k_handle : ConnectionHandle;
  k_limiter : option RateLimiter;
  k_terminate_on_limit : bool
}.

Definition set_task_conn (k : Task) (c : Conn) : Task :=
  {| k_app := k_app k; k_conn := c; k_handle := k_handle k; k_limiter := k_limiter k;
     k_terminate_on_limit := k_terminate_on_limit k |}.
Definition set_task_limiter (k : Task) rl : Task :=
  {| k_app := k_app k; k_conn := k_conn k; k_handle := k_handle k; k_limiter := rl;
     k_terminate_on_limit := k_terminate_on_limit k |}.

Record System := {
  sys_node : Server;
  sys_tasks : gmap string Task;
  sys_apps : AppIndex
}.

(** The same applications, with another node state and other connections. *)
Definition put (sys : System) (nd : Server) (tasks : gmap string Task) : System :=
  {| sys_node := nd; sys_tasks := tasks; sys_apps := sys_apps sys |}.

Section Tasks.
Context `{HI : HashIter} `{WI : Wire} `{SJ : SerdeJson}.
Context (cfg : Config) (base : Z) (overflow : WebhookOverflow).
Implicit Types nd : Server.

(** ** Maintenance of the connections *)

(** One entry of [tracker.for_each]. *)
Definition maintain_one (now_seconds : Z) (acc : Mailboxes * gmap string Task) (e : string * Task)
  : Mailboxes * gmap string Task :=
  let '(mbs, tasks) := acc in
  let '(s, k) := e in
  if is_closed (k_handle k) mbs then acc
  else if is_stale (k_conn k) now_seconds
  then ((try_send (k_handle k) (Close 4201 "Pong reply not received in time") mbs).2, tasks)
  else if is_inactive (k_conn k) now_seconds
  then ((try_send (k_handle k) Ping mbs).2, <[s := set_task_conn k (mark_pinged (k_conn k))]> tasks)
  else acc.

Definition connection_maintenance (sys : System) (now : Instant) (now_seconds : Z) : System :=
  let '(mbs, tasks) := foldl (maintain_one now_seconds) (nd_mbs (sys_node sys), sys_tasks sys)
                         (hiter (sys_tasks sys)) in
  let m := (gc_empty_cache_channels (nd_channels (sys_node sys)) now).2 in
  put sys (set_local (sys_node sys) m mbs) tasks.

(** ** Snapshots for the peers *)

Definition node_next_seq nd : Z * Server :=
  let '(n, b) := next_seq (nd_bus nd) in (n, set_bus nd b).

Definition snapshot_members (local : PresenceData) : list PresenceSnapshotMember :=
  (fun e : string * Value => {| psm_user_id := e.1;
                                psm_user_info := if is_null e.2 then None else Some e.2 |})
    <$> bt_iter (pd_hash local).

(** One channel: a roster is published at once, a count is collected. *)
Definition snapshot_channel (app : App) (now : Instant) (acc : Server * list ChannelCount) (ch : Channel)
  : Server * list ChannelCount :=
  let '(nd, counts) := acc in
  if is_presence (ch_kind ch) then
    let '(seq, nd) := node_next_seq nd in
    match presence_snapshot ch with
    | None => (nd, counts)
    | Some local =>
        if (pd_count local =? 0)%nat then (nd, counts)
        else (publish_presence_snapshot cfg nd app (ch_name ch) (snapshot_members local) seq now, counts)
    end
  else if (0 <? ch_len ch)%nat
  then (nd, counts ++ [{| cc_channel := ch_name ch; cc_count := Z.of_nat (ch_len ch) |}])
  else (nd, counts).

Definition publish_snapshots_for_app nd (app : App) (now : Instant) : Server :=
  let '(counts_seq, nd) := node_next_seq nd in
  let '(nd, channel_counts) :=
    foldl (snapshot_channel app now) (nd, []) (all_channels (nd_channels nd) (app_id app)) in
  let nd := publish_channel_count_snapshot cfg nd app channel_counts counts_seq now in
  let '(sessions_seq, nd) := node_next_seq nd in
  publish_user_session_snapshot cfg nd app (local_user_ids (nd_channels nd) (app_id app)) sessions_seq now.

(** One turn of the publisher: every application of the table. *)
Definition presence_snapshot_publisher nd (apps : AppIndex) (now : Instant) : Server :=
  foldl (fun nd app => publish_snapshots_for_app nd app now) nd (hvalues (by_id apps)).

(** ** Peers that fell silent *)

(** A user a silent peer held: under the channel's lock the local subscribers
    are told if the user is gone; the fleet's leader reports it. *)
Definition expire_member (apps : AppIndex) (now : Instant) nd (e : PresenceCache.ExpiredMember) : Server :=
  match app_by_id apps (PresenceCache.em_app_id e) with
  | None => nd
  | Some app =>
      let channel := PresenceCache.em_channel e in
      let uid := PresenceCache.em_user_id e in
      match find_channel (nd_channels nd) (app_id app) channel with
      | None => nd
      | Some ch =>
          let remaining := PresenceCache.remote_members_for (presence_cache (nd_view nd))
                             (PresenceCache.em_app_id e) channel now in
          let still_remotely := existsb (fun m => String.eqb (psm_user_id m) uid) remaining in
          if still_remotely || has_user_id ch uid then nd
          else
            let nd := broadcast_proto nd ch (member_removed channel uid) None in
            let empty := is_empty ch && match remaining with [] => true | _ => false end in
            if is_fleet_leader cfg (nd_view nd) now then
              let nd := hook base overflow nd app (MemberRemoved channel uid) now in
              if empty then hook base overflow nd app (ChannelVacated channel) now else nd
            else nd
      end
  end.

(** The count a silent peer had reported for a channel. *)
Definition expire_count (apps : AppIndex) (now : Instant) nd (e : string * string * string * Z) : Server :=
  let '(id, channel, _, stale_count) := e in
  match app_by_id apps id with
  | None => nd
  | Some app =>
      let local := find_channel (nd_channels nd) (app_id app) channel in
      let nd :=
        if (0 <? stale_count)%Z && locally_empty local &&
           (PeerChannelCounts.sum (peer_channel_counts (nd_view nd)) id channel now =? 0)%Z &&
           is_fleet_leader cfg (nd_view nd) now
        then hook base overflow nd app (ChannelVacated channel) now else nd in
      match local with
      | None => nd
      | Some ch =>
          if is_presence (ch_kind ch) || negb (emit_subscription_count app) then nd
          else broadcast_proto nd ch
                 (subscription_count channel (fleet_total (nd_view nd) id channel ch now)) None
      end
  end.

(** A user a silent peer had signed in. *)
Definition expire_session (apps : AppIndex) (now : Instant) nd (e : string * string * string) : Server :=
  let '(id, _, uid) := e in
  match app_by_id apps id with
  | None => nd
  | Some app =>
      let nd := set_manager nd (touch_slot (nd_channels nd) (app_id app)) in
      let still_locally := is_user_online (nd_channels nd) (app_id app) uid in
      let still_remotely :=
        PeerUserSessions.is_present_excluding (peer_user_sessions (nd_view nd)) id uid None now in
      if still_locally || still_remotely then nd
      else match watchers_of (nd_channels nd) (app_id app) uid with
           | [] => nd
           | watchers =>
               set_mbs nd (send_all (watchers ≫= connections_for_user (nd_channels nd) (app_id app))
                             (Text (watchlist_frame "offline" [uid])) (nd_mbs nd))
           end
  end.

(** One turn of the sweep, in its three parts. *)
Definition presence_cache_gc nd (apps : AppIndex) (now : Instant) : Server :=
  let '(expired, t) := PresenceCache.gc_expired (presence_cache (nd_view nd)) now in
  let nd := set_view nd (set_cache_view (nd_view nd) t) in
  let nd := foldl (expire_member apps now) nd expired in
  let '(expired_counts, t) := PeerChannelCounts.gc_expired (peer_channel_counts (nd_view nd)) now in
  let nd := set_view nd (set_counts_view (nd_view nd) t) in
  let nd := foldl (expire_count apps now) nd expired_counts in
  let '(expired_sessions, t) := PeerUserSessions.gc_expired (peer_user_sessions (nd_view nd)) now in
  let nd := set_view nd (set_sessions_view (nd_view nd) t) in
  let nd := foldl (expire_session apps now) nd expired_sessions in
  set_view nd (gc_peer_sequences (nd_view nd) now).
End Tasks.

(** ** Reloading the applications *)

Section Reloading.
Context `{HI : HashIter} `{GL : GlobLib} `{FG : Figment}.

Definition revoke_app (m : Manager) (mbs : Mailboxes) (id : AppId) : Mailboxes :=
  send_all (connection_handles m id) (Close 4001 "Application no longer exists for this key") mbs.

(** One tracked connection of an application whose origins changed. *)
Definition recheck_origin (app : App) (id : AppId) (mbs : Mailboxes) (e : string * Task) : Mailboxes :=
  let k := e.2 in
  if is_closed (k_handle k) mbs then mbs
  else if negb (String.eqb (app_id (c_app (k_conn k))) id) then mbs
  else if origin_blocked app (c_origin (k_conn k))
  then (try_send (k_handle k) (Close 4009 "Origin is no longer allowed for this application") mbs).2
  else mbs.

Definition recheck_app (idx : AppIndex) (tasks : gmap string Task) (mbs : Mailboxes) (id : AppId) : Mailboxes :=
  match app_by_id idx id with
  | None => mbs
  | Some app => foldl (recheck_origin app id) mbs (hiter tasks)
  end.

Definition apply_apps_reload (sys : System) (reload : AppsReload) : System :=
  let nd := sys_node sys in
  let mbs := foldl (revoke_app (nd_channels nd)) (nd_mbs nd) (revoked reload) in
  let mbs := foldl (recheck_app (sys_apps sys) (sys_tasks sys)) mbs (origins_changed reload) in
  put sys (set_mbs nd mbs) (sys_tasks sys).

(** A reload of the configuration file: the table is replaced, then the
    connections it invalidated are told to close. *)
Definition reload_step (sys : System) (raws : result (list RawApp) ConfigError) : System :=
  match reload_apps_with (sys_apps sys) raws with
  | (Err _, _) => sys
  | (Ok reload, next) =>
      apply_apps_reload {| sys_node := sys_node sys; sys_tasks := sys_tasks sys; sys_apps := next |} reload
  end.
End Reloading.
