(* ===== verification/System.v ===== *)
(** * zatat-ws: connections in the server

    Models [run_connection] of [crates/zatat-ws/src/handler.rs] and the
    connection tracker and maintenance task of [crates/zatat-ws/src/tasks.rs]:
    a server is its node's state and the open connections.  Each turn of a
    connection's loop, each turn of the maintenance task and each message of
    the scaling bus is a step; the steps may come in any order. *)

From S2P Require Import Prelude.
From S2P Require Import Core.
From S2P Require Import Json.
From S2P Require Import Envelope.
From S2P Require Import Auth.
From S2P Require Import Connection.
From S2P Require Import Channel.
From S2P Require Import Manager.
From S2P Require Import Message.
From S2P Require Import PeerState.
From S2P Require Import Encryption.
From S2P Require Import Bus.
From S2P Require Import Dispatcher.
From S2P Require Import Webhooks.
From S2P Require Import Routes.
From S2P Require Import Handler.
From S2P Require Import Apps.
From S2P Require Import Router.
From S2P Require Import Tasks.
From stdpp Require Import options.

Definition OUTBOUND_CAPACITY : nat := 4096.

(** A frame of the web socket: [WsOther] are pings, pongs and binary frames. *)
Inductive WsFrame := WsText (text : string) | WsOther | WsClose.

Section Steps.
Context `{HI : HashIter} `{WI : Wire} `{SJ : SerdeJson} `{CR : Crypto} `{IP : InboundParser}.
Context (cfg : Config) (base : Z) (overflow : WebhookOverflow).

(** The start of [run_connection]: the frames written, and the connection if
    it stays open.  [sent] tells whether the greeting could be written.  The source
    registers the connection before it writes the greeting; the write, which is
    awaited, is part of this step. *)
Definition open_connection (sys : System) (app : App) (socket_id : SocketId) (tx : nat)
    (origin : option string) (sent : bool) (now_seconds : Z) : list string * System :=
  let nd := sys_node sys in
  let conn := Connection_new app socket_id origin now_seconds in
  let handle := {| h_socket_id := socket_id; h_tx := tx |} in
  let '(r, m) := register_connection (nd_channels nd) app handle in
  match r with
  | Err _ => ([error_with_message 4004 (message OverConnectionQuota)],
              put sys (set_manager nd m) (sys_tasks sys))
  | Ok _ =>
      let established := connection_established socket_id (activity_timeout app) in
      if negb sent then
        ([established], put sys (set_manager nd (unregister_connection m (app_id app) socket_id))
                          (sys_tasks sys))
      else
        let mailbox := {| mb_queue := []; mb_capacity := OUTBOUND_CAPACITY; mb_closed := false; mb_kicked := false |} in
        let limiter := match rate_limiting app with
                       | Some r => if enabled r then Some (RateLimiter_new (max_attempts r) (decay_seconds r)) else None
                       | None => None
                       end in
        let task := {| k_app := app; k_conn := conn; k_handle := handle; k_limiter := limiter;
                       k_terminate_on_limit := match rate_limiting app with
                                               | Some r => terminate_on_limit r | None => false end |} in
        ([established],
         put sys (set_local nd m (<[tx := mailbox]> (nd_mbs nd))) (<[socket_id := task]> (sys_tasks sys)))
  end.

(** One inbound frame: what is written back, and whether the loop ends. *)
Definition on_frame (nd : Server) (apps : AppIndex) (k : Task) (frame : WsFrame)
    (lo now : Instant) (now_seconds : Z) : option string * bool * Server * Task :=
  match frame with
  | WsClose => (None, true, nd, k)
  | _ =>
      let k := set_task_conn k (touch (k_conn k) now_seconds) in
      let '(allowed, k) := match k_limiter k with
                           | Some rl => let '(ok, rl') := check lo rl now in (ok, set_task_limiter k (Some rl'))
                           | None => (true, k)
                           end in
      if negb allowed then (Some (error RateLimitExceeded), k_terminate_on_limit k, nd, k)
      else match frame with
           | WsText text =>
               if (max_message_size (k_app k) <? len text)%Z
               then (Some (error InvalidMessageFormat), false, nd, k)
               else let '(r, nd, c) := handle_inbound cfg base overflow nd (app_by_id apps) (k_app k) (k_conn k)
                                         (k_handle k) text now in
                    (r, false, nd, set_task_conn k c)
           | _ => (None, false, nd, k)
           end
  end.

(** Dropping the receiving end of the outbound queue. *)
Definition close_mailbox (mb : Mailbox) : Mailbox :=
  {| mb_queue := []; mb_capacity := mb_capacity mb; mb_closed := true; mb_kicked := mb_kicked mb |}.

(** The end of [run_connection]. *)
Definition close_connection (sys : System) (s : SocketId) (now : Instant) : System :=
  match sys_tasks sys !! s with
  | None => sys
  | Some k =>
      let nd := cleanup_connection cfg base overflow (sys_node sys) (k_app k) (k_conn k) s now in
      put sys (set_mbs nd (alter close_mailbox (h_tx (k_handle k)) (nd_mbs nd))) (delete s (sys_tasks sys))
  end.

(** One inbound frame of connection [s]; the connection is closed when the loop ends. *)
Definition frame_step (sys : System) (s : SocketId) (frame : WsFrame)
    (lo now : Instant) (now_seconds : Z) : option string * System :=
  match sys_tasks sys !! s with
  | None => (None, sys)
  | Some k =>
      let '(r, stop, nd, k) := on_frame (sys_node sys) (sys_apps sys) k frame lo now now_seconds in
      let sys := put sys nd (<[s := k]> (sys_tasks sys)) in
      (r, if (stop : bool) then close_connection sys s now else sys)
  end.

(** Taking one queued message: the text written, and whether the loop ends. *)
Definition on_outbound (nd : Server) (k : Task) : option string * bool * Server :=
  match nd_mbs nd !! h_tx (k_handle k) with
  | None => (None, false, nd)
  | Some mb =>
      match mb_queue mb with
      | [] => (None, false, nd)
      | msg :: rest =>
          let nd := set_mbs nd (<[h_tx (k_handle k) :=
                      {| mb_queue := rest; mb_capacity := mb_capacity mb; mb_closed := mb_closed mb;
                         mb_kicked := mb_kicked mb |}]> (nd_mbs nd)) in
          match msg with
          | Text t => (Some t, false, nd)
          | Ping => (Some ping, false, nd)
          | Close c reason => (Some (error_with_message c reason), true, nd)
          end
      end
  end.

(** ** Histories of the server *)

Context `{GL : GlobLib} `{FG : Figment} `{SB : SecretBox} `{BP : BodyParser} (prefix : string).

(** What a node does on behalf of its clients, of the HTTP API and of its own
    timers.  A new connection has a socket id no open connection has and a channel of
    its own; the socket ids are random. *)
Inductive own_step : System -> System -> Prop :=
| own_open sys app s tx origin sent secs :
    sys_tasks sys !! s = None -> handle_for_socket (nd_channels (sys_node sys)) (app_id app) s = None ->
    (forall s' k, sys_tasks sys !! s' = Some k -> h_tx (k_handle k) <> tx) ->
    own_step sys (open_connection sys app s tx origin sent secs).2
| own_frame sys s frame lo now secs :
    own_step sys (frame_step sys s frame lo now secs).2
| own_outbound sys s k :
    sys_tasks sys !! s = Some k ->
    own_step sys (put sys (on_outbound (sys_node sys) k).2 (sys_tasks sys))
| own_close sys s now : own_step sys (close_connection sys s now)
| own_maintain sys now secs : own_step sys (connection_maintenance sys now secs)
| own_snapshots sys now :
    own_step sys (put sys (presence_snapshot_publisher cfg (sys_node sys) (sys_apps sys) now) (sys_tasks sys))
| own_reload sys raws : own_step sys (reload_step sys raws)
| own_api sys method uri segments read nonces batch_nonces request_id now secs :
    own_step sys (put sys (serve cfg prefix (sys_node sys) (sys_apps sys) method uri segments read nonces batch_nonces
                             request_id now secs).2 (sys_tasks sys))
| own_collect sys request_id expected :
    own_step sys (put sys (ask_fleet_finish (sys_node sys) request_id expected).2 (sys_tasks sys))
| own_listing sys app merged remote rq now :
    own_step sys (put sys (list_channels_finish (sys_node sys) app merged remote rq now).2 (sys_tasks sys)).

(** Those steps, the messages of the peers, the sweep of silent peers, and the turns
    of the tasks behind the publish queue. *)
Inductive sys_step : System -> System -> Prop :=
| sys_own sys sys' : own_step sys sys' -> sys_step sys sys'
| sys_bus sys env now :
    sys_step sys (put sys (handle_incoming cfg (Some (transition_sink base overflow)) (sys_node sys) env
                             (app_by_id (sys_apps sys)) now) (sys_tasks sys))
| sys_sweep sys now :
    sys_step sys (put sys (presence_cache_gc cfg base overflow (sys_node sys) (sys_apps sys) now) (sys_tasks sys))
| sys_worker sys op :
    op ∈ [Forward; Take; Mark; Finish] ->
    sys_step sys (put sys (set_bus (sys_node sys) (bus_step (publish_overflow cfg) op (nd_bus (sys_node sys)))) (sys_tasks sys)).

Definition sys_start (idx : AppIndex) : System :=
  {| sys_node := dispatcher_new cfg ∅ ∅ (webhooks_new overflow); sys_tasks := ∅; sys_apps := idx |}.

Inductive sys_reachable : System -> Prop :=
| sys_init raws idx : build_app_index raws = Ok idx -> sys_reachable (sys_start idx)
| sys_next sys sys' : sys_reachable sys -> sys_step sys sys' -> sys_reachable sys'.
End Steps.

(** ** Who is connected, subscribed and signed in

    Two managers agree ([same_roster]) when they have the same members in every
    channel and the same connections, users and watchlists; what they cache may
    differ. *)

Definition same_roster (m m' : Manager) : Prop :=
  (forall id n, seats m' id n = seats m id n) /\
  (forall id, other_state (app_slot m' id) = other_state (app_slot m id)).

#[export] Instance same_roster_equiv : Equivalence same_roster.
Proof.
  split.
  - by intros m.
  - intros m m' [H1 H2]. split; [intros; by rewrite H1|by intros; rewrite H2].
  - intros m1 m2 m3 [H1 H2] [H3 H4]. split; [intros; by rewrite H3, H1|intros; by rewrite H4, H2].
Qed.

#[export] Instance member_proper :
  Proper (same_roster ==> eq ==> eq ==> eq ==> iff) member.
Proof. intros m m' [H _] id ? <- n ? <- s ? <-. by rewrite !member_seats, H. Qed.

Lemma same_slot m id slot :
  other_state slot = other_state (app_slot m id) ->
  (forall n, chans_seats (channels slot) n = chans_seats (channels (app_slot m id)) n) ->
  same_roster m (<[id := slot]> m).
Proof.
  intros Ho Hc. split.
  - intros id' n. rewrite seats_insert. case_decide as Hd; [|done]. subst. apply Hc.
  - intros id'. unfold app_slot at 1. destruct (decide (id' = id)) as [->|].
    + by rewrite lookup_insert_eq.
    + by rewrite lookup_insert_ne.
Qed.

Lemma touch_slot_same m id : same_roster m (touch_slot m id).
Proof. by apply same_slot. Qed.

Lemma put_channel_same m id name ch ch' :
  find_channel m id name = Some ch -> ch_members ch' = ch_members ch ->
  same_roster m (put_channel m id name ch').
Proof.
  unfold put_channel. rewrite find_channel_slot. unfold app_slot.
  destruct (m !! id) as [slot|] eqn:E; simpl; [|done]. intros Hf Hm.
  apply same_slot; unfold app_slot; rewrite E; [done|]. simpl. intros n.
  rewrite chans_seats_insert. case_decide as Hd; [|done]. subst.
  unfold chans_seats. by rewrite Hf, Hm.
Qed.

Lemma get_or_create_same m app name : same_roster m (get_or_create_cache_channel m app name).2.
Proof.
  unfold get_or_create_cache_channel. destruct (is_cache _); simpl; [|done].
  apply same_slot; [done|]. simpl. intros n. rewrite chans_seats_insert. case_decide as Hd; [|done].
  subst. apply default_channel_seats.
Qed.

Section Rosters.
Context `{HI : HashIter}.

Lemma gc_slot_seats chans now n : chans_seats (gc_slot chans now).2 n = chans_seats chans n.
Proof.
  unfold gc_slot. generalize ((List.filter (fun e : string * Channel => is_cache (ch_kind e.2)) (hiter chans)).*1).
  intros names. generalize 0. revert chans.
  induction names as [|x names IH]; intros chans k; simpl; [done|].
  pose proof (chans_seats_idle chans x now n) as H.
  destruct (remove_if_idle chans x now) as [b cs]. simpl in H. by rewrite IH.
Qed.

Lemma gc_same m now : same_roster m (gc_empty_cache_channels m now).2.
Proof.
  unfold gc_empty_cache_channels. generalize (hkeys m). intros ids. generalize 0. revert m.
  induction ids as [|id ids IH]; intros m k; simpl; [done|].
  destruct (m !! id) as [slot|] eqn:E; [|by apply IH].
  pose proof (gc_slot_seats (channels slot) now) as H.
  destruct (gc_slot (channels slot) now) as [j cs]. simpl in H.
  etrans; [|apply IH]. apply same_slot; unfold app_slot; by rewrite E.
Qed.

(** What a broadcast does to the manager. *)
Lemma broadcast_locally_same {W} (nd : Node W) app channel event data ex now :
  manager_wf (nd_channels nd) ->
  same_roster (nd_channels nd)
    (nd_channels (broadcast_locally_with_app nd (app_id app) (Some app) channel event data ex now)).
Proof.
  intros H. unfold broadcast_locally_with_app. destruct (strip_prefix _ channel); [done|].
  pose proof (get_or_create_same (nd_channels nd) app channel) as Hs.
  assert (forall m c, same_roster (nd_channels nd) m -> find_channel m (app_id app) channel = Some c ->
    same_roster (nd_channels nd) (nd_channels (let '(c', mbs) := broadcast c
       (encode_envelope_raw_data event (Some data) (Some channel)) ex now (nd_mbs nd) in
       set_local nd (put_channel m (app_id app) channel c') mbs))) as Hput.
  { intros m c Hm Hf.
    pose proof (broadcast_frame c (encode_envelope_raw_data event (Some data) (Some channel)) ex now (nd_mbs nd))
      as (_ & _ & Hc).
    destruct (broadcast _ _ _ _ _) as [c' mbs]. simpl in *. etrans; [exact Hm|]. by eapply put_channel_same. }
  destruct (get_or_create_cache_channel (nd_channels nd) app channel) as [o m] eqn:Eg. simpl in Hs.
  assert (o = find_channel m (app_id app) channel) as Ho.
  { unfold get_or_create_cache_channel in Eg. destruct (is_cache _); simpl in Eg; injection Eg as <- <-; [|done].
    rewrite find_channel_insert. simpl. by rewrite lookup_insert_eq. }
  rewrite <- Ho. destruct o as [c|]; [|done]. by apply Hput.
Qed.
End Rosters.

Section BusRosters.
Context `{HI : HashIter} `{WI : Wire} `{SJ : SerdeJson} (cfg : Config) {W : Type}.
Context (sink : option (App -> FleetTransition -> Instant -> W -> W)).
Implicit Types nd : Node W.

Lemma find_put_channel m id name ch ch0 n :
  find_channel m id name = Some ch0 ->
  find_channel (put_channel m id name ch) id n = if decide (n = name) then Some ch else find_channel m id n.
Proof.
  unfold find_channel, put_channel. destruct (m !! id) as [slot|] eqn:E; [|done]. intros _.
  rewrite lookup_insert_eq. simpl. case_decide as Hd; [subst; by rewrite lookup_insert_eq|].
  by rewrite lookup_insert_ne.
Qed.

Lemma metrics_fold_same id now chs acc :
  (forall ch, ch ∈ chs -> exists c, find_channel acc.2 id (ch_name ch) = Some c /\ ch_members c = ch_members ch) ->
  same_roster acc.2 (foldl (channel_metric id now) acc chs).2.
Proof.
  revert acc. induction chs as [|ch chs IH]; intros acc H; simpl; [done|].
  destruct (H ch (list_elem_of_here _ _)) as (c & Hf & Hm).
  pose proof (stats_frame ch now) as (_ & _ & Hst).
  assert (same_roster acc.2 (channel_metric id now acc ch).2) as Hs.
  { unfold channel_metric. destruct (stats ch now) as [st ch']. simpl in *.
    apply (put_channel_same _ _ _ c); [done|congruence]. }
  etrans; [exact Hs|]. apply IH. intros ch2 Hin.
  destruct (H ch2 (list_elem_of_further _ _ _ Hin)) as (c2 & Hf2 & Hm2).
  unfold channel_metric. destruct (stats ch now) as [st ch']. simpl in *.
  rewrite (find_put_channel _ _ _ _ c) by done. case_decide as Hd; [|eauto].
  exists ch'. split; [done|]. rewrite Hd in Hf2. congruence.
Qed.

(** The roster is as it was, and no news of a presence channel was queued. *)
Definition keeps nd nd' : Prop :=
  same_roster (nd_channels nd) (nd_channels nd') /\
  bus_quiet (publish_overflow cfg) (nd_bus nd) (nd_bus nd').

Lemma keeps_eq nd nd' : nd_channels nd' = nd_channels nd -> nd_bus nd' = nd_bus nd -> keeps nd nd'.
Proof. unfold keeps. by intros -> ->. Qed.

Lemma keeps_manager nd nd' :
  same_roster (nd_channels nd) (nd_channels nd') -> nd_bus nd' = nd_bus nd -> keeps nd nd'.
Proof. unfold keeps. by intros ? ->. Qed.

Lemma keeps_trans nd1 nd2 nd3 : keeps nd1 nd2 -> keeps nd2 nd3 -> keeps nd1 nd3.
Proof. intros [H1 H2] [H3 H4]. split; by etrans. Qed.

Lemma foldl_keeps {B} (f : Node W -> B -> Node W) l nd :
  (forall nd x, keeps nd (f nd x)) -> keeps nd (foldl f nd l).
Proof.
  intros Hf. revert nd. induction l as [|x l IH]; intros nd; simpl; [by apply keeps_eq|].
  eapply keeps_trans; [apply Hf|apply IH].
Qed.

Lemma watchlist_event_channels nd id uid ev : nd_channels (emit_local_watchlist_event nd id uid ev) = nd_channels nd.
Proof. unfold emit_local_watchlist_event. by destruct (watchers_of _ _ _). Qed.

Lemma watchlist_event_bus nd id uid ev : nd_bus (emit_local_watchlist_event nd id uid ev) = nd_bus nd.
Proof. unfold emit_local_watchlist_event. by destruct (watchers_of _ _ _). Qed.

Lemma node_accept_channels nd node app key seq now :
  nd_channels (node_accept nd node app key seq now).2 = nd_channels nd.
Proof. unfold node_accept. by destruct (accept_seq _ _ _ _ _ _). Qed.

Lemma node_accept_keeps nd node app key seq now : keeps nd (node_accept nd node app key seq now).2.
Proof. unfold node_accept. destruct (accept_seq _ _ _ _ _ _). by apply keeps_eq. Qed.

Lemma to_local_keeps nd local frame : keeps nd (to_local nd local frame).
Proof. destruct local; by apply keeps_eq. Qed.

Lemma set_view_keeps nd v : keeps nd (set_view nd v).
Proof. by apply keeps_eq. Qed.

Lemma claim_report_keeps nd app channel uid tr now :
  keeps nd (let '(claimed, nd) := claim_withheld nd app channel uid now in
            if claimed : bool then report_transition sink nd app tr now else nd).
Proof.
  apply keeps_eq; [apply claim_report_channels|]. unfold claim_withheld, report_transition.
  destruct (nd_withheld nd !! _); [|done]. destruct (_ <? _)%Z; [|done]. by destruct sink.
Qed.

Lemma publish_env_keeps nd env now : news_of (payload env) = None -> keeps nd (publish_env cfg nd env now).
Proof. intros H. split; [done|]. by apply publish_quiet. Qed.

Lemma user_update_keeps nd app origin uid now :
  keeps nd (apply_remote_user_online nd app origin uid now) /\
  keeps nd (apply_remote_user_offline nd app origin uid now).
Proof.
  unfold apply_remote_user_online, apply_remote_user_offline. cbv zeta.
  split; case_ifs; apply keeps_manager; rewrite ?watchlist_event_channels, ?watchlist_event_bus;
    done || apply touch_slot_same.
Qed.

Lemma respond_keeps nd app req query now :
  manager_wf (nd_channels nd) -> keeps nd (respond_to_metrics_request cfg nd app req query now).
Proof.
  intros H. unfold respond_to_metrics_request.
  match goal with |- context [foldl ?f ?a ?l] =>
    pose proof (metrics_fold_same (app_id app) now l a) as Hf; destruct (foldl f a l) as [metrics m] end.
  simpl in *. apply (keeps_trans _ (set_manager nd m)); [apply keeps_manager; [|done]|by apply publish_env_keeps].
  apply Hf. intros ch Hin. exists ch. split; [|done].
  apply list_elem_of_In, List.filter_In in Hin as [Hin _]. apply list_elem_of_In in Hin.
  destruct (connections_only query); [set_solver|]. unfold all_channels in Hin. unfold find_channel.
  destruct (nd_channels nd !! app_id app) as [slot|] eqn:E; [|set_solver].
  apply elem_of_hvalues in Hin as [name Hl]. simpl.
  destruct (slot_channels _ (H _ _ E) _ _ Hl) as [[-> _] _]. done.
Qed.

Lemma snapshot_keeps nd app node channel ms seq now :
  keeps nd (apply_remote_presence_snapshot nd app node channel ms seq now).
Proof.
  unfold apply_remote_presence_snapshot.
  pose proof (node_accept_keeps nd node app ("p:" +:+ channel) seq now) as Hn.
  destruct (node_accept _ _ _ _ _ _) as [ok nd1]. simpl in Hn. cbv zeta.
  eapply keeps_trans; [exact Hn|]. destruct ok; simpl; [|apply set_view_keeps].
  destruct (find_channel _ _ _); [|apply set_view_keeps].
  match goal with |- context [set_view nd1 ?v] => apply (keeps_trans _ (set_view nd1 v)); [apply set_view_keeps|] end.
  eapply keeps_trans; [|apply foldl_keeps; intros nd' u; unfold announce_joined; case_ifs; [by apply keeps_eq|apply to_local_keeps]].
  apply foldl_keeps; intros nd' u; unfold announce_left; case_ifs; [by apply keeps_eq|apply to_local_keeps].
Qed.

Lemma count_snapshot_keeps nd app node counts seq now :
  keeps nd (apply_remote_channel_count_snapshot nd app node counts seq now).
Proof.
  unfold apply_remote_channel_count_snapshot. cbv zeta.
  destruct (PeerChannelCounts.retain_node_channels _ _ _ _ _ _) as [[dropped t] v].
  assert (keeps nd (foldl (apply_count app node seq now) nd counts)) as Hf.
  { apply foldl_keeps. intros nd' c. unfold apply_count.
    pose proof (node_accept_keeps nd' node app ("c:" +:+ cc_channel c) seq now) as Hn.
    destruct (node_accept _ _ _ _ _ _). eapply keeps_trans; [exact Hn|apply set_view_keeps]. }
  eapply keeps_trans; [exact Hf|]. case_ifs; [apply set_view_keeps|].
  eapply keeps_trans; [apply set_view_keeps|apply foldl_keeps].
  intros nd' c. unfold emit_total. destruct (find_channel _ _ _); [|by apply keeps_eq].
  case_ifs; [by apply keeps_eq|apply to_local_keeps].
Qed.

Lemma session_snapshot_keeps nd app node users seq now :
  keeps nd (apply_remote_user_session_snapshot nd app node users seq now).
Proof.
  unfold apply_remote_user_session_snapshot. cbv zeta.
  assert (forall online nd u, keeps nd (session_update app node seq now online nd u)) as Hs.
  { intros online nd' u. unfold session_update.
    pose proof (node_accept_keeps nd' node app ("u:" +:+ u) seq now) as Hn.
    destruct (node_accept _ _ _ _ _ _) as [ok nd1]. simpl in Hn.
    eapply keeps_trans; [exact Hn|].
    case_ifs; [by apply keeps_eq|apply user_update_keeps|apply user_update_keeps]. }
  eapply keeps_trans; [|apply foldl_keeps; intros; apply Hs].
  eapply keeps_trans; [|apply foldl_keeps; intros; apply Hs]. apply set_view_keeps.
Qed.

Lemma broadcast_locally_keeps nd app channel event data ex now :
  manager_wf (nd_channels nd) ->
  keeps nd (broadcast_locally_with_app nd (app_id app) (Some app) channel event data ex now).
Proof.
  intros H. apply keeps_manager; [by apply broadcast_locally_same|].
  unfold broadcast_locally_with_app. destruct (strip_prefix _ _); [done|].
  destruct (get_or_create_cache_channel _ _ _) as [[c|] m]; [|destruct (find_channel _ _ _); [|done]];
    by destruct (broadcast _ _ _ _ _).
Qed.

Lemma member_update_keeps nd app origin channel uid info ww vw now :
  keeps nd (apply_remote_member_added nd app origin channel uid info now) /\
  keeps nd (apply_remote_member_removed cfg sink nd app origin channel uid ww vw now).
Proof.
  unfold apply_remote_member_added, apply_remote_member_removed. cbv zeta. split.
  - case_ifs; [apply set_view_keeps|]. eapply keeps_trans; [apply set_view_keeps|apply to_local_keeps].
  - case_ifs; repeat (eapply keeps_trans; [|apply claim_report_keeps]);
      try (eapply keeps_trans; [|apply to_local_keeps]); apply set_view_keeps.
Qed.

Lemma subscription_count_keeps nd app origin channel n vw now :
  keeps nd (apply_remote_subscription_count cfg sink nd app origin channel n vw now).
Proof.
  unfold apply_remote_subscription_count. cbv zeta.
  destruct (find_channel _ _ _); case_ifs; try (eapply keeps_trans; [|apply to_local_keeps]);
    try (eapply keeps_trans; [|apply claim_report_keeps]); apply set_view_keeps.
Qed.

Lemma saw_peer_keeps nd p now : keeps nd (saw_peer cfg nd p now).
Proof. unfold saw_peer. destruct (payload_node_id p); [case_ifs|]; by apply keeps_eq. Qed.

Lemma incoming_keeps nd env apps now :
  manager_wf (nd_channels nd) -> keeps nd (handle_incoming cfg sink nd env apps now).
Proof.
  intros H. unfold handle_incoming. destruct (_ <? _)%Z; [by apply keeps_eq|].
  assert (nd_channels (saw_peer cfg nd (payload env) now) = nd_channels nd) as Hs.
  { unfold saw_peer. destruct (payload_node_id _); [|done]. by case_ifs. }
  eapply keeps_trans; [apply (saw_peer_keeps _ (payload env) now)|].
  set (nd1 := saw_peer cfg nd (payload env) now) in *. clearbody nd1.
  destruct (apps _) as [app|]; [|by apply keeps_eq]. rewrite <- Hs in H. clear Hs nd.
  destruct (payload env); cbn [handle_payload handle_peer_state].
  all: try (destruct (String.eqb _ _); [by apply keeps_eq|]).
  all: try (match goal with |- context [node_accept ?n ?o ?a ?k ?s ?t] =>
        pose proof (node_accept_keeps n o a k s t) as Hn; destruct (node_accept n o a k s t) as [[] ?];
        [eapply keeps_trans; [exact Hn|]|exact Hn] end).
  - by apply broadcast_locally_keeps.
  - destruct (handle_for_socket _ _ _); by apply keeps_eq.
  - by apply keeps_eq.
  - destruct (find_channel _ _ _); by apply keeps_eq.
  - apply snapshot_keeps.
  - by apply keeps_eq.
  - by apply respond_keeps.
  - destruct (nd_inflight nd1 !! _); by apply keeps_eq.
  - by apply (member_update_keeps _ _ _ _ _ _ false false).
  - by apply (member_update_keeps _ _ _ _ _ None).
  - apply subscription_count_keeps.
  - apply user_update_keeps.
  - apply user_update_keeps.
  - apply count_snapshot_keeps.
  - apply session_snapshot_keeps.
Qed.
End BusRosters.

(** ** What the handlers do to the roster *)

Section HandlerRosters.
Context `{HI : HashIter} `{WI : Wire} `{SJ : SerdeJson} `{CR : Crypto} `{IP : InboundParser}.
Context (cfg : Config) (base : Z) (overflow : WebhookOverflow).
Implicit Types nd : Server.

Definition bus_ok nd : Prop := bus_wf (publish_overflow cfg) (nd_bus nd).

Lemma when_scaling_ok nd env now : bus_ok nd -> bus_ok (when_scaling cfg nd env now).
Proof. unfold when_scaling. destruct (scaling_enabled cfg); [|done]. apply spawn_publish_spec. Qed.

Lemma when_scaling_channels nd env now : nd_channels (when_scaling cfg nd env now) = nd_channels nd.
Proof. unfold when_scaling. by destruct (scaling_enabled cfg). Qed.

Lemma announce_ok nd app ch n w now : bus_ok nd -> bus_ok (announce_subscription_count cfg base overflow nd app ch n w now).
Proof.
  intros H. unfold announce_subscription_count, publish_subscription_count. cbv zeta.
  apply when_scaling_ok. by destruct (emit_subscription_count app).
Qed.

Lemma join_effects_ok app channel p s occ now ch r e :
  bus_ok e.1.1 -> bus_ok (join_effects cfg base overflow app channel p s occ now ch r e).1.1.
Proof.
  destruct e as [[nd rm] rp]. intros H. unfold join_effects, publish_member_added. cbv zeta.
  destruct p as [pm|]; case_ifs; simpl; try done; try (by apply announce_ok); by apply when_scaling_ok.
Qed.

Lemma leave_effects_ok app channel now ch o nd :
  bus_ok nd -> bus_ok (leave_effects cfg base overflow app channel now ch o nd).
Proof.
  intros H. unfold leave_effects, publish_member_removed. cbv zeta.
  destruct (uo_user_removed o); case_ifs; try done; try (by apply announce_ok); by apply when_scaling_ok.
Qed.

Lemma admit_ok app channel p now ch e : bus_ok e.1.1 -> bus_ok (join_admit app channel p now ch e).2.1.1.
Proof. destruct e as [[nd rm] rp]. unfold join_admit. destruct p; [|done]. by case_ifs. Qed.

Lemma replay_cache_same nd app channel h cached now :
  same_roster (nd_channels nd) (nd_channels (replay_cache base overflow nd app channel h cached now)).
Proof.
  unfold replay_cache. destruct cached; [done|].
  destruct (find_channel (nd_channels nd) (app_id app) channel) as [ch|] eqn:E; [|done].
  pose proof (claim_frame ch now) as (_ & _ & Hm).
  destruct (claim_cache_miss_notification ch now) as [[] ch']; by eapply put_channel_same.
Qed.

Lemma replay_cache_wf nd app channel h cached now :
  node_wf cfg nd -> node_wf cfg (replay_cache base overflow nd app channel h cached now).
Proof.
  intros [H1 H2]. unfold replay_cache. destruct cached; [by split|].
  destruct (find_channel (nd_channels nd) (app_id app) channel) as [ch|] eqn:E; [|by split].
  destruct (find_channel_wf _ _ _ _ H1 E) as [[Hn Hw] Hl].
  pose proof (claim_frame ch now) as (Hcn & Hck & Hcm). pose proof (claim_wf ch now Hw) as Hw'.
  destruct (claim_cache_miss_notification ch now) as [[] ch']; simpl in *;
    (split; [|done]); apply put_live_channel_wf; try done; try (split; [congruence|done]);
    by apply (chan_live_ext ch).
Qed.

(** The connection after a join, and what the join did to the manager. *)
Definition join_conn (c : Conn) (joined : option string) : Conn :=
  match joined with Some n => add_subscription c n | None => c end.

Lemma handle_subscribe_effect nd app c h data now :
  node_wf cfg nd ->
  let r := handle_subscribe cfg base overflow nd app c h data now in
  node_wf cfg r.1.2 /\
  exists joined, r.2 = join_conn c joined /\
    (forall n, joined = Some n -> exists p, check_subscribe app c data = Ok (n, p)) /\
    (forall id n s, member (nd_channels r.1.2) id n s <->
       member (nd_channels nd) id n s \/ (joined = Some n /\ id = app_id app /\ s = c_socket_id c)) /\
    (forall id, other_state (app_slot (nd_channels r.1.2) id) = other_state (app_slot (nd_channels nd) id)).
Proof.
  intros Hwf. unfold handle_subscribe. destruct (check_subscribe app c data) as [[name p]|frame] eqn:Echk.
  2:{ split; [done|]. exists None. split_and!; try done. naive_solver. }
  cbv zeta. set (occ := occupied_on_peers _ _ _ _ _). clearbody occ.
  pose proof (fun id n s => subscribe_with_member (nd_channels nd) app name (c_socket_id c) h p
    (join_admit app name p now) (join_effects cfg base overflow app name p (c_socket_id c) occ now) now
    (nd, [], false) id n s) as Hm.
  pose proof (subscribe_with_wf (nd_channels nd) app name (c_socket_id c) h p
    (join_admit app name p now) (join_effects cfg base overflow app name p (c_socket_id c) occ now) now
    (nd, [], false) (node_manager _ _ Hwf)) as Hmw.
  pose proof (subscribe_with_effect (fun e => bus_ok e.1.1) (nd_channels nd) app name (c_socket_id c) h p
    (join_admit app name p now) (join_effects cfg base overflow app name p (c_socket_id c) occ now) now
    (nd, [], false) (fun ch e => admit_ok app name p now ch e)
    (fun ch r e => join_effects_ok app name p (c_socket_id c) occ now ch r e) (node_bus _ _ Hwf)) as Hbus.
  destruct (subscribe_with _ _ _ _ _ _ _ _ _ _) as [[out m] [[nd' rm] rp]]. simpl in *.
  assert (node_wf cfg (set_manager nd' m)) as Hwf' by (by split).
  destruct out as [out|].
  - assert (admitted (nd_channels nd) app name (join_admit app name p now) (nd, [], false) = true) as Had
      by (apply (Hm "" "" ""); eauto).
    assert (forall m2, same_roster m m2 ->
      (forall id n s, member m2 id n s <->
         member (nd_channels nd) id n s \/ (Some name = Some n /\ id = app_id app /\ s = c_socket_id c)) /\
      (forall id, other_state (app_slot m2 id) = other_state (app_slot (nd_channels nd) id))) as Hfin.
    { intros m2 [Hs1 Hs2]. split.
      - intros id n s. rewrite member_seats, Hs1, <- member_seats, (proj1 (Hm id n s)), Had. naive_solver.
      - intros id. rewrite Hs2. apply (Hm "" "" ""). }
    destruct (is_cache (kind name)); simpl; (split; [|exists (Some name); split; [done|]; split; [intros ? [= <-]; eauto|apply Hfin]]).
    + by apply replay_cache_wf.
    + apply (replay_cache_same (set_manager nd' m)).
    + done.
    + done.
  - assert (admitted (nd_channels nd) app name (join_admit app name p now) (nd, [], false) = false) as Had.
    { destruct (admitted _ _ _ _ _) eqn:E; [|done]. destruct (Hm "" "" "") as (_ & [_ Hx] & _).
      by destruct (Hx eq_refl). }
    simpl. split; [done|]. exists None. split_and!; [done|done| |apply (Hm "" "" "")].
    intros id n s. rewrite (proj1 (Hm id n s)), Had. naive_solver.
Qed.

Lemma leave_channel_effect nd app s name now :
  node_wf cfg nd ->
  let nd' := leave_channel cfg base overflow nd app s name now in
  node_wf cfg nd' /\
  (forall id n s', member (nd_channels nd') id n s' <->
     member (nd_channels nd) id n s' /\ ~ (id = app_id app /\ n = name /\ s' = s)) /\
  (forall id, other_state (app_slot (nd_channels nd') id) = other_state (app_slot (nd_channels nd) id)).
Proof.
  intros Hwf. unfold leave_channel.
  pose proof (fun id n s' => unsubscribe_with_member (nd_channels nd) (app_id app) name s
    (leave_effects cfg base overflow app name now) now nd id n s') as Hm.
  pose proof (unsubscribe_with_wf (nd_channels nd) (app_id app) name s
    (leave_effects cfg base overflow app name now) now nd (node_manager _ _ Hwf)) as Hmw.
  pose proof (unsubscribe_with_effect bus_ok (nd_channels nd) (app_id app) name s
    (leave_effects cfg base overflow app name now) now nd
    (fun ch o nd => leave_effects_ok app name now ch o nd) (node_bus _ _ Hwf)) as Hbus.
  destruct (unsubscribe_with _ _ _ _ _ _ _) as [[o m] nd']. simpl in *.
  split; [by split|]. split; [intros; apply Hm|apply (Hm "" "" "")].
Qed.
End HandlerRosters.

(** ** The three relations the server must keep in step *)

Section Relations.
Context `{HI : HashIter}.

Definition conn_of (m : Manager) (id : AppId) (s : SocketId) : option ConnectionHandle :=
  connections (app_slot m id) !! s.

Lemma app_slot_insert m id slot id' :
  app_slot (<[id := slot]> m) id' = if decide (id' = id) then slot else app_slot m id'.
Proof.
  unfold app_slot. case_decide as Hd; [subst; by rewrite lookup_insert_eq|]. by rewrite lookup_insert_ne.
Qed.

(** [m'] has the members, users and connections of [m]. *)
Record agree (m m' : Manager) : Prop := {
  agree_member : forall id n s, member m' id n s <-> member m id n s;
  agree_users : forall id u, user_sockets m' id u = user_sockets m id u;
  agree_conns : forall id s, conn_of m' id s = conn_of m id s
}.

Lemma agree_refl m : agree m m.
Proof. by split. Qed.

Lemma agree_trans m1 m2 m3 : agree m1 m2 -> agree m2 m3 -> agree m1 m3.
Proof.
  intros [? ? ?] [H1 H2 H3]. split; intros; [rewrite H1|rewrite H2|rewrite H3]; auto.
Qed.

Lemma same_roster_agree m m' : same_roster m m' -> agree m m'.
Proof.
  intros [H1 H2]. unfold other_state in H2. split; [intros; by rewrite !member_seats, H1| |].
  - intros id u. unfold user_sockets. specialize (H2 id). injection H2 as _ -> _. done.
  - intros id s. unfold conn_of. specialize (H2 id). injection H2 as -> _ _. done.
Qed.

Lemma agree_insert m id slot :
  channels slot = channels (app_slot m id) -> user_index slot = user_index (app_slot m id) ->
  connections slot = connections (app_slot m id) -> agree m (<[id := slot]> m).
Proof.
  intros H1 H2 H3. split.
  - intros id' n s. rewrite !member_slot, app_slot_insert. case_decide; [subst; by rewrite H1|done].
  - intros id' u. unfold user_sockets. rewrite app_slot_insert. case_decide; [subst; by rewrite H2|done].
  - intros id' s. unfold conn_of. rewrite app_slot_insert. case_decide; [subst; by rewrite H3|done].
Qed.

Lemma add_watchers_agree m id l uid : agree m (foldl (fun m w => add_watcher m id w uid) m l).
Proof.
  revert m. induction l as [|w l IH]; intros m; simpl; [apply agree_refl|].
  eapply agree_trans; [|apply IH]. by apply agree_insert.
Qed.

Lemma remove_all_watches_agree m id uid : agree m (remove_all_watches_for m id uid).
Proof.
  unfold remove_all_watches_for. destruct (m !! id) as [slot|] eqn:E; [|apply agree_refl].
  apply agree_insert; unfold app_slot; by rewrite E.
Qed.

Lemma bind_user_effect m id u s :
  let m' := (bind_user m id u s).2 in
  (forall i n x, member m' i n x <-> member m i n x) /\
  (forall i x, conn_of m' i x = conn_of m i x) /\
  (forall i v x, x ∈ user_sockets m' i v <-> x ∈ user_sockets m i v \/ (i = id /\ v = u /\ x = s)).
Proof.
  intros m'. split_and!.
  - intros i n x. unfold m', bind_user. simpl. rewrite !member_slot, app_slot_insert. by case_decide; subst.
  - intros i x. unfold m', bind_user, conn_of. simpl. rewrite app_slot_insert. by case_decide; subst.
  - intros i v x. destruct (decide (i = id)) as [->|Hne].
    + unfold m'. rewrite (proj2 (bind_user_spec m id u s)). naive_solver.
    + unfold m', bind_user, user_sockets. simpl. rewrite app_slot_insert, decide_False by done. naive_solver.
Qed.

Lemma unbind_user_effect m id u s :
  let m' := (unbind_user m id u s).2 in
  (forall i n x, member m' i n x <-> member m i n x) /\
  (forall i x, conn_of m' i x = conn_of m i x) /\
  (forall i v x, x ∈ user_sockets m' i v <-> x ∈ user_sockets m i v /\ ~ (i = id /\ v = u /\ x = s)).
Proof.
  intros m'.
  assert (m' = m \/ exists ui, m' = <[id := set_user_index (app_slot m id) ui]> m) as Hcase.
  { unfold m', unbind_user. destruct (m !! id) as [slot|] eqn:Em; [|by left].
    assert (app_slot m id = slot) as -> by (unfold app_slot; by rewrite Em).
    destruct (user_index slot !! u) as [l|]; [|by left]. right.
    destruct (List.filter _ l); simpl; eauto. }
  split_and!.
  - intros i n x. destruct Hcase as [->|[ui ->]]; [done|]. rewrite !member_slot, app_slot_insert. by case_decide; subst.
  - intros i x. destruct Hcase as [->|[ui ->]]; [done|]. unfold conn_of. rewrite app_slot_insert. by case_decide; subst.
  - intros i v x. destruct (decide (i = id)) as [->|Hne].
    + unfold m'. rewrite unbind_user_sockets. naive_solver.
    + destruct Hcase as [->|[ui ->]]; [naive_solver|]. unfold user_sockets.
      rewrite app_slot_insert, decide_False by done. naive_solver.
Qed.

Lemma unregister_effect m id s :
  let m' := unregister_connection m id s in
  (forall i n x, member m' i n x <-> member m i n x) /\
  (forall i v, user_sockets m' i v = user_sockets m i v) /\
  (forall i x h, conn_of m' i x = Some h <-> conn_of m i x = Some h /\ ~ (i = id /\ x = s)).
Proof.
  intros m'. unfold m', unregister_connection. destruct (m !! id) as [slot|] eqn:E.
  - assert (app_slot m id = slot) as Hs by (unfold app_slot; by rewrite E).
    unfold user_sockets, conn_of. split_and!.
    + intros i n x. rewrite !member_slot, app_slot_insert. case_decide; [subst i; simpl; by rewrite Hs|done].
    + intros i v. rewrite app_slot_insert. case_decide; [subst i; simpl; by rewrite Hs|done].
    + intros i x h. rewrite app_slot_insert. case_decide as Hd; [subst i; rewrite Hs; simpl|naive_solver].
      rewrite lookup_delete_Some. naive_solver.
  - split_and!; [done|done|]. intros i x h. split; [|naive_solver]. intros Hc. split; [done|].
    intros [-> ->]. unfold conn_of, app_slot in Hc. rewrite E in Hc. simpl in Hc. by rewrite lookup_empty in Hc.
Qed.

Lemma register_effect m app h :
  conn_of m (app_id app) (h_socket_id h) = None ->
  let r := register_connection m app h in
  (forall i n x, member r.2 i n x <-> member m i n x) /\
  (forall i v, user_sockets r.2 i v = user_sockets m i v) /\
  (forall i x h', conn_of r.2 i x = Some h' <->
     conn_of m i x = Some h' \/ (is_ok r.1 = true /\ i = app_id app /\ x = h_socket_id h /\ h' = h)).
Proof.
  intros Hf r. unfold r, register_connection.
  destruct (match max_connections app with Some _ => _ | None => _ end); simpl;
    unfold user_sockets, conn_of in *; split_and!;
    try (intros i n x; rewrite !member_slot, app_slot_insert; by case_decide; subst);
    try (intros i v; rewrite app_slot_insert; by case_decide; subst);
    intros i x h'; rewrite app_slot_insert; case_decide as Hd; try naive_solver; subst i; simpl.
  - rewrite delete_insert_id by done. naive_solver.
  - destruct (decide (x = h_socket_id h)) as [->|Hx].
    + rewrite lookup_insert_eq, Hf. naive_solver.
    + rewrite lookup_insert_ne by done. naive_solver.
Qed.
End Relations.

(** ** One frame, seen from its connection and from the others *)

(** The manager and the connection [c] on socket [s] agree. *)
Record task_ok (m : Manager) (id : AppId) (s : SocketId) (c : Conn) : Prop := {
  task_socket : c_socket_id c = s;
  task_subs : forall n, member m id n s <-> n ∈ c_subscriptions c;
  task_user : forall v, s ∈ user_sockets m id v <-> c_user_id c = Some v
}.

(** Nothing changed for any other socket. *)
Record others (m m' : Manager) (id : AppId) (s : SocketId) : Prop := {
  others_member : forall i n x, ~ (i = id /\ x = s) -> (member m' i n x <-> member m i n x);
  others_users : forall i v x, ~ (i = id /\ x = s) -> (x ∈ user_sockets m' i v <-> x ∈ user_sockets m i v);
  others_conns : forall i x, conn_of m' i x = conn_of m i x
}.

Lemma agree_others m m' id s : agree m m' -> others m m' id s.
Proof. intros [H1 H2 H3]. split; [by intros; rewrite H1|by intros; rewrite H2|done]. Qed.

Lemma agree_task m m' id s c : agree m m' -> task_ok m id s c -> task_ok m' id s c.
Proof. intros [H1 H2 H3] [? ? ?]. split; [done|intros; by rewrite H1|intros; by rewrite H2]. Qed.

Lemma others_trans m1 m2 m3 id s : others m1 m2 id s -> others m2 m3 id s -> others m1 m3 id s.
Proof.
  intros [A1 A2 A3] [B1 B2 B3]. split; intros.
  - by rewrite B1, A1.
  - by rewrite B2, A2.
  - by rewrite B3, A3.
Qed.

Section Frames.
Context `{HI : HashIter} `{WI : Wire} `{SJ : SerdeJson} `{CR : Crypto} `{IP : InboundParser}.
Context (cfg : Config) (base : Z) (overflow : WebhookOverflow).
Implicit Types nd : Server.

(** What a handler must do: keep the node well formed, keep this connection in
    step with the manager, and leave the other sockets alone. *)
Definition handled nd (id : AppId) (c : Conn) (r : Server * Conn) : Prop :=
  node_wf cfg nd -> task_ok (nd_channels nd) id (c_socket_id c) c ->
  node_wf cfg r.1 /\ task_ok (nd_channels r.1) id (c_socket_id c) r.2 /\
  others (nd_channels nd) (nd_channels r.1) id (c_socket_id c).

Lemma handled_same nd id c : handled nd id c (nd, c).
Proof. intros H1 H2. split_and!; [done|done|]. apply agree_others, agree_refl. Qed.

Lemma other_state_relations m m' :
  (forall id, other_state (app_slot m' id) = other_state (app_slot m id)) ->
  (forall i v, user_sockets m' i v = user_sockets m i v) /\ (forall i x, conn_of m' i x = conn_of m i x).
Proof.
  intros H. unfold user_sockets, conn_of. split; intros i ?; specialize (H i); unfold other_state in H;
    injection H as H1 H2 _; by rewrite ?H1, ?H2.
Qed.

Lemma subscribe_handled nd app c h data now :
  let r := handle_subscribe cfg base overflow nd app c h data now in
  handled nd (app_id app) c (r.1.2, r.2).
Proof.
  intros r Hwf [Hs Hsub Hu]. destruct (handle_subscribe_effect cfg base overflow nd app c h data now Hwf)
    as (Hwf' & joined & Hc & _ & Hm & Ho). fold r in Hwf', Hc, Hm, Ho.
  apply other_state_relations in Ho as [Husers Hconns]. split_and!; [done| |].
  - simpl. rewrite Hc. split.
    + by destruct joined.
    + intros n. rewrite Hm, Hsub. destruct joined as [j|]; simpl; [|naive_solver].
      rewrite elem_of_union, elem_of_singleton. naive_solver.
    + intros v. rewrite Husers, Hu. by destruct joined.
  - split; [|intros; by rewrite Husers|done].
    intros i n x Hne. rewrite Hm. naive_solver.
Qed.

Lemma unsubscribe_handled nd app c data now :
  let r := handle_unsubscribe cfg base overflow nd app c data now in
  handled nd (app_id app) c (r.1.2, r.2).
Proof.
  intros r. unfold r, handle_unsubscribe. destruct (field_str _ _) as [name|]; [|apply handled_same].
  intros Hwf [Hs Hsub Hu].
  destruct (leave_channel_effect cfg base overflow nd app (c_socket_id c) name now Hwf) as (Hwf' & Hm & Ho).
  apply other_state_relations in Ho as [Husers Hconns]. simpl. split_and!; [done| |].
  - split; [done| |].
    + intros n. rewrite Hm, Hsub. simpl. rewrite elem_of_difference, elem_of_singleton. naive_solver.
    + intros v. by rewrite Husers, Hu.
  - split; [|intros; by rewrite Husers|done]. intros i n x Hne. rewrite Hm. naive_solver.
Qed.

Lemma publish_online_channels nd app u now : nd_channels (publish_user_online cfg nd app u now) = nd_channels nd.
Proof. apply when_scaling_channels. Qed.

(** The watchlist part of a sign-in. *)
Lemma signin_watchlist_wf m id l uid :
  manager_wf m -> manager_wf (foldl (fun m w => add_watcher m id w uid) m l).
Proof. revert m. induction l as [|w l IH]; intros m H; simpl; [done|]. by apply IH, add_watcher_wf. Qed.

Lemma signin_transition_handled nd app c h uid wl now :
  c_user_id c = None -> handled nd (app_id app) c (signin_transition cfg nd app c h uid wl now).
Proof.
  intros Hnone [Hm Hb] Hok. unfold signin_transition.
  set (nd1 := set_manager nd (touch_slot (nd_channels nd) (app_id app))).
  assert (agree (nd_channels nd) (nd_channels nd1)) as Hag by apply same_roster_agree, touch_slot_same.
  assert (manager_wf (nd_channels nd1)) as Hm1 by (by apply touch_slot_wf).
  assert (nd_bus nd1 = nd_bus nd) as Hb1 by done. clearbody nd1.
  pose proof (agree_task _ _ _ _ _ Hag Hok) as [Hs Hsub Hu].
  apply (agree_others _ _ (app_id app) (c_socket_id c)) in Hag.
  set (online1 := is_user_online _ _ _). set (online2 := PeerUserSessions.is_present_excluding _ _ _ _ _).
  destruct (bind_user_effect (nd_channels nd1) (app_id app) uid (c_socket_id (conn_bind_user c uid))) as (B1 & B2 & B3).
  pose proof (bind_user_wf (nd_channels nd1) (app_id app) uid (c_socket_id (conn_bind_user c uid)) Hm1) as Hbw.
  destruct (bind_user (nd_channels nd1) _ _ _) as [first m2]. simpl in B1, B2, B3, Hbw.
  assert (others (nd_channels nd1) m2 (app_id app) (c_socket_id c)) as Hoth.
  { split; [by intros; rewrite B1| |done]. intros i v x Hne. rewrite B3. naive_solver. }
  pose proof (others_trans _ _ _ _ _ Hag Hoth) as Hoth'.
  assert (task_ok m2 (app_id app) (c_socket_id c) (conn_bind_user c uid)) as Hok2.
  { split; [done|intros; by rewrite B1, Hsub|]. intros v. rewrite B3, Hu, Hnone. simpl. naive_solver. }
  assert (forall nd2 c2, agree m2 (nd_channels nd2) -> manager_wf (nd_channels nd2) -> nd_bus nd2 = nd_bus nd ->
    c_socket_id c2 = c_socket_id c -> c_subscriptions c2 = c_subscriptions c -> c_user_id c2 = Some uid ->
    let r := (let nd := if negb online1 && negb online2
              then fanout_watchlist_event nd2 (app_id app) uid "online" else nd2 in
              (if first then publish_user_online cfg nd app uid now else nd, c2)) in
    node_wf cfg r.1 /\ task_ok (nd_channels r.1) (app_id app) (c_socket_id c) r.2 /\
    others (nd_channels nd) (nd_channels r.1) (app_id app) (c_socket_id c)) as Hfin.
  { intros nd2 c2 Hag2 Hm2 Hb2 Hs2 Hsub2 Hu2. cbv zeta. simpl.
    set (nd3 := if negb online1 && negb online2 then _ else nd2).
    assert (nd_channels nd3 = nd_channels nd2 /\ nd_bus nd3 = nd_bus nd2) as [H3 H3b]
      by (unfold nd3; by destruct (negb online1 && negb online2)).
    assert (nd_channels (if first then publish_user_online cfg nd3 app uid now else nd3) = nd_channels nd2) as H4
      by (destruct first; [by rewrite publish_online_channels|done]).
    assert (bus_ok cfg (if first then publish_user_online cfg nd3 app uid now else nd3)) as H5.
    { assert (bus_ok cfg nd3) by (unfold bus_ok; by rewrite H3b, Hb2).
      destruct first; [by apply when_scaling_ok|done]. }
    split_and!; [by split; rewrite ?H4| |].
    - rewrite H4. apply (agree_task m2); [done|]. destruct Hok2 as [_ Q1 Q2]. split; [done|by rewrite Hsub2|].
      intros v. rewrite Q2, Hu2. done.
    - rewrite H4. eapply others_trans; [exact Hoth'|]. by apply agree_others. }
  destruct wl as [l|].
  - apply Hfin; [apply add_watchers_agree|by apply signin_watchlist_wf|exact Hb1|done..].
  - apply Hfin; [apply agree_refl|done|exact Hb1|done..].
Qed.

Lemma signin_handled nd app c h data now :
  let r := handle_signin cfg nd app c h data now in handled nd (app_id app) c (r.1.2, r.2).
Proof.
  intros r. unfold r, handle_signin. destruct (field_str _ "auth"); [|apply handled_same].
  destruct (field_str _ "user_data"); [|apply handled_same].
  destruct (negb _); [apply handled_same|]. destruct (id_text _) as [uid|]; [|apply handled_same].
  destruct (is_empty_str uid); [apply handled_same|].
  destruct (c_user_id c) eqn:Eu; [apply handled_same|].
  destruct (read_watchlist _) as [[wl trunc]|]; [|apply handled_same].
  pose proof (signin_transition_handled nd app c h uid wl now Eu) as H.
  destruct (signin_transition cfg nd app c h uid wl now) as [nd' c']. destruct trunc; simpl; [|exact H].
  intros Hw Hok. destruct (H Hw Hok) as (H1 & H2 & H3). split_and!; [by apply set_mbs_wf|done|done].
Qed.

Lemma client_event_channels nd app c ev frame now :
  nd_channels (handle_client_event cfg base overflow nd app c ev frame now).2 = nd_channels nd /\
  (bus_ok cfg nd -> bus_ok cfg (handle_client_event cfg base overflow nd app c ev frame now).2).
Proof.
  unfold handle_client_event. case_decide; [done|]. destruct (f_channel frame); [|done].
  destruct (negb _); [done|]. destruct (find_channel _ _ _); [|done]. destruct (negb _); [done|]. cbv zeta. simpl.
  unfold publish_client_event. rewrite when_scaling_channels. split; [done|].
  intros Hb. unfold bus_ok. simpl. by apply when_scaling_ok.
Qed.

Lemma inbound_handled nd apps app c h text now :
  (forall id a, apps id = Some a -> app_id a = id) ->
  let r := handle_inbound cfg base overflow nd apps app c h text now in
  handled nd (app_id app) c (r.1.2, r.2).
Proof.
  intros Hid r. unfold r, handle_inbound.
  assert (app_id (default app (apps (app_id app))) = app_id app) as Heq.
  { destruct (apps (app_id app)) eqn:E; [by apply Hid in E|done]. }
  set (app' := default app (apps (app_id app))) in *. rewrite <- Heq.
  destruct (parse_inbound text) as [frame|]; [|apply handled_same].
  destruct (String.eqb _ "pusher:ping"); [apply handled_same|].
  destruct (String.eqb _ "pusher:subscribe"); [apply subscribe_handled|].
  destruct (String.eqb _ "pusher:unsubscribe"); [apply unsubscribe_handled|].
  destruct (String.eqb _ "pusher:signin"); [apply signin_handled|].
  destruct (starts_with _ _); [|apply handled_same]. destruct (_ <? _)%Z; [apply handled_same|].
  pose proof (client_event_channels nd app' c (f_event frame) frame now) as [Hc Hb].
  destruct (handle_client_event _ _ _ _ _ _ _ _ _) as [rsp nd']. simpl in *. intros [H1 H2] Hok.
  split_and!; simpl; [split; [by rewrite Hc|by apply Hb]|by rewrite Hc|rewrite Hc]. apply agree_others, agree_refl.
Qed.
End Frames.

(** ** Closing a connection *)

Section Closing.
Context `{HI : HashIter} `{WI : Wire} `{SJ : SerdeJson} `{CR : Crypto} `{IP : InboundParser}.
Context (cfg : Config) (base : Z) (overflow : WebhookOverflow).
Implicit Types nd : Server.

Lemma leave_all_effect nd app s names now :
  node_wf cfg nd ->
  let nd' := foldl (fun nd name => leave_channel cfg base overflow nd app s name now) nd names in
  node_wf cfg nd' /\
  (forall i n x, member (nd_channels nd') i n x <->
     member (nd_channels nd) i n x /\ ~ (i = app_id app /\ n ∈ names /\ x = s)) /\
  (forall i v, user_sockets (nd_channels nd') i v = user_sockets (nd_channels nd) i v) /\
  (forall i x, conn_of (nd_channels nd') i x = conn_of (nd_channels nd) i x).
Proof.
  revert nd. induction names as [|name names IH]; intros nd Hwf; simpl.
  { split_and!; [done| |done|done]. set_solver. }
  destruct (leave_channel_effect cfg base overflow nd app s name now Hwf) as (Hw & Hm & Ho).
  apply other_state_relations in Ho as [Hu Hc].
  destruct (IH _ Hw) as (Hw' & Hm' & Hu' & Hc'). split_and!; [done| | |].
  - intros i n x. rewrite Hm', Hm, elem_of_cons. naive_solver.
  - intros i v. by rewrite Hu', Hu.
  - intros i x. by rewrite Hc', Hc.
Qed.

Lemma cleanup_user_effect nd app uid s now :
  node_wf cfg nd ->
  let nd' := cleanup_user cfg nd app uid s now in
  node_wf cfg nd' /\
  (forall i n x, member (nd_channels nd') i n x <-> member (nd_channels nd) i n x) /\
  (forall i v x, x ∈ user_sockets (nd_channels nd') i v <->
     x ∈ user_sockets (nd_channels nd) i v /\ ~ (i = app_id app /\ v = uid /\ x = s)) /\
  (forall i x, conn_of (nd_channels nd') i x = conn_of (nd_channels nd) i x).
Proof.
  intros [Hm Hb]. unfold cleanup_user.
  set (nd1 := set_manager nd (touch_slot (nd_channels nd) (app_id app))).
  assert (agree (nd_channels nd) (nd_channels nd1)) as [T1 T2 T3] by apply same_roster_agree, touch_slot_same.
  assert (manager_wf (nd_channels nd1)) as Hm1 by (by apply touch_slot_wf).
  assert (nd_bus nd1 = nd_bus nd) as Hb1 by done. clearbody nd1.
  destruct (unbind_user_effect (nd_channels nd1) (app_id app) uid s) as (U1 & U2 & U3).
  pose proof (unbind_user_wf (nd_channels nd1) (app_id app) uid s Hm1) as Huw.
  destruct (unbind_user (nd_channels nd1) (app_id app) uid s) as [last m2]. simpl in U1, U2, U3, Huw.
  assert (forall nd3, agree m2 (nd_channels nd3) -> manager_wf (nd_channels nd3) -> bus_ok cfg nd3 ->
    node_wf cfg nd3 /\
    (forall i n x, member (nd_channels nd3) i n x <-> member (nd_channels nd) i n x) /\
    (forall i v x, x ∈ user_sockets (nd_channels nd3) i v <->
       x ∈ user_sockets (nd_channels nd) i v /\ ~ (i = app_id app /\ v = uid /\ x = s)) /\
    (forall i x, conn_of (nd_channels nd3) i x = conn_of (nd_channels nd) i x)) as Hfin.
  { intros nd3 [A1 A2 A3] Hm3 Hb3. split_and!; [by split| | |]; intros.
    - by rewrite A1, U1, T1.
    - by rewrite A2, U3, T2.
    - by rewrite A3, U2, T3. }
  assert (bus_ok cfg (set_manager nd1 m2)) as Hb2 by (unfold bus_ok; simpl; by rewrite Hb1).
  destruct last; simpl; [|apply Hfin; [apply agree_refl|done|done]].
  set (nd3 := publish_user_offline cfg _ app uid now).
  assert (nd_channels nd3 = m2) as H3.
  { unfold nd3, publish_user_offline. rewrite when_scaling_channels.
    by destruct (negb (PeerUserSessions.is_present_excluding _ _ _ _ _)). }
  apply Hfin; simpl; rewrite ?H3.
  - apply remove_all_watches_agree.
  - by apply remove_all_watches_wf.
  - unfold bus_ok. simpl. unfold nd3. apply when_scaling_ok.
    by destruct (negb (PeerUserSessions.is_present_excluding _ _ _ _ _)).
Qed.

(** After the clean-up nothing of the socket is left, and nothing else changed. *)
Lemma cleanup_effect nd app c now :
  node_wf cfg nd -> task_ok (nd_channels nd) (app_id app) (c_socket_id c) c ->
  let s := c_socket_id c in
  let nd' := cleanup_connection cfg base overflow nd app c s now in
  node_wf cfg nd' /\
  (forall i n x, member (nd_channels nd') i n x <->
     member (nd_channels nd) i n x /\ ~ (i = app_id app /\ x = s)) /\
  (forall i v x, x ∈ user_sockets (nd_channels nd') i v <->
     x ∈ user_sockets (nd_channels nd) i v /\ ~ (i = app_id app /\ x = s)) /\
  (forall i x h, conn_of (nd_channels nd') i x = Some h <->
     conn_of (nd_channels nd) i x = Some h /\ ~ (i = app_id app /\ x = s)).
Proof.
  intros Hwf [_ Hsub Hu] s. unfold cleanup_connection.
  destruct (leave_all_effect nd app s (subscriptions_snapshot c) now Hwf) as (Hw1 & M1 & U1 & C1).
  set (nd1 := foldl _ nd (subscriptions_snapshot c)) in *. clearbody nd1.
  assert (exists nd2, nd2 = (match c_user_id c with Some uid => cleanup_user cfg nd1 app uid s now | None => nd1 end) /\
    node_wf cfg nd2 /\
    (forall i n x, member (nd_channels nd2) i n x <-> member (nd_channels nd1) i n x) /\
    (forall i v x, x ∈ user_sockets (nd_channels nd2) i v <->
       x ∈ user_sockets (nd_channels nd) i v /\ ~ (i = app_id app /\ x = s)) /\
    (forall i x, conn_of (nd_channels nd2) i x = conn_of (nd_channels nd1) i x)) as (nd2 & <- & [Hm2 Hb2] & M2 & U2 & C2).
  { eexists. split; [reflexivity|]. destruct (c_user_id c) as [uid|] eqn:Eu.
    - destruct (cleanup_user_effect nd1 app uid s now Hw1) as (W & M & U & C).
      split_and!; [done|done| |done]. intros i v x. rewrite U, U1. split; [|naive_solver].
      intros [Hin Hno]. split; [done|]. intros [-> ->]. apply Hu in Hin as Hv. naive_solver.
    - split_and!; [done|done| |done]. intros i v x. rewrite U1. split; [|naive_solver].
      intros Hin. split; [done|]. intros [-> ->]. apply Hu in Hin. done. }
  destruct (unregister_effect (nd_channels nd2) (app_id app) s) as (R1 & R2 & R3). simpl.
  split_and!.
  - split; [by apply unregister_connection_wf|done].
  - intros i n x. rewrite R1, M2, M1. unfold subscriptions_snapshot. rewrite elem_of_hset_iter.
    split; [|naive_solver]. intros [Hm Hno]. split; [done|]. intros [-> ->]. apply Hno.
    split_and!; [done|by apply Hsub|done].
  - intros i v x. by rewrite R2, U2.
  - intros i x h. by rewrite R3, C2, C1.
Qed.
End Closing.

(** ** The invariant of the server *)

Section Invariant.
Context `{HI : HashIter} `{WI : Wire} `{SJ : SerdeJson} `{CR : Crypto} `{IP : InboundParser}.
Context (cfg : Config) (base : Z) (overflow : WebhookOverflow).

(** The open connection of application [id] on socket [s]. *)
Definition open_as (tasks : gmap string Task) (id : AppId) (s : SocketId) (P : Task -> Prop) : Prop :=
  exists k, tasks !! s = Some k /\ app_id (k_app k) = id /\ P k.

Record sys_inv (sys : System) : Prop := {
  inv_node : node_wf cfg (sys_node sys);
  inv_socket : forall s k, sys_tasks sys !! s = Some k -> c_socket_id (k_conn k) = s;
  inv_member : forall id n s, member (nd_channels (sys_node sys)) id n s <->
    open_as (sys_tasks sys) id s (fun k => n ∈ c_subscriptions (k_conn k));
  inv_user : forall id u s, s ∈ user_sockets (nd_channels (sys_node sys)) id u <->
    open_as (sys_tasks sys) id s (fun k => c_user_id (k_conn k) = Some u);
  inv_conn : forall id s h, conn_of (nd_channels (sys_node sys)) id s = Some h <->
    open_as (sys_tasks sys) id s (fun k => k_handle k = h);
  inv_apps : index_wf (sys_apps sys)
}.

Lemma open_as_insert tasks s k id s' P :
  open_as (<[s := k]> tasks) id s' P <->
  if decide (s' = s) then app_id (k_app k) = id /\ P k else open_as tasks id s' P.
Proof.
  unfold open_as. case_decide as Hd; [subst; rewrite lookup_insert_eq; naive_solver|].
  by rewrite lookup_insert_ne.
Qed.

Lemma open_as_delete tasks s id s' P :
  open_as (delete s tasks) id s' P <-> s' <> s /\ open_as tasks id s' P.
Proof. unfold open_as. setoid_rewrite lookup_delete_Some. naive_solver. Qed.

(** In a good state each connection agrees with the manager. *)
Lemma inv_task sys s k :
  sys_inv sys -> sys_tasks sys !! s = Some k ->
  task_ok (nd_channels (sys_node sys)) (app_id (k_app k)) (c_socket_id (k_conn k)) (k_conn k).
Proof.
  intros [_ Hs Hm Hu _ _] Hk. pose proof (Hs _ _ Hk) as Hsock. rewrite Hsock.
  split; [done| |]; intros x; [rewrite Hm|rewrite Hu]; unfold open_as; rewrite Hk; naive_solver.
Qed.

(** A good state whose manager and task table agree with the old ones is good. *)
Lemma inv_agree sys nd tasks :
  sys_inv sys -> node_wf cfg nd -> agree (nd_channels (sys_node sys)) (nd_channels nd) ->
  (forall s k, tasks !! s = Some k -> c_socket_id (k_conn k) = s) ->
  (forall id s P, (forall k c, c_subscriptions c = c_subscriptions (k_conn k) -> c_user_id c = c_user_id (k_conn k) ->
      P (set_task_conn k c) <-> P k) ->
     open_as tasks id s P <-> open_as (sys_tasks sys) id s P) ->
  sys_inv (put sys nd tasks).
Proof.
  intros [Hn Hs Hm Hu Hc Ha] Hw [A1 A2 A3] Hs' Ht. split; simpl; [done|done| | | |done]; intros.
  - rewrite A1, Hm, Ht; [done|]. simpl. by intros ? ? -> _.
  - rewrite A2, Hu, Ht; [done|]. simpl. by intros ? ? _ ->.
  - rewrite A3, Hc, Ht; [done|]. done.
Qed.

(** Replacing the task on [s] after a step that only concerned [s]. *)
Lemma inv_update sys nd s k k' :
  sys_inv sys -> sys_tasks sys !! s = Some k -> node_wf cfg nd ->
  app_id (k_app k') = app_id (k_app k) -> k_handle k' = k_handle k ->
  task_ok (nd_channels nd) (app_id (k_app k)) s (k_conn k') ->
  others (nd_channels (sys_node sys)) (nd_channels nd) (app_id (k_app k)) s ->
  sys_inv (put sys nd (<[s := k']> (sys_tasks sys))).
Proof.
  intros [Hn Hs Hm Hu Hc Hx] Hk Hw Ha Hh [T1 T2 T3] [O1 O2 O3]. split; simpl; [done| | | | |done].
  - intros s' k0 [[<- <-]|[_ H]]%lookup_insert_Some; [done|by apply Hs].
  - intros id n x. rewrite open_as_insert. case_decide as Hd; [subst x|].
    + destruct (decide (id = app_id (k_app k))) as [->|Hne]; [rewrite T2; naive_solver|].
      rewrite O1, Hm by naive_solver. unfold open_as. rewrite Hk. naive_solver.
    + rewrite O1, Hm by naive_solver. done.
  - intros id u x. rewrite open_as_insert. case_decide as Hd; [subst x|].
    + destruct (decide (id = app_id (k_app k))) as [->|Hne]; [rewrite T3; naive_solver|].
      rewrite O2, Hu by naive_solver. unfold open_as. rewrite Hk. naive_solver.
    + rewrite O2, Hu by naive_solver. done.
  - intros id x h. rewrite O3, Hc, open_as_insert. case_decide as Hd; [subst x|done].
    unfold open_as. rewrite Hk. naive_solver.
Qed.

Lemma close_inv sys s now : sys_inv sys -> sys_inv (close_connection cfg base overflow sys s now).
Proof.
  intros Hinv. unfold close_connection. destruct (sys_tasks sys !! s) as [k|] eqn:Hk; [|done].
  pose proof (inv_task sys s k Hinv Hk) as Hok. pose proof Hinv as [Hn Hs Hm Hu Hc Hap].
  pose proof (Hs _ _ Hk) as Hsock.
  destruct (cleanup_effect cfg base overflow (sys_node sys) (k_app k) (k_conn k) now Hn Hok) as (W & M & U & C).
  rewrite Hsock in *. set (nd := cleanup_connection _ _ _ _ _ _ _ _) in *. clearbody nd.
  split; simpl; [| | | | |done].
  - by apply set_mbs_wf.
  - intros s' k' [_ H]%lookup_delete_Some. by apply Hs.
  - intros id n x. rewrite M, Hm, open_as_delete. unfold open_as. destruct (decide (x = s)) as [->|];
      [rewrite Hk|]; naive_solver.
  - intros id u x. rewrite U, Hu, open_as_delete. unfold open_as. destruct (decide (x = s)) as [->|];
      [rewrite Hk|]; naive_solver.
  - intros id x h. rewrite C, Hc, open_as_delete. unfold open_as. destruct (decide (x = s)) as [->|];
      [rewrite Hk|]; naive_solver.
Qed.

Lemma open_inv sys app s tx origin sent secs :
  sys_tasks sys !! s = None -> handle_for_socket (nd_channels (sys_node sys)) (app_id app) s = None ->
  sys_inv sys -> sys_inv (open_connection sys app s tx origin sent secs).2.
Proof.
  intros Hno Hfree Hinv. pose proof Hinv as [[Hmw Hb] Hs Hm Hu Hc Hap]. unfold open_connection.
  set (h := {| h_socket_id := s; h_tx := tx |}).
  assert (conn_of (nd_channels (sys_node sys)) (app_id app) (h_socket_id h) = None) as Hnone.
  { unfold conn_of, app_slot. unfold handle_for_socket in Hfree.
    destruct (nd_channels (sys_node sys) !! app_id app); [done|]. apply lookup_empty. }
  destruct (register_effect (nd_channels (sys_node sys)) app h Hnone) as (R1 & R2 & R3).
  pose proof (register_connection_wf (nd_channels (sys_node sys)) app h Hmw) as Hrw.
  destruct (register_connection (nd_channels (sys_node sys)) app h) as [[[]|e] m]; simpl in *.
  - assert (forall id n, ~ member (nd_channels (sys_node sys)) id n s) as Hnm.
    { intros id n Hx. apply Hm in Hx as (k & Hk & _). congruence. }
    assert (forall id u, s ∉ user_sockets (nd_channels (sys_node sys)) id u) as Hnu.
    { intros id u Hx. apply Hu in Hx as (k & Hk & _). congruence. }
    destruct sent; simpl.
    + split; simpl; [by split| | | | |done].
      * intros s' k [[<- <-]|[_ H]]%lookup_insert_Some; [done|by apply Hs].
      * intros id n x. rewrite R1, open_as_insert. case_decide as Hd; [subst x; simpl|apply Hm].
        split; [by intros ?%Hnm|]. set_solver.
      * intros id u x. rewrite R2, open_as_insert. case_decide as Hd; [subst x; simpl|apply Hu].
        split; [by intros ?%Hnu|]. naive_solver.
      * intros id x h'. rewrite R3, Hc, open_as_insert. case_decide as Hd; [subst x; simpl|naive_solver].
        unfold open_as. rewrite Hno. naive_solver.
    + destruct (unregister_effect m (app_id app) s) as (Q1 & Q2 & Q3).
      split; simpl; [split; [by apply unregister_connection_wf|done]|done| | | |done].
      * intros id n x. by rewrite Q1, R1, Hm.
      * intros id u x. by rewrite Q2, R2, Hu.
      * intros id x h'. rewrite Q3, R3, Hc. split; [naive_solver|]. intros Ho. split; [by left|].
        intros [-> ->]. destruct Ho as (k & Hk & _). congruence.
  - split; simpl; [by split|done| | | |done].
    + intros id n x. by rewrite R1, Hm.
    + intros id u x. by rewrite R2, Hu.
    + intros id x h'. rewrite R3, Hc. naive_solver.
Qed.
End Invariant.

Section Maintenance.
Context `{HI : HashIter} (cfg : Config).

(** Maintenance touches only the [has_been_pinged] flag of a connection. *)
Lemma maintain_tasks secs l (tasks0 : gmap string Task) acc :
  (forall s k, (s, k) ∈ l -> tasks0 !! s = Some k) ->
  (forall s k, acc.2 !! s = Some k -> exists k0 c, tasks0 !! s = Some k0 /\ k = set_task_conn k0 c /\
     c_socket_id c = c_socket_id (k_conn k0) /\ c_subscriptions c = c_subscriptions (k_conn k0) /\
     c_user_id c = c_user_id (k_conn k0)) ->
  (forall s, is_Some (tasks0 !! s) -> is_Some (acc.2 !! s)) ->
  let r := foldl (maintain_one secs) acc l in
  (forall s k, r.2 !! s = Some k -> exists k0 c, tasks0 !! s = Some k0 /\ k = set_task_conn k0 c /\
     c_socket_id c = c_socket_id (k_conn k0) /\ c_subscriptions c = c_subscriptions (k_conn k0) /\
     c_user_id c = c_user_id (k_conn k0)) /\
  (forall s, is_Some (tasks0 !! s) -> is_Some (r.2 !! s)).
Proof.
  revert acc. induction l as [|[s k] l IH]; intros acc Hl H1 H2; simpl; [done|].
  apply IH.
  - intros s' k' Hin. apply Hl. by right.
  - intros s' k'. unfold maintain_one. destruct acc as [mbs tasks].
    destruct (is_closed _ _); [apply H1|]. destruct (is_stale _ _); [apply H1|].
    destruct (is_inactive _ _); [|apply H1]. simpl.
    intros [[<- <-]|[_ Hx]]%lookup_insert_Some; [|by apply H1].
    exists k, (mark_pinged (k_conn k)). split; [apply Hl; by left|done].
  - intros s' Hs'. unfold maintain_one. specialize (H2 s' Hs'). destruct acc as [mbs tasks]. simpl in H2.
    destruct (is_closed _ _); [done|]. destruct (is_stale _ _); [done|].
    destruct (is_inactive _ _); [|done]. simpl. rewrite lookup_insert_is_Some. destruct (decide (s = s')); naive_solver.
Qed.

Lemma set_task_conn_id k : set_task_conn k (k_conn k) = k.
Proof. by destruct k. Qed.

Lemma maintain_inv sys now secs :
  sys_inv cfg sys -> sys_inv cfg (connection_maintenance sys now secs).
Proof.
  intros Hinv. pose proof Hinv as [[Hm Hb] Hs _ _ _ _]. unfold connection_maintenance.
  destruct (maintain_tasks secs (hiter (sys_tasks sys)) (sys_tasks sys) (nd_mbs (sys_node sys), sys_tasks sys))
    as [T1 T2].
  { intros s k. by rewrite elem_of_hiter. }
  { intros s k Hk. exists k, (k_conn k). by rewrite set_task_conn_id. }
  { done. }
  destruct (foldl _ _ _) as [mbs tasks]. simpl in *. apply (inv_agree cfg sys); [done| | | |].
  - split; [by apply gc_wf|done].
  - apply same_roster_agree, gc_same.
  - intros s k Hk. destruct (T1 _ _ Hk) as (k0 & c & H0 & -> & Hc & _). simpl. rewrite Hc. by apply Hs.
  - intros id s P HP. unfold open_as. split.
    + intros (k & Hk & Hid & Hp). destruct (T1 _ _ Hk) as (k0 & c & H0 & -> & _ & Hsub & Hu).
      exists k0. split_and!; [done|done|]. by apply (HP k0 c).
    + intros (k0 & Hk0 & Hid & Hp). destruct (T2 s) as [k Hk]; [eauto|].
      destruct (T1 _ _ Hk) as (k1 & c & H1 & -> & _ & Hsub & Hu). simplify_eq.
      eexists. split_and!; [exact Hk|done|]. by apply (HP k0 c).
Qed.

End Maintenance.

(** ** What the background tasks do to the roster *)

Section TaskRosters.
Context `{HI : HashIter} `{WI : Wire} `{SJ : SerdeJson}.
Context (cfg : Config) (base : Z) (overflow : WebhookOverflow).
Implicit Types nd : Server.

(** A step that keeps a node well formed and its roster as it was; [harmless]
    steps leave what is known of the peers alone, too. *)
Definition tame nd nd' : Prop := node_wf cfg nd -> node_wf cfg nd' /\ keeps cfg nd nd'.
Definition harmless nd nd' : Prop := tame nd nd' /\ nd_view nd' = nd_view nd.

Lemma tame_trans nd1 nd2 nd3 : tame nd1 nd2 -> tame nd2 nd3 -> tame nd1 nd3.
Proof. intros H1 H2 Hw. destruct (H1 Hw) as [W1 K1], (H2 W1) as [W2 K2]. split; [done|by eapply keeps_trans]. Qed.

Lemma tame_same nd nd' : nd_channels nd' = nd_channels nd -> nd_bus nd' = nd_bus nd -> tame nd nd'.
Proof. intros Hc Hb [H1 H2]. split; [split; [by rewrite Hc|by rewrite Hb]|by apply keeps_eq]. Qed.

Lemma harmless_same nd nd' :
  nd_channels nd' = nd_channels nd -> nd_bus nd' = nd_bus nd -> nd_view nd' = nd_view nd -> harmless nd nd'.
Proof. intros Hc Hb Hv. split; [by apply tame_same|done]. Qed.

Lemma harmless_refl nd : harmless nd nd.
Proof. by apply harmless_same. Qed.

Lemma harmless_trans nd1 nd2 nd3 : harmless nd1 nd2 -> harmless nd2 nd3 -> harmless nd1 nd3.
Proof. intros [H1 V1] [H2 V2]. split; [by eapply tame_trans|congruence]. Qed.

Lemma harmless_fold {B} (f : Server -> B -> Server) l nd :
  (forall nd x, harmless nd (f nd x)) -> harmless nd (foldl f nd l).
Proof.
  intros Hf. revert nd. induction l as [|x l IH]; intros nd; simpl; [apply harmless_refl|].
  eapply harmless_trans; [apply Hf|apply IH].
Qed.

Lemma harmless_manager nd m :
  (manager_wf (nd_channels nd) -> manager_wf m) -> same_roster (nd_channels nd) m -> harmless nd (set_manager nd m).
Proof. intros Hm Hs. split; [|done]. intros [H1 H2]. split; [split; [by apply Hm|done]|by apply keeps_manager]. Qed.

Lemma harmless_touch nd id : harmless nd (set_manager nd (touch_slot (nd_channels nd) id)).
Proof. apply harmless_manager; [apply touch_slot_wf|apply touch_slot_same]. Qed.

Lemma harmless_scaling nd env now : news_of (payload env) = None -> harmless nd (when_scaling cfg nd env now).
Proof.
  intros Hn. unfold when_scaling. destruct (scaling_enabled cfg); [|apply harmless_refl].
  split; [|done]. intros Hw. split; [by apply publish_env_wf|by apply publish_env_keeps].
Qed.

(** Snapshots only publish. *)
Definition publishes nd nd' : Prop := nd_channels nd' = nd_channels nd /\ (bus_ok cfg nd -> bus_ok cfg nd').

Lemma publishes_trans nd1 nd2 nd3 : publishes nd1 nd2 -> publishes nd2 nd3 -> publishes nd1 nd3.
Proof. intros [H1 B1] [H2 B2]. split; [congruence|auto]. Qed.

Lemma publishes_scaling nd env now : publishes nd (when_scaling cfg nd env now).
Proof. split; [apply when_scaling_channels|apply when_scaling_ok]. Qed.

Lemma publishes_next_seq nd : publishes nd (node_next_seq nd).2.
Proof.
  split; [by unfold node_next_seq; destruct (next_seq _)|].
  unfold bus_ok, node_next_seq. intros [H1 H2 H3]. by split.
Qed.

Lemma snapshot_channel_publishes app now acc ch : publishes acc.1 (snapshot_channel cfg app now acc ch).1.
Proof.
  destruct acc as [nd counts]. unfold snapshot_channel. destruct (is_presence _); [|by case_ifs].
  pose proof (publishes_next_seq nd) as Hn. destruct (node_next_seq nd) as [seq nd1]. simpl in Hn.
  destruct (presence_snapshot ch); [|done]. destruct (_ =? 0); [done|].
  eapply publishes_trans; [exact Hn|apply publishes_scaling].
Qed.

Lemma snapshots_publishes nd app now : publishes nd (publish_snapshots_for_app cfg nd app now).
Proof.
  unfold publish_snapshots_for_app. pose proof (publishes_next_seq nd) as Hn.
  destruct (node_next_seq nd) as [seq nd1]. simpl in Hn.
  assert (forall chs acc, publishes acc.1 (foldl (snapshot_channel cfg app now) acc chs).1) as Hf.
  { induction chs as [|ch chs IH]; intros acc; simpl; [by split|].
    eapply publishes_trans; [apply snapshot_channel_publishes|apply IH]. }
  specialize (Hf (all_channels (nd_channels nd1) (app_id app)) (nd1, [])).
  destruct (foldl _ _ _) as [nd2 counts]. simpl in Hf.
  pose proof (publishes_next_seq (publish_channel_count_snapshot cfg nd2 app counts seq now)) as Hs.
  destruct (node_next_seq _) as [seq' nd3]. simpl in Hs.
  eapply publishes_trans; [exact Hn|]. eapply publishes_trans; [exact Hf|].
  eapply publishes_trans; [apply publishes_scaling|]. eapply publishes_trans; [exact Hs|apply publishes_scaling].
Qed.

Lemma publisher_publishes nd apps now : publishes nd (presence_snapshot_publisher cfg nd apps now).
Proof.
  unfold presence_snapshot_publisher. generalize (hvalues (by_id apps)). intros l. revert nd.
  induction l as [|app l IH]; intros nd; simpl; [by split|].
  eapply publishes_trans; [apply snapshots_publishes|apply IH].
Qed.

Lemma expire_member_harmless apps now nd e : harmless nd (expire_member cfg base overflow apps now nd e).
Proof.
  unfold expire_member. destruct (app_by_id _ _); [|apply harmless_refl].
  destruct (find_channel _ _ _); [|apply harmless_refl]. cbv zeta. case_ifs; by apply harmless_same.
Qed.

Lemma expire_count_harmless apps now nd e : harmless nd (expire_count cfg base overflow apps now nd e).
Proof.
  destruct e as [[[id channel] peer] n]. unfold expire_count. destruct (app_by_id _ _); [|apply harmless_refl].
  destruct (find_channel _ _ _); cbv zeta; case_ifs; by apply harmless_same.
Qed.

Lemma expire_session_harmless apps now nd e : harmless nd (expire_session apps now nd e).
Proof.
  destruct e as [[id peer] uid]. unfold expire_session. destruct (app_by_id _ _) as [app|]; [|apply harmless_refl].
  cbv zeta. case_ifs; [apply harmless_touch|]. destruct (watchers_of _ _ _); [apply harmless_touch|].
  eapply harmless_trans; [apply harmless_touch|by apply harmless_same].
Qed.

Lemma sweep_tame nd apps now : tame nd (presence_cache_gc cfg base overflow nd apps now).
Proof.
  unfold presence_cache_gc.
  destruct (PresenceCache.gc_expired _ _) as [e1 t1].
  set (nd1 := foldl (expire_member cfg base overflow apps now) _ e1).
  destruct (PeerChannelCounts.gc_expired _ _) as [e2 t2].
  set (nd2 := foldl (expire_count cfg base overflow apps now) _ e2).
  destruct (PeerUserSessions.gc_expired _ _) as [e3 t3].
  assert (forall nd v, tame nd (set_view nd v)) as Hv by (intros; by apply tame_same).
  eapply tame_trans; [|apply Hv].
  eapply tame_trans; [|apply harmless_fold; intros; apply expire_session_harmless].
  eapply tame_trans; [|apply Hv]. unfold nd2.
  eapply tame_trans; [|apply harmless_fold; intros; apply expire_count_harmless].
  eapply tame_trans; [|apply Hv]. unfold nd1.
  eapply tame_trans; [apply Hv|apply harmless_fold; intros; apply expire_member_harmless].
Qed.
End TaskRosters.

(** ** What the HTTP API does to the roster *)

Section ApiRosters.
Context `{HI : HashIter} `{WI : Wire} `{SJ : SerdeJson} `{CR : Crypto} `{SB : SecretBox} `{BP : BodyParser}.
Context (cfg : Config) (prefix : string).
Implicit Types nd : Server.

(** Storing back a channel whose cache was read. *)
Lemma put_back_harmless nd id name ch ch' :
  find_channel (nd_channels nd) id name = Some ch ->
  ch_name ch' = ch_name ch -> ch_kind ch' = ch_kind ch -> ch_members ch' = ch_members ch ->
  (channel_wf ch -> channel_wf ch') -> harmless cfg nd (set_manager nd (put_channel (nd_channels nd) id name ch')).
Proof.
  intros Hf Hn Hk Hm Hw. apply harmless_manager; [|by eapply put_channel_same].
  intros H1. destruct (find_channel_wf _ _ _ _ H1 Hf) as [[Hcn Hcw] Hl].
  apply put_live_channel_wf; [done|split; [congruence|by apply Hw]|]. by apply (chan_live_ext ch).
Qed.

Lemma fleet_stats_harmless nd app channel now : harmless cfg nd (fleet_channel_stats nd app channel now).2.
Proof.
  unfold fleet_channel_stats, channel_stats.
  destruct (find_channel (nd_channels nd) (app_id app) channel) as [ch|] eqn:E.
  - pose proof (stats_frame ch now) as (F1 & F2 & F3). pose proof (stats_wf ch now) as Fw.
    destruct (stats ch now) as [st ch']. simpl in *. case_ifs; by apply (put_back_harmless _ _ _ ch).
  - case_ifs; by apply harmless_same.
Qed.

Lemma dispatch_message_harmless nd app channel event data ex n now :
  harmless cfg nd (dispatch_message cfg nd app channel event data ex n now).2.
Proof.
  unfold dispatch_message. destruct (maybe_encrypt _ _ _ _ _) as [d|]; [|apply harmless_refl]. simpl.
  eapply harmless_trans; [|by apply harmless_scaling].
  assert (nd_bus (broadcast_locally_with_app nd (app_id app) (Some app) channel event d ex now) = nd_bus nd /\
          nd_view (broadcast_locally_with_app nd (app_id app) (Some app) channel event d ex now) = nd_view nd) as [Hb Hv].
  { unfold broadcast_locally_with_app. destruct (strip_prefix _ channel); [done|].
    destruct (get_or_create_cache_channel (nd_channels nd) app channel) as [[c|] m]; simpl; [done|].
    by destruct (find_channel m (app_id app) channel). }
  split; [|done]. intros [H1 H2].
  split; [split; [by apply broadcast_locally_wf|by rewrite Hb]|by apply broadcast_locally_keeps].
Qed.

Lemma dispatch_channels_harmless channels nd app name data ex nonces now :
  harmless cfg nd (dispatch_channels cfg nd app name data ex channels nonces now).2.
Proof.
  revert nd nonces. induction channels as [|ch chs IH]; intros nd nonces; [apply harmless_refl|]. cbn [dispatch_channels].
  pose proof (dispatch_message_harmless nd app ch name data ex (default "" (head nonces)) now) as H.
  destruct (dispatch_message _ _ _ _ _ _ _ _ _) as [[[]|e] nd1]; simpl in H; [|done].
  eapply harmless_trans; [exact H|apply IH].
Qed.

Lemma dispatch_batch_harmless batch nd app nonces i now out :
  harmless cfg nd (dispatch_batch cfg nd app batch nonces i now out).2.
Proof.
  revert nd i out. induction batch as [|ev batch IH]; intros nd i out; [apply harmless_refl|]. cbn [dispatch_batch].
  pose proof (dispatch_channels_harmless (event_channels ev) nd app (ep_name ev) (data_to_string (ep_data ev))
    (ep_socket_id ev) (nonces i) now) as H. unfold dispatch_event.
  destruct (dispatch_channels _ _ _ _ _ _ _ _ _) as [[[]|e] nd1]; simpl in H; [|done].
  eapply harmless_trans; [exact H|].
  destruct (ep_info ev); [destruct (head (event_channels ev)) as [ch|]|]; try apply IH.
  pose proof (fleet_stats_harmless nd1 app ch now) as Hs. destruct (fleet_channel_stats _ _ _ _) as [st nd2].
  eapply harmless_trans; [exact Hs|apply IH].
Qed.

Lemma channel_info_harmless app info now chs acc :
  harmless cfg acc.2 (foldl (add_channel_info app info now) acc chs).2.
Proof.
  revert acc. induction chs as [|ch chs IH]; intros [obj nd]; [apply harmless_refl|]. cbn [foldl].
  eapply harmless_trans; [|apply IH]. unfold add_channel_info.
  pose proof (fleet_stats_harmless nd app ch now) as Hs. by destruct (fleet_channel_stats _ _ _ _).
Qed.

Lemma publish_event_harmless nd apps id rq nonces now secs :
  harmless cfg nd (publish_event cfg prefix nd apps id rq nonces now secs).2.
Proof.
  unfold publish_event. destruct (authorize _ _ _ _ _ _) as [app|]; [|apply harmless_refl].
  destruct (parse_event _) as [ev|]; [|apply harmless_refl].
  destruct (validate_event_payload _ _); [|apply harmless_refl]. unfold dispatch_event.
  pose proof (dispatch_channels_harmless (event_channels ev) nd app (ep_name ev) (data_to_string (ep_data ev))
    (ep_socket_id ev) nonces now) as H.
  destruct (dispatch_channels _ _ _ _ _ _ _ _ _) as [[[]|e] nd1]; simpl in H; [|done].
  destruct (ep_info ev) as [info|]; [|done].
  pose proof (channel_info_harmless app info now (event_channels ev) ([], nd1)) as Hs.
  destruct (foldl _ _ _) as [obj nd2]. eapply harmless_trans; [exact H|exact Hs].
Qed.

Lemma publish_batch_harmless nd apps id rq nonces now secs :
  harmless cfg nd (publish_batch_events cfg prefix nd apps id rq nonces now secs).2.
Proof.
  unfold publish_batch_events. destruct (authorize _ _ _ _ _ _) as [app|]; [|apply harmless_refl].
  destruct (parse_batch _) as [[|ev batch]|]; [apply harmless_refl| |apply harmless_refl].
  destruct (check_each _ _); [|apply harmless_refl].
  pose proof (dispatch_batch_harmless (ev :: batch) nd app nonces 0 now []) as H.
  by destruct (dispatch_batch _ _ _ _ _ _ _ _) as [[out|e] nd1].
Qed.

Lemma user_events_harmless nd apps id uid rq now secs :
  harmless cfg nd (user_events cfg prefix nd apps id uid rq now secs).2.
Proof.
  unfold user_events. destruct (authorize _ _ _ _ _ _) as [app|]; [|apply harmless_refl].
  destruct (parse_user_event _); [|apply harmless_refl]. destruct (validate_event_name _); [|apply harmless_refl].
  case_ifs; [apply harmless_refl|]. eapply harmless_trans; [|by apply harmless_scaling]. by apply harmless_same.
Qed.

Lemma terminate_harmless nd apps id uid rq body now secs :
  harmless cfg nd (terminate_user_impl cfg prefix nd apps id uid rq body now secs).2.
Proof.
  unfold terminate_user_impl. destruct (authorize _ _ _ _ _ _) as [app|]; [|apply harmless_refl].
  eapply harmless_trans; [|by apply harmless_scaling]. by apply harmless_same.
Qed.
Lemma cache_info_harmless nd app channel now : harmless cfg nd (cache_info nd app channel now).2.
Proof.
  unfold cache_info. destruct (find_channel (nd_channels nd) (app_id app) channel) as [ch|] eqn:E; [|apply harmless_refl].
  pose proof (cached_payload_frame ch now) as (F1 & F2 & F3). pose proof (cached_payload_wf ch now) as Fw.
  unfold cached_payload_with_ttl. destruct (cached_payload ch now) as [r ch']. simpl in *.
  by apply (put_back_harmless _ _ _ ch).
Qed.

Lemma api_channel_info_harmless nd apps id channel rq now secs :
  harmless cfg nd (channel_info prefix nd apps id channel rq now secs).2.
Proof.
  unfold channel_info. destruct (authorize _ _ _ _ _ _) as [app|]; [|apply harmless_refl].
  pose proof (fleet_stats_harmless nd app channel now) as Hs. destruct (fleet_channel_stats _ _ _ _) as [st nd1].
  eapply harmless_trans; [exact Hs|]. destruct (wants _ _); [|apply harmless_refl].
  pose proof (cache_info_harmless nd1 app channel now) as Hc. by destruct (cache_info _ _ _ _).
Qed.

(** Asking the fleet, and listing the local channels. *)
Lemma ask_fleet_harmless nd app query req now expected nd' :
  ask_fleet_start cfg nd app query req now = Some (expected, nd') -> harmless cfg nd nd'.
Proof.
  unfold ask_fleet_start. destruct (scaling_enabled cfg); [|done]. intros [= _ <-].
  split; [|done]. intros [H1 H2]. split; [by apply publish_env_wf|].
  apply (keeps_trans _ _ (set_inflight nd (<[req := []]> (nd_inflight nd)))); [by apply keeps_eq|].
  by apply publish_env_keeps.
Qed.

Lemma list_local_harmless nd app filter now : harmless cfg nd (list_local nd app filter now).2.
Proof.
  unfold list_local.
  set (wanted := List.filter _ _). pose proof (metrics_fold_same (app_id app) now wanted ([], nd_channels nd)) as Hf.
  pose proof (metrics_fold_wf (app_id app) now wanted ([], nd_channels nd)) as Hw.
  destruct (foldl (channel_metric _ _) _ wanted) as [metrics m]. simpl in *.
  assert (manager_wf (nd_channels nd) -> forall ch, ch ∈ wanted ->
    find_channel (nd_channels nd) (app_id app) (ch_name ch) = Some ch /\ channel_wf ch /\ chan_live ch) as Hin.
  { intros H ch Hin. apply list_elem_of_In, List.filter_In in Hin as [Hin _]. apply list_elem_of_In in Hin.
    unfold all_channels in Hin. unfold find_channel.
    destruct (nd_channels nd !! app_id app) as [slot|] eqn:E; [|set_solver].
    apply elem_of_hvalues in Hin as [name Hl]. simpl.
    destruct (slot_channels _ (H _ _ E) _ _ Hl) as [[-> ?] ?]. done. }
  split; [|done]. intros [H1 H2]. split.
  - split; [|done]. apply Hw; [|done]. apply Forall_forall. intros ch Hc. by destruct (Hin H1 ch Hc).
  - apply keeps_manager; [|done]. apply Hf. intros ch Hc. exists ch. by destruct (Hin H1 ch Hc).
Qed.

Lemma listing_harmless nd app merged remote rq now :
  harmless cfg nd (list_channels_finish nd app merged remote rq now).2.
Proof.
  unfold list_channels_finish.
  cbv zeta. match goal with |- context [list_entry app ?i now] => set (info := i) end. generalize (bt_iter (foldl merge_metric merged remote)). intros l.
  assert (forall acc, harmless cfg acc.2 (foldl (list_entry app info now) acc l).2) as Hf.
  { induction l as [|[name e] l IH]; intros [obj nd1]; [apply harmless_refl|]. cbn [foldl].
    eapply harmless_trans; [|apply IH]. unfold list_entry. destruct (mg_occupied e); [|apply harmless_refl]. simpl.
    destruct (wants info "cache"); [|apply harmless_refl].
    pose proof (cache_info_harmless nd1 app name now) as Hc. by destruct (cache_info _ _ _ _). }
  specialize (Hf ([], nd)). by destruct (foldl _ _ _).
Qed.

Lemma serve_harmless nd apps method uri segments read nonces batch_nonces request_id now secs :
  harmless cfg nd (serve cfg prefix nd apps method uri segments read nonces batch_nonces request_id now secs).2.
Proof.
  unfold serve. destruct (route method segments) as [[id endpoint]|]; [|apply harmless_refl].
  destruct read as [| |body]; [apply harmless_refl|apply harmless_refl|]. simpl. cbv zeta.
  destruct endpoint; simpl.
  - apply publish_event_harmless.
  - apply publish_batch_harmless.
  - unfold list_channels_begin. destruct (authorize _ _ _ _ _ _) as [app|]; [|apply harmless_refl].
    cbv zeta. match goal with |- context [list_local nd app ?x now] => set (f := x) end.
    pose proof (list_local_harmless nd app f now) as Hl.
    destruct (list_local nd app f now) as [merged nd1]. simpl in Hl.
    destruct (ask_fleet_start _ _ _ _ _ _) as [[expected nd2]|] eqn:E; [|done].
    eapply harmless_trans; [exact Hl|by eapply ask_fleet_harmless].
  - apply api_channel_info_harmless.
  - apply harmless_refl.
  - unfold connections_begin. destruct (authorize _ _ _ _ _ _) as [app|]; [|apply harmless_refl].
    destruct (ask_fleet_start _ _ _ _ _ _) as [[expected nd2]|] eqn:E; [|apply harmless_refl].
    by eapply ask_fleet_harmless.
  - apply user_events_harmless.
  - apply terminate_harmless.
  - apply terminate_harmless.
Qed.
End ApiRosters.

Section Safety.
Context `{HI : HashIter} `{WI : Wire} `{SJ : SerdeJson} `{CR : Crypto} `{IP : InboundParser}.
Context (cfg : Config) (base : Z) (overflow : WebhookOverflow).
Context `{GL : GlobLib} `{FG : Figment} `{SB : SecretBox} `{BP : BodyParser} (prefix : string).

(** A frame changes the state of its own connection only. *)
Lemma on_frame_inv sys s k frame lo now secs :
  sys_inv cfg sys -> sys_tasks sys !! s = Some k ->
  let r := on_frame cfg base overflow (sys_node sys) (sys_apps sys) k frame lo now secs in
  sys_inv cfg (put sys r.1.2 (<[s := r.2]> (sys_tasks sys))).
Proof.
  intros Hinv Hk. pose proof (inv_task cfg sys s k Hinv Hk) as Hok.
  pose proof (index_ids _ (inv_apps _ _ Hinv)) as Hid.
  pose proof (inv_socket _ _ Hinv _ _ Hk) as Hsock.
  assert (forall k', app_id (k_app k') = app_id (k_app k) -> k_handle k' = k_handle k ->
    c_socket_id (k_conn k') = c_socket_id (k_conn k) -> c_subscriptions (k_conn k') = c_subscriptions (k_conn k) ->
    c_user_id (k_conn k') = c_user_id (k_conn k) ->
    sys_inv cfg (put sys (sys_node sys) (<[s := k']> (sys_tasks sys)))) as Hsame.
  { intros k' H1 H2 H3 H4 H5.
    apply (inv_update cfg sys _ s k k');
      [done|done|apply (inv_node _ _ Hinv)|done|done| |apply agree_others, agree_refl].
    destruct Hok as [_ T2 T3]. rewrite Hsock in *.
    split; [done| |]; intros; [by rewrite T2, H4|by rewrite T3, H5]. }
  unfold on_frame. destruct frame as [text| |]; [| |by apply Hsame].
  - set (k1 := set_task_conn k (touch (k_conn k) secs)). cbv zeta.
    set (lim := match k_limiter k1 with Some _ => _ | None => _ end).
    assert (exists rl, lim.2 = set_task_limiter k1 rl) as [rl Hlim].
    { unfold lim. destruct (k_limiter k1) eqn:E; [destruct (check lo _ now); eauto|].
      exists None. rewrite <- E. by destruct k1. }
    destruct lim as [allowed k2]. simpl in Hlim. subst k2.
    destruct allowed; simpl; [|by apply Hsame].
    destruct (_ <? _)%Z; [by apply Hsame|].
    pose proof (inbound_handled cfg base overflow (sys_node sys) (app_by_id (sys_apps sys)) (k_app k) (touch (k_conn k) secs)
      (k_handle k) text now Hid) as Hh.
    destruct (handle_inbound _ _ _ _ _ _ _ _ _ _) as [[rsp nd] c]. simpl in *.
    destruct Hh as (W & T & O); [apply (inv_node _ _ Hinv)| |].
    { simpl. destruct Hok as [? ? ?]. by split. }
    simpl in *. rewrite Hsock in T, O. by apply (inv_update cfg sys nd s k).
  - set (k1 := set_task_conn k (touch (k_conn k) secs)). cbv zeta.
    set (lim := match k_limiter k1 with Some _ => _ | None => _ end).
    assert (exists rl, lim.2 = set_task_limiter k1 rl) as [rl Hlim].
    { unfold lim. destruct (k_limiter k1) eqn:E; [destruct (check lo _ now); eauto|].
      exists None. rewrite <- E. by destruct k1. }
    destruct lim as [allowed k2]. simpl in Hlim. subst k2. destruct allowed; by apply Hsame.
Qed.

Lemma roster_inv sys nd :
  sys_inv cfg sys -> node_wf cfg nd -> same_roster (nd_channels (sys_node sys)) (nd_channels nd) ->
  sys_inv cfg (put sys nd (sys_tasks sys)).
Proof.
  intros Hinv Hw Hk. apply (inv_agree cfg sys); [done|done| |apply (inv_socket _ _ Hinv)|done].
  by apply same_roster_agree.
Qed.

Lemma tame_inv sys nd :
  sys_inv cfg sys -> tame cfg (sys_node sys) nd -> sys_inv cfg (put sys nd (sys_tasks sys)).
Proof. intros Hinv Hh. destruct (Hh (inv_node _ _ Hinv)) as [Hw [Hk _]]. by apply roster_inv. Qed.

Lemma publishes_inv sys nd :
  sys_inv cfg sys -> publishes cfg (sys_node sys) nd -> sys_inv cfg (put sys nd (sys_tasks sys)).
Proof.
  intros Hinv [Hc Hb]. destruct (inv_node _ _ Hinv) as [H1 H2].
  apply roster_inv; [done|split; [by rewrite Hc|by apply Hb]|by rewrite Hc].
Qed.

Lemma reload_inv sys raws : sys_inv cfg sys -> sys_inv cfg (reload_step sys raws).
Proof.
  intros Hinv. unfold reload_step.
  destruct (reload_apps_with (sys_apps sys) raws) as [[reload|e] next] eqn:E; [|done].
  destruct (reload_spec _ _ _ _ (inv_apps _ _ Hinv) E) as [Hx _].
  destruct Hinv as [Hn Hs Hm Hu Hc _]. split; simpl; try done. by apply set_mbs_wf.
Qed.

Lemma own_step_inv sys sys' :
  sys_inv cfg sys -> own_step cfg base overflow prefix sys sys' -> sys_inv cfg sys'.
Proof.
  intros Hinv Hstep. destruct Hstep as [sys app s tx origin sent secs Hno Hfree _|sys s frame lo now secs
    |sys s k Hk|sys s now|sys now secs|sys now|sys raws|sys method uri segments read nonces batch_nonces request_id now secs
    |sys request_id expected|sys app merged remote rq now].
  - by apply open_inv.
  - unfold frame_step. destruct (sys_tasks sys !! s) as [k|] eqn:Hk; [|done].
    pose proof (on_frame_inv sys s k frame lo now secs Hinv Hk) as H.
    destruct (on_frame _ _ _ _ _ _ _ _ _ _) as [[[r stop] nd] k']. simpl in *.
    destruct stop; [by apply close_inv|done].
  - apply tame_inv; [done|]. apply tame_same; unfold on_outbound; destruct (nd_mbs _ !! _) as [mb|]; try done;
      destruct (mb_queue mb) as [|[] ?]; done.
  - by apply close_inv.
  - by apply maintain_inv.
  - apply publishes_inv; [done|]. apply publisher_publishes.
  - by apply reload_inv.
  - apply tame_inv; [done|]. apply serve_harmless.
  - apply tame_inv; [done|]. by apply tame_same.
  - apply tame_inv; [done|]. apply listing_harmless.
Qed.

Lemma step_inv sys sys' :
  sys_inv cfg sys -> sys_step cfg base overflow prefix sys sys' -> sys_inv cfg sys'.
Proof.
  intros Hinv Hstep. destruct Hstep as [sys sys' Hown|sys env now|sys now|sys op Hop].
  - by eapply own_step_inv.
  - apply tame_inv; [done|]. intros Hw. split; [by apply handle_incoming_wf|]. apply incoming_keeps, Hw.
  - apply tame_inv; [done|]. apply sweep_tame.
  - apply publishes_inv; [done|]. split; [done|]. unfold bus_ok. simpl. intros Hb.
    assert (op = Forward \/ op = Take \/ op = Mark \/ op = Finish) as [->|[->|[->| ->]]] by set_solver.
    + by apply forward_one_spec.
    + by apply publisher_take_spec.
    + by apply publisher_mark_spec.
    + by apply publisher_done_spec.
Qed.

Lemma start_inv raws idx : build_app_index raws = Ok idx -> sys_inv cfg (sys_start cfg overflow idx).
Proof.
  intros Hb.
  assert (forall id, app_slot (∅ : Manager) id = AppChannels_default) as Hslot
    by (intros; unfold app_slot; by rewrite lookup_empty).
  split; simpl.
  - split; [apply manager_wf_empty|apply bus_new_wf].
  - intros s k H. by rewrite lookup_empty in H.
  - intros id n s. unfold open_as. setoid_rewrite lookup_empty. split; [|naive_solver].
    intros (ch & Hc & _). unfold find_channel in Hc. by rewrite lookup_empty in Hc.
  - intros id u s. unfold user_sockets. rewrite Hslot. simpl. rewrite lookup_empty. simpl.
    split; [set_solver|]. intros (k & Hk & _). by rewrite lookup_empty in Hk.
  - intros id s h. unfold conn_of. rewrite Hslot. simpl. rewrite lookup_empty.
    split; [done|]. intros (k & Hk & _). by rewrite lookup_empty in Hk.
  - by apply index_apps_Ok in Hb as [Hw _]; [|apply index_wf_empty].
Qed.

Lemma reachable_inv sys :
  sys_reachable cfg base overflow prefix sys -> sys_inv cfg sys.
Proof. induction 1 as [raws idx Hb|sys sys' _ IH Hstep]; [by eapply start_inv|by eapply step_inv]. Qed.
End Safety.

(** ** Each connection has its own mailbox and keeps its application *)

Section Tracked.
Context `{HI : HashIter} `{WI : Wire} `{SJ : SerdeJson} `{CR : Crypto} `{IP : InboundParser}.
Context (cfg : Config) (base : Z) (overflow : WebhookOverflow).
Context `{GL : GlobLib} `{FG : Figment} `{SB : SecretBox} `{BP : BodyParser} (prefix : string).

Record tracked (tasks : gmap string Task) : Prop := {
  tracked_app : forall s k, tasks !! s = Some k -> c_app (k_conn k) = k_app k;
  tracked_tx : forall s s' k k', tasks !! s = Some k -> tasks !! s' = Some k' ->
    h_tx (k_handle k) = h_tx (k_handle k') -> s = s'
}.

Lemma tracked_delete tasks s : tracked tasks -> tracked (delete s tasks).
Proof.
  intros [H1 H2]. split.
  - intros s' k [_ H]%lookup_delete_Some. by eapply H1.
  - intros s1 s2 k1 k2 [_ ?]%lookup_delete_Some [_ ?]%lookup_delete_Some. by apply H2.
Qed.

(** Replacing a task by one with the same application and handle. *)
Lemma tracked_update tasks s k k' :
  tracked tasks -> tasks !! s = Some k -> k_handle k' = k_handle k -> c_app (k_conn k') = k_app k' ->
  tracked (<[s := k']> tasks).
Proof.
  intros [H1 H2] Hk Hh Ha. split.
  - intros s' k0 [[<- <-]|[_ H]]%lookup_insert_Some; [done|by eapply H1].
  - intros s1 s2 k1 k2 [[<- <-]|[N1 L1]]%lookup_insert_Some [[<- <-]|[N2 L2]]%lookup_insert_Some He;
      rewrite ?Hh in He; eauto.
Qed.

Lemma inbound_app nd apps app (c : Conn) h text now :
  c_app (handle_inbound cfg base overflow nd apps app c h text now).2 = c_app c.
Proof.
  unfold handle_inbound. destruct (parse_inbound text) as [f|]; [|done]. cbv zeta.
  destruct (String.eqb _ "pusher:ping"); [done|].
  destruct (String.eqb _ "pusher:subscribe").
  { unfold handle_subscribe. destruct (check_subscribe _ _ _) as [[n p]|]; [|done].
    destruct (subscribe_with _ _ _ _ _ _ _ _ _ _) as [[[o|] m] [[nd1 rm] rp]]; done. }
  destruct (String.eqb _ "pusher:unsubscribe"); [unfold handle_unsubscribe; by destruct (field_str _ _)|].
  destruct (String.eqb _ "pusher:signin").
  { unfold handle_signin. destruct (field_str _ "auth"); [|done]. destruct (field_str _ "user_data"); [|done].
    destruct (negb _); [done|]. destruct (id_text _); [|done]. destruct (is_empty_str _); [done|].
    destruct (c_user_id c); [done|]. destruct (read_watchlist _) as [[w tr]|]; [|done].
    unfold signin_transition. destruct (bind_user _ _ _ _) as [b m]. by destruct w. }
  destruct (starts_with _ _); [|done]. destruct (_ <? _)%Z; [done|]. by destruct (handle_client_event _ _ _ _ _ _ _ _ _).
Qed.

Lemma on_frame_task nd apps k frame lo now secs :
  let k' := (on_frame cfg base overflow nd apps k frame lo now secs).2 in
  k_handle k' = k_handle k /\ k_app k' = k_app k /\ c_app (k_conn k') = c_app (k_conn k).
Proof.
  unfold on_frame. destruct frame as [text| |]; [| |done].
  - cbv zeta. destruct (k_limiter _); [destruct (check lo _ now) as [[] rl]|]; simpl; [| done |];
      (destruct (_ <? _)%Z; [done|]);
      match goal with |- context [handle_inbound ?a ?b ?o ?n ?ap ?k ?c ?h ?t ?now] =>
        pose proof (inbound_app n ap k c h t now) as Ha; destruct (handle_inbound a b o n ap k c h t now) as [[rsp nd'] c'] end;
      simpl in *; by rewrite Ha.
  - cbv zeta. destruct (k_limiter _); [destruct (check lo _ now) as [[] rl]|]; done.
Qed.

Lemma step_tracked sys sys' :
  tracked (sys_tasks sys) -> sys_step cfg base overflow prefix sys sys' -> tracked (sys_tasks sys').
Proof.
  intros Ht Hstep. destruct Hstep as [sys sys' Hown|sys env now|sys now|sys op _]; [|done|done|done].
  destruct Hown as [sys app s tx origin sent secs Hno _ Hfresh|sys s frame lo now secs
    |sys s k Hk|sys s now|sys now secs|sys now|sys raws|sys method uri segments read nonces batch_nonces request_id now secs
    |sys request_id expected|sys app merged remote rq now]; try done.
  - unfold open_connection. destruct (register_connection _ _ _) as [[[]|] m]; [|done]. destruct sent; [|done].
    simpl. destruct Ht as [H1 H2]. split.
    + intros s' k [[<- <-]|[_ H]]%lookup_insert_Some; [done|by eapply H1].
    + intros s1 s2 k1 k2 [[<- <-]|[N1 L1]]%lookup_insert_Some [[<- <-]|[N2 L2]]%lookup_insert_Some He; simpl in *; eauto.
      * by destruct (Hfresh _ _ L2).
      * by destruct (Hfresh _ _ L1).
  - unfold frame_step. destruct (sys_tasks sys !! s) as [k|] eqn:Hk; [|done].
    pose proof (on_frame_task (sys_node sys) (sys_apps sys) k frame lo now secs) as (F1 & F2 & F3).
    destruct (on_frame _ _ _ _ _ _ _ _ _ _) as [[[r stop] nd] k']. simpl in *.
    assert (tracked (<[s := k']> (sys_tasks sys))) as Ht'.
    { apply (tracked_update _ s k k' Ht); try done. rewrite F2, F3. by eapply tracked_app. }
    destruct stop; [|done]. unfold close_connection. simpl. rewrite lookup_insert_eq. simpl. by apply tracked_delete.
  - unfold close_connection. destruct (sys_tasks sys !! s); [|done]. by apply tracked_delete.
  - unfold connection_maintenance.
    assert (forall l acc, tracked acc.2 -> (forall s k, (s, k) ∈ l -> exists k0, acc.2 !! s = Some k0 /\
        k_handle k0 = k_handle k /\ k_app k0 = k_app k) -> (forall s k, (s, k) ∈ l -> c_app (k_conn k) = k_app k) ->
      tracked (foldl (maintain_one secs) acc l).2) as Hf.
    { induction l as [|[s k] l IH]; intros acc Ha Hl Hc; [done|]. cbn [foldl].
      destruct (Hl s k) as (k0 & L0 & Hh & Hap); [by left|].
      assert ((maintain_one secs acc (s, k)).2 = acc.2 \/
              (maintain_one secs acc (s, k)).2 = <[s := set_task_conn k (mark_pinged (k_conn k))]> acc.2) as [E|E].
      { unfold maintain_one. destruct acc. case_ifs; auto. }
      all: apply IH; rewrite ?E; [| |intros; eapply Hc; by right].
      - done.
      - intros; apply Hl; by right.
      - apply (tracked_update _ s k0); try done. simpl. eapply Hc. by left.
      - intros s' k' Hin. destruct (Hl s' k') as (k1 & L1 & Hh1 & Ha1); [by right|].
        destruct (decide (s' = s)) as [->|Hne]; [|rewrite lookup_insert_ne by done; eauto].
        rewrite lookup_insert_eq. eexists. split; [done|]. simpl. split; congruence. }
    specialize (Hf (hiter (sys_tasks sys)) (nd_mbs (sys_node sys), sys_tasks sys)).
    destruct (foldl _ _ _) as [mbs tasks]. simpl in *. apply Hf; [done| |].
    + intros s k Hin%elem_of_hiter. eauto.
    + intros s k Hin%elem_of_hiter. by eapply (tracked_app _ Ht).
  - unfold reload_step. by destruct (reload_apps_with _ _) as [[]].
Qed.

Lemma reachable_tracked sys : sys_reachable cfg base overflow prefix sys -> tracked (sys_tasks sys).
Proof.
  induction 1 as [raws idx _|sys sys' _ IH Hs]; [|by eapply step_tracked].
  split; simpl; intros; by rewrite lookup_empty in *.
Qed.
(** C1: In every history of the server (connections opening and closing, any
    frames, the background tasks, the turns of the publisher, reloads, any messages of peers, in any order): a socket is in a
    channel exactly when its connection is open and subscribed to it, it is in
    the user index exactly as the user its connection signed in as, and it is
    registered exactly while it is open; no two connections share a
    mailbox and the table of applications is consistent.  So no closed connection is left in a
    channel, and no broadcast misses a subscribed one. *)
Theorem server_invariant sys :
  sys_reachable cfg base overflow prefix sys -> sys_inv cfg sys /\ tracked (sys_tasks sys).
Proof. intros H. split; [by eapply reachable_inv|by apply reachable_tracked]. Qed.
End Tracked.
