(* ===== verification/HandlerProps.v ===== *)
(** * What clients can and cannot do

    Properties of the handlers of [Handler]: authorisation of joins, the caps,
    the identity of a signed-in socket, client events, the announcements of
    joins and leaves, and the presence data of a join. *)

From S2P Require Import Prelude.
From S2P Require Import Core.
From S2P Require Import Json.
From S2P Require Import Envelope.
From S2P Require Import Auth.
From S2P Require Import Connection.
From S2P Require Import Channel.
From S2P Require Import Manager.
From S2P Require Import Message.
From S2P Require Import PeerState.
From S2P Require Import Encryption.
From S2P Require Import Bus.
From S2P Require Import Dispatcher.
From S2P Require Import Webhooks.
From S2P Require Import Routes.
From S2P Require Import Handler.
From S2P Require Import Apps.
From S2P Require Import Router.
From S2P Require Import Tasks.
From S2P Require Import System.
From stdpp Require Import options.

Section Properties.
Context `{HI : HashIter} `{WI : Wire} `{SJ : SerdeJson} `{CR : Crypto} `{IP : InboundParser}.
Context (cfg : Config) (base : Z) (overflow : WebhookOverflow).
Implicit Types nd : Server.

(** ** Joins *)

(** What the checks of a subscribe frame guarantee. *)
Lemma check_subscribe_Ok app c data name p :
  check_subscribe app c data = Ok (name, p) ->
  field_str (data_object data) "channel" = Some name /\
  (len name <= MAX_CHANNEL_NAME_LEN)%Z /\ is_valid_channel_name name = true /\
  (is_private (kind name) = true -> exists auth,
     field_str (data_object data) "auth" = Some auth /\
     verify_channel_auth (app_key app) (c_socket_id c) name (field_str (data_object data) "channel_data")
       auth (app_secret app) = Ok tt) /\
  (is_subscribed c name = true \/
   (Z.of_nat (conn_subscription_count c) < max_channels_per_connection app)%Z) /\
  presence_of_join app (kind name) (field_str (data_object data) "channel_data") = Ok p.
Proof.
  unfold check_subscribe. destruct (field_str (data_object data) "channel") as [n|]; [|done].
  destruct (Z.ltb_spec MAX_CHANNEL_NAME_LEN (len n)); [done|].
  destruct (is_valid_channel_name n) eqn:Ev; [|done]. simpl.
  set (authd := if is_private (kind n) then _ else true).
  destruct authd eqn:Ea; [|done]. simpl.
  destruct (negb (is_subscribed c n) && _) eqn:Ecap; [done|].
  destruct (presence_of_join _ _ _) as [p'|] eqn:Ep; [|done]. intros [= <- <-].
  split_and!; try done.
  - intros Hp. unfold authd in Ea. rewrite Hp in Ea.
    destruct (field_str (data_object data) "auth") as [a|]; [|done]. exists a. split; [done|].
    by destruct (verify_channel_auth _ _ _ _ _ _) as [[]|].
  - destruct (is_subscribed c n); [by left|]. right. simpl in Ecap. apply Z.leb_gt in Ecap. lia.
Qed.

Lemma handle_subscribe_member nd app c h data now id n s :
  node_wf cfg nd ->
  let r := handle_subscribe cfg base overflow nd app c h data now in
  member (nd_channels r.1.2) id n s -> ~ member (nd_channels nd) id n s ->
  id = app_id app /\ s = c_socket_id c /\ exists p, check_subscribe app c data = Ok (n, p).
Proof.
  intros Hwf r Hin Hno.
  destruct (handle_subscribe_effect cfg base overflow nd app c h data now Hwf) as (_ & joined & Hc & Hj & Hm & _).
  apply Hm in Hin as [?|(-> & -> & ->)]; [done|]. eauto.
Qed.

(** C8: Nobody gets into a private, presence or encrypted channel without the
    token the application's secret signs for that very socket, channel and
    channel data; and only the socket that sent the frame gets in. *)
Theorem private_join_authorised nd app c h data now id n s :
  node_wf cfg nd ->
  let r := handle_subscribe cfg base overflow nd app c h data now in
  member (nd_channels r.1.2) id n s -> ~ member (nd_channels nd) id n s -> is_private (kind n) = true ->
  id = app_id app /\ s = c_socket_id c /\
  field_str (data_object data) "auth"
  = Some (sign_channel_auth (app_key app) s n (field_str (data_object data) "channel_data") (app_secret app)).
Proof.
  intros Hwf r Hin Hno Hp.
  destruct (handle_subscribe_member nd app c h data now id n s Hwf Hin Hno) as (-> & -> & p & Hchk).
  apply check_subscribe_Ok in Hchk as (_ & _ & _ & Ha & _ & _). destruct (Ha Hp) as (auth & -> & Hv).
  split_and!; [done|done|]. f_equal. by apply token_check_spec in Hv as [_ ->].
Qed.

(** A connection never has more subscriptions than its application allows:
    the count after a subscribe frame is within the limit unless the frame
    changed nothing. *)
Theorem subscription_cap nd app c h data now :
  node_wf cfg nd ->
  let c' := (handle_subscribe cfg base overflow nd app c h data now).2 in
  c_subscriptions c' = c_subscriptions c \/
  (Z.of_nat (conn_subscription_count c') <= max_channels_per_connection app)%Z.
Proof.
  intros Hwf c'.
  destruct (handle_subscribe_effect cfg base overflow nd app c h data now Hwf) as (_ & joined & Hc & Hj & _).
  fold c' in Hc. rewrite Hc. destruct joined as [n|]; [|by left].
  destruct (Hj n eq_refl) as [p Hchk]. apply check_subscribe_Ok in Hchk as (_ & _ & _ & _ & [Hs|Hlt] & _); simpl.
  - left. apply bool_decide_eq_true in Hs. set_solver.
  - destruct (decide (n ∈ c_subscriptions c)) as [Hin|Hout]; [left; set_solver|]. right.
    unfold conn_subscription_count in *. simpl. rewrite size_union by set_solver. rewrite size_singleton. lia.
Qed.

(** ** The presence cap *)

(** The distinct users of a channel on this node. *)
Definition local_users (ch : Channel) : gset string :=
  match ch_user_refcounts ch with Some refs => dom refs | None => ∅ end.

Lemma has_user_local ch u : has_user_id ch u = true <-> u ∈ local_users ch.
Proof.
  unfold has_user_id, local_users. destruct (ch_user_refcounts ch) as [refs|]; [|set_solver].
  rewrite elem_of_dom. destruct (refs !! u); split; eauto; [done|by intros [? [=]]].
Qed.

Lemma subscribe_local_users ch s h pm :
  local_users (subscribe ch s h (Some pm)).2 ⊆ local_users ch ∪ {[user_id pm]}.
Proof.
  unfold subscribe, local_users. destruct (ch_members ch !! s); [set_solver|].
  destruct (ch_user_refcounts ch) as [refs|]; simpl; [|set_solver].
  intros u. rewrite elem_of_union, elem_of_singleton, !elem_of_dom, lookup_insert_is_Some.
  destruct (decide (user_id pm = u)); naive_solver.
Qed.

Definition remote_users nd (id : AppId) (channel : string) (now : Instant) : gset string :=
  list_to_set (psm_user_id <$> PresenceCache.remote_members_for (presence_cache (nd_view nd)) id channel now).

Lemma fleet_count ch (remote : list string) :
  ch_user_refcounts ch <> None ->
  user_count ch + size (list_to_set (List.filter (fun id => negb (has_user_id ch id)) remote) : gset string)
  = size (local_users ch ∪ list_to_set remote).
Proof.
  intros Hp. assert (user_count ch = size (local_users ch)) as ->.
  { unfold user_count, local_users. destruct (ch_user_refcounts ch); [by rewrite size_dom|done]. }
  rewrite <- size_union.
  - f_equal. apply set_eq. intros u. rewrite !elem_of_union, !elem_of_list_to_set, !list_elem_of_In, List.filter_In.
    rewrite negb_true_iff, <- not_true_iff_false, has_user_local. destruct (decide (u ∈ local_users ch)); naive_solver.
  - intros u Hu. rewrite elem_of_list_to_set, list_elem_of_In, List.filter_In, negb_true_iff, <- not_true_iff_false.
    rewrite has_user_local. naive_solver.
Qed.

(** ** Identity *)

(** C23: A signed-in socket keeps its identity: once bound to a user no frame
    can bind it to another one, and a socket that is not signed in gets a user
    only with the token the secret signs for that socket and user data. *)
Theorem identity_immutable nd apps app c h text now :
  let live := default app (apps (app_id app)) in
  let c' := (handle_inbound cfg base overflow nd apps app c h text now).2 in
  match c_user_id c with
  | Some u => c_user_id c' = Some u
  | None => forall u, c_user_id c' = Some u ->
      exists frame ud, parse_inbound text = Some frame /\
        field_str (data_object (f_data frame)) "user_data" = Some ud /\
        field_str (data_object (f_data frame)) "auth"
        = Some (sign_user_auth (app_key live) (c_socket_id c) ud (app_secret live)) /\
        id_text (value_get (default Null (from_str ud)) "id") = Some u
  end.
Proof.
  intros live c'.
  assert (forall x, c_user_id x = c_user_id c -> c' = x ->
    match c_user_id c with Some u => c_user_id c' = Some u
    | None => forall u, c_user_id c' = Some u -> exists frame ud, parse_inbound text = Some frame /\
        field_str (data_object (f_data frame)) "user_data" = Some ud /\
        field_str (data_object (f_data frame)) "auth"
        = Some (sign_user_auth (app_key live) (c_socket_id c) ud (app_secret live)) /\
        id_text (value_get (default Null (from_str ud)) "id") = Some u end) as Hsame.
  { intros x Hx ->. rewrite Hx. by destruct (c_user_id c). }
  unfold c', handle_inbound in *. fold live in Hsame |- *.
  destruct (parse_inbound text) as [frame|] eqn:Ef; [|by apply (Hsame c)].
  destruct (String.eqb _ "pusher:ping"); [by apply (Hsame c)|].
  destruct (String.eqb _ "pusher:subscribe").
  { eapply Hsame; [|reflexivity]. unfold handle_subscribe.
    destruct (check_subscribe live c (f_data frame)) as [[n p]|]; [|done]. cbv zeta.
    by destruct (subscribe_with _ _ _ _ _ _ _ _ _ _) as [[[out|] m] [[nd' rm] rp]]. }
  destruct (String.eqb _ "pusher:unsubscribe").
  { eapply Hsame; [|reflexivity]. unfold handle_unsubscribe. by destruct (field_str _ _). }
  destruct (String.eqb _ "pusher:signin").
  2:{ eapply Hsame; [|reflexivity]. destruct (starts_with _ _); [|done]. destruct (_ <? _)%Z; [done|].
      by destruct (handle_client_event _ _ _ _ _ _ _ _ _). }
  clear Hsame. unfold handle_signin.
  destruct (c_user_id c) as [u0|] eqn:Eu.
  - destruct (field_str _ "auth"); [|done]. destruct (field_str _ "user_data"); [|done].
    destruct (negb _); [done|]. destruct (id_text _); [|done]. by destruct (is_empty_str _).
  - intros u. destruct (field_str _ "auth") as [auth|] eqn:Ea; [|simpl; congruence].
    destruct (field_str _ "user_data") as [ud|] eqn:Eud; [|simpl; congruence].
    destruct (verify_user_auth _ _ _ _ _) as [[]|] eqn:Ev; simpl; [|congruence].
    destruct (id_text _) as [uid|] eqn:Eid; [|simpl; congruence].
    destruct (is_empty_str uid); [simpl; congruence|].
    destruct (read_watchlist _) as [[wl tr]|]; [|simpl; congruence].
    assert (c_user_id (signin_transition cfg nd live c h uid wl now).2 = Some uid) as Hst.
    { unfold signin_transition. destruct (bind_user _ _ _ _). by destruct wl. }
    destruct (signin_transition _ _ _ _ _ _ _ _) as [nd' c2]. simpl in *. rewrite Hst. intros [= <-].
    exists frame, ud. split_and!; try done. rewrite Ea. f_equal. by apply token_check_spec in Ev as [_ ->].
Qed.
End Properties.

(** ** Client events and announcements *)

Section Announcements.
Context `{HI : HashIter} `{WI : Wire} `{SJ : SerdeJson} `{CR : Crypto} `{IP : InboundParser}.
Context (cfg : Config) (base : Z) (overflow : WebhookOverflow).
Implicit Types nd : Server.

Lemma when_scaling_mbs nd env now : nd_mbs (when_scaling cfg nd env now) = nd_mbs nd.
Proof. unfold when_scaling. by destruct (scaling_enabled cfg). Qed.

Lemma when_scaling_view nd env now : nd_view (when_scaling cfg nd env now) = nd_view nd.
Proof. unfold when_scaling. by destruct (scaling_enabled cfg). Qed.

(** A client event is relayed only for a member of a private channel of an
    application that accepts client events; it then goes to the members other
    than the sender and is never stored: channels, and so what cache channels
    replay, stay as they are.  A refused event changes nothing at all. *)
Theorem client_event_rules nd app c event frame now :
  let r := handle_client_event cfg base overflow nd app c event frame now in
  nd_channels r.2 = nd_channels nd /\
  match r.1 with
  | Some _ => r.2 = nd
  | None =>
      accept_client_events_from app <> AcceptNone /\
      exists name ch encoded, f_channel frame = Some name /\ is_private (from_name name) = true /\
        find_channel (nd_channels nd) (app_id app) name = Some ch /\ contains ch (c_socket_id c) = true /\
        nd_mbs r.2 = send_to_members ch encoded (Some (c_socket_id c)) (nd_mbs nd)
  end.
Proof.
  unfold handle_client_event. case_decide as Ha; [done|].
  destruct (f_channel frame) as [name|]; [|done].
  destruct (is_private (from_name name)) eqn:Ep; [|done].
  destruct (find_channel (nd_channels nd) (app_id app) name) as [ch|] eqn:Ef; [|done].
  destruct (contains ch (c_socket_id c)) eqn:Ec; [|done]. cbv zeta. simpl.
  unfold publish_client_event. rewrite when_scaling_channels, when_scaling_mbs. split; [done|]. split; [done|].
  eexists name, ch, _. split_and!; done.
Qed.

(** What the join of a user who presents [pm] sends to the channel. *)
Lemma join_effects_mbs app channel pm s occ now ch r nd rm rp :
  nd_mbs (join_effects cfg base overflow app channel (Some pm) s occ now ch r (nd, rm, rp)).1.1
  = if sr_was_new r && sr_user_added r && negb rp
    then broadcast_protocol ch (member_added channel (user_id pm) (user_info pm)) (Some s) (nd_mbs nd)
    else nd_mbs nd.
Proof.
  unfold join_effects, publish_member_added. cbv zeta.
  destruct (sr_was_new r), (sr_user_added r), rp; simpl; try rewrite when_scaling_mbs;
    by destruct ((sr_member_count r =? 1) && negb occ).
Qed.

Lemma leave_effects_mbs app channel now ch o nd :
  is_presence (from_name channel) = true ->
  nd_mbs (leave_effects cfg base overflow app channel now ch o nd)
  = match uo_was_member o, uo_user_removed o with
    | true, Some uid =>
        if PresenceCache.is_present_excluding (presence_cache (nd_view nd)) (app_id app) channel uid None now
        then nd_mbs nd else broadcast_protocol ch (member_removed channel uid) None (nd_mbs nd)
    | _, _ => nd_mbs nd
    end.
Proof.
  intros Hp. unfold leave_effects, publish_member_removed. rewrite Hp. cbv zeta.
  destruct (uo_was_member o); [|done]. simpl.
  destruct (uo_user_removed o) as [uid|]; [rewrite when_scaling_mbs|];
    destruct ((uo_member_count o =? 0) && _); simpl; try destruct (uo_member_count o =? 0); simpl;
    by try destruct (PresenceCache.is_present_excluding _ _ _ _ _ _).
Qed.

Lemma subscribe_user_added c s h pm :
  channel_wf c -> is_presence (ch_kind c) = true -> ch_members c !! s = None ->
  sr_was_new (subscribe c s h (Some pm)).1 = true /\
  sr_user_added (subscribe c s h (Some pm)).1 = negb (has_user_id c (user_id pm)).
Proof.
  intros [_ Hr _] Hp Hs. unfold subscribe, has_user_id. rewrite Hs.
  destruct (ch_user_refcounts c) as [refs|]; [|congruence]. simpl. split; [done|].
  destruct (refs !! user_id pm) as [n|] eqn:E; [|done]. simpl.
  destruct Hr as [_ Hr]. rewrite Hr in E. by destruct (map_count _ _); simplify_eq.
Qed.

Lemma set_manager_channels nd m : nd_channels (set_manager nd m) = m.
Proof. done. Qed.

Lemma set_manager_mbs nd m : nd_mbs (set_manager nd m) = nd_mbs nd.
Proof. done. Qed.

Lemma set_manager_view nd m : nd_view (set_manager nd m) = nd_view nd.
Proof. done. Qed.

(** ** A join to a presence channel *)

Lemma join_effects_view app channel p s occ now ch r nd rm rp :
  nd_view (join_effects cfg base overflow app channel p s occ now ch r (nd, rm, rp)).1.1 = nd_view nd.
Proof.
  unfold join_effects, publish_member_added, announce_subscription_count, publish_subscription_count. cbv zeta.
  destruct (sr_was_new r), p as [pm|], (sr_user_added r), rp; simpl; rewrite ?when_scaling_view;
    destruct ((sr_member_count r =? 1) && negb occ); simpl; by try destruct (emit_subscription_count app).
Qed.

(** Who is in a channel, by socket and by user. *)
Definition roll (ch : Channel) : gmap string Member * option (gmap string nat) :=
  (ch_members ch, ch_user_refcounts ch).

Lemma cached_payload_roll c now : roll (cached_payload c now).2 = roll c.
Proof.
  rewrite cached_payload_snd. unfold cached_entry.
  destruct (ch_cached_payload c) as [[e|]|]; [|done|done].
  destruct (ch_cache_ttl c) as [ttl|]; [|done]. by destruct (ttl <? _)%Z.
Qed.

Lemma subscribe_cached c s h p now :
  (cached_payload (subscribe c s h p).2 now).1 = (cached_payload c now).1 /\
  ch_kind (subscribe c s h p).2 = ch_kind c.
Proof.
  unfold subscribe. destruct (ch_members c !! s); [done|].
  destruct (ch_user_refcounts c) as [refs|], p as [pm|]; simpl; split; try done;
    unfold cached_payload, cached_entry; simpl; destruct (ch_cached_payload c) as [[e|]|]; try done;
    destruct (ch_cache_ttl c) as [ttl|]; try done; by destruct (ttl <? _)%Z.
Qed.

(** What a new member of a cache channel is sent: the payload, or a miss. *)
Lemma replay_cache_spec nd app channel h cached now :
  let nd' := replay_cache base overflow nd app channel h cached now in
  nd_mbs nd' = (try_send h (Text (default (cache_miss channel) cached)) (nd_mbs nd)).2 /\
  nd_view nd' = nd_view nd /\
  roll <$> find_channel (nd_channels nd') (app_id app) channel
  = roll <$> find_channel (nd_channels nd) (app_id app) channel.
Proof.
  unfold replay_cache. destruct cached as [p|]; [done|].
  destruct (find_channel (nd_channels nd) (app_id app) channel) as [ch|] eqn:E; [|simpl; by rewrite E].
  assert (roll (claim_cache_miss_notification ch now).2 = roll ch) as Hr.
  { unfold claim_cache_miss_notification. destruct (ch_cache_miss_notified_at ch); [by destruct (_ <? _)%Z|done]. }
  destruct (claim_cache_miss_notification ch now) as [b ch']. simpl in Hr.
  unfold find_channel in E |- *. unfold put_channel.
  destruct (nd_channels nd !! app_id app) as [slot|] eqn:Es; [|done].
  destruct b; simpl; rewrite lookup_insert_eq; simpl; rewrite lookup_insert_eq; simpl; by rewrite Hr.
Qed.

(** The channel a join finds: the stored one, or a new one. *)
Definition joined_channel nd (app : App) (name : string) : Channel :=
  default (with_cache_ttl name (from_secs <$> cache_ttl_seconds app))
    (find_channel (nd_channels nd) (app_id app) name).

(** What the joiner itself is queued after the answer, on a cache channel. *)
Definition replayed nd (app : App) (name : string) (h : ConnectionHandle) (now : Instant) (mbs : Mailboxes)
  : Mailboxes :=
  if is_cache (kind name)
  then (try_send h (Text (default (cache_miss name) (cached_payload (joined_channel nd app name) now).1)) mbs).2
  else mbs.

Definition over_capacity : string := error_with_message 4301 "Presence channel is over capacity".

Lemma joined_channel_ok nd app name : node_wf cfg nd -> chan_ok name (joined_channel nd app name).
Proof.
  intros Hwf. unfold joined_channel. destruct (find_channel _ _ _) eqn:E; simpl; [|apply new_ok].
  by destruct (find_channel_wf _ _ _ _ (node_manager _ _ Hwf) E).
Qed.

(** The whole of a join that presents a member, by the answer of [join_admit]. *)
Lemma handle_subscribe_presence nd app c h data now name pm :
  node_wf cfg nd -> check_subscribe app c data = Ok (name, Some pm) ->
  let r := handle_subscribe cfg base overflow nd app c h data now in
  let ch := joined_channel nd app name in
  let sub := subscribe ch (c_socket_id c) h (Some pm) in
  if (join_admit app name (Some pm) now ch (nd, [], false)).1 then
    r.2 = add_subscription c name /\ nd_view r.1.2 = nd_view nd /\
    roll <$> find_channel (nd_channels r.1.2) (app_id app) name = Some (roll sub.2) /\
    nd_mbs r.1.2 = replayed nd app name h now
      (if sr_was_new sub.1 && sr_user_added sub.1
          && negb (PresenceCache.is_present_excluding (presence_cache (nd_view nd)) (app_id app) name
                     (user_id pm) None now)
       then broadcast_protocol sub.2 (member_added name (user_id pm) (user_info pm)) (Some (c_socket_id c)) (nd_mbs nd)
       else nd_mbs nd)
  else exists m, r = (Some over_capacity, set_manager nd m, c) /\
    m = <[app_id app := set_channels (app_slot (nd_channels nd) (app_id app))
          (remove_if_idle (<[name := ch]> (channels (app_slot (nd_channels nd) (app_id app)))) name now).2]>
          (nd_channels nd).
Proof.
  intros Hwf Hchk r ch sub. pose proof Hchk as Hok. apply check_subscribe_Ok in Hok as (_ & _ & _ & _ & _ & Hpres).
  assert (is_presence (kind name) = true) as Hp.
  { unfold presence_of_join in Hpres. by destruct (is_presence (kind name)). }
  assert (ch_kind ch = kind name) as Hck.
  { destruct (joined_channel_ok nd app name Hwf) as [Hn Hw]. fold ch in Hn, Hw. by rewrite (wf_kind _ Hw), Hn. }
  unfold r, handle_subscribe. rewrite Hchk. cbv zeta. rewrite Hp.
  set (occ := occupied_on_peers _ _ _ _ _). clearbody occ.
  unfold subscribe_with. rewrite <- find_channel_slot. fold (joined_channel nd app name). fold ch.
  destruct (join_admit app name (Some pm) now ch (nd, [], false)) as [ok [[nd0 rm] rp]] eqn:Ea.
  assert (nd0 = nd /\ rp = PresenceCache.is_present_excluding (presence_cache (nd_view nd)) (app_id app) name
                             (user_id pm) None now) as [-> ->].
  { unfold join_admit in Ea. cbv zeta in Ea. by destruct (_ || _) in Ea; simplify_eq. }
  set (rp := PresenceCache.is_present_excluding _ _ _ _ _ _) in *.
  destruct ok; cbn [fst]; [|eauto].
  pose proof (join_effects_mbs app name pm (c_socket_id c) occ now sub.2 sub.1 nd rm rp) as Hmb.
  pose proof (join_effects_view app name (Some pm) (c_socket_id c) occ now sub.2 sub.1 nd rm rp) as Hv.
  destruct (subscribe_cached ch (c_socket_id c) h (Some pm) now) as [Hcp Hk]. fold sub in Hcp, Hk.
  pose proof (cached_payload_roll sub.2 now) as Hrefs. rewrite Hck in Hk.
  unfold replayed. fold ch. rewrite <- Hcp.
  unfold sub in *. clear sub.
  destruct (subscribe ch (c_socket_id c) h (Some pm)) as [sr ch1]. cbn [fst snd] in *. rewrite Hk.
  destruct (join_effects _ _ _ _ _ _ _ _ _ _ _ _) as [[nd2 rm2] rp2]. cbn [fst snd] in *. rewrite <- Hmb, <- Hv.
  destruct (is_cache (kind name)).
  - destruct (cached_payload ch1 now) as [cached ch2]. cbn [fst snd so_cached_payload so_presence_snapshot] in *.
    destruct (replay_cache_spec (set_manager nd2
      (<[app_id app := set_channels (app_slot (nd_channels nd) (app_id app))
           (<[name := ch2]> (channels (app_slot (nd_channels nd) (app_id app))))]> (nd_channels nd)))
      app name h cached now) as (H1 & H2 & H3).
    split_and!; [done|by rewrite H2| |by rewrite H1]. rewrite H3. simpl.
    rewrite find_channel_insert. simpl. rewrite lookup_insert_eq. simpl. by rewrite Hrefs.
  - cbn [fst snd]. split_and!; [done|done| |done]. simpl. rewrite find_channel_insert. simpl.
    by rewrite lookup_insert_eq.
Qed.

Lemma refused_join_member nd app name now id n s :
  member (<[app_id app := set_channels (app_slot (nd_channels nd) (app_id app))
          (remove_if_idle (<[name := joined_channel nd app name]>
             (channels (app_slot (nd_channels nd) (app_id app)))) name now).2]> (nd_channels nd)) id n s
  <-> member (nd_channels nd) id n s.
Proof.
  rewrite member_insert. case_decide as Hid; [subst|done]. simpl.
  rewrite chans_member_idle, chans_member_insert, member_slot. case_decide as Hn; [subst|done].
  unfold joined_channel. rewrite find_channel_slot. apply default_channel_members.
Qed.

Lemma joined_channel_user nd app name u :
  has_user_id (joined_channel nd app name) u = has_user (find_channel (nd_channels nd) (app_id app) name) u.
Proof.
  unfold joined_channel. destruct (find_channel _ _ _); [done|]. unfold has_user_id, with_cache_ttl. simpl.
  destruct (is_presence (kind name)); [|done]. by rewrite lookup_empty.
Qed.

(** C16: The local subscribers of a presence channel hear of a user exactly when
    its first socket in the whole fleet joins: an admitted join of a new
    socket announces the user to the members other than the joiner if neither
    this node nor a live peer had it, and is otherwise told to nobody.  Beyond
    that, on a presence-cache channel and only there, the joiner itself is
    queued one frame: the cached payload, or a cache miss when there is none. *)
Theorem join_announced nd app c h data now name pm :
  node_wf cfg nd -> check_subscribe app c data = Ok (name, Some pm) ->
  ~ member (nd_channels nd) (app_id app) name (c_socket_id c) ->
  let r := handle_subscribe cfg base overflow nd app c h data now in
  member (nd_channels r.1.2) (app_id app) name (c_socket_id c) ->
  let ch := joined_channel nd app name in
  let replay mbs :=
    if is_cache (kind name)
    then (try_send h (Text (default (cache_miss name) (cached_payload ch now).1)) mbs).2 else mbs in
  (fleet_has nd (app_id app) name (user_id pm) None now -> nd_mbs r.1.2 = replay (nd_mbs nd)) /\
  (~ fleet_has nd (app_id app) name (user_id pm) None now ->
     nd_mbs r.1.2 = replay (broadcast_protocol (subscribe ch (c_socket_id c) h (Some pm)).2
                      (member_added name (user_id pm) (user_info pm)) (Some (c_socket_id c)) (nd_mbs nd))).
Proof.
  intros Hwf Hchk Hno r Hin ch replay.
  pose proof (handle_subscribe_presence nd app c h data now name pm Hwf Hchk) as Hall. cbv zeta in Hall.
  fold r ch in Hall.
  destruct (joined_channel_ok nd app name Hwf) as [Hcn Hcw]. fold ch in Hcn, Hcw.
  assert (ch_members ch !! c_socket_id c = None) as Hnm.
  { apply eq_None_not_Some. intros Hs. apply Hno. rewrite member_slot, <- default_channel_members.
    unfold ch, joined_channel in Hs. rewrite find_channel_slot in Hs. exact Hs. }
  destruct (subscribe_user_added ch (c_socket_id c) h pm Hcw) as [Hnew Hadd]; [|done|].
  { rewrite (wf_kind _ Hcw), Hcn. apply check_subscribe_Ok in Hchk as (_ & _ & _ & _ & _ & Hpres).
    unfold presence_of_join in Hpres. by destruct (is_presence (kind name)). }
  rewrite (joined_channel_user nd app name) in Hadd.
  destruct (join_admit _ _ _ _ _ _).1 in Hall.
  2:{ destruct Hall as (m & Hr & Hm). exfalso. apply Hno. rewrite Hr, Hm in Hin. cbn [fst snd] in Hin.
      rewrite set_manager_channels in Hin. by apply refused_join_member in Hin. }
  destruct Hall as (_ & _ & _ & ->). change (replayed nd app name h now) with replay.
  rewrite Hnew, Hadd. cbn [andb]. rewrite <- negb_orb.
  pose proof (fleet_has_iff nd (app_id app) name (user_id pm) None now) as Hfl.
  destruct (_ || _) in Hfl |- *; simpl; split; intros Hf; try done; [destruct Hf|apply Hfl in Hf]; by try apply Hfl.
Qed.

Lemma has_user_id_count c u :
  channel_wf c -> is_presence (ch_kind c) = true ->
  has_user_id c u = (0 <? map_count (joined_as u) (ch_members c)).
Proof.
  intros [_ Hr _] Hp. unfold has_user_id. destruct (ch_user_refcounts c) as [refs|]; [|congruence].
  destruct Hr as [_ Hr]. rewrite (Hr u). by destruct (map_count _ _).
Qed.

Lemma unsubscribe_user_removed c s m pm :
  channel_wf c -> is_presence (ch_kind c) = true ->
  ch_members c !! s = Some m -> m_presence m = Some pm ->
  let r := unsubscribe c s in
  uo_was_member r.1 = true /\
  uo_user_removed r.1 = if has_user_id r.2 (user_id pm) then None else Some (user_id pm).
Proof.
  intros Hw Hp Hs Hm r.
  assert (ch_kind r.2 = ch_kind c /\ ch_members r.2 = delete s (ch_members c)) as [Hk Hms].
  { unfold r, unsubscribe. rewrite Hs, Hm. destruct (ch_user_refcounts c); [by destruct (release_user _ _)|done]. }
  rewrite (has_user_id_count r.2), Hms by (by apply unsubscribe_wf || rewrite Hk).
  unfold r, unsubscribe. rewrite Hs, Hm. destruct Hw as [_ Hr _].
  destruct (ch_user_refcounts c) as [refs|]; [|congruence]. destruct Hr as [_ Hr].
  destruct (release_user_exact _ _ _ _ _ Hr Hs Hm) as [_ Hrel].
  destruct (release_user _ _) as [o refs']. simpl in *. split; [done|]. rewrite Hrel.
  by destruct (map_count _ _).
Qed.

(** Collecting an idle channel forgets no user. *)
Lemma has_user_idle chans name now u c :
  chans !! name = Some c -> channel_wf c -> is_presence (ch_kind c) = true ->
  has_user ((remove_if_idle chans name now).2 !! name) u = has_user_id c u.
Proof.
  intros Hc Hw Hp. rewrite (has_user_id_count c) by done.
  unfold remove_if_idle. rewrite Hc.
  destruct (idle_test_ok (ch_name c) c now) as [_ Hw']; [by split|]. destruct (idle_test_frame c now) as (_ & Hk & Hm).
  assert ((idle_test c now).1 = true -> ch_members c = ∅) as Hempty.
  { unfold idle_test, is_empty. by case_bool_decide. }
  destruct (idle_test c now) as [[] ch']; simpl in *.
  - rewrite lookup_delete_eq, (Hempty eq_refl). simpl. by rewrite map_count_empty.
  - rewrite lookup_insert_eq. simpl. rewrite (has_user_id_count ch'), Hm by congruence. done.
Qed.

(** The users of a presence channel this node knows of: its own, and those its
    live peers report. *)
Definition known_users nd (id : AppId) (channel : string) (now : Instant) : gset string :=
  from_option local_users ∅ (find_channel (nd_channels nd) id channel) ∪ remote_users nd id channel now.

Lemma known_users_has nd id channel u now :
  u ∈ known_users nd id channel now <-> fleet_has nd id channel u None now.
Proof.
  unfold known_users, fleet_has, remote_users. rewrite elem_of_union, elem_of_list_to_set, (proj2 (remote_members_spec _ _ _ _)).
  destruct (find_channel (nd_channels nd) id channel) as [ch|]; simpl; [rewrite has_user_local|]; set_solver.
Qed.

(** What [join_admit] decides, over the users known before. *)
Lemma join_admit_iff nd app name pm now :
  node_wf cfg nd -> is_presence (kind name) = true ->
  let before := known_users nd (app_id app) name now in
  (join_admit app name (Some pm) now (joined_channel nd app name) (nd, [], false)).1 = true <->
  user_id pm ∈ before \/ (Z.of_nat (size before) < max_presence_members_per_channel app)%Z.
Proof.
  intros Hwf Hp before. destruct (joined_channel_ok nd app name Hwf) as [Hcn Hcw].
  assert (local_users (joined_channel nd app name)
          = from_option local_users ∅ (find_channel (nd_channels nd) (app_id app) name)) as Hl.
  { apply set_eq. intros u. rewrite <- has_user_local, joined_channel_user.
    destruct (find_channel _ _ _); simpl; [apply has_user_local|set_solver]. }
  assert (ch_user_refcounts (joined_channel nd app name) <> None) as Hr.
  { pose proof (wf_refs _ Hcw) as Hr. rewrite (wf_kind _ Hcw), Hcn, Hp in Hr.
    by destruct (ch_user_refcounts (joined_channel nd app name)). }
  pose proof (fleet_has_iff nd (app_id app) name (user_id pm) None now) as Hf.
  rewrite <- joined_channel_user, <- known_users_has in Hf. unfold join_admit. cbv zeta.
  destruct (_ || _); simpl; [split; [intros _; left; by apply Hf|done]|].
  rewrite fleet_count, Hl by done. rewrite Z.ltb_lt. fold (remote_users nd (app_id app) name now).
  fold (known_users nd (app_id app) name now). fold before. split; [auto|]. by intros [?%Hf|?].
Qed.

(** The users known after a join that was let in. *)
Lemma subscribe_known nd nd' app name s h pm now :
  nd_view nd' = nd_view nd ->
  roll <$> find_channel (nd_channels nd') (app_id app) name
  = Some (roll (subscribe (joined_channel nd app name) s h (Some pm)).2) ->
  known_users nd' (app_id app) name now ⊆ known_users nd (app_id app) name now ∪ {[user_id pm]}.
Proof.
  intros Hv Hr u. rewrite elem_of_union, !known_users_has, elem_of_singleton. unfold fleet_has. rewrite Hv.
  destruct (find_channel (nd_channels nd') (app_id app) name) as [ch|]; [|done]. injection Hr as _ Hr. simpl.
  pose proof (subscribe_local_users (joined_channel nd app name) s h pm u) as Hs.
  rewrite elem_of_union, <- !has_user_local, elem_of_singleton, joined_channel_user in Hs.
  unfold has_user_id in Hs at 1. rewrite <- Hr in Hs. fold (has_user_id ch u) in Hs. naive_solver.
Qed.

(** C25: The presence cap, for every subscribe frame that passes the checks.
    Over the users this node knows of, its own and those live peers report:
    when the joining user is among them, or they are fewer than the
    application's limit, the socket is let in, no other user appears, and
    either no user was added or the channel is within the limit.  Otherwise
    the answer is error 4301, and no membership, user, mailbox, webhook or bus
    message changes. *)
Theorem presence_cap nd app c h data now name pm :
  node_wf cfg nd -> check_subscribe app c data = Ok (name, Some pm) ->
  let r := handle_subscribe cfg base overflow nd app c h data now in
  let cap := max_presence_members_per_channel app in
  let before := known_users nd (app_id app) name now in
  let after := known_users r.1.2 (app_id app) name now in
  (user_id pm ∈ before \/ (Z.of_nat (size before) < cap)%Z ->
     member (nd_channels r.1.2) (app_id app) name (c_socket_id c) /\
     after ⊆ before ∪ {[user_id pm]} /\ (after ⊆ before \/ (Z.of_nat (size after) <= cap)%Z)) /\
  (user_id pm ∉ before -> (cap <= Z.of_nat (size before))%Z ->
     r.1.1 = Some (error_with_message 4301 "Presence channel is over capacity") /\
     after = before /\ r.2 = c /\
     (forall id n s, member (nd_channels r.1.2) id n s <-> member (nd_channels nd) id n s) /\
     nd_mbs r.1.2 = nd_mbs nd /\ nd_sink r.1.2 = nd_sink nd /\ nd_bus r.1.2 = nd_bus nd).
Proof.
  intros Hwf Hchk r cap before after.
  assert (is_presence (kind name) = true) as Hp.
  { apply check_subscribe_Ok in Hchk as (_ & _ & _ & _ & _ & Hpres).
    unfold presence_of_join in Hpres. by destruct (is_presence (kind name)). }
  pose proof (join_admit_iff nd app name pm now Hwf Hp) as Hadm. fold before cap in Hadm.
  pose proof (handle_subscribe_presence nd app c h data now name pm Hwf Hchk) as Hall. cbv zeta in Hall. fold r in Hall.
  destruct (join_admit _ _ _ _ _ _).1 in Hadm, Hall.
  - destruct Hall as (Hc & Hv & Hroll & _). pose proof (subscribe_known _ _ _ _ _ _ _ now Hv Hroll) as Hrefs.
    split.
    + intros Hcond. fold after before in Hrefs. split_and!; [|done|].
      * apply fmap_Some in Hroll as (ch' & Hf & [= Hs _]). exists ch'. split; [done|]. rewrite <- Hs.
        apply subscribe_is_member. by right.
      * clear -Hrefs Hcond. clearbody before after cap. destruct Hcond as [?|Hlt]; [left; set_solver|right].
        apply subseteq_size in Hrefs. pose proof (size_union_alt before {[user_id pm]}) as Hu.
        assert (size ({[user_id pm]} ∖ before) <= 1) as H1.
        { rewrite <- (size_singleton (C := gset string) (user_id pm)). apply subseteq_size. set_solver. }
        lia.
    + intros Hn Hle. destruct (proj1 Hadm eq_refl); [done|lia].
  - split; [by intros ?%Hadm|]. intros _ _. destruct Hall as (m & Hr & Hm).
    assert (forall id n s, member m id n s <-> member (nd_channels nd) id n s) as Hmem.
    { intros. rewrite Hm. apply refused_join_member. }
    unfold after. rewrite Hr. cbn [fst snd]. split_and!; try done.
    apply set_eq. intros u. unfold before. rewrite !known_users_has. unfold fleet_has.
    rewrite set_manager_channels, set_manager_view, Hm, find_channel_insert. cbn [channels set_channels].
    rewrite (has_user_idle _ _ _ _ (joined_channel nd app name)), joined_channel_user; [done| | |].
    + apply lookup_insert_eq.
    + apply (joined_channel_ok nd app name Hwf).
    + destruct (joined_channel_ok nd app name Hwf) as [Hcn Hcw]. by rewrite (wf_kind _ Hcw), Hcn.
Qed.

(** No effect of a leave touches what the peers have reported. *)
Lemma leave_effects_presence app channel now ch o nd :
  presence_cache (nd_view (leave_effects cfg base overflow app channel now ch o nd)) = presence_cache (nd_view nd).
Proof.
  unfold leave_effects, publish_member_removed, announce_subscription_count, publish_subscription_count. cbv zeta.
  destruct (uo_was_member o); [|done]. simpl.
  destruct (is_presence (from_name channel)); simpl.
  - destruct (uo_user_removed o); [rewrite when_scaling_view|];
      destruct ((uo_member_count o =? 0) && _); try destruct (uo_member_count o =? 0); simpl;
      by try destruct (PresenceCache.is_present_excluding _ _ _ _ _ _).
  - destruct ((uo_member_count o =? 0) && _); try destruct (uo_member_count o =? 0); simpl;
      repeat (case_match || rewrite when_scaling_view); done.
Qed.

(** C17: The local subscribers of a presence channel hear that a user has gone
    exactly when its last socket in the whole fleet leaves: a leave that takes
    the user away from this node with no live peer reporting it is announced
    to the members that remain, and a leave after which the user is still
    somewhere sends nothing. *)
Theorem leave_announced nd app s name ch m pm now :
  manager_wf (nd_channels nd) -> is_presence (from_name name) = true ->
  find_channel (nd_channels nd) (app_id app) name = Some ch ->
  ch_members ch !! s = Some m -> m_presence m = Some pm ->
  let nd' := leave_channel cfg base overflow nd app s name now in
  (fleet_has nd' (app_id app) name (user_id pm) None now -> nd_mbs nd' = nd_mbs nd) /\
  (~ fleet_has nd' (app_id app) name (user_id pm) None now ->
     nd_mbs nd' = broadcast_protocol (unsubscribe ch s).2 (member_removed name (user_id pm)) None (nd_mbs nd)).
Proof.
  intros Hwf Hp Hf Hs Hm nd'.
  destruct (find_channel_wf _ _ _ _ Hwf Hf) as [[Hn Hw] _].
  assert (is_presence (ch_kind ch) = true) as Hpk by (by rewrite (wf_kind _ Hw), Hn).
  destruct (unsubscribe_user_removed ch s m pm Hw Hpk Hs Hm) as [Hwas Hrem].
  assert (channel_wf (unsubscribe ch s).2) as Hw2 by (by apply unsubscribe_wf).
  assert (ch_kind (unsubscribe ch s).2 = ch_kind ch) as Hk2.
  { unfold unsubscribe. rewrite Hs, Hm. destruct (ch_user_refcounts ch); [by destruct (release_user _ _)|done]. }
  pose proof (leave_effects_mbs app name now (unsubscribe ch s).2 (unsubscribe ch s).1 nd Hp) as Hmbs.
  pose proof (leave_effects_presence app name now (unsubscribe ch s).2 (unsubscribe ch s).1 nd) as Hpc.
  rewrite Hwas, Hrem in Hmbs.
  pose proof (fleet_has_iff nd' (app_id app) name (user_id pm) None now) as Hiff.
  revert Hiff. unfold nd', leave_channel, unsubscribe_with. unfold find_channel in Hf.
  destruct (nd_channels nd !! app_id app) as [slot|] eqn:Hslot; [|done]. simpl in Hf. rewrite Hf.
  destruct (unsubscribe ch s) as [o ch2]. cbn [fst snd] in *.
  rewrite !set_manager_mbs, set_manager_view, set_manager_channels, find_channel_insert. cbn [channels set_channels].
  rewrite (has_user_idle _ _ _ _ ch2) by (rewrite ?lookup_insert_eq, ?Hk2; done).
  rewrite Hpc, Hmbs. intros Hiff.
  destruct (has_user_id ch2 (user_id pm)), (PresenceCache.is_present_excluding _ _ _ _ _ _); simpl in *;
    split; intros H; try done; try (by destruct H; apply Hiff); by apply Hiff in H.
Qed.

(** ** The roster a joiner is given *)

Lemma merge_fold remote acc :
  (forall u, is_Some (acc.1 !! u) -> u ∈ acc.2) ->
  let r := foldl merge_one acc remote in
  (forall u, u ∈ r.2 <-> u ∈ acc.2 \/ (u ∈ psm_user_id <$> remote /\ acc.1 !! u = None)) /\
  (forall u v, acc.1 !! u = Some v -> r.1 !! u = Some v) /\
  (forall u, is_Some (r.1 !! u) <-> is_Some (acc.1 !! u) \/ u ∈ psm_user_id <$> remote).
Proof.
  revert acc. induction remote as [|m remote IH]; intros acc Hacc r.
  { unfold r. simpl. split_and!; [|done|]; intros u; rewrite elem_of_nil; naive_solver. }
  unfold r. cbn [foldl]. clear r. rewrite fmap_cons. destruct (acc.1 !! psm_user_id m) as [v|] eqn:E.
  - assert (merge_one acc m = acc) as -> by (unfold merge_one; by rewrite E).
    destruct (IH acc Hacc) as (H1 & H2 & H3). split_and!; [|done|].
    + intros u. rewrite H1, elem_of_cons. split; [naive_solver|]. intros [?|[[->|?] ?]]; [auto|congruence|auto].
    + intros u. rewrite H3, elem_of_cons. split; [naive_solver|]. intros [?|[->|?]]; [auto|left; eauto|auto].
  - set (acc' := (<[psm_user_id m := default Null (psm_user_info m)]> acc.1, {[psm_user_id m]} ∪ acc.2)).
    assert (merge_one acc m = acc') as -> by (unfold merge_one; by rewrite E).
    destruct (IH acc') as (H1 & H2 & H3).
    { simpl. intros u. rewrite lookup_insert_is_Some. set_solver. }
    simpl in H1, H2, H3. split_and!.
    + intros u. rewrite H1, elem_of_cons, elem_of_union, elem_of_singleton.
      destruct (decide (u = psm_user_id m)) as [->|Hne].
      * rewrite lookup_insert_eq, E. naive_solver.
      * rewrite lookup_insert_ne by done. naive_solver.
    + intros u v Hv. apply H2. rewrite lookup_insert_ne; [done|]. congruence.
    + intros u. rewrite H3, lookup_insert_is_Some, elem_of_cons.
      destruct (decide (psm_user_id m = u)); naive_solver.
Qed.

(** The merged roster lists every user here or on a peer once, in order, with
    the local user info where there is one. *)
Lemma merge_presence_spec local remote :
  (forall u, is_Some (pd_hash local !! u) <-> u ∈ pd_ids local) ->
  let p := merge_presence local remote in
  (forall u, u ∈ pd_ids p <-> u ∈ pd_ids local \/ u ∈ psm_user_id <$> remote) /\
  NoDup (pd_ids p) /\ StronglySorted String.le (pd_ids p) /\ pd_count p = length (pd_ids p) /\
  (forall u v, pd_hash local !! u = Some v -> pd_hash p !! u = Some v) /\
  (forall u, is_Some (pd_hash p !! u) <-> u ∈ pd_ids p).
Proof.
  intros Hl p. unfold p, merge_presence.
  destruct (merge_fold remote (pd_hash local, list_to_set (pd_ids local))) as (H1 & H2 & H3).
  { simpl. intros u Hu. apply elem_of_list_to_set. by apply Hl. }
  destruct (foldl merge_one _ _) as [hash ids]. simpl in *.
  assert (forall u, u ∈ bt_set ids <-> u ∈ pd_ids local \/ u ∈ psm_user_id <$> remote) as Hids.
  { intros u. rewrite elem_of_bt_set, H1, !elem_of_list_to_set. split; [naive_solver|].
    intros [?|?]; [by left|]. destruct (pd_hash local !! u) eqn:E; [left; apply Hl; eauto|auto]. }
  split_and!; [done|apply NoDup_bt_set|apply Sorted_bt_set|done|done|].
  intros u. rewrite H3, Hids, Hl. done.
Qed.
End Announcements.

(** ** Witnesses *)

Section Witnesses.
#[local] Existing Instance canonical_iter.
#[local] Existing Instance demo_crypto.
#[local] Instance h_wire : Wire := {| to_vec := fun _ => "x"; parse := fun _ => None |}.
#[local] Instance h_json : SerdeJson :=
  {| from_str := fun s => Some (Object [("user_id", VString s)]); to_string := fun _ => "{}" |}.
#[local] Existing Instance literal_globs.
#[local] Instance h_figment : Figment :=
  {| FigError := unit; Fig := unit; FigValue := unit; fig_new := tt; fig_defaults := fun _ => tt;
     fig_text := fun _ => tt; fig_parse := fun _ => tt; fig_merge := fun _ _ _ => tt;
     fig_extract := fun _ => Err tt |}.
#[local] Existing Instance toy_box.
#[local] Instance h_body : BodyParser :=
  {| parse_event := fun _ => Err EmptyString; parse_batch := fun _ => Err EmptyString;
     parse_user_event := fun _ => Err EmptyString |}.
#[local] Instance h_parser : InboundParser := {| parse_inbound := fun _ => None |}.

Definition demo_server : Server := dispatcher_new (demo_cfg "n1") ∅ ∅ (webhooks_new WBestEffort).
Definition demo_conn : Conn := Connection_new (demo_app "a" None) "1.1" None 0.

Definition join_data (channel : string) (channel_data : option string) : Value :=
  Object ([("channel", VString channel);
           ("auth", VString (sign_channel_auth "key" "1.1" channel channel_data "secret"))] ++
          match channel_data with Some d => [("channel_data", VString d)] | None => [] end).

Lemma demo_server_wf : node_wf (demo_cfg "n1") demo_server.
Proof. split; [apply manager_wf_empty|apply bus_new_wf]. Qed.

Lemma demo_no_member id n s : ~ member (nd_channels demo_server) id n s.
Proof. intros (ch & Hc & _). unfold find_channel in Hc. simpl in Hc. by rewrite lookup_empty in Hc. Qed.

Lemma server_invariant_witness :
  sys_inv (demo_cfg "n1")
    (open_connection (sys_start (demo_cfg "n1") WBestEffort {| by_id := ∅; by_key := ∅ |})
       (demo_app "a" None) "1.1" 0 None true 0%Z).2.
Proof.
  refine (proj1 (server_invariant (demo_cfg "n1") 100 WBestEffort EmptyString _ _)).
  eapply sys_next; [apply (sys_init _ _ _ _ []); reflexivity|]. apply sys_own, own_open; [reflexivity|reflexivity|].
  intros s k H. vm_compute in H. discriminate H.
Defined.

Lemma private_join_authorised_witness :
  let data := join_data "private-x" None in
  field_str (data_object data) "auth" = Some (sign_channel_auth "key" "1.1" "private-x" None "secret").
Proof.
  intros data.
  destruct (private_join_authorised (demo_cfg "n1") 100 WBestEffort demo_server (demo_app "a" None) demo_conn
    (demo_handle "1.1" 0) data 0%Z "a" "private-x" "1.1" demo_server_wf) as (_ & _ & H).
  - eexists. split; [vm_compute; reflexivity|]. eexists. vm_compute. reflexivity.
  - apply demo_no_member.
  - reflexivity.
  - exact H.
Defined.

Lemma subscription_cap_witness :
  let c' := (handle_subscribe (demo_cfg "n1") 100 WBestEffort demo_server (demo_app "a" None) demo_conn
    (demo_handle "1.1" 0) (join_data "private-x" None) 0%Z).2 in
  c_subscriptions c' = ∅ \/ (Z.of_nat (conn_subscription_count c') <= 100)%Z.
Proof.
  exact (subscription_cap (demo_cfg "n1") 100 WBestEffort demo_server (demo_app "a" None) demo_conn
    (demo_handle "1.1" 0) (join_data "private-x" None) 0%Z demo_server_wf).
Defined.

(** A channel of at most one user, which "u" has joined. *)
Definition capped_app : App :=
  {| app_id := "a"; app_key := "key"; app_secret := "secret"; ping_interval := 60;
     activity_timeout := 30; max_message_size := 10000; max_connections := None;
     accept_client_events_from := AcceptAll; rate_limiting := None; allowed_origins_raw := ["*"];
     allowed_origins := ["*"]; app_webhooks := []; emit_subscription_count := true;
     encryption_master_key := None; cache_ttl_seconds := Some 60%Z;
     max_presence_members_per_channel := 1; max_presence_member_size_bytes := 2048;
     max_channels_per_connection := 100 |}.

Definition full_server : Server :=
  (handle_subscribe (demo_cfg "n1") 100 WBestEffort demo_server capped_app demo_conn
    (demo_handle "1.1" 0) (join_data "presence-x" (Some "u")) 0%Z).1.2.

Lemma full_server_wf : node_wf (demo_cfg "n1") full_server.
Proof. apply handle_subscribe_effect, demo_server_wf. Qed.

Definition late_conn : Conn := Connection_new capped_app "1.2" None 0.

Definition late_join : Value :=
  Object [("channel", VString "presence-x");
          ("auth", VString (sign_channel_auth "key" "1.2" "presence-x" (Some "v") "secret"));
          ("channel_data", VString "v")].

(** The first user of that channel gets in, the second is refused. *)
Lemma presence_cap_witness :
  member (nd_channels full_server) "a" "presence-x" "1.1" /\
  (handle_subscribe (demo_cfg "n1") 100 WBestEffort full_server capped_app late_conn
    (demo_handle "1.2" 1) late_join 1%Z).1.1
  = Some (error_with_message 4301 "Presence channel is over capacity").
Proof.
  split.
  - destruct (presence_cap (demo_cfg "n1") 100 WBestEffort demo_server capped_app demo_conn (demo_handle "1.1" 0)
      (join_data "presence-x" (Some "u")) 0%Z "presence-x" (demo_member "u")) as [H _];
      [apply demo_server_wf|vm_compute; reflexivity|].
    apply H. right. vm_compute. reflexivity.
  - destruct (presence_cap (demo_cfg "n1") 100 WBestEffort full_server capped_app late_conn (demo_handle "1.2" 1)
      late_join 1%Z "presence-x" (demo_member "v")) as [_ H];
      [apply full_server_wf|vm_compute; reflexivity|].
    apply H; [|vm_compute; discriminate].
    rewrite known_users_has, <- fleet_has_iff. vm_compute. discriminate.
Defined.

(** A first join to an empty presence-cache channel: announced, and answered
    with a cache miss. *)
Lemma join_announced_witness :
  nd_mbs (handle_subscribe (demo_cfg "n1") 100 WBestEffort demo_server (demo_app "a" None) demo_conn
    (demo_handle "1.1" 0) (join_data "presence-cache-x" (Some "u")) 0%Z).1.2
  = (try_send (demo_handle "1.1" 0) (Text (cache_miss "presence-cache-x"))
      (broadcast_protocol (subscribe (with_cache_ttl "presence-cache-x" (Some (from_secs 60))) "1.1"
        (demo_handle "1.1" 0) (Some (demo_member "u"))).2
        (member_added "presence-cache-x" "u" None) (Some "1.1") ∅)).2.
Proof.
  destruct (join_announced (demo_cfg "n1") 100 WBestEffort demo_server (demo_app "a" None) demo_conn
    (demo_handle "1.1" 0) (join_data "presence-cache-x" (Some "u")) 0%Z "presence-cache-x" (demo_member "u")) as [_ H].
  - apply demo_server_wf.
  - vm_compute. reflexivity.
  - apply demo_no_member.
  - eexists. split; [vm_compute; reflexivity|]. eexists. vm_compute. reflexivity.
  - apply H. rewrite <- fleet_has_iff. vm_compute. discriminate.
Defined.
End Witnesses.
