(* ===== verification/TaskProps.v ===== *)
(** * The background tasks: properties

    What the sweep of silent peers announces, what a peer learns from a
    snapshot, and which connections a reload closes. *)

From S2P Require Import Prelude.
From S2P Require Import Core.
From S2P Require Import Json.
From S2P Require Import Envelope.
From S2P Require Import Auth.
From S2P Require Import Connection.
From S2P Require Import Channel.
From S2P Require Import Manager.
From S2P Require Import Apps.
From S2P Require Import Router.
From S2P Require Import Message.
From S2P Require Import PeerState.
From S2P Require Import Bus.
From S2P Require Import Dispatcher.
From S2P Require Import Webhooks.
From S2P Require Import Encryption.
From S2P Require Import Routes.
From S2P Require Import Handler.
From S2P Require Import Tasks.
From S2P Require Import System.
From S2P Require Import HandlerProps.
From stdpp Require Import options.

(** ** Silent peers *)

Section Expiry.
Context `{HI : HashIter} `{WI : Wire} `{SJ : SerdeJson}.
Context (cfg : Config) (base : Z) (overflow : WebhookOverflow).
Implicit Types nd : Server.

Lemma still_anywhere nd id channel uid ch now :
  find_channel (nd_channels nd) id channel = Some ch ->
  existsb (fun m => String.eqb (psm_user_id m) uid)
    (PresenceCache.remote_members_for (presence_cache (nd_view nd)) id channel now) || has_user_id ch uid = true
  <-> fleet_has nd id channel uid None now.
Proof.
  intros Hf. unfold fleet_has, has_user. rewrite Hf, orb_true_iff, existsb_exists.
  destruct (remote_members_spec (presence_cache (nd_view nd)) id channel now) as [_ Hr].
  split.
  - intros [(m & Hin & <-%String.eqb_eq)|H]; [right|by left].
    destruct (proj1 (Hr (psm_user_id m))) as [n Hn]; [apply list_elem_of_fmap_2; by apply list_elem_of_In|]. eauto.
  - intros [H|(n & _ & Hn)]; [by right|left].
    assert (uid ∈ psm_user_id <$> PresenceCache.remote_members_for (presence_cache (nd_view nd)) id channel now)
      as (m & -> & Hin)%list_elem_of_fmap by (apply Hr; eauto).
    exists m. split; [by apply list_elem_of_In|apply String.eqb_refl].
Qed.

(** When a peer falls silent, the local subscribers hear that a user it held
    left exactly when the user is in the channel nowhere else in the fleet; of
    the nodes only the leader reports it to the webhooks, and reports the
    channel vacated when nobody is left.  A node without the channel neither
    announces nor reports anything, even if it is the leader. *)
Theorem expiry_announced apps now nd e app :
  index_wf apps -> app_by_id apps (PresenceCache.em_app_id e) = Some app ->
  let id := app_id app in
  let channel := PresenceCache.em_channel e in
  let uid := PresenceCache.em_user_id e in
  let nd' := expire_member cfg base overflow apps now nd e in
  match find_channel (nd_channels nd) id channel with
  | None => nd' = nd
  | Some ch =>
      (fleet_has nd id channel uid None now -> nd' = nd) /\
      (~ fleet_has nd id channel uid None now ->
         nd_mbs nd' = tell nd id channel (member_removed channel uid) /\
         nd_sink nd' =
           if is_fleet_leader cfg (nd_view nd) now then
             let w := enqueue base overflow (nd_sink nd) id (MemberRemoved channel uid) now in
             if is_empty ch && bool_decide (PresenceCache.remote_members_for (presence_cache (nd_view nd))
                                              id channel now = [])
             then enqueue base overflow w id (ChannelVacated channel) now else w
           else nd_sink nd)
  end.
Proof.
  intros Hw Ha id channel uid nd'. unfold nd', expire_member. rewrite Ha.
  rewrite <- (index_ids _ Hw _ _ Ha). fold id channel uid.
  destruct (find_channel (nd_channels nd) id channel) as [ch|] eqn:Hf; [|done].
  pose proof (still_anywhere nd id channel uid ch now Hf) as Hs. cbv zeta.
  destruct (_ || has_user_id ch uid); [split; [done|intros Hn; destruct Hn; by apply Hs]|].
  split; [intros Hx; by apply Hs in Hx|]. intros _. unfold tell. rewrite Hf.
  destruct (PresenceCache.remote_members_for _ _ _ _); case_bool_decide; try done;
    simpl; destruct (is_fleet_leader _ _ _); simpl; destruct (is_empty ch); done.
Qed.
End Expiry.

(** ** Snapshots *)

Lemma bt_iter_keys {A} (m : gmap string A) : (bt_iter m).*1 = bt_keys m.
Proof.
  unfold bt_iter. assert (forall l, (forall k, k ∈ l -> is_Some (m !! k)) ->
    (omap (fun k => (fun v => (k, v)) <$> m !! k) l).*1 = l) as H.
  { induction l as [|k l IH]; intros Hl; [done|]. simpl.
    destruct (Hl k) as [v Hv]; [by left|]. rewrite Hv. simpl. f_equal. apply IH. intros. apply Hl. by right. }
  apply H. intros k. unfold bt_keys. rewrite elem_of_bt_set. apply elem_of_dom.
Qed.

Lemma snapshot_members_ids l : psm_user_id <$> snapshot_members (from_members l) = pd_ids (from_members l).
Proof.
  unfold snapshot_members. rewrite <- list_fmap_compose.
  change (fst <$> bt_iter (pd_hash (from_members l)) = pd_ids (from_members l)). rewrite bt_iter_keys.
  unfold from_members. destruct (collect_members l ∅); [done|]. unfold bt_keys, bt_set. simpl. by rewrite dom_empty_L.
Qed.

Section Snapshots.
Context `{HI : HashIter} `{WI : Wire} `{SJ : SerdeJson}.

(** A roster a peer may apply replaces what was stored for its node. *)
Lemma snapshot_stored cfg (sink : option (App -> FleetTransition -> Instant -> WebhookDispatcher -> WebhookDispatcher))
    (nd : Server) env apps app node channel ms now :
  (version env <= SCALING_VERSION)%Z -> apps (ref_id (env_app env)) = Some app ->
  payload env = PPresenceSnapshot node channel ms -> node <> node_id cfg ->
  (env_seq env = 0 \/ applied (nd_view nd) node (app_id app) ("p:" +:+ channel) < env_seq env)%Z ->
  roster_of (nd_view (handle_incoming cfg sink nd env apps now)) (app_id app) channel node
  = Some (PresenceCache.members (PresenceCache.PeerSnapshot_new ms now)).
Proof.
  intros Hv Ha Hp Hne Hs. unfold handle_incoming. rewrite (proj2 (Z.ltb_ge _ _) Hv), Ha.
  destruct (saw_peer_frame cfg nd (payload env) now) as (Hq & _ & _).
  set (nd1 := saw_peer cfg nd (payload env) now) in *. clearbody nd1. rewrite Hp. cbn [handle_payload handle_peer_state].
  rewrite (proj2 (String.eqb_neq _ _) Hne). unfold apply_remote_presence_snapshot, node_accept.
  assert ((accept_seq (nd_view nd1) node (app_id app) ("p:" +:+ channel) (env_seq env) now).1 = true) as Hok.
  { unfold accept_seq. destruct (Z.eqb_spec (env_seq env) 0); [done|]. destruct Hs as [?|Hs]; [done|].
    rewrite (applied_ext (nd_view nd) (nd_view nd1)) in Hs by done. unfold applied in Hs.
    destruct (peer_seqs (nd_view nd1) !! _) as [[x t]|]; simpl in *;
      match goal with |- context [(?a <=? ?b)%Z] => destruct (Z.leb_spec a b); [lia|done] end. }
  destruct (accept_seq _ _ _ _ _ _) as [ok v]. simpl in Hok. subst ok. cbn [negb]. cbv zeta.
  set (v' := set_cache_view _ _).
  assert (roster_of v' (app_id app) channel node = Some (PresenceCache.members (PresenceCache.PeerSnapshot_new ms now)))
    as Hr.
  { unfold roster_of, v', PresenceCache.insert_snapshot, nodes_of. simpl. rewrite lookup_insert_eq. simpl.
    by rewrite lookup_insert_eq. }
  destruct (find_channel _ _ _) as [ch|]; [|exact Hr].
  assert (forall (f : Server -> string -> Server) l (nd : Server), (forall nd u, nd_view (f nd u) = nd_view nd) ->
    nd_view (foldl f nd l) = nd_view nd) as Hf.
  { intros f l. induction l as [|u l IH]; intros nd0 H0; simpl; [done|]. by rewrite IH, H0. }
  rewrite !Hf; [exact Hr| |].
  - intros nd0 u. unfold announce_left. case_ifs; [done|apply to_local_view].
  - intros nd0 u. unfold announce_joined. case_ifs; [done|apply to_local_view].
Qed.

(** What the snapshot of one presence channel puts on the bus. *)
Lemma snapshot_published cfg app now nd counts ch :
  scaling_enabled cfg = true -> is_presence (ch_kind ch) = true ->
  bus_ok cfg nd -> publish_tx (nd_bus nd) <> None ->
  forall local, presence_snapshot ch = Some local -> pd_count local <> 0 ->
  let env := mk_env app (node_next_seq nd).1
               (PPresenceSnapshot (node_id cfg) (ch_name ch) (snapshot_members local)) in
  env_seq env <> 0%Z ->
  has_room (publish_overflow cfg) (nd_bus nd) (to_vec env) = true ->
  contents (nd_bus (snapshot_channel cfg app now (nd, counts) ch).1) = contents (nd_bus nd) ++ [to_vec env].
Proof.
  intros Hsc Hp Hb Htx local Hl Hc env Hseq Hroom. unfold snapshot_channel. rewrite Hp.
  unfold node_next_seq in *. destruct (next_seq_frame (nd_bus nd)) as (F1 & F2 & F3 & F4).
  destruct (next_seq (nd_bus nd)) as [n b] eqn:En. simpl in *. rewrite Hl.
  rewrite (proj2 (Nat.eqb_neq _ _) Hc). unfold publish_presence_snapshot, when_scaling. rewrite Hsc.
  unfold publish_env. simpl. fold env.
  destruct (spawn_publish_spec (publish_overflow cfg) b env now) as [_ Hs].
  { destruct Hb as [B1 B2 B3]. split; unfold publish_queue_depth in *; by rewrite ?F1, ?F2, ?F3, ?(proj2 F4). }
  rewrite F1 in Hs. destruct (publish_tx (nd_bus nd)) as [q|] eqn:Eq; [|done].
  assert (encoded b env = to_vec env) as Hen.
  { unfold encoded. change (env_seq env) with n. by rewrite (proj2 (Z.eqb_neq _ _) Hseq). }
  rewrite Hen in Hs.
  assert (has_room (publish_overflow cfg) b (to_vec env) = true) as Hr.
  { revert Hroom. unfold has_room, publish_queue_depth, staged. by rewrite F1, F2, Eq. }
  rewrite Hr in Hs. destruct Hs as [-> _]. unfold contents, staged. by rewrite F1, F2, F3, Eq.
Qed.

Lemma member_has_user c s m pm :
  channel_wf c -> is_presence (ch_kind c) = true -> ch_members c !! s = Some m ->
  m_presence m = Some pm -> has_user_id c (user_id pm) = true.
Proof.
  intros Hw Hp Hs Hm. rewrite (has_user_present c _ Hw), Hp. simpl. unfold roster.
  rewrite present_count, bool_decide_eq_true, map_count_pos. exists s, m. split; [done|].
  unfold joined_as. rewrite Hm. apply String.eqb_refl.
Qed.

(** The periodic snapshot of a presence channel makes a peer agree with this
    node: what is queued for the fleet is an envelope after whose handling,
    unless the peer already applied something newer, the peer's roster for this
    node lists exactly the users that have a socket in the channel here. *)
Theorem snapshot_converges cfgA cfgB
    (sink : option (App -> FleetTransition -> Instant -> WebhookDispatcher -> WebhookDispatcher))
    app (ndA ndB : Server) counts ch apps now nowB :
  scaling_enabled cfgA = true -> bus_ok cfgA ndA -> publish_tx (nd_bus ndA) <> None ->
  channel_wf ch -> is_presence (ch_kind ch) = true -> ch_members ch <> ∅ ->
  (forall s m, ch_members ch !! s = Some m -> m_presence m <> None) ->
  node_id cfgA <> node_id cfgB -> apps (app_id app) = Some app ->
  exists env,
    (env_seq env <> 0%Z -> has_room (publish_overflow cfgA) (nd_bus ndA) (to_vec env) = true ->
     contents (nd_bus (snapshot_channel cfgA app now (ndA, counts) ch).1) = contents (nd_bus ndA) ++ [to_vec env]) /\
    ((applied (nd_view ndB) (node_id cfgA) (app_id app) ("p:" +:+ ch_name ch) < env_seq env)%Z ->
     exists known,
       roster_of (nd_view (handle_incoming cfgB sink ndB env apps nowB)) (app_id app) (ch_name ch) (node_id cfgA)
         = Some known /\
       forall u, is_Some (known !! u) <-> has_user_id ch u = true).
Proof.
  intros Hsc Hb Htx Hw Hp Hne Hall Hnode Happ.
  destruct (presence_snapshot_ids ch Hw Hp Hall) as (r & Hr & _ & Hc & Hids).
  exists (mk_env app (node_next_seq ndA).1 (PPresenceSnapshot (node_id cfgA) (ch_name ch) (snapshot_members r))).
  split.
  - intros Hseq Hroom. apply snapshot_published; try done.
    rewrite Hc. apply map_choose in Hne as (s & m & Hs). destruct (m_presence m) as [pm|] eqn:Em; [|by destruct (Hall s m)].
    assert (user_id pm ∈ pd_ids r) as Hin by (by apply Hids, (member_has_user ch s m)).
    by destruct (pd_ids r); [apply not_elem_of_nil in Hin|].
  - intros Hap. eexists. split; [apply snapshot_stored; try done; by right|].
    intros u. rewrite PeerSnapshot_members. unfold presence_snapshot in Hr. rewrite Hp in Hr.
    injection Hr as <-. rewrite snapshot_members_ids. apply Hids.
Qed.
End Snapshots.

(** ** Reloads *)

Lemma compare_NoDup `{HI : HashIter} next l r :
  NoDup (revoked r ++ origins_changed r ++ l.*1) ->
  NoDup (revoked (foldl (compare_app next) r l) ++ origins_changed (foldl (compare_app next) r l)).
Proof.
  revert r. induction l as [|[id old] l IH]; intros r H; cbn [foldl].
  { by rewrite app_nil_r in H. }
  apply IH. assert (revoked r ++ origins_changed r ++ ((id, old) :: l).*1 ≡ₚ
    revoked (compare_app next r (id, old)) ++ origins_changed (compare_app next r (id, old)) ++ l.*1 \/
    revoked r ++ origins_changed r ++ ((id, old) :: l).*1 ≡ₚ
    id :: revoked (compare_app next r (id, old)) ++ origins_changed (compare_app next r (id, old)) ++ l.*1) as [E|E].
  - assert (forall (a b c : list string), a ++ b ++ id :: c ≡ₚ (a ++ [id]) ++ b ++ c) as P1
      by (intros; rewrite <- app_assoc; apply Permutation_app_head; symmetry; simpl; apply Permutation_middle).
    assert (forall (a b c : list string), a ++ b ++ id :: c ≡ₚ a ++ (b ++ [id]) ++ c) as P2
      by (intros; by rewrite <- app_assoc).
    assert (forall (a b c : list string), a ++ b ++ id :: c ≡ₚ id :: a ++ b ++ c) as P3
      by (intros; symmetry; rewrite !(app_assoc a); apply Permutation_middle).
    unfold compare_app. rewrite fmap_cons. simpl.
    destruct (by_id next !! id) as [new|]; [|left; apply P1]. cbv zeta.
    case_ifs; simpl; [left; apply P1|left; apply P2|right; apply P3].
  - by rewrite E in H.
  - rewrite E in H. by apply NoDup_cons in H as [_ H].
Qed.

(** A mailbox after a message was sent to it, if it exists. *)
Abbreviation sent msg := (fmap (fun mb : Mailbox => (mailbox_send msg mb).2)) (only parsing).

Section Reloads.
Context `{HI : HashIter} `{WI : Wire} `{SJ : SerdeJson} `{CR : Crypto} `{IP : InboundParser}.
Context (cfg : Config) (base : Z) (overflow : WebhookOverflow).
Context `{GL : GlobLib} `{FG : Figment} `{SB : SecretBox} `{BP : BodyParser} (prefix : string).

Definition close_revoked : Outbound := Close 4001 "Application no longer exists for this key".
Definition close_origin : Outbound := Close 4009 "Origin is no longer allowed for this application".

(** Folding a function that touches the mailbox [tx] only at one element. *)
Lemma fold_once {A} (f : Mailboxes -> A -> Mailboxes) (x : A) (tx : nat) (g : option Mailbox -> option Mailbox) l mbs :
  NoDup l -> (forall mbs y, y ∈ l -> y <> x -> f mbs y !! tx = mbs !! tx) ->
  (forall mbs, f mbs x !! tx = g (mbs !! tx)) ->
  (x ∈ l -> foldl f mbs l !! tx = g (mbs !! tx)) /\ (x ∉ l -> foldl f mbs l !! tx = mbs !! tx).
Proof.
  intros Hnd Hother Hx. revert mbs. induction Hnd as [|y l Hy Hnd IH]; intros mbs; cbn [foldl]; [set_solver|].
  destruct (IH (fun m z Hz => Hother m z (list_elem_of_further _ _ _ Hz)) (f mbs y)) as [I1 I2]. split.
  - intros [->|Hin]%elem_of_cons; [by rewrite I2, Hx|].
    rewrite I1 by done. f_equal. apply Hother; [by left|]. by intros ->.
  - intros [Hne Hn]%not_elem_of_cons. rewrite I2 by done. apply Hother; [by left|done].
Qed.

(** Which handles are registered for an application. *)
Lemma registered sys id h :
  sys_inv cfg sys -> h ∈ connection_handles (nd_channels (sys_node sys)) id ->
  exists s k, sys_tasks sys !! s = Some k /\ app_id (k_app k) = id /\ k_handle k = h.
Proof.
  intros Hinv. unfold connection_handles. destruct (nd_channels (sys_node sys) !! id) as [slot|] eqn:E; [|set_solver].
  intros (s & Hs)%elem_of_hvalues.
  assert (conn_of (nd_channels (sys_node sys)) id s = Some h) as Hc by (unfold conn_of, app_slot; by rewrite E).
  apply (inv_conn _ _ Hinv) in Hc as (k & Hk & ? & ?). eauto.
Qed.

Lemma registered_conn sys s k :
  sys_inv cfg sys -> sys_tasks sys !! s = Some k ->
  k_handle k ∈ connection_handles (nd_channels (sys_node sys)) (app_id (k_app k)).
Proof.
  intros Hinv Hk. assert (conn_of (nd_channels (sys_node sys)) (app_id (k_app k)) s = Some (k_handle k)) as Hc.
  { apply (inv_conn _ _ Hinv). by exists k. }
  unfold conn_of, app_slot, connection_handles in *.
  destruct (nd_channels (sys_node sys) !! app_id (k_app k)) as [slot|]; simpl in Hc; [|by rewrite lookup_empty in Hc].
  apply elem_of_hvalues. eauto.
Qed.


(** Revoking an application reaches exactly its own connections. *)
Lemma revoke_effect sys s k mbs id :
  sys_inv cfg sys -> tracked (sys_tasks sys) -> sys_tasks sys !! s = Some k ->
  revoke_app (nd_channels (sys_node sys)) mbs id !! h_tx (k_handle k)
  = if decide (id = app_id (k_app k)) then sent close_revoked (mbs !! h_tx (k_handle k))
    else mbs !! h_tx (k_handle k).
Proof.
  intros Hinv Ht Hk. unfold revoke_app. case_decide as Hd.
  - subst id. apply send_all_in; [|by apply registered_conn with s].
    unfold distinct_tx, connection_handles.
    destruct (nd_channels (sys_node sys) !! app_id (k_app k)) as [slot|] eqn:E; [|constructor].
    unfold hvalues. rewrite <- list_fmap_compose. apply NoDup_fmap_2_strong; [|apply NoDup_hiter].
    assert (forall x h, (x, h) ∈ hiter (connections slot) -> exists k, sys_tasks sys !! x = Some k /\ k_handle k = h) as Hin.
    { intros x h Hx%elem_of_hiter.
      assert (conn_of (nd_channels (sys_node sys)) (app_id (k_app k)) x = Some h) as Hc
        by (unfold conn_of, app_slot; by rewrite E).
      apply (inv_conn _ _ Hinv) in Hc as (k' & ? & ? & ?). eauto. }
    intros [x h] [x' h'] Hx Hx' He. simpl in He.
    destruct (Hin _ _ Hx) as (k1 & L1 & <-), (Hin _ _ Hx') as (k2 & L2 & <-).
    assert (x = x') as <- by (by eapply (tracked_tx _ Ht)). by simplify_eq.
  - apply send_all_other. intros h Hh He. apply (registered sys) in Hh as (s' & k' & Hk' & Hid & <-); [|done].
    assert (s' = s) as -> by (by eapply (tracked_tx _ Ht)). by simplify_eq.
Qed.

(** Rechecking the origins of an application closes exactly its connections
    whose origin the new list blocks. *)
Lemma recheck_effect sys s k mbs next id :
  tracked (sys_tasks sys) -> sys_tasks sys !! s = Some k ->
  recheck_app next (sys_tasks sys) mbs id !! h_tx (k_handle k)
  = if decide (id = app_id (k_app k))
    then match app_by_id next id with
         | Some new => if origin_blocked new (c_origin (k_conn k))
                       then sent close_origin (mbs !! h_tx (k_handle k)) else mbs !! h_tx (k_handle k)
         | None => mbs !! h_tx (k_handle k)
         end
    else mbs !! h_tx (k_handle k).
Proof.
  intros Ht Hk. unfold recheck_app. destruct (app_by_id next id) as [new|]; [|by case_decide].
  set (tx := h_tx (k_handle k)).
  destruct (fold_once (recheck_origin new id) (s, k) tx
    (fun o => if decide (id = app_id (k_app k)) then
                if origin_blocked new (c_origin (k_conn k)) then sent close_origin o else o else o)
    (hiter (sys_tasks sys)) mbs) as [H _].
  - apply NoDup_hiter.
  - intros m [s' k'] Hin%elem_of_hiter Hne. unfold recheck_origin. simpl. case_ifs; try done.
    apply try_send_other. intros He. apply Hne.
    assert (s' = s) as -> by (by eapply (tracked_tx _ Ht)). by simplify_eq.
  - intros m. unfold recheck_origin. simpl. rewrite (tracked_app _ Ht _ _ Hk).
    unfold is_closed. fold tx. destruct (m !! tx) as [mb|] eqn:Em.
    + destruct (mb_closed mb) eqn:Ec.
      * rewrite Em. case_decide; [|done]. destruct (origin_blocked _ _); [|done]. simpl. unfold mailbox_send. by rewrite Ec.
      * destruct (String.eqb_spec (app_id (k_app k)) id) as [<-|Hne]; simpl.
        -- rewrite decide_True by done. destruct (origin_blocked _ _); [|done]. unfold tx.
           rewrite try_send_same. fold tx. by rewrite Em.
        -- by rewrite decide_False by congruence.
    + rewrite Em. case_decide; [|done]. by destruct (origin_blocked _ _).
  - rewrite H; [done|]. by apply elem_of_hiter.
Qed.

(** What a reload does to one connection's mailbox. *)
Lemma reload_mailbox sys r next s k :
  sys_inv cfg sys -> tracked (sys_tasks sys) -> sys_tasks sys !! s = Some k ->
  NoDup (revoked r) -> NoDup (origins_changed r) ->
  let id := app_id (k_app k) in
  let recheck := fun o : option Mailbox =>
    match by_id next !! id with
    | Some new => if origin_blocked new (c_origin (k_conn k)) then sent close_origin o else o
    | None => o
    end in
  nd_mbs (sys_node (apply_apps_reload
    {| sys_node := sys_node sys; sys_tasks := sys_tasks sys; sys_apps := next |} r)) !! h_tx (k_handle k)
  = (if decide (id ∈ origins_changed r) then recheck else fun o => o)
      ((if decide (id ∈ revoked r) then sent close_revoked else fun o => o)
         (nd_mbs (sys_node sys) !! h_tx (k_handle k))).
Proof.
  intros Hinv Ht Hk Hnd1 Hnd2 id recheck. simpl.
  destruct (fold_once (recheck_app next (sys_tasks sys)) id (h_tx (k_handle k)) recheck (origins_changed r)
    (foldl (revoke_app (nd_channels (sys_node sys))) (nd_mbs (sys_node sys)) (revoked r)) Hnd2) as [O1 O2].
  { intros m y _ Hne. rewrite (recheck_effect sys s k) by done. by rewrite decide_False. }
  { intros m. rewrite (recheck_effect sys s k) by done. by rewrite decide_True. }
  destruct (fold_once (revoke_app (nd_channels (sys_node sys))) id (h_tx (k_handle k)) (sent close_revoked)
    (revoked r) (nd_mbs (sys_node sys)) Hnd1) as [R1 R2].
  { intros m y _ Hne. rewrite (revoke_effect sys s k) by done. by rewrite decide_False. }
  { intros m. rewrite (revoke_effect sys s k) by done. by rewrite decide_True. }
  destruct (decide (id ∈ origins_changed r)) as [Ho|Ho]; [rewrite O1 by done|rewrite O2 by done];
    (destruct (decide (id ∈ revoked r)) as [Hv|Hv]; [rewrite R1 by done|rewrite R2 by done]); done.
Qed.

End Reloads.

(** ** Witnesses *)

Section Witnesses.
#[local] Existing Instance canonical_iter.
#[local] Existing Instance demo_crypto.
#[local] Existing Instance h_wire.
#[local] Existing Instance h_json.
#[local] Existing Instance h_figment.
#[local] Existing Instance h_body.
#[local] Existing Instance h_parser.
#[local] Existing Instance literal_globs.
#[local] Existing Instance toy_box.

Definition demo_index : AppIndex :=
  match build_app_index [plain_raw "a"] with Ok idx => idx | Err _ => {| by_id := ∅; by_key := ∅ |} end.

Lemma demo_index_wf : index_wf demo_index.
Proof.
  destruct (index_apps_Ok [plain_raw "a"] {| by_id := ∅; by_key := ∅ |} demo_index) as [H _];
    [apply index_wf_empty|reflexivity|exact H].
Qed.

(** A presence channel on which one local user watches. *)
Definition demo_room : Channel :=
  (subscribe (Channel_new "presence-x") "1.1" (demo_handle "1.1" 0) (Some (demo_member "u"))).2.

Definition demo_room_server : Server :=
  set_manager demo_server
    (subscribe_with ∅ (demo_app "a" None) "presence-x" "1.1" (demo_handle "1.1" 0) (Some (demo_member "u"))
       (fun _ e => (true, e)) (fun _ _ e => e) 0%Z tt).1.2.

Lemma demo_room_server_wf : manager_wf (nd_channels demo_room_server).
Proof. apply subscribe_with_wf, manager_wf_empty. Qed.

Lemma expiry_announced_witness :
  nd_mbs (expire_member (demo_cfg "n1") 100 WBestEffort demo_index 9%Z demo_room_server
    {| PresenceCache.em_app_id := "a"; PresenceCache.em_channel := "presence-x";
       PresenceCache.em_user_id := "gone" |})
  = tell demo_room_server "a" "presence-x" (member_removed "presence-x" "gone").
Proof.
  destruct (app_by_id demo_index "a") as [app|] eqn:E; [|vm_compute in E; discriminate E].
  pose proof (expiry_announced (demo_cfg "n1") 100 WBestEffort demo_index 9%Z demo_room_server
    {| PresenceCache.em_app_id := "a"; PresenceCache.em_channel := "presence-x";
       PresenceCache.em_user_id := "gone" |} app demo_index_wf E) as H. cbv zeta in H.
  assert (app_id app = "a") as Hid by (vm_compute in E; by injection E as <-). rewrite Hid in H.
  destruct (find_channel (nd_channels demo_room_server) "a" _) as [ch|] eqn:Ec;
    [|vm_compute in Ec; discriminate Ec].
  apply H. rewrite <- fleet_has_iff. vm_compute. discriminate.
Defined.

Lemma leave_announced_witness :
  nd_mbs (leave_channel (demo_cfg "n1") 100 WBestEffort demo_room_server (demo_app "a" None) "1.1" "presence-x" 0%Z)
  = broadcast_protocol (unsubscribe demo_room "1.1").2 (member_removed "presence-x" "u") None ∅.
Proof.
  destruct (find_channel (nd_channels demo_room_server) "a" "presence-x") as [ch|] eqn:Ec;
    [|vm_compute in Ec; discriminate Ec].
  destruct (ch_members ch !! "1.1") as [m|] eqn:Em;
    [|vm_compute in Ec; injection Ec as <-; vm_compute in Em; discriminate Em].
  destruct (leave_announced (demo_cfg "n1") 100 WBestEffort demo_room_server (demo_app "a" None) "1.1"
    "presence-x" ch m (demo_member "u") 0%Z) as [_ H].
  - apply demo_room_server_wf.
  - reflexivity.
  - exact Ec.
  - exact Em.
  - vm_compute in Ec. injection Ec as <-. vm_compute in Em. injection Em as <-. reflexivity.
  - rewrite H; [|rewrite <- fleet_has_iff; vm_compute; discriminate].
    vm_compute in Ec. injection Ec as <-. reflexivity.
Defined.

Lemma demo_room_wf : channel_wf demo_room.
Proof. apply subscribe_wf. apply new_wf. Qed.

Lemma snapshot_converges_witness :
  exists env,
    (env_seq env <> 0%Z -> has_room (publish_overflow (demo_cfg "n1")) (nd_bus demo_server) (to_vec env) = true ->
     contents (nd_bus (snapshot_channel (demo_cfg "n1") (demo_app "a" None) 0%Z (demo_server, []) demo_room).1)
       = contents (nd_bus demo_server) ++ [to_vec env]) /\
    ((applied (nd_view demo_server) "n1" "a" "p:presence-x" < env_seq env)%Z ->
     exists known,
       roster_of (nd_view (handle_incoming (demo_cfg "n2") None demo_server env demo_apps 0%Z))
         "a" "presence-x" "n1" = Some known /\
       forall u, is_Some (known !! u) <-> has_user_id demo_room u = true).
Proof.
  apply (snapshot_converges (demo_cfg "n1") (demo_cfg "n2") None (demo_app "a" None) demo_server demo_server []
    demo_room demo_apps 0%Z 0%Z).
  - reflexivity.
  - apply bus_new_wf.
  - discriminate.
  - apply demo_room_wf.
  - reflexivity.
  - intros H. apply (f_equal (lookup "1.1")) in H. vm_compute in H. discriminate H.
  - intros s m H. change (({["1.1" := {| m_handle := demo_handle "1.1" 0; m_presence := Some (demo_member "u") |}]}
      : gmap string Member) !! s = Some m) in H. by apply lookup_singleton_Some in H as [_ <-].
  - discriminate.
  - reflexivity.
Defined.

Definition demo_open : System :=
  (open_connection (sys_start (demo_cfg "n1") WBestEffort demo_index) (demo_app "a" None) "1.1" 0 None true 0%Z).2.

Lemma demo_open_reachable : sys_reachable (demo_cfg "n1") 100 WBestEffort EmptyString demo_open.
Proof.
  eapply sys_next; [apply (sys_init _ _ _ _ [plain_raw "a"]); reflexivity|].
  apply sys_own, own_open; [reflexivity|reflexivity|]. intros s k' H'. vm_compute in H'. discriminate H'.
Qed.

Lemma demo_reload :
  reload_apps_with (sys_apps demo_open) (Ok [])
  = (Ok {| loaded := 0; revoked := ["a"]; origins_changed := [] |}, {| by_id := ∅; by_key := ∅ |}).
Proof. vm_compute. reflexivity. Qed.

End Witnesses.
