(* ===== verification/Topic.v ===== *)
(** * What the nodes of a fleet tell one another

    A topic is one piece of a node's state that its peers keep a copy of: the
    users of a presence channel, the subscribers of another channel, whether a
    user is signed in.  The messages about it are read as news ([news_of] of
    Message): [learn] is what a piece of news makes of what was known, [here] the
    fact itself, [heard] a peer's copy.  The last part relates every change of a
    node's channels and users to the news the node must publish for it
    ([crates/zatat-scaling/src/dispatcher.rs], [crates/zatat-ws/src/handler.rs]). *)

From S2P Require Import Prelude.
From S2P Require Import Core.
From S2P Require Import Json.
From S2P Require Import Envelope.
From S2P Require Import Auth.
From S2P Require Import Connection.
From S2P Require Import Channel.
From S2P Require Import Manager.
From S2P Require Import Message.
From S2P Require Import PeerState.
From S2P Require Import Encryption.
From S2P Require Import Bus.
From S2P Require Import Dispatcher.
From S2P Require Import Webhooks.
From S2P Require Import Routes.
From S2P Require Import Handler.
From S2P Require Import Apps.
From S2P Require Import Router.
From S2P Require Import Tasks.
From S2P Require Import System.
From S2P Require Import HandlerProps.
From S2P Require Import TaskProps.
From stdpp Require Import options.

(** ** The users of a channel *)

(** The users the members of a channel joined as. *)
Definition seat_users (ms : gmap string Member) : gset string :=
  list_to_set (omap (fun e : string * Member => user_id <$> m_presence e.2) (map_to_list ms)).

Lemma elem_of_seat_users ms u : u ∈ seat_users ms <-> 0 < map_count (joined_as u) ms.
Proof.
  unfold seat_users. rewrite elem_of_list_to_set, list_elem_of_omap, map_count_pos. split.
  - intros ([s m] & Hin & Hu). apply elem_of_map_to_list in Hin. exists s, m. split; [done|].
    unfold joined_as. simpl in Hu. destruct (m_presence m); [|done]. simpl in Hu.
    injection Hu as <-. apply String.eqb_refl.
  - intros (s & m & Hs & Hj). exists (s, m). split; [by apply elem_of_map_to_list|]. simpl.
    unfold joined_as in Hj. destruct (m_presence m) as [pm|]; [|done]. by apply String.eqb_eq in Hj as <-.
Qed.

Lemma has_user_seat c u :
  channel_wf c -> is_presence (ch_kind c) = true -> has_user_id c u = true <-> u ∈ seat_users (ch_members c).
Proof. intros Hw Hp. rewrite has_user_id_count, elem_of_seat_users, Nat.ltb_lt by done. done. Qed.

Lemma seat_users_insert ms s m pm :
  ms !! s = None -> m_presence m = Some pm ->
  seat_users (<[s := m]> ms) = {[user_id pm]} ∪ seat_users ms.
Proof.
  intros Hs Hm. apply set_eq. intros u.
  rewrite elem_of_union, elem_of_singleton, !elem_of_seat_users, map_count_insert by done.
  unfold joined_as at 1. rewrite Hm. destruct (String.eqb_spec (user_id pm) u); [split; [by left|lia]|].
  naive_solver lia.
Qed.

Lemma seat_users_delete ms s m pm :
  ms !! s = Some m -> m_presence m = Some pm ->
  seat_users (delete s ms) = if decide (user_id pm ∈ seat_users (delete s ms)) then seat_users ms
                             else seat_users ms ∖ {[user_id pm]}.
Proof.
  intros Hs Hm.
  assert (seat_users ms = {[user_id pm]} ∪ seat_users (delete s ms)) as Heq.
  { rewrite <- (insert_delete_id ms s m Hs) at 1. apply seat_users_insert; [apply lookup_delete_eq|done]. }
  rewrite Heq. case_decide; set_solver.
Qed.

(** A member's seat is news exactly when it brings a user. *)
Lemma subscribe_seats ch s h p :
  channel_wf ch -> is_presence (ch_kind ch) = true -> is_Some p ->
  let r := subscribe ch s h p in
  seat_users (ch_members r.2)
  = match p with
    | Some pm => if sr_was_new r.1 && sr_user_added r.1 then {[user_id pm]} ∪ seat_users (ch_members ch)
                 else seat_users (ch_members ch)
    | None => seat_users (ch_members ch)
    end.
Proof.
  intros Hw Hp [pm ->] r. unfold r. rewrite subscribe_members.
  destruct (ch_members ch !! s) as [m|] eqn:Es.
  - assert (sr_was_new (subscribe ch s h (Some pm)).1 = false) as -> by (unfold subscribe; by rewrite Es). done.
  - destruct (subscribe_user_added ch s h pm Hw Hp Es) as [-> ->]. simpl.
    rewrite (seat_users_insert _ _ _ pm) by done. destruct (has_user_id ch (user_id pm)) eqn:Eu; simpl; [|done].
    apply has_user_seat in Eu; [set_solver|done|done].
Qed.

Lemma unsubscribe_seats ch s :
  channel_wf ch -> is_presence (ch_kind ch) = true ->
  seat_users (delete s (ch_members ch))
  = match uo_user_removed (unsubscribe ch s).1 with
    | Some uid => seat_users (ch_members ch) ∖ {[uid]}
    | None => seat_users (ch_members ch)
    end.
Proof.
  intros Hw Hp. destruct (ch_members ch !! s) as [m|] eqn:Es.
  2:{ rewrite delete_id by done. unfold unsubscribe. by rewrite Es. }
  destruct (m_presence m) as [pm|] eqn:Em.
  - destruct (unsubscribe_user_removed ch s m pm Hw Hp Es Em) as [_ ->].
    rewrite (seat_users_delete _ _ m pm) by done.
    pose proof (has_user_seat (unsubscribe ch s).2 (user_id pm)) as Hs. rewrite unsubscribe_members in Hs.
    assert (ch_kind (unsubscribe ch s).2 = ch_kind ch) as Hk.
    { unfold unsubscribe. rewrite Es, Em. destruct (ch_user_refcounts ch); [by destruct (release_user _ _)|done]. }
    rewrite Hk in Hs. specialize (Hs (unsubscribe_wf ch s Hw) Hp).
    destruct (has_user_id _ _); case_decide; naive_solver.
  - assert (uo_user_removed (unsubscribe ch s).1 = None) as ->.
    { unfold unsubscribe. rewrite Es, Em. by destruct (ch_user_refcounts ch). }
    apply set_eq. intros u. rewrite !elem_of_seat_users, (map_count_delete _ (ch_members ch) s m) by done.
    unfold joined_as at 2. by rewrite Em.
Qed.

(** ** Topics *)

Inductive Topic :=
| Members (id : AppId) (channel : string)
| Subscribers (id : AppId) (channel : string)
| Session (id : AppId) (user : string).

Definition tp_app (t : Topic) : AppId :=
  match t with Members id _ | Subscribers id _ | Session id _ => id end.

(** The key under which the sequence number of the topic's news is kept. *)
Definition tp_key (t : Topic) : string :=
  match t with
  | Members _ c => "p:" +:+ c
  | Subscribers _ c => "c:" +:+ c
  | Session _ u => "u:" +:+ u
  end.

(** Rosters are kept for presence channels, counts for the others. *)
Definition tp_proper (t : Topic) : Prop :=
  match t with
  | Members _ c => is_presence (kind c) = true
  | Subscribers _ c => is_presence (kind c) = false
  | Session _ _ => True
  end.

Definition fact (t : Topic) : Type :=
  match t with Members _ _ => gset string | Subscribers _ _ => Z | Session _ _ => bool end.

Definition nothing (t : Topic) : fact t :=
  match t with Members _ _ => ∅ | Subscribers _ _ => 0%Z | Session _ _ => false end.

#[export] Instance fact_eq_dec t : EqDecision (fact t).
Proof. destruct t; apply _. Defined.

Fixpoint count_in (c : string) (l : list (string * Z)) : Z :=
  match l with
  | [] => 0
  | (c', n) :: l => if String.eqb c' c then n else count_in c l
  end.

Definition on_topic (t : Topic) (w : News) : bool :=
  match t, w with
  | Members _ c, (Joined c' _ | Departed c' _ | Roster c' _) => String.eqb c' c
  | Subscribers _ c, Counted c' _ => String.eqb c' c
  | Subscribers _ _, Counts _ => true
  | Session _ u, (Online u' | Offline u') => String.eqb u' u
  | Session _ _, Sessions _ => true
  | _, _ => false
  end.

Definition learn (t : Topic) : News -> fact t -> fact t :=
  match t with
  | Members _ _ => fun w (x : gset string) =>
      match w with
      | Joined _ u => {[u]} ∪ x
      | Departed _ u => x ∖ {[u]}
      | Roster _ us => list_to_set us
      | _ => x
      end
  | Subscribers _ c => fun w (x : Z) =>
      match w with Counted _ n => n | Counts l => count_in c l | _ => x end
  | Session _ u => fun w (x : bool) =>
      match w with Online _ => true | Offline _ => false | Sessions us => bool_decide (u ∈ us) | _ => x end
  end.

(** The envelope is news of [node] about the topic. *)
Definition about (t : Topic) (node : string) (env : ScalingEnvelope) : bool :=
  String.eqb (ref_id (env_app env)) (tp_app t) &&
  match news_of (payload env) with
  | Some (o, w) => String.eqb o node && on_topic t w
  | None => false
  end.

Definition hear (t : Topic) (node : string) (x : fact t) (env : ScalingEnvelope) : fact t :=
  if about t node env then match news_of (payload env) with Some (_, w) => learn t w x | None => x end else x.

(** The fact itself. *)
Definition here (t : Topic) (m : Manager) : fact t :=
  match t with
  | Members id c => seat_users (seats m id c)
  | Subscribers id c => Z.of_nat (size (seats m id c))
  | Session id u => is_user_online m id u
  end.

(** Every member of a presence channel joined as somebody. *)
Definition seated (t : Topic) (m : Manager) : Prop :=
  match t with
  | Members id c => forall s mb, seats m id c !! s = Some mb -> is_Some (m_presence mb)
  | _ => True
  end.

Lemma here_start t : here t (∅ : Manager) = nothing t /\ seated t (∅ : Manager).
Proof.
  assert (forall id c, seats (∅ : Manager) id c = ∅) as Hs.
  { intros id c. unfold seats, chans_seats, app_slot. by rewrite lookup_empty; simpl; rewrite lookup_empty. }
  destruct t as [id c|id c|id u]; simpl; rewrite ?Hs; done.
Qed.

Lemma about_None t node env : news_of (payload env) = None -> about t node env = false.
Proof. intros H. unfold about. by rewrite H, andb_false_r. Qed.

Lemma about_origin t node env o w : news_of (payload env) = Some (o, w) -> about t node env = true -> node = o.
Proof.
  unfold about. intros -> [_ H]%andb_true_iff. by apply andb_true_iff in H as [->%String.eqb_eq _].
Qed.

Lemma hear_skip t node x env : about t node env = false -> hear t node x env = x.
Proof. unfold hear. by intros ->. Qed.

(** ** Changes of a node and their news *)

Section Changes.
Context (me : string).

(** What a message of this node, if any, makes of a fact. *)
Definition told (t : Topic) (app : App) (news : option ScalingPayload) (x : fact t) : fact t :=
  match news with Some p => hear t me x (mk_env app 0 p) | None => x end.

Definition join_news (name : string) (p : option PresenceMember) (ch : Channel) (r : SubscribeResult)
  : option ScalingPayload :=
  if sr_was_new r then
    match p with
    | Some pm => if sr_user_added r then Some (PMemberAdded me name (user_id pm) (user_info pm)) else None
    | None => Some (PSubscriptionCount me (ch_name ch) (Z.of_nat (sr_member_count r)) false)
    end
  else None.

Definition leave_news (name : string) (ch : Channel) (o : UnsubscribeOutcome) (withheld vacated : bool)
  : option ScalingPayload :=
  if uo_was_member o then
    if is_presence (from_name name)
    then (fun uid => PMemberRemoved me name uid withheld vacated) <$> uo_user_removed o
    else Some (PSubscriptionCount me (ch_name ch) (Z.of_nat (uo_member_count o)) vacated)
  else None.

(** Nobody joined or left a channel, nobody signed in or out. *)
Definition same_seats (m m' : Manager) : Prop := forall i n, seats m' i n = seats m i n.
Definition same_users (m m' : Manager) : Prop := forall i u, is_user_online m' i u = is_user_online m i u.

(** The changes of a node's manager, each with the news it calls for. *)
Inductive moved (m m' : Manager) (app : App) : option ScalingPayload -> Prop :=
| moved_idle : same_seats m m' -> same_users m m' -> moved m m' app None
| moved_join name s h p :
    (is_presence (kind name) = true -> is_Some p) -> (is_presence (kind name) = false -> p = None) -> same_users m m' ->
    let ch := default (with_cache_ttl name (from_secs <$> cache_ttl_seconds app)) (find_channel m (app_id app) name) in
    (forall i c, seats m' i c = if decide (i = app_id app /\ c = name) then ch_members (subscribe ch s h p).2 else seats m i c) ->
    moved m m' app (join_news name p (subscribe ch s h p).2 (subscribe ch s h p).1)
| moved_leave name s ch withheld vacated :
    find_channel m (app_id app) name = Some ch -> same_users m m' ->
    (forall i c, seats m' i c = if decide (i = app_id app /\ c = name) then delete s (seats m i c) else seats m i c) ->
    moved m m' app (leave_news name (unsubscribe ch s).2 (unsubscribe ch s).1 withheld vacated)
| moved_online uid (first : bool) :
    same_seats m m' -> first = negb (is_user_online m (app_id app) uid) ->
    (forall i u, is_user_online m' i u = if decide (i = app_id app /\ u = uid) then true else is_user_online m i u) ->
    moved m m' app (if first then Some (PUserOnline me uid) else None)
| moved_offline uid (last : bool) :
    same_seats m m' ->
    (forall i u, is_user_online m' i u = if decide (i = app_id app /\ u = uid /\ last = true) then false else is_user_online m i u) ->
    moved m m' app (if last then Some (PUserOffline me uid) else None).

(** The news are the node's own. *)
Lemma moved_origin m m' app news p : moved m m' app news -> news = Some p -> exists w, news_of p = Some (me, w).
Proof.
  intros Hm. destruct Hm as [_ _|name s h pm _ _ _ ch _|name s ch withheld vacated _ _ _|uid first _ _ _|uid last _ _]; [done|..].
  - unfold join_news. destruct (sr_was_new _); [|done].
    destruct pm as [pm|]; [destruct (sr_user_added _); [|done]|]; intros [= <-]; by eexists.
  - unfold leave_news. destruct (uo_was_member _); [|done].
    destruct (is_presence _); [destruct (uo_user_removed _); [|done]|]; intros [= <-]; by eexists.
  - destruct first; [|done]. intros [= <-]. by eexists.
  - destruct last; [|done]. intros [= <-]. by eexists.
Qed.

Lemma told_skip t app news x :
  (forall p, news = Some p -> about t me (mk_env app 0 p) = false) -> told t app news x = x.
Proof. destruct news as [p|]; [|done]. intros H. simpl. by apply hear_skip, H. Qed.

(** *** The users of a presence channel *)

Section MembersTopic.
Context (id : AppId) (channel : string) (Hpres : is_presence (kind channel) = true).

Lemma members_join m app name s h p :
  manager_wf m -> (is_presence (kind name) = true -> is_Some p) ->
  let ch := default (with_cache_ttl name (from_secs <$> cache_ttl_seconds app)) (find_channel m (app_id app) name) in
  let r := subscribe ch s h p in
  seat_users (if decide (id = app_id app /\ channel = name) then ch_members r.2 else seats m id channel)
  = told (Members id channel) app (join_news name p r.2 r.1) (seat_users (seats m id channel)).
Proof using Hpres.
  intros Hm Hp ch r. case_decide as Hd.
  - destruct Hd as [Hi Hc]. rewrite Hi, Hc. rewrite <- Hc in Hp. destruct (Hp Hpres) as [pm ->].
    assert (chan_ok name ch) as [Hcn Hcw].
    { unfold ch. destruct (find_channel _ _ _) eqn:Ef; simpl; [|apply new_ok]. by destruct (find_channel_wf _ _ _ _ Hm Ef). }
    assert (seats m (app_id app) name = ch_members ch) as ->.
    { rewrite seats_find. unfold ch. by destruct (find_channel _ _ _). }
    unfold r. rewrite subscribe_seats by (by rewrite ?(wf_kind _ Hcw), ?Hcn, <- ?Hc). unfold join_news.
    destruct (sr_was_new _), (sr_user_added _); simpl; try done.
    unfold hear, about. simpl. by rewrite !String.eqb_refl.
  - rewrite told_skip; [done|]. intros q Hq. unfold join_news in Hq.
    destruct (sr_was_new _); [|done]. destruct p; [destruct (sr_user_added _); [|done]|]; injection Hq as <-;
      unfold about; simpl; [|by rewrite !andb_false_r].
    destruct (String.eqb_spec (app_id app) id), (String.eqb_spec name channel); rewrite ?andb_false_r; try done.
    by destruct Hd.
Qed.

Lemma members_leave m app name s ch withheld vacated :
  manager_wf m -> find_channel m (app_id app) name = Some ch ->
  seat_users (if decide (id = app_id app /\ channel = name) then delete s (seats m id channel) else seats m id channel)
  = told (Members id channel) app (leave_news name (unsubscribe ch s).2 (unsubscribe ch s).1 withheld vacated)
      (seat_users (seats m id channel)).
Proof using Hpres.
  intros Hm Hf. destruct (find_channel_wf _ _ _ _ Hm Hf) as [[Hcn Hcw] _]. unfold leave_news. case_decide as Hd.
  - destruct Hd as [Hi Hc]. rewrite Hi, Hc, seats_find, Hf, <- Hc. change (from_name channel) with (kind channel). rewrite Hpres.
    rewrite unsubscribe_seats by (by rewrite ?(wf_kind _ Hcw), ?Hcn, <- ?Hc).
    destruct (uo_was_member (unsubscribe ch s).1) eqn:Ew.
    + destruct (uo_user_removed _) as [uid|]; simpl; [|done].
      unfold hear, about. simpl. by rewrite !String.eqb_refl.
    + revert Ew. unfold unsubscribe. destruct (ch_members ch !! s); [|done].
      by destruct (match ch_user_refcounts ch with Some _ => _ | None => _ end).
  - rewrite told_skip; [done|]. intros q Hq. destruct (uo_was_member _); [|done].
    destruct (is_presence (from_name name)); [|injection Hq as <-; unfold about; simpl; by rewrite !andb_false_r].
    destruct (uo_user_removed _); simpl in Hq; [|done]. injection Hq as <-. unfold about. simpl.
    destruct (String.eqb_spec (app_id app) id), (String.eqb_spec name channel); rewrite ?andb_false_r; try done.
    by destruct Hd.
Qed.

Lemma seated_join m m' (app : App) name s h p :
  (is_presence (kind name) = true -> is_Some p) ->
  let ch := default (with_cache_ttl name (from_secs <$> cache_ttl_seconds app)) (find_channel m (app_id app) name) in
  (forall i c, seats m' i c = if decide (i = app_id app /\ c = name) then ch_members (subscribe ch s h p).2 else seats m i c) ->
  seated (Members id channel) m -> seated (Members id channel) m'.
Proof using Hpres.
  intros Hp ch Hseats Hse s' m0. rewrite Hseats. case_decide as Hd; [|apply Hse].
  destruct Hd as [Hi Hc]. simpl in Hse. rewrite Hi, Hc in Hse. rewrite <- Hc in Hp. destruct (Hp Hpres) as [pm ->].
  assert (seats m (app_id app) name = ch_members ch) as Hold
    by (rewrite seats_find; unfold ch; by destruct (find_channel _ _ _)).
  rewrite subscribe_members, <- Hold. destruct (seats _ _ _ !! s) eqn:Es; [apply Hse|].
  intros [[_ <-]|[_ H']]%lookup_insert_Some; [simpl; eauto|by eapply Hse].
Qed.
End MembersTopic.

(** *** The subscribers of another channel *)

Lemma count_join ch s h :
  let r := subscribe ch s h None in
  size (ch_members r.2) = if sr_was_new r.1 then sr_member_count r.1 else size (ch_members ch).
Proof.
  intros r. unfold r. rewrite subscribe_members. unfold subscribe.
  destruct (ch_members ch !! s) as [m|] eqn:E; [done|]. by destruct (ch_user_refcounts ch).
Qed.

Lemma count_leave ch s :
  let r := unsubscribe ch s in
  size (delete s (ch_members ch)) = if uo_was_member r.1 then uo_member_count r.1 else size (ch_members ch).
Proof.
  intros r. unfold r, unsubscribe. destruct (ch_members ch !! s) as [m|] eqn:E; [|by rewrite delete_id].
  destruct (ch_user_refcounts ch), (m_presence m); try done. by destruct (release_user _ _).
Qed.

Section SubscribersTopic.
Context (id : AppId) (channel : string) (Hplain : is_presence (kind channel) = false).

Lemma subscribers_join m app name s h p :
  manager_wf m -> (is_presence (kind name) = true -> is_Some p) -> (is_presence (kind name) = false -> p = None) ->
  let ch := default (with_cache_ttl name (from_secs <$> cache_ttl_seconds app)) (find_channel m (app_id app) name) in
  let r := subscribe ch s h p in
  Z.of_nat (size (if decide (id = app_id app /\ channel = name) then ch_members r.2 else seats m id channel))
  = told (Subscribers id channel) app (join_news name p r.2 r.1) (Z.of_nat (size (seats m id channel))).
Proof using Hplain.
  intros Hm Hsome Hnone ch r.
  assert (chan_ok name ch) as [Hcn _].
  { unfold ch. destruct (find_channel _ _ _) eqn:Ef; simpl; [|apply new_ok]. by destruct (find_channel_wf _ _ _ _ Hm Ef). }
  assert (ch_name r.2 = name) as Hname by (unfold r; by rewrite (proj1 (subscribe_frame _ _ _ _))).
  unfold join_news. rewrite Hname. case_decide as Hd.
  - destruct Hd as [Hi Hc]. rewrite <- Hc in Hnone. pose proof (Hnone Hplain) as ->. rewrite Hi, Hc.
    assert (seats m (app_id app) name = ch_members ch) as ->.
    { rewrite seats_find. unfold ch. by destruct (find_channel _ _ _). }
    pose proof (count_join ch s h) as Hn. fold r in Hn. cbv zeta in Hn. rewrite Hn.
    destruct (sr_was_new r.1); [|done]. unfold told, hear, about. simpl. by rewrite !String.eqb_refl.
  - rewrite told_skip; [done|]. intros q Hq. destruct (sr_was_new _); [|done].
    destruct p; [destruct (sr_user_added _); [|done]|]; injection Hq as <-; unfold about; simpl; [by rewrite !andb_false_r|].
    destruct (String.eqb_spec (app_id app) id), (String.eqb_spec name channel); rewrite ?andb_false_r; try done.
    by destruct Hd.
Qed.

Lemma subscribers_leave m app name s ch withheld vacated :
  manager_wf m -> find_channel m (app_id app) name = Some ch ->
  Z.of_nat (size (if decide (id = app_id app /\ channel = name) then delete s (seats m id channel) else seats m id channel))
  = told (Subscribers id channel) app (leave_news name (unsubscribe ch s).2 (unsubscribe ch s).1 withheld vacated)
      (Z.of_nat (size (seats m id channel))).
Proof using Hplain.
  intros Hm Hf. destruct (find_channel_wf _ _ _ _ Hm Hf) as [[Hcn Hcw] _]. unfold leave_news.
  assert (ch_name (unsubscribe ch s).2 = name) as -> by (by rewrite (proj1 (unsubscribe_frame _ _))).
  case_decide as Hd.
  - destruct Hd as [Hi Hc]. rewrite Hi, Hc, seats_find, Hf, <- Hc. change (from_name channel) with (kind channel). rewrite Hplain.
    rewrite count_leave. destruct (uo_was_member _); [|done]. unfold told, hear, about. simpl. by rewrite !String.eqb_refl.
  - rewrite told_skip; [done|]. intros q Hq. destruct (uo_was_member _); [|done].
    destruct (is_presence (from_name name)); [destruct (uo_user_removed _); simpl in Hq; [|done]|]; injection Hq as <-;
      unfold about; simpl; [by rewrite !andb_false_r|].
    destruct (String.eqb_spec (app_id app) id), (String.eqb_spec name channel); rewrite ?andb_false_r; try done.
    by destruct Hd.
Qed.
End SubscribersTopic.
(** *** Every change is told *)

Lemma session_told id u app (b : bool) uid p :
  p = PUserOnline me uid \/ p = PUserOffline me uid ->
  told (Session id u) app (Some p) b
  = if decide (id = app_id app /\ u = uid) then (match p with PUserOnline _ _ => true | _ => false end) else b.
Proof.
  intros [-> | ->]; unfold told, hear, about; simpl; rewrite String.eqb_refl; simpl;
    destruct (String.eqb_spec (app_id app) id), (String.eqb_spec uid u); case_decide; naive_solver.
Qed.

Lemma moved_seated t m m' app news : tp_proper t -> moved m m' app news -> seated t m -> seated t m'.
Proof.
  intros Hp Hm. destruct t as [id c|id c|id u]; [|done|done].
  destruct Hm as [Hs _|name s h pm H1 _ _ ch Hs|name s ch withheld vacated _ _ Hs|uid first Hs _ _|uid last Hs _]; simpl.
  - by rewrite Hs.
  - by eapply seated_join.
  - intros Hse s' m0. rewrite Hs. case_decide; [|apply Hse]. intros [_ H']%lookup_delete_Some. by eapply Hse.
  - by rewrite Hs.
  - by rewrite Hs.
Qed.

(** A change and its news agree about every topic. *)
Lemma moved_told t m m' app news :
  tp_proper t -> manager_wf m -> moved m m' app news -> here t m' = told t app news (here t m).
Proof.
  intros Hp Hw Hm. destruct t as [id c|id c|id u]; simpl in Hp |- *;
    destruct Hm as [Hs Hu|name s h pm H1 H2 Hu ch Hs|name s ch withheld vacated Hf Hu Hs|uid first Hs Hf Hu|uid last Hs Hu].
  - by rewrite Hs.
  - rewrite Hs. by apply members_join.
  - rewrite Hs. by apply members_leave.
  - rewrite Hs, told_skip; [done|]. intros p Hq. destruct first; [|done]. injection Hq as <-. unfold about. simpl. by rewrite !andb_false_r.
  - rewrite Hs, told_skip; [done|]. intros p Hq. destruct last; [|done]. injection Hq as <-. unfold about. simpl. by rewrite !andb_false_r.
  - by rewrite Hs.
  - rewrite Hs. by apply subscribers_join.
  - rewrite Hs. by apply subscribers_leave.
  - rewrite Hs, told_skip; [done|]. intros p Hq. destruct first; [|done]. injection Hq as <-. unfold about. simpl. by rewrite !andb_false_r.
  - rewrite Hs, told_skip; [done|]. intros p Hq. destruct last; [|done]. injection Hq as <-. unfold about. simpl. by rewrite !andb_false_r.
  - apply Hu.
  - rewrite Hu, told_skip; [done|]. intros p Hq. unfold join_news in Hq. destruct (sr_was_new _); [|done].
    destruct pm; [destruct (sr_user_added _); [|done]|]; injection Hq as <-; unfold about; simpl; by rewrite !andb_false_r.
  - rewrite Hu, told_skip; [done|]. intros p Hq. unfold leave_news in Hq. destruct (uo_was_member _); [|done].
    destruct (is_presence _); [destruct (uo_user_removed _); simpl in Hq; [|done]|]; injection Hq as <-;
      unfold about; simpl; by rewrite !andb_false_r.
  - rewrite Hu. destruct first.
    + rewrite (session_told _ _ _ _ uid) by (by left). done.
    + simpl. case_decide as Hd; [|done]. destruct Hd as [-> ->]. by destruct (is_user_online m (app_id app) uid).
  - rewrite Hu. destruct last.
    + rewrite (session_told _ _ _ _ uid) by (by right). repeat case_decide; naive_solver.
    + simpl. rewrite decide_False; [done|]. by intros (_ & _ & ?).
Qed.
(** *** Snapshots *)

(** Messages that say all there is to say. *)
Inductive truthful `{HI : HashIter} (m : Manager) (app : App) : ScalingPayload -> Prop :=
| true_roster ch local :
    find_channel m (app_id app) (ch_name ch) = Some ch -> presence_snapshot ch = Some local ->
    truthful m app (PPresenceSnapshot me (ch_name ch) (snapshot_members local))
| true_counts counts :
    (forall c, is_presence (kind c) = false ->
       count_in c ((fun e => (cc_channel e, cc_count e)) <$> counts) = Z.of_nat (size (seats m (app_id app) c))) ->
    truthful m app (PChannelCountSnapshot me counts)
| true_sessions us :
    (forall u, u ∈ us <-> is_user_online m (app_id app) u = true) -> truthful m app (PUserSessionSnapshot me us).

(** The roster a snapshot carries is the one the node has. *)
Lemma roster_true `{HI : HashIter} m id ch local :
  manager_wf m -> seated (Members id (ch_name ch)) m -> find_channel m id (ch_name ch) = Some ch -> presence_snapshot ch = Some local ->
  list_to_set (psm_user_id <$> snapshot_members local) = seat_users (seats m id (ch_name ch)) /\
  (pd_count local = 0 -> seat_users (seats m id (ch_name ch)) = ∅).
Proof.
  intros Hw Hse Hf Hl. destruct (find_channel_wf _ _ _ _ Hw Hf) as [[Hn Hcw] _].
  assert (is_presence (ch_kind ch) = true) as Hp by (unfold presence_snapshot in Hl; by destruct (is_presence (ch_kind ch))).
  simpl in Hse. rewrite seats_find, Hf in Hse |- *.
  destruct (presence_snapshot_ids ch Hcw Hp) as (r & Hr & _ & Hcount & Hids).
  { intros s mb Hs. apply not_eq_None_Some. by eapply Hse. }
  assert (r = local) as -> by congruence. unfold presence_snapshot in Hl. rewrite Hp in Hl. injection Hl as <-.
  assert (list_to_set (pd_ids (from_members (m_presence <$> hvalues (ch_members ch)))) = seat_users (ch_members ch)) as Heq.
  { apply set_eq. intros u. rewrite elem_of_list_to_set, Hids. by apply has_user_seat. }
  rewrite snapshot_members_ids, <- Heq. split; [done|]. intros Hz. rewrite Hcount in Hz. by rewrite (nil_length_inv _ Hz).
Qed.

Lemma truthful_told `{HI : HashIter} t m app p n x :
  tp_proper t -> manager_wf m -> seated t m -> truthful m app p -> about t me (mk_env app n p) = true ->
  hear t me x (mk_env app n p) = here t m.
Proof.
  intros Hp Hw Hse Htrue Ha. unfold hear. rewrite Ha. unfold about in Ha. apply andb_true_iff in Ha as [Hi%String.eqb_eq Ha].
  simpl in Hi. destruct Htrue as [ch local Hf Hl|counts Hc|us Hu]; simpl in *; apply andb_true_iff in Ha as [_ Ha];
    destruct t as [id c|id c|id u]; simpl in *; try done; subst id.
  - apply String.eqb_eq in Ha as <-. by apply roster_true.
  - by apply Hc.
  - apply eq_true_iff_eq. by rewrite bool_decide_eq_true.
Qed.

Lemma truthful_origin `{HI : HashIter} m app p : truthful m app p -> exists w, news_of p = Some (me, w).
Proof. destruct 1; by eexists. Qed.
End Changes.
