(* ===== verification/Speech.v ===== *)
(** * What a node tells its peers

    The messages a node queues for its peers (the [publish_*] functions of
    [crates/zatat-scaling/src/dispatcher.rs], called from [handler.rs] and
    [tasks.rs]) are a running account of its channels and users.  For any topic,
    [speaks] is the contract every step of the node is proved to meet: the news it
    queues, replayed on the fact of before, give the fact of after, and their
    sequence numbers rise. *)

From S2P Require Import Prelude.
From S2P Require Import Core.
From S2P Require Import Json.
From S2P Require Import Envelope.
From S2P Require Import Auth.
From S2P Require Import Connection.
From S2P Require Import Channel.
From S2P Require Import Manager.
From S2P Require Import Message.
From S2P Require Import PeerState.
From S2P Require Import Encryption.
From S2P Require Import Bus.
From S2P Require Import Dispatcher.
From S2P Require Import Webhooks.
From S2P Require Import Routes.
From S2P Require Import Handler.
From S2P Require Import Apps.
From S2P Require Import Router.
From S2P Require Import Tasks.
From S2P Require Import System.
From S2P Require Import HandlerProps.
From S2P Require Import TaskProps.
From S2P Require Import Topic.
From stdpp Require Import options.

(** Sequence numbers that rise, from above [lo] up to [hi]. *)
Fixpoint rising (lo : Z) (l : list Z) (hi : Z) : Prop :=
  match l with
  | [] => (lo <= hi)%Z
  | x :: l => (lo < x)%Z /\ rising x l hi
  end.

Lemma rising_le lo l hi : rising lo l hi -> (lo <= hi)%Z.
Proof. revert lo. induction l as [|x l IH]; intros lo; simpl; [done|]. intros [H1 H2%IH]. lia. Qed.

Lemma rising_weaken lo lo' l hi hi' : (lo' <= lo)%Z -> (hi <= hi')%Z -> rising lo l hi -> rising lo' l hi'.
Proof.
  intros Hlo Hhi. revert lo lo' Hlo. induction l as [|x l IH]; intros lo lo' Hlo; simpl; [lia|].
  intros [H1 H2]. split; [lia|]. by apply (IH x).
Qed.

Lemma rising_app lo l1 mid l2 hi : rising lo l1 mid -> rising mid l2 hi -> rising lo (l1 ++ l2) hi.
Proof.
  revert lo. induction l1 as [|x l1 IH]; intros lo; simpl.
  - intros H1 H2. by apply (rising_weaken mid _ _ hi).
  - intros [H1 H2] H3. split; [done|]. by apply IH.
Qed.

(** The sequence numbers of the news about a topic. *)
Definition numbers (t : Topic) (node : string) (envs : list ScalingEnvelope) : list Z :=
  env_seq <$> List.filter (about t node) envs.

Lemma numbers_app t node l1 l2 : numbers t node (l1 ++ l2) = numbers t node l1 ++ numbers t node l2.
Proof. unfold numbers. by rewrite List.filter_app, fmap_app. Qed.

Lemma numbers_quiet t node envs : Forall (fun env => about t node env = false) envs -> numbers t node envs = [].
Proof. unfold numbers. induction 1 as [|env envs H _ IH]; simpl; [done|]. by rewrite H. Qed.

Lemma hear_quiet t node envs x : Forall (fun env => about t node env = false) envs -> foldl (hear t node) x envs = x.
Proof. induction 1 as [|env envs H _ IH]; simpl; [done|]. by rewrite hear_skip. Qed.

(** ** Managers that agree *)

#[export] Instance same_seats_preorder : PreOrder same_seats.
Proof. split; [done|]. intros m1 m2 m3 H1 H2 i n. by rewrite H2, H1. Qed.

#[export] Instance same_users_preorder : PreOrder same_users.
Proof. split; [done|]. intros m1 m2 m3 H1 H2 i n. by rewrite H2, H1. Qed.

Lemma same_users_sockets m m' : (forall i u, user_sockets m' i u = user_sockets m i u) -> same_users m m'.
Proof. intros H i u. apply eq_true_iff_eq. by rewrite !is_user_online_spec, H. Qed.

Lemma agree_same_users m m' : agree m m' -> same_users m m'.
Proof. intros H. apply same_users_sockets, H. Qed.

Lemma other_same_users m m' :
  (forall id, other_state (app_slot m' id) = other_state (app_slot m id)) -> same_users m m'.
Proof. intros H. by apply same_users_sockets, other_state_relations. Qed.

Lemma same_seats_insert m i slot : channels slot = channels (app_slot m i) -> same_seats m (<[i := slot]> m).
Proof. intros Hc i' n. rewrite seats_insert. case_decide as Hd; [|done]. subst. unfold seats. by rewrite Hc. Qed.

Lemma same_users_insert m i slot : user_index slot = user_index (app_slot m i) -> same_users m (<[i := slot]> m).
Proof.
  intros Hc i' u. unfold is_user_online. destruct (decide (i' = i)) as [->|Hne]; [|by rewrite lookup_insert_ne].
  rewrite lookup_insert_eq, Hc. unfold app_slot. by destruct (m !! i).
Qed.

Lemma register_users m app h : same_users m (register_connection m app h).2.
Proof. unfold register_connection. cbv zeta. case_ifs; by apply same_users_insert. Qed.

Lemma unregister_users m i s : same_users m (unregister_connection m i s).
Proof.
  unfold unregister_connection. destruct (m !! i) as [slot|] eqn:E; [|done].
  apply same_users_insert. unfold app_slot. by rewrite E.
Qed.

Lemma touch_users m i : same_users m (touch_slot m i).
Proof. apply agree_same_users, same_roster_agree, touch_slot_same. Qed.

Lemma register_seats m app h : same_seats m (register_connection m app h).2.
Proof. unfold register_connection. cbv zeta. case_ifs; by apply same_seats_insert. Qed.

Lemma unregister_seats m i s : same_seats m (unregister_connection m i s).
Proof.
  unfold unregister_connection. destruct (m !! i) as [slot|] eqn:E; [|done].
  apply same_seats_insert. unfold app_slot. by rewrite E.
Qed.

Lemma touch_seats m i : same_seats m (touch_slot m i).
Proof. by apply same_seats_insert. Qed.

Lemma bind_seats m i u s : same_seats m (bind_user m i u s).2.
Proof. by apply same_seats_insert. Qed.

Lemma unbind_seats m i u s : same_seats m (unbind_user m i u s).2.
Proof.
  unfold unbind_user. destruct (m !! i) as [slot|] eqn:E; [|done].
  destruct (user_index slot !! u) as [l|]; [|done].
  destruct (List.filter _ l); (apply same_seats_insert; unfold app_slot; by rewrite E).
Qed.

Lemma watchers_seats m i l u : same_seats m (foldl (fun m w => add_watcher m i w u) m l).
Proof.
  revert m. induction l as [|w l IH]; intros m; simpl; [done|]. etrans; [|apply IH]. by apply same_seats_insert.
Qed.

Lemma unwatch_seats `{HI : HashIter} m i u : same_seats m (remove_all_watches_for m i u).
Proof.
  unfold remove_all_watches_for. destruct (m !! i) as [slot|] eqn:E; [|done].
  apply same_seats_insert. unfold app_slot. by rewrite E.
Qed.

Lemma same_here t m m' : same_seats m m' -> same_users m m' -> here t m' = here t m /\ (seated t m -> seated t m').
Proof. intros Hs Hu. destruct t; simpl; rewrite ?Hs; done. Qed.

(** Signing in and out. *)
Lemma bind_online m id uid s :
  let r := bind_user m id uid s in
  r.1 = negb (is_user_online m id uid) /\
  forall i u, is_user_online r.2 i u = if decide (i = id /\ u = uid) then true else is_user_online m i u.
Proof.
  intros r. split.
  - unfold r, bind_user. simpl. apply eq_true_iff_eq. rewrite negb_true_iff. unfold is_user_online, app_slot.
    destruct (m !! id) as [slot|]; simpl; [|by rewrite lookup_empty]. by destruct (user_index slot !! uid) as [[|]|].
  - intros i u. destruct (bind_user_effect m id uid s) as (_ & _ & H). apply eq_true_iff_eq.
    assert (forall m, is_user_online m i u = true <-> exists x, x ∈ user_sockets m i u) as Hon.
    { intros m0. rewrite is_user_online_spec. destruct (user_sockets m0 i u) as [|x l]; [split; [done|set_solver]|].
      split; [|done]. intros _. exists x. by left. }
    rewrite Hon. unfold r. setoid_rewrite H. case_decide as Hd; [|rewrite Hon; naive_solver].
    destruct Hd as [-> ->]. split; [done|]. intros _. exists s. by right.
Qed.

Lemma unbind_online m id uid s :
  manager_wf m ->
  let r := unbind_user m id uid s in
  forall i u, is_user_online r.2 i u = if decide (i = id /\ u = uid /\ r.1 = true) then false else is_user_online m i u.
Proof.
  intros Hw r i u. unfold r, unbind_user. destruct (m !! id) as [slot|] eqn:E; [|simpl; rewrite decide_False; [done|naive_solver]].
  destruct (user_index slot !! uid) as [l|] eqn:El; [|simpl; rewrite decide_False; [done|naive_solver]].
  destruct (slot_users _ (Hw _ _ E) _ _ El) as [Hne _].
  assert (forall ui, is_user_online (<[id := set_user_index slot ui]> m) i u
    = if decide (i = id) then match ui !! u with Some (_ :: _) => true | _ => false end else is_user_online m i u) as Hon.
  { intros ui. unfold is_user_online. case_decide as Hd; [subst; by rewrite lookup_insert_eq|by rewrite lookup_insert_ne]. }
  assert (i = id -> u <> uid -> match user_index slot !! u with Some (_ :: _) => true | _ => false end = is_user_online m i u) as Hold.
  { intros -> _. unfold is_user_online. by rewrite E. }
  destruct (List.filter _ l) as [|x l'] eqn:Ef; simpl; rewrite Hon.
  - destruct (decide (i = id)) as [->|Hi]; [|rewrite decide_False; [done|naive_solver]].
    destruct (decide (u = uid)) as [->|Hu]; [by rewrite lookup_delete_eq, decide_True|].
    rewrite lookup_delete_ne, decide_False by naive_solver. by apply Hold.
  - rewrite (decide_False (P := i = id /\ u = uid /\ false = true)) by naive_solver. case_decide as Hd; [|done]. subst i.
    destruct (decide (u = uid)) as [->|Hu]; [|rewrite lookup_insert_ne by done; by apply Hold].
    rewrite lookup_insert_eq. unfold is_user_online. rewrite E. simpl. rewrite El. by destruct l.
Qed.

(** ** The snapshots are truthful *)

(** Whether a round of snapshots says something about the topic: a presence
    channel without users is left out. *)
Definition reported (t : Topic) : fact t -> Prop :=
  match t with Members _ _ => fun x => x <> ∅ | _ => fun _ => True end.

Definition rostered (t : Topic) : bool := match t with Members _ _ => true | _ => false end.

Section Truth.
Context `{HI : HashIter}.

Lemma left_out t m id ch local :
  t = Members id (ch_name ch) -> manager_wf m -> seated t m -> find_channel m id (ch_name ch) = Some ch ->
  presence_snapshot ch = Some local -> pd_count local = 0 -> ~ reported t (here t m).
Proof. intros -> Hw Hse Hf Hl Hz Hr. apply Hr. by apply (roster_true m id ch local). Qed.

(** The counts the loop over the channels gathers. *)
Definition gathered (chs : list Channel) : list ChannelCount :=
  (fun ch => {| cc_channel := ch_name ch; cc_count := Z.of_nat (ch_len ch) |}) <$>
    List.filter (fun ch => negb (is_presence (ch_kind ch)) && (0 <? ch_len ch)) chs.

Lemma gathered_count chs c n :
  is_presence (kind c) = false -> (forall ch, ch ∈ chs -> ch_kind ch = kind (ch_name ch)) ->
  (forall ch, ch ∈ chs -> ch_name ch = c -> ch_len ch = n) -> (exists ch, ch ∈ chs /\ ch_name ch = c) \/ n = 0 ->
  count_in c ((fun e => (cc_channel e, cc_count e)) <$> gathered chs) = Z.of_nat n.
Proof.
  intros Hp. unfold gathered. revert n. induction chs as [|ch chs IH]; intros n Hk Hall Hex.
  { destruct Hex as [(ch & Hch & _)| ->]; [set_solver|done]. }
  assert (forall n, (exists ch', ch' ∈ chs /\ ch_name ch' = c) \/ n = 0 ->
    (forall ch', ch' ∈ chs -> ch_name ch' = c -> ch_len ch' = n) ->
    count_in c ((fun e => (cc_channel e, cc_count e)) <$> ((fun ch => {| cc_channel := ch_name ch; cc_count := Z.of_nat (ch_len ch) |}) <$>
      List.filter (fun ch => negb (is_presence (ch_kind ch)) && (0 <? ch_len ch)) chs)) = Z.of_nat n) as IH'.
  { intros n' H1 H2. apply IH; [|done|done]. intros ch' Hin. apply Hk. by right. }
  assert (forall ch', ch' ∈ chs -> ch_name ch' = c -> ch_len ch' = n) as Hall' by (intros ch' Hin; apply Hall; by right).
  cbn [List.filter]. destruct (String.eqb_spec (ch_name ch) c) as [E|E].
  - rewrite (Hk ch) by (by left). rewrite E, Hp, (Hall ch) by (done || by left). cbn [negb andb].
    destruct (Nat.ltb_spec 0 n); [cbn; by rewrite E, String.eqb_refl, (Hall ch) by (done || by left)|].
    apply IH'; [right; lia|done].
  - assert ((exists ch', ch' ∈ chs /\ ch_name ch' = c) \/ n = 0) as Hex'.
    { destruct Hex as [(ch' & Hin & Hc)|?]; [|by right]. left. apply elem_of_cons in Hin as [->|Hin]; [done|eauto]. }
    destruct (_ && _); [|by apply IH']. cbn. apply String.eqb_neq in E. rewrite E. by apply IH'.
Qed.

Lemma elem_of_all_channels m id ch :
  manager_wf m -> ch ∈ all_channels m id <-> find_channel m id (ch_name ch) = Some ch.
Proof.
  intros Hm. unfold all_channels, find_channel. destruct (m !! id) as [slot|] eqn:Es; [|set_solver].
  simpl. rewrite elem_of_hvalues. split; [|by eauto].
  intros [name Hl]. by destruct (slot_channels _ (Hm _ _ Es) _ _ Hl) as [[-> _] _].
Qed.

Lemma counts_true me m app :
  manager_wf m -> truthful me m app (PChannelCountSnapshot me (gathered (all_channels m (app_id app)))).
Proof.
  intros Hm. apply true_counts. intros c Hc. apply gathered_count; [done|..].
  - intros ch Hch%elem_of_all_channels; [|done]. destruct (find_channel_wf _ _ _ _ Hm Hch) as [[_ Hw] _]. apply (wf_kind _ Hw).
  - intros ch Hch%elem_of_all_channels E; [|done]. rewrite E in Hch. by rewrite seats_find, Hch.
  - rewrite seats_find. destruct (find_channel m (app_id app) c) as [ch|] eqn:E; [left|by right].
    exists ch. destruct (find_channel_wf _ _ _ _ Hm E) as [[Hn _] _]. split; [|done]. apply elem_of_all_channels; [done|]. by rewrite Hn.
Qed.

Lemma sessions_true me m app : truthful me m app (PUserSessionSnapshot me (local_user_ids m (app_id app))).
Proof.
  apply true_sessions. intros u. unfold local_user_ids, is_user_online. destruct (m !! app_id app) as [slot|]; simpl; [|set_solver].
  rewrite list_elem_of_fmap. split.
  - intros ([u' l] & -> & Hin). rewrite list_elem_of_In, filter_In, <- list_elem_of_In, elem_of_hiter in Hin.
    destruct Hin as [Hu Hl]. simpl in *. rewrite Hu. by destruct l.
  - destruct (user_index slot !! u) as [l|] eqn:E; [|done]. intros Hl. exists (u, l). split; [done|].
    rewrite list_elem_of_In, filter_In, <- list_elem_of_In, elem_of_hiter. simpl. by destruct l.
Qed.
End Truth.

(** ** The contract *)

Section Speaking.
Context `{HI : HashIter} `{WI : Wire} `{SJ : SerdeJson} `{CR : Crypto} `{IP : InboundParser}.
Context (cfg : Config) (base : Z) (overflow : WebhookOverflow).
Context (Hon : scaling_enabled cfg = true).
Context (t : Topic) (Ht : tp_proper t).
Implicit Types nd : Server.

Abbreviation me := (node_id cfg).
Abbreviation fact_at nd := (here t (nd_channels nd)).
Abbreviation replay := (foldl (hear t me)).

(** [kept] is what a step from [nd] to [nd'] queued.  Until the counter runs
    over, the numbers of its news rise; unless something was dropped, the news
    turn the fact of before into that of after.  A node speaks for itself only. *)
Record says nd nd' (kept : list ScalingEnvelope) : Prop := {
  says_bus : bus_says (publish_overflow cfg) (nd_bus nd) (nd_bus nd') kept;
  says_order : (0 <= seq (nd_bus nd))%Z -> (seq (nd_bus nd') < 2 ^ 64)%Z ->
    rising (seq (nd_bus nd)) (numbers t me kept) (seq (nd_bus nd'));
  says_fact : is_Some (publish_tx (nd_bus nd)) -> publish_drops (nd_bus nd') = publish_drops (nd_bus nd) ->
    replay (fact_at nd) kept = fact_at nd';
  says_source : Forall (fun env => forall n, about t n env = true -> n = me /\ version env = SCALING_VERSION) kept
}.

Definition good nd : Prop := node_wf cfg nd /\ seated t (nd_channels nd).

Definition speaks nd nd' : Prop := good nd -> good nd' /\ exists kept, says nd nd' kept.

(** A step of the node's own leaves what is known of the peers alone. *)
Definition own nd nd' : Prop := speaks nd nd' /\ nd_view nd' = nd_view nd.

Lemma says_trans nd1 nd2 nd3 k1 k2 : says nd1 nd2 k1 -> says nd2 nd3 k2 -> says nd1 nd3 (k1 ++ k2).
Proof.
  intros [B1 O1 U1 V1] [B2 O2 U2 V2]. pose proof (bus_says_trans _ _ _ _ _ _ B1 B2) as B.
  destruct B1 as [_ S1 D1 T1 _], B2 as [_ S2 D2 T2 _]. split; [done| | |by apply Forall_app].
  - intros H0 H1. rewrite numbers_app. eapply rising_app; [apply O1|apply O2]; lia.
  - intros Htx Hd. rewrite foldl_app, U1 by (done || lia). apply U2; [by apply T1|lia].
Qed.

Lemma speaks_trans nd1 nd2 nd3 : speaks nd1 nd2 -> speaks nd2 nd3 -> speaks nd1 nd3.
Proof.
  intros H1 H2 Hw. destruct (H1 Hw) as [W1 [k1 S1]], (H2 W1) as [W2 [k2 S2]].
  split; [done|]. exists (k1 ++ k2). by eapply says_trans.
Qed.

Lemma speaks_tame nd nd' : tame cfg nd nd' -> speaks nd nd'.
Proof.
  intros H [Hw Hse]. destruct (H Hw) as [Hw' [Hr Hq]]. destruct (same_here t _ _ (proj1 Hr) (other_same_users _ _ (proj2 Hr))) as [Hh Hse'].
  split; [split; [done|by apply Hse']|].
  destruct (Hq (node_bus _ _ Hw)) as (kept & Hb & Hn). exists kept.
  assert (Forall (fun env => forall n, about t n env = false) kept) as Hq'.
  { eapply Forall_impl; [exact Hn|]. intros env Hp n. by apply about_None. }
  assert (Forall (fun env => about t me env = false) kept) as Ha by (eapply Forall_impl; [exact Hq'|]; eauto).
  split; [done| | |].
  3:{ eapply Forall_impl; [exact Hq'|]. intros env H1 n. by rewrite H1. }
  - intros _ _. rewrite numbers_quiet by done. apply Hb.
  - intros _ _. by rewrite hear_quiet, Hh by done.
Qed.

Lemma own_harmless nd nd' : harmless cfg nd nd' -> own nd nd'.
Proof. intros [H Hv]. split; [by apply speaks_tame|done]. Qed.

Lemma own_refl nd : own nd nd.
Proof. apply own_harmless, harmless_refl. Qed.

Lemma own_trans nd1 nd2 nd3 : own nd1 nd2 -> own nd2 nd3 -> own nd1 nd3.
Proof. intros [S1 V1] [S2 V2]. split; [by eapply speaks_trans|congruence]. Qed.

(** A step that says it all: whatever was believed before, its news lead to the
    fact of after. *)
Definition tells nd nd' : Prop :=
  good nd -> is_Some (publish_tx (nd_bus nd)) -> publish_drops (nd_bus nd') = publish_drops (nd_bus nd) ->
  exists kept, says nd nd' kept /\ forall x, replay x kept = fact_at nd'.

Lemma tells_before nd1 nd2 nd3 : own nd1 nd2 -> own nd2 nd3 -> tells nd2 nd3 -> tells nd1 nd3.
Proof.
  intros [S1 _] [S2 _] T Hg Hon1 Hd. destruct (S1 Hg) as [G2 [k1 K1]], (S2 G2) as [_ [k2' K2']].
  pose proof (says_drops _ _ _ _ (says_bus _ _ _ K1)). pose proof (says_drops _ _ _ _ (says_bus _ _ _ K2')).
  destruct (T G2) as (k2 & K2 & H2); [by apply (says_on _ _ _ _ (says_bus _ _ _ K1))|lia|].
  exists (k1 ++ k2). split; [by eapply says_trans|]. intros x. by rewrite foldl_app.
Qed.

Lemma tells_after nd1 nd2 nd3 : own nd1 nd2 -> tells nd1 nd2 -> own nd2 nd3 -> tells nd1 nd3.
Proof.
  intros [S1 _] T [S2 _] Hg Hon1 Hd. destruct (S1 Hg) as [G2 [k1' K1']], (S2 G2) as [_ [k2 K2]].
  pose proof (says_drops _ _ _ _ (says_bus _ _ _ K1')). pose proof (says_drops _ _ _ _ (says_bus _ _ _ K2)).
  destruct (T Hg Hon1) as (k1 & K1 & H1); [lia|].
  exists (k1 ++ k2). split; [by eapply says_trans|]. intros x. rewrite foldl_app, H1.
  apply (says_fact _ _ _ K2); [by apply (says_on _ _ _ _ (says_bus _ _ _ K1))|lia].
Qed.

#[local] Instance own_preorder : PreOrder own.
Proof. split; [exact own_refl|exact own_trans]. Qed.

(** Loops over a list, with an accumulator that holds the node. *)
Section Loop.
Context {A B : Type} (g : A -> Server) (J : A -> Prop) (f : A -> B -> A).

Lemma own_loop (R : Server -> Server -> Prop) `{!PreOrder R} l acc :
  (forall acc y, y ∈ l -> J acc -> R (g acc) (g (f acc y)) /\ J (f acc y)) -> J acc ->
  R (g acc) (g (foldl f acc l)) /\ J (foldl f acc l).
Proof.
  revert acc. induction l as [|y l IH]; intros acc Hf Hj; [split; [reflexivity|done]|]. cbn [foldl].
  destruct (Hf acc y) as [H1 H2]; [by left|done|].
  destruct (IH (f acc y)) as [H3 H4]; [intros acc' y' Hy; apply Hf; by right|done|].
  split; [by etrans|done].
Qed.

Lemma tells_loop l x acc :
  (forall acc y, y ∈ l -> J acc -> own (g acc) (g (f acc y)) /\ J (f acc y)) -> J acc ->
  x ∈ l -> (forall acc, J acc -> tells (g acc) (g (f acc x))) -> tells (g acc) (g (foldl f acc l)).
Proof.
  intros Hf Hj (l1 & l2 & ->)%list_elem_of_split Hx. rewrite foldl_app. cbn [foldl].
  destruct (own_loop own l1 acc) as [O1 J1]; [intros acc' y Hy; apply Hf, elem_of_app; by left|done|].
  set (acc1 := foldl f acc l1) in *. destruct (Hf acc1 x) as [O2 J2]; [apply elem_of_app; right; by left|done|].
  destruct (own_loop own l2 (f acc1 x)) as [O3 _]; [intros acc' y Hy; apply Hf, elem_of_app; right; by right|done|].
  eapply tells_before; [exact O1|eapply own_trans; [exact O2|exact O3]|].
  eapply tells_after; [exact O2|by apply Hx|exact O3].
Qed.
End Loop.

Lemma own_fold {B} (f : Server -> B -> Server) l nd :
  (forall nd x, own nd (f nd x)) -> own nd (foldl f nd l).
Proof.
  intros Hf. revert nd. induction l as [|x l IH]; intros nd; simpl; [apply own_refl|].
  eapply own_trans; [apply Hf|apply IH].
Qed.

(** A step that queues nothing must not change the fact. *)
Lemma says_silent nd nd' :
  node_wf cfg nd -> nd_bus nd' = nd_bus nd -> fact_at nd' = fact_at nd -> says nd nd' [].
Proof.
  intros Hw Hb Hu. split; rewrite ?Hb.
  - apply bus_says_refl, Hw.
  - simpl. lia.
  - done.
  - done.
Qed.

(** A step that ends with the publication of one envelope.  A number drawn
    earlier must still be the latest of the topic. *)
Lemma says_publish nd mid nd' k env now :
  says nd mid k -> nd_bus nd' = spawn_publish (publish_overflow cfg) (nd_bus mid) env now ->
  fact_at nd' = hear t me (fact_at mid) env -> version env = SCALING_VERSION ->
  (exists w, news_of (payload env) = Some (me, w)) ->
  (env_seq env = 0%Z \/ (about t me env = true -> numbers t me k = [] /\
    (0 <= seq (nd_bus nd) -> seq (nd_bus mid) < 2 ^ 64 -> seq (nd_bus nd) < env_seq env <= seq (nd_bus mid))%Z)) ->
  exists kept, says nd nd' (k ++ kept) /\ (about t me env = false -> numbers t me kept = []) /\
    (is_Some (publish_tx (nd_bus nd)) -> publish_drops (nd_bus nd') = publish_drops (nd_bus nd) ->
     forall x, replay x kept = hear t me x env).
Proof.
  intros Hk Hb Hu Hver [w Hw] Hseq. pose proof (says_bus _ _ _ Hk) as Bk.
  destruct (spawn_publish_says (publish_overflow cfg) (nd_bus mid) env now (says_wf _ _ _ _ Bk))
    as (kept & Bp & Hcase & Hfull & Hnum). rewrite <- Hb in Bp, Hfull, Hnum. exists kept.
  set (sent := if (env_seq env =? 0)%Z then with_seq env (next_seq (nd_bus mid)).1 else env) in *.
  pose proof (says_drops _ _ _ _ Bk) as D1. pose proof (says_drops _ _ _ _ Bp) as D2.
  assert (is_Some (publish_tx (nd_bus nd)) -> publish_drops (nd_bus nd') = publish_drops (nd_bus nd) ->
     forall x, replay x kept = hear t me x env) as Hheard.
  { intros Hon0 Hd x. rewrite Hfull; [|by apply (says_on _ _ _ _ Bk)|lia]. unfold sent. simpl. by destruct (env_seq env =? 0)%Z. }
  assert (about t me sent = about t me env) as Hab by (unfold sent; by destruct (env_seq env =? 0)%Z).
  split; [|split; [|done]].
  2:{ intros Ha. apply numbers_quiet. destruct Hcase as [->|[-> _]]; [done|]. apply Forall_singleton. by rewrite Hab. }
  pose proof (says_seq _ _ _ _ Bk) as S1. pose proof (says_seq _ _ _ _ Bp) as S2.
  split; [by eapply bus_says_trans| | |].
  - intros H0 H1. rewrite numbers_app. pose proof (says_order _ _ _ Hk H0 ltac:(lia)) as Hr.
    destruct Hcase as [->|[-> Hon1]]; [rewrite app_nil_r; eapply rising_weaken; [| |exact Hr]; lia|].
    unfold numbers at 2. cbn [List.filter]. rewrite Hab.
    destruct (about t me env) eqn:Ea; cbn [fmap list_fmap]; [|rewrite app_nil_r; eapply rising_weaken; [| |exact Hr]; lia].
    destruct (Z.eqb_spec (env_seq env) 0) as [E|E]; unfold sent.
    + specialize (Hnum Hon1 E). eapply rising_app; [exact Hr|]. simpl. unfold with_seq, next_seq, wrap_u64. cbn [env_seq fst].
      rewrite Z.mod_small by lia. lia.
    + destruct Hseq as [?|Hseq]; [done|]. destruct (Hseq eq_refl) as [-> Hs]. simpl. lia.
  - intros Hon0 Hd. rewrite foldl_app, (says_fact _ _ _ Hk) by (done || lia).
    by rewrite Hheard.
  - apply Forall_app. split; [apply (says_source _ _ _ Hk)|].
    destruct Hcase as [->|[-> _]]; [done|]. apply Forall_singleton. intros n Hn.
    assert (about t n env = true) as Hn' by (unfold sent in Hn; by destruct (env_seq env =? 0)%Z).
    split; [by eapply about_origin|]. unfold sent. by destruct (env_seq env =? 0)%Z.
Qed.

(** ** Events *)

Lemma when_scaling_bus nd env now :
  nd_bus (when_scaling cfg nd env now) = spawn_publish (publish_overflow cfg) (nd_bus nd) env now.
Proof using Hon. unfold when_scaling. by rewrite Hon. Qed.

(** The one message an event of a channel or a user may queue. *)
Definition queued nd (app : App) (news : option ScalingPayload) (now : Instant) : Bus :=
  match news with
  | Some p => spawn_publish (publish_overflow cfg) (nd_bus nd) (mk_env app 0 p) now
  | None => nd_bus nd
  end.

(** A change of the manager whose news are queued. *)
Lemma own_moved nd nd' app news now :
  (manager_wf (nd_channels nd) -> manager_wf (nd_channels nd')) ->
  (manager_wf (nd_channels nd) -> moved me (nd_channels nd) (nd_channels nd') app news) ->
  nd_bus nd' = queued nd app news now -> nd_view nd' = nd_view nd -> own nd nd'.
Proof using Ht.
  intros Hwf Hm Hb Hv. split; [|done]. intros [Hw Hse]. specialize (Hm (node_manager _ _ Hw)).
  pose proof (moved_told me t _ _ _ _ Ht (node_manager _ _ Hw) Hm) as Hh.
  assert (exists kept, says nd nd' kept) as [kept Hs].
  { destruct news as [p|]; simpl in Hb, Hh; [|exists []; by apply says_silent].
    destruct (says_publish nd nd nd' [] (mk_env app 0 p) now) as (kept & Hs & _ & _);
      [by apply says_silent|done|done|done|by eapply moved_origin|by left|by exists kept]. }
  split; [|by exists kept]. split; [|by eapply moved_seated].
  split; [apply Hwf, Hw|apply (says_wf _ _ _ _ (says_bus _ _ _ Hs))].
Qed.

Lemma own_manager nd m :
  (manager_wf (nd_channels nd) -> manager_wf m) -> same_seats (nd_channels nd) m -> same_users (nd_channels nd) m ->
  own nd (set_manager nd m).
Proof.
  intros Hm Hs Hu. destruct (same_here t _ _ Hs Hu) as [Hh Hse]. split; [|done].
  intros [Hw Hg]. split; [split; [split; [apply Hm, Hw|apply Hw]|by apply Hse]|]. exists []. by apply says_silent.
Qed.

Lemma announce_count_bus nd app ch n w now :
  nd_bus (announce_subscription_count cfg base overflow nd app ch n w now)
  = spawn_publish (publish_overflow cfg) (nd_bus nd)
      (mk_env app 0 (PSubscriptionCount me (ch_name ch) (Z.of_nat n) w)) now /\
  nd_channels (announce_subscription_count cfg base overflow nd app ch n w now) = nd_channels nd /\
  nd_view (announce_subscription_count cfg base overflow nd app ch n w now) = nd_view nd.
Proof using Hon.
  unfold announce_subscription_count, publish_subscription_count. cbv zeta.
  rewrite when_scaling_bus, when_scaling_channels, when_scaling_view. by destruct (emit_subscription_count app).
Qed.

Lemma join_effects_bus app name p s occ now ch r nd rm rp :
  let nd' := (join_effects cfg base overflow app name p s occ now ch r (nd, rm, rp)).1.1 in
  nd_view nd' = nd_view nd /\ nd_bus nd' = queued nd app (join_news me name p ch r) now.
Proof using Hon.
  unfold join_effects, join_news, publish_member_added. cbv zeta. destruct (sr_was_new r); [|done]. simpl.
  destruct p as [pm|].
  - destruct (sr_user_added r), rp; simpl; rewrite ?when_scaling_bus, ?when_scaling_view;
      by destruct ((sr_member_count r =? 1) && negb occ).
  - match goal with |- context [announce_subscription_count _ _ _ ?n ?a ?c ?k ?w ?t] =>
      destruct (announce_count_bus n a c k w t) as (H1 & H2 & H3) end.
    rewrite H1, H3. by destruct ((sr_member_count r =? 1) && negb occ).
Qed.

Lemma join_admit_node app name p now ch nd rm rp : (join_admit app name p now ch (nd, rm, rp)).2.1.1 = nd.
Proof. unfold join_admit. destruct p; [|done]. by case_ifs. Qed.

Lemma own_join nd app name s h p occ now :
  (is_presence (kind name) = true -> is_Some p) -> (is_presence (kind name) = false -> p = None) ->
  let r := subscribe_with (nd_channels nd) app name s h p (join_admit app name p now)
             (join_effects cfg base overflow app name p s occ now) now (nd, [], false) in
  own nd (set_manager r.2.1.1 r.1.2).
Proof using Hon Ht.
  intros Hp Hnp r.
  pose proof (subscribe_with_seats (nd_channels nd) app name s h p (join_admit app name p now)
    (join_effects cfg base overflow app name p s occ now) now (nd, [], false)) as Hseats.
  destruct (subscribe_with_member (nd_channels nd) app name s h p (join_admit app name p now)
    (join_effects cfg base overflow app name p s occ now) now (nd, [], false) EmptyString EmptyString EmptyString) as (_ & _ & Hother).
  pose proof (subscribe_with_wf (nd_channels nd) app name s h p (join_admit app name p now)
    (join_effects cfg base overflow app name p s occ now) now (nd, [], false)) as Hmw.
  pose proof (subscribe_with_run (nd_channels nd) app name s h p (join_admit app name p now)
    (join_effects cfg base overflow app name p s occ now) now (nd, [], false)) as Hrun.
  fold r in Hseats, Hother, Hmw, Hrun. unfold admitted in Hseats. cbv zeta in Hrun. set (ch := default _ _) in Hrun, Hseats.
  apply other_same_users in Hother. pose proof (join_admit_node app name p now ch nd [] false) as Hn.
  destruct (join_admit app name p now ch (nd, [], false)) as [ok [[nd0 rm] rp]]. cbn [fst snd] in Hn, Hrun, Hseats. subst nd0.
  destruct (join_effects_bus app name p s occ now (subscribe ch s h p).2 (subscribe ch s h p).1 nd rm rp) as [Hv Hb].
  destruct ok; rewrite Hrun in *.
  - eapply own_moved; [exact Hmw| |exact Hb|exact Hv]. intros _. apply (moved_join me _ _ app name s h p); [done|done|done|].
    intros i c. cbn [nd_channels set_manager set_local]. rewrite Hseats. fold ch.
    destruct (decide (i = app_id app /\ c = name)) as [[-> ->]|Hd]; [by rewrite decide_True|rewrite decide_False; naive_solver].
  - eapply (own_moved _ _ app None now); [exact Hmw| |done|done]. intros _. apply moved_idle; [|done].
    intros i c. cbn [nd_channels set_manager set_local]. rewrite Hseats, decide_False; [done|]. by intros (_ & _ & ?).
Qed.

(** ** Leaving *)

Lemma leave_effects_bus app name now ch o nd :
  let nd' := leave_effects cfg base overflow app name now ch o nd in
  nd_view nd' = nd_view nd /\ exists withheld vacated, nd_bus nd' = queued nd app (leave_news me name ch o withheld vacated) now.
Proof using Hon.
  unfold leave_effects, leave_news, publish_member_removed. cbv zeta.
  destruct (uo_was_member o); [|by split; [|exists false, false]]. cbn [negb].
  set (vac := (uo_member_count o =? 0) && occupied_on_peers nd (app_id app) name (from_name name) now).
  set (nd1 := if vac then _ else _). assert (nd_bus nd1 = nd_bus nd /\ nd_view nd1 = nd_view nd) as [Hb Hv].
  { unfold nd1. destruct vac; [done|]. by destruct (uo_member_count o =? 0). }
  clearbody nd1. destruct (is_presence (from_name name)); cbn [negb].
  - destruct (uo_user_removed o) as [uid|]; cbn [fmap option_fmap option_map]; [|split; [done|by exists false, false]].
    rewrite when_scaling_bus, when_scaling_view.
    set (still := PresenceCache.is_present_excluding _ _ _ _ _ _).
    split; [by destruct still|]. exists still, vac. unfold queued. rewrite <- Hb. by destruct still.
  - destruct (announce_count_bus nd1 app ch (uo_member_count o) vac now) as (H1 & _ & H3).
    rewrite H1, H3. split; [done|]. exists false, vac. unfold queued. by rewrite Hb.
Qed.

Lemma own_leave nd app s name now : own nd (leave_channel cfg base overflow nd app s name now).
Proof using Hon Ht.
  unfold leave_channel.
  pose proof (unsubscribe_with_seats (nd_channels nd) (app_id app) name s
    (leave_effects cfg base overflow app name now) now nd) as Hseats.
  destruct (unsubscribe_with_member (nd_channels nd) (app_id app) name s (leave_effects cfg base overflow app name now) now nd
    EmptyString EmptyString EmptyString) as [_ Hother]. apply other_same_users in Hother.
  pose proof (unsubscribe_with_wf (nd_channels nd) (app_id app) name s (leave_effects cfg base overflow app name now) now nd) as Hmw.
  pose proof (unsubscribe_with_run (nd_channels nd) (app_id app) name s
    (leave_effects cfg base overflow app name now) now nd) as Hrun.
  destruct (unsubscribe_with _ _ _ _ _ _ _) as [[o m] nd']. cbn [fst snd] in *. subst nd'.
  destruct (find_channel (nd_channels nd) (app_id app) name) as [ch|] eqn:Ef.
  - destruct (leave_effects_bus app name now (unsubscribe ch s).2 (unsubscribe ch s).1 nd) as [Hv (w & v & Hb)].
    eapply own_moved; [exact Hmw| |exact Hb|exact Hv].
    intros _. apply (moved_leave me _ _ app name s ch w v); [done|done|]. intros i c. cbn [nd_channels set_manager set_local].
    rewrite Hseats. case_decide as Hd; [|done]. by destruct Hd as [-> ->].
  - eapply (own_moved _ _ app None now); [exact Hmw| |done|done].
    intros _. apply moved_idle; [|done]. intros i c. cbn [nd_channels set_manager set_local]. rewrite Hseats.
    case_decide as Hd; [|done]. destruct Hd as [-> ->]. by rewrite seats_find, Ef, delete_empty.
Qed.

(** ** Frames *)

Lemma own_same nd nd' :
  nd_channels nd' = nd_channels nd -> nd_bus nd' = nd_bus nd -> nd_view nd' = nd_view nd -> own nd nd'.
Proof. intros. apply own_harmless. by apply harmless_same. Qed.

Lemma own_publish nd env now : news_of (payload env) = None -> own nd (when_scaling cfg nd env now).
Proof. intros. apply own_harmless. by apply harmless_scaling. Qed.

Lemma own_hook nd app e now : own nd (hook base overflow nd app e now).
Proof. by apply own_same. Qed.

Lemma own_mbs nd mbs : own nd (set_mbs nd mbs).
Proof. by apply own_same. Qed.

Lemma own_replay nd app name h cached now : own nd (replay_cache base overflow nd app name h cached now).
Proof.
  assert (nd_bus (replay_cache base overflow nd app name h cached now) = nd_bus nd /\
          nd_view (replay_cache base overflow nd app name h cached now) = nd_view nd) as [Hb Hv].
  { unfold replay_cache. destruct cached; [done|]. destruct (find_channel _ _ _) as [ch|]; [|done].
    by destruct (claim_cache_miss_notification ch now) as [[] ch']. }
  apply own_harmless. split; [|done]. intros Hw. split; [by apply replay_cache_wf|].
  apply keeps_manager; [apply replay_cache_same|done].
Qed.

Lemma own_subscribe nd app c h data now : own nd (handle_subscribe cfg base overflow nd app c h data now).1.2.
Proof using Hon Ht.
  unfold handle_subscribe. destruct (check_subscribe app c data) as [[name p]|frame] eqn:Echk; [|apply own_refl].
  apply check_subscribe_Ok in Echk as (_ & _ & _ & _ & _ & Hjoin). cbv zeta.
  set (occ := occupied_on_peers _ _ _ _ _). clearbody occ.
  assert ((is_presence (kind name) = true -> is_Some p) /\ (is_presence (kind name) = false -> p = None)) as [Hp Hnp].
  { unfold presence_of_join in Hjoin. destruct (is_presence (kind name)); [|split; [done|by injection Hjoin as <-]].
    destruct (field_str _ _); [|done]. destruct (_ <? _)%Z; [done|]. destruct (id_text _); [|done]. injection Hjoin as <-.
    split; [eauto|done]. }
  pose proof (own_join nd app name (c_socket_id c) h p occ now Hp Hnp) as Hj.
  destruct (subscribe_with _ _ _ _ _ _ _ _ _ _) as [[out m] [[nd' rm] rp]]. cbn [fst snd] in Hj.
  destruct out as [out|]; [|exact Hj]. cbn [fst snd]. destruct (is_cache (kind name)); [|exact Hj].
  eapply own_trans; [exact Hj|apply own_replay].
Qed.

Lemma own_touch nd i : own nd (set_manager nd (touch_slot (nd_channels nd) i)).
Proof. apply own_manager; [apply touch_slot_wf|apply touch_seats|apply touch_users]. Qed.

Lemma own_transition nd app c h uid wl now : own nd (signin_transition cfg nd app c h uid wl now).1.
Proof using Hon Ht.
  unfold signin_transition. eapply own_trans; [apply (own_touch nd (app_id app))|].
  set (nd1 := set_manager nd _). clearbody nd1.
  set (s := c_socket_id (conn_bind_user c uid)).
  destruct (bind_online (nd_channels nd1) (app_id app) uid s) as [Hfirst Hbind].
  pose proof (bind_seats (nd_channels nd1) (app_id app) uid s) as Hbs.
  pose proof (bind_user_wf (nd_channels nd1) (app_id app) uid s) as Hbw.
  destruct (bind_user _ _ _ _) as [first m2]. cbn [fst snd] in *.
  set (step := match wl with Some _ => _ | None => _ end).
  assert (nd_bus step.1 = nd_bus nd1 /\ nd_view step.1 = nd_view nd1 /\ agree m2 (nd_channels step.1) /\
          same_seats m2 (nd_channels step.1) /\ (manager_wf m2 -> manager_wf (nd_channels step.1))) as (B & V & A & S & W).
  { unfold step. destruct wl as [l|]; [|split_and!; try done; apply agree_refl]. split_and!; try done.
    - apply add_watchers_agree.
    - apply watchers_seats.
    - apply signin_watchlist_wf. }
  apply agree_same_users in A. destruct step as [nd3 c3]. cbn [fst] in *.
  set (nd4 := if _ && _ then _ else _).
  assert (nd_bus nd4 = nd_bus nd3 /\ nd_view nd4 = nd_view nd3 /\ nd_channels nd4 = nd_channels nd3) as (B4 & V4 & C4)
    by (unfold nd4; by destruct (_ && _)).
  clearbody nd4. set (nd5 := if first then _ else _).
  assert (nd_channels nd5 = nd_channels nd4 /\ nd_view nd5 = nd_view nd4 /\
          nd_bus nd5 = queued nd4 app (if first then Some (PUserOnline me uid) else None) now) as (C5 & V5 & B5).
  { unfold nd5, publish_user_online. destruct first; [|done]. by rewrite when_scaling_bus, when_scaling_channels, when_scaling_view. }
  apply (own_moved nd1 nd5 app (if first then Some (PUserOnline me uid) else None) now).
  - intros H1. rewrite C5, C4. by apply W, Hbw.
  - intros _. rewrite C5, C4. apply moved_online; [by etrans|done|]. intros i u. by rewrite A, Hbind.
  - rewrite B5. unfold queued. by rewrite B4, B.
  - by rewrite V5, V4, V.
Qed.

Lemma own_signin nd app c h data now : own nd (handle_signin cfg nd app c h data now).1.2.
Proof using Hon Ht.
  unfold handle_signin. destruct (field_str _ "auth"); [|apply own_refl].
  destruct (field_str _ "user_data"); [|apply own_refl].
  destruct (negb _); [apply own_refl|]. destruct (id_text _) as [uid|]; [|apply own_refl].
  destruct (is_empty_str uid); [apply own_refl|]. destruct (c_user_id c); [apply own_refl|].
  destruct (read_watchlist _) as [[wl trunc]|]; [|apply own_refl].
  pose proof (own_transition nd app c h uid wl now) as H.
  destruct (signin_transition cfg nd app c h uid wl now) as [nd' c']. destruct trunc; simpl in *; [|exact H].
  eapply own_trans; [exact H|by apply own_same].
Qed.

Lemma own_client_event nd app c ev frame now : own nd (handle_client_event cfg base overflow nd app c ev frame now).2.
Proof.
  unfold handle_client_event. case_decide; [apply own_refl|]. destruct (f_channel frame); [|apply own_refl].
  destruct (negb _); [apply own_refl|]. destruct (find_channel _ _ _) as [ch|]; [|apply own_refl].
  destruct (negb _); [apply own_refl|]. cbv zeta. cbn [snd].
  eapply own_trans; [|apply own_hook]. unfold publish_client_event. eapply own_trans; [|by apply own_publish]. apply own_mbs.
Qed.

Lemma own_inbound nd apps app c h text now : own nd (handle_inbound cfg base overflow nd apps app c h text now).1.2.
Proof using Hon Ht.
  unfold handle_inbound. destruct (parse_inbound text) as [frame|]; [|apply own_refl]. cbv zeta.
  destruct (String.eqb _ "pusher:ping"); [apply own_refl|].
  destruct (String.eqb _ "pusher:subscribe"); [apply own_subscribe|].
  destruct (String.eqb _ "pusher:unsubscribe").
  { unfold handle_unsubscribe. destruct (field_str _ _); [apply own_leave|apply own_refl]. }
  destruct (String.eqb _ "pusher:signin"); [apply own_signin|].
  destruct (starts_with _ _); [|apply own_refl]. destruct (_ <? _)%Z; [apply own_refl|].
  match goal with |- context [handle_client_event ?a ?b ?o ?n ?p ?k ?e ?f ?t] =>
    pose proof (own_client_event n p k e f t) as H; destruct (handle_client_event a b o n p k e f t) end. exact H.
Qed.

Lemma own_cleanup_user nd app uid s now : own nd (cleanup_user cfg nd app uid s now).
Proof using Hon Ht.
  unfold cleanup_user. eapply own_trans; [apply (own_touch nd (app_id app))|].
  set (nd1 := set_manager nd _). clearbody nd1.
  pose proof (unbind_online (nd_channels nd1) (app_id app) uid s) as Hunbind.
  pose proof (unbind_seats (nd_channels nd1) (app_id app) uid s) as Hs.
  pose proof (unbind_user_wf (nd_channels nd1) (app_id app) uid s) as Hw.
  destruct (unbind_user _ _ _ _) as [last m2]. cbn [fst snd] in *. cbv zeta.
  apply (own_moved nd1 _ app (if last then Some (PUserOffline me uid) else None) now); destruct last; cbn [negb].
  - intros Hm. simpl. unfold publish_user_offline. rewrite when_scaling_channels. apply remove_all_watches_wf.
    destruct (negb _); by apply Hw.
  - done.
  - intros Hm.
    match goal with |- moved _ _ ?m3 _ _ => assert (m3 = remove_all_watches_for m2 (app_id app) uid) as -> end.
    { simpl. unfold publish_user_offline. rewrite when_scaling_channels. by destruct (negb _). }
    apply (moved_offline me _ _ app uid true); [etrans; [exact Hs|apply unwatch_seats]|].
    intros i u. rewrite <- (Hunbind Hm). apply (agree_same_users _ _ (remove_all_watches_agree _ _ _)).
  - intros Hm. apply (moved_offline me _ _ app uid false); [done|]. intros i u. by rewrite <- (Hunbind Hm).
  - simpl. unfold publish_user_offline. rewrite when_scaling_bus. by destruct (negb _).
  - done.
  - simpl. unfold publish_user_offline. rewrite when_scaling_view. by destruct (negb _).
  - done.
Qed.

Lemma own_cleanup nd app c s now : own nd (cleanup_connection cfg base overflow nd app c s now).
Proof using Hon Ht.
  unfold cleanup_connection.
  eapply own_trans; [|apply own_manager; [apply unregister_connection_wf|apply unregister_seats|apply unregister_users]].
  eapply own_trans; [apply (own_fold (fun nd name => leave_channel cfg base overflow nd app s name now)); intros; apply own_leave|].
  destruct (c_user_id c); [apply own_cleanup_user|apply own_refl].
Qed.

(** ** Snapshots *)

Lemma own_next_seq nd : own nd (node_next_seq nd).2.
Proof.
  split; [|done]. intros [[H1 H2] Hse].
  assert (bus_says (publish_overflow cfg) (nd_bus nd) (nd_bus (node_next_seq nd).2) []) as Hb by (by apply next_seq_says).
  split; [split; [split; [done|apply (says_wf _ _ _ _ Hb)]|done]|]. exists [].
  split; [done|intros _ _; apply Hb|done|done].
Qed.

(** A step that queues no news of the topic. *)
Definition mute nd nd' : Prop :=
  (good nd -> good nd' /\ exists kept, says nd nd' kept /\ numbers t me kept = []) /\ nd_view nd' = nd_view nd.

#[local] Instance mute_preorder : PreOrder mute.
Proof.
  split.
  - intros nd. split; [|done]. intros Hg. split; [done|]. exists []. split; [|done]. apply says_silent; [apply Hg|done|done].
  - intros nd1 nd2 nd3 [H1 V1] [H2 V2]. split; [|congruence]. intros Hg.
    destruct (H1 Hg) as (G2 & k1 & S1 & N1), (H2 G2) as (G3 & k2 & S2 & N2). split; [done|]. exists (k1 ++ k2).
    split; [by eapply says_trans|]. by rewrite numbers_app, N1, N2.
Qed.

Lemma mute_own nd nd' : mute nd nd' -> own nd nd'.
Proof. intros [H V]. split; [|done]. intros Hg. destruct (H Hg) as (G & k & S & _). split; [done|]. by exists k. Qed.

Lemma mute_next_seq nd : mute nd (node_next_seq nd).2.
Proof.
  split; [|done]. intros Hg. destruct (proj1 (own_next_seq nd) Hg) as [Hg' _]. split; [done|].
  exists []. split; [|done]. destruct Hg as [[H1 H2] _].
  assert (bus_says (publish_overflow cfg) (nd_bus nd) (nd_bus (node_next_seq nd).2) []) as Hb by (by apply next_seq_says).
  split; [done|intros _ _; apply Hb|done|done].
Qed.

(** A snapshot: its number is drawn, then the state is read, then it is
    published.  No news of the topic may go out in between. *)
Lemma own_snapshot nd mid app p now :
  mute (node_next_seq nd).2 mid -> (manager_wf (nd_channels mid) -> truthful me (nd_channels mid) app p) ->
  let env := mk_env app (node_next_seq nd).1 p in
  let nd' := when_scaling cfg mid env now in
  own nd nd' /\ (about t me env = true -> tells nd nd') /\ (about t me env = false -> mute nd nd').
Proof using Hon Ht.
  intros Hmute Htrue env nd'. pose proof (mute_next_seq nd) as Hdraw.
  assert (mute nd mid) as Hmid by (by etrans).
  assert (nd_view nd' = nd_view nd) as Hv by (unfold nd'; rewrite when_scaling_view; apply Hmid).
  assert (fact_at nd' = fact_at mid) as Hsame by (unfold nd'; by rewrite when_scaling_channels).
  assert (forall x, good mid -> about t me env = true -> hear t me x env = fact_at mid) as Hall.
  { intros x [Hw Hse] Ha. apply (truthful_told me (HI := HI)); [done|apply Hw|done|apply Htrue, Hw|done]. }
  assert (good nd -> good nd' /\ exists kept, says nd nd' kept /\ (about t me env = false -> numbers t me kept = []) /\
    (is_Some (publish_tx (nd_bus nd)) -> publish_drops (nd_bus nd') = publish_drops (nd_bus nd) -> about t me env = true ->
     forall x, replay x kept = fact_at nd')) as Hsays.
  { intros Hg. destruct (proj1 Hdraw Hg) as (G1 & k1 & K1 & N1), (proj1 Hmute G1) as (Gm & k2 & K2 & N2).
    pose proof (says_trans _ _ _ _ _ K1 K2) as K. assert (numbers t me (k1 ++ k2) = []) as N by (by rewrite numbers_app, N1, N2).
    destruct (says_publish nd mid nd' (k1 ++ k2) env now K) as (kept & Hs & Hq & Hfull).
    - apply when_scaling_bus.
    - rewrite Hsame. destruct (about t me env) eqn:Ea; [by rewrite Hall|by rewrite hear_skip].
    - done.
    - apply (truthful_origin me (nd_channels mid) app), Htrue, Gm.
    - right. intros _. split; [done|]. intros H0 H1. pose proof (says_seq _ _ _ _ (says_bus _ _ _ K2)) as Hle.
      revert Hle. unfold env, node_next_seq. simpl. unfold wrap_u64. intros Hle. rewrite Z.mod_small; lia.
    - split; [|exists ((k1 ++ k2) ++ kept); split_and!; [done|intros Ha; by rewrite numbers_app, N, Hq|]].
      + split; [split; [unfold nd'; rewrite when_scaling_channels; apply Gm|apply (says_wf _ _ _ _ (says_bus _ _ _ Hs))]|].
        unfold nd'. rewrite when_scaling_channels. apply Gm.
      + intros Hon0 Hd Ha x. rewrite foldl_app, Hfull, Hsame by done. by apply Hall. }
  split_and!.
  - split; [|done]. intros Hg. destruct (Hsays Hg) as (Hg' & kept & H1 & _). split; [done|]. by exists kept.
  - intros Ha Hg Hon0 Hd. destruct (Hsays Hg) as (_ & kept & H1 & _ & H2). exists kept. split; [done|]. by apply H2.
  - intros Ha. split; [|done]. intros Hg. destruct (Hsays Hg) as (Hg' & kept & H1 & H2 & _). split; [done|]. exists kept. auto.
Qed.

Lemma roster_about app n ch us :
  (about t me (mk_env app n (PPresenceSnapshot me ch us)) = true <-> t = Members (app_id app) ch).
Proof.
  clear Ht. unfold about. simpl. rewrite String.eqb_refl. simpl. destruct t as [id c|id c|id u]; simpl; rewrite ?andb_false_r; try done.
  rewrite andb_true_iff, !String.eqb_eq. split; [by intros [-> ->]|by intros [= -> ->]].
Qed.

Lemma snapshot_channel_says app now nd counts ch :
  find_channel (nd_channels nd) (app_id app) (ch_name ch) = Some ch ->
  let nd' := (snapshot_channel cfg app now (nd, counts) ch).1 in
  own nd nd' /\ (t = Members (app_id app) (ch_name ch) -> reported t (fact_at nd) -> tells nd nd') /\ (rostered t = false -> mute nd nd').
Proof using Hon Ht.
  intros Hf. cbv zeta. unfold snapshot_channel. destruct (is_presence (ch_kind ch)) eqn:Ek.
  2:{ assert (t = Members (app_id app) (ch_name ch) -> reported t (fact_at nd) -> tells nd nd) as Hno.
      { intros Heq _ [Hw _]. destruct (find_channel_wf _ _ _ _ (node_manager _ _ Hw) Hf) as [[_ Hcw] _].
        rewrite (wf_kind _ Hcw) in Ek. pose proof Ht as Hp. rewrite Heq in Hp. simpl in Hp. congruence. }
      by case_ifs. }
  pose proof (mute_next_seq nd) as Hn.
  pose proof (fun p => own_snapshot nd (node_next_seq nd).2 app p now (reflexivity _)) as Hsnap.
  assert (nd_channels (node_next_seq nd).2 = nd_channels nd) as E by done.
  destruct (node_next_seq nd) as [n nd1]. cbn [fst snd] in *.
  destruct (presence_snapshot ch) as [local|] eqn:El.
  2:{ unfold presence_snapshot in El. by rewrite Ek in El. }
  destruct (Nat.eqb_spec (pd_count local) 0) as [Ez|Ez]; cbn [fst].
  { split_and!; [by apply mute_own| |done]. intros Heq Hr [Hw Hse].
    by destruct (left_out t (nd_channels nd) (app_id app) ch local Heq (node_manager _ _ Hw) Hse Hf El Ez). }
  unfold publish_presence_snapshot.
  destruct (Hsnap (PPresenceSnapshot me (ch_name ch) (snapshot_members local))) as (H1 & H2 & H3).
  { intros _. apply true_roster; by rewrite ?E. }
  split_and!; [exact H1| |].
  - intros Heq _. apply H2. by apply roster_about.
  - intros Hr. apply H3. apply not_true_iff_false. rewrite roster_about. intros Heq. unfold rostered in Hr. by rewrite Heq in Hr.
Qed.

Lemma own_aside nd env now w :
  news_of (payload env) = Some (me, w) -> version env = SCALING_VERSION -> about t me env = false ->
  own nd (when_scaling cfg nd env now).
Proof using Hon.
  intros Hw Hv Ha. split; [|by rewrite when_scaling_view]. intros Hg.
  destruct (says_publish nd nd (when_scaling cfg nd env now) [] env now) as (kept & Hs & _).
  - apply says_silent; [apply Hg|done|done].
  - apply when_scaling_bus.
  - by rewrite when_scaling_channels, hear_skip.
  - done.
  - by exists w.
  - right. by rewrite Ha.
  - split; [|by exists kept]. split; [split; [|apply (says_wf _ _ _ _ (says_bus _ _ _ Hs))]|]; rewrite when_scaling_channels; apply Hg.
Qed.

Lemma loop_counts app now chs nd counts : (foldl (snapshot_channel cfg app now) (nd, counts) chs).2 = counts ++ gathered chs.
Proof.
  revert nd counts. induction chs as [|ch chs IH]; intros nd counts; [by rewrite app_nil_r|]. cbn [foldl].
  assert ((snapshot_channel cfg app now (nd, counts) ch).2 = counts ++ gathered [ch]) as H.
  { unfold snapshot_channel, gathered. simpl. destruct (is_presence (ch_kind ch)); simpl.
    - destruct (node_next_seq nd), (presence_snapshot ch); simpl; [|by rewrite app_nil_r].
      destruct (_ =? 0); simpl; by rewrite app_nil_r.
    - destruct (0 <? ch_len ch); simpl; [done|by rewrite app_nil_r]. }
  destruct (snapshot_channel cfg app now (nd, counts) ch) as [nd1 counts1]. simpl in H. subst counts1.
  rewrite IH, <- app_assoc. f_equal. unfold gathered. rewrite <- fmap_app, <- List.filter_app. done.
Qed.

(** The loop over the channels. *)
Lemma snapshot_loop nd0 nd app now :
  manager_wf (nd_channels nd) -> nd_channels nd0 = nd_channels nd ->
  let nd' := (foldl (snapshot_channel cfg app now) (nd0, []) (all_channels (nd_channels nd) (app_id app))).1 in
  own nd0 nd' /\ nd_channels nd' = nd_channels nd /\ (rostered t = false -> mute nd0 nd') /\
  (app_id app = tp_app t -> rostered t = true -> reported t (fact_at nd) -> tells nd0 nd').
Proof using Hon Ht.
  intros Hm E. cbv zeta. set (chs := all_channels _ _).
  set (J := fun acc : Server * list ChannelCount => nd_channels acc.1 = nd_channels nd).
  assert (forall acc ch, ch ∈ chs -> J acc -> find_channel (nd_channels acc.1) (app_id app) (ch_name ch) = Some ch) as Hfind.
  { intros acc ch Hch HJ. unfold J in HJ. rewrite HJ. by apply elem_of_all_channels. }
  assert (forall acc ch, J acc -> J (snapshot_channel cfg app now acc ch)) as HJ.
  { intros acc ch HJ. unfold J. destruct (snapshot_channel_publishes cfg app now acc ch) as [-> _]. exact HJ. }
  assert (forall acc ch, ch ∈ chs -> J acc -> own acc.1 (snapshot_channel cfg app now acc ch).1 /\ J (snapshot_channel cfg app now acc ch)) as Hstep.
  { intros acc ch Hch Hj. split; [|by apply HJ]. pose proof (Hfind acc ch Hch Hj). destruct acc. by apply snapshot_channel_says. }
  destruct (own_loop fst J (snapshot_channel cfg app now) own chs (nd0, []) Hstep E) as [Ho Hj].
  split_and!; [exact Ho|exact Hj| |].
  - intros Hr. apply (own_loop fst J (snapshot_channel cfg app now) mute chs (nd0, [])); [|exact E].
    intros acc ch Hch Hj'. split; [|by apply HJ]. pose proof (Hfind acc ch Hch Hj'). destruct acc. by apply snapshot_channel_says.
  - intros Hi Hr Hu.
    assert (exists ch, ch ∈ chs /\ t = Members (app_id app) (ch_name ch)) as (ch & Hch & Heq).
    { clear -Hm Hi Hr Hu. destruct t as [id c|id c|id u]; [|done|done]. simpl in Hi, Hu. subst id. rewrite seats_find in Hu.
      destruct (find_channel (nd_channels nd) (app_id app) c) as [ch|] eqn:Ef; [|by destruct Hu].
      destruct (find_channel_wf _ _ _ _ Hm Ef) as [[Hname _] _]. exists ch. rewrite Hname. split; [|done].
      apply elem_of_all_channels; [done|]. by rewrite Hname. }
    apply (tells_loop fst J (snapshot_channel cfg app now) chs ch (nd0, []) Hstep E Hch).
    intros acc Hj'. pose proof (Hfind acc ch Hch Hj') as Hf. unfold J in Hj'. destruct acc as [nd' cs].
    cbn [fst] in Hj'. apply snapshot_channel_says; [done|done|]. by rewrite Hj'.
Qed.

Lemma snapshots_says nd app now :
  manager_wf (nd_channels nd) ->
  let nd' := publish_snapshots_for_app cfg nd app now in
  own nd nd' /\ (app_id app = tp_app t -> reported t (fact_at nd) -> tells nd nd').
Proof using Hon Ht.
  intros Hm. cbv zeta. unfold publish_snapshots_for_app.
  assert (nd_channels (node_next_seq nd).2 = nd_channels nd) as E by done. pose proof (own_next_seq nd) as Hn.
  pose proof (fun mid p => own_snapshot nd mid app p now) as Hcounts.
  destruct (node_next_seq nd) as [n nd1]. cbn [fst snd] in *. rewrite E.
  destruct (snapshot_loop nd1 nd app now Hm E) as (Ho & E2 & Hmute & Htell).
  pose proof (loop_counts app now (all_channels (nd_channels nd) (app_id app)) nd1 []) as Hc.
  destruct (foldl _ _ _) as [nd2 counts]. cbn [fst snd] in *. rewrite app_nil_l in Hc. subst counts.
  unfold publish_channel_count_snapshot, publish_user_session_snapshot.
  set (cenv := mk_env app n _). set (nd3 := when_scaling cfg nd2 cenv now).
  assert (own nd nd3 /\ (app_id app = tp_app t -> reported t (fact_at nd) -> (exists id u, t = Session id u) \/ tells nd nd3)) as [H3 T3].
  { destruct (rostered t) eqn:Er.
    - assert (own nd2 nd3) as H23.
      { apply (own_aside _ _ _ (Counts ((fun e => (cc_channel e, cc_count e)) <$> gathered (all_channels (nd_channels nd) (app_id app)))));
          [done|done|]. clear -Er. unfold about. destruct t; [|done|done]. simpl. by rewrite !andb_false_r. }
      split; [by do 2 (etrans; [eassumption|])|]. intros Hi Hr. right.
      eapply tells_before; [exact Hn|by etrans|]. eapply tells_after; [exact Ho|by apply Htell|exact H23].
    - destruct (Hcounts nd2 (PChannelCountSnapshot me (gathered (all_channels (nd_channels nd) (app_id app)))) (Hmute eq_refl)) as (H1 & H2 & _).
      { rewrite E2. intros _. by apply counts_true. }
      split; [exact H1|]. intros Hi _. clear -Hi H2 Er. fold cenv in H2.
      destruct t as [id c|id c|id u] eqn:Et; [done| |left; eauto]. right. apply H2. unfold about. simpl in *.
      by rewrite Hi, !String.eqb_refl. }
  assert (nd_channels nd3 = nd_channels nd) as E3 by (unfold nd3; by rewrite when_scaling_channels).
  pose proof (fun p => own_snapshot nd3 (node_next_seq nd3).2 app p now (reflexivity _)) as Hses.
  assert (nd_channels (node_next_seq nd3).2 = nd_channels nd) as E4 by (by rewrite <- E3).
  destruct (node_next_seq nd3) as [n4 nd4]. cbn [fst snd] in *.
  destruct (Hses (PUserSessionSnapshot me (local_user_ids (nd_channels nd4) (app_id app)))) as (H5 & T5 & _).
  { intros _. apply sessions_true. }
  split; [by etrans|]. intros Hi Hr. destruct (T3 Hi Hr) as [(id & u & Heq)|T]; [|by eapply tells_after].
  eapply tells_before; [exact H3|exact H5|]. apply T5. unfold about. rewrite Heq in Hi |- *. simpl in *. by rewrite Hi, !String.eqb_refl.
Qed.

(** One turn of the publisher.  It tells everything of a channel with users whose
    application is configured. *)
Lemma publisher_says nd apps now :
  manager_wf (nd_channels nd) ->
  let nd' := presence_snapshot_publisher cfg nd apps now in
  own nd nd' /\ (forall app, by_id apps !! tp_app t = Some app -> app_id app = tp_app t -> reported t (fact_at nd) -> tells nd nd').
Proof using Hon Ht.
  intros Hm. cbv zeta. unfold presence_snapshot_publisher.
  set (J := fun nd' : Server => nd_channels nd' = nd_channels nd).
  set (f := fun (nd : Server) app => publish_snapshots_for_app cfg nd app now).
  assert (forall acc app, app ∈ hvalues (by_id apps) -> J acc -> own acc (f acc app) /\ J (f acc app)) as Hstep.
  { intros acc app _ HJ. unfold f. split; [apply snapshots_says; unfold J in HJ; by rewrite HJ|].
    unfold J. destruct (snapshots_publishes cfg acc app now) as [-> _]. exact HJ. }
  split; [by apply (own_loop (fun nd => nd) J f own)|]. intros app Happ Hi Hu.
  apply (tells_loop (fun nd => nd) J f _ app); [done|done|apply elem_of_hvalues; eauto|].
  intros acc HJ. unfold J in HJ. apply snapshots_says; [by rewrite HJ|done|]. by rewrite HJ.
Qed.

(** ** Every step of the node keeps the contract *)

Context `{GL : GlobLib} `{FG : Figment} `{SB : SecretBox} `{BP : BodyParser} (prefix : string).

Lemma own_local nd m mbs :
  (manager_wf (nd_channels nd) -> manager_wf m) -> same_seats (nd_channels nd) m -> same_users (nd_channels nd) m ->
  own nd (set_local nd m mbs).
Proof.
  intros Hm Hs Hu. apply (own_trans _ (set_manager nd m)); [by apply own_manager|]. by apply own_same.
Qed.

Lemma own_close sys s now : own (sys_node sys) (sys_node (close_connection cfg base overflow sys s now)).
Proof using Hon Ht.
  unfold close_connection. destruct (sys_tasks sys !! s) as [k|]; [|apply own_refl]. simpl.
  eapply own_trans; [apply own_cleanup|apply own_mbs].
Qed.

Lemma own_open_connection sys app s tx origin sent secs :
  own (sys_node sys) (sys_node (open_connection sys app s tx origin sent secs).2).
Proof.
  unfold open_connection.
  pose proof (register_seats (nd_channels (sys_node sys)) app {| h_socket_id := s; h_tx := tx |}) as Hs.
  pose proof (register_connection_wf (nd_channels (sys_node sys)) app {| h_socket_id := s; h_tx := tx |}) as Hw.
  pose proof (register_users (nd_channels (sys_node sys)) app {| h_socket_id := s; h_tx := tx |}) as Hu.
  destruct (register_connection _ _ _) as [[[]|e] m]; simpl in *; [|by apply own_manager].
  destruct sent; simpl; [by apply own_local|]. apply own_manager.
  - intros H. by apply unregister_connection_wf, Hw.
  - etrans; [exact Hs|apply unregister_seats].
  - etrans; [exact Hu|apply unregister_users].
Qed.

Lemma own_on_frame nd apps k frame lo now secs : own nd (on_frame cfg base overflow nd apps k frame lo now secs).1.2.
Proof using Hon Ht.
  unfold on_frame. destruct frame as [text| |]; [| |apply own_refl]; cbv zeta.
  - destruct (match k_limiter _ with Some _ => _ | None => _ end) as [[] k2]; cbn [negb]; [|apply own_refl].
    destruct (_ <? _)%Z; [apply own_refl|].
    match goal with |- context [handle_inbound ?a ?b ?o ?n ?ap ?kk ?c ?h ?t ?now] =>
      pose proof (own_inbound n ap kk c h t now) as H; destruct (handle_inbound a b o n ap kk c h t now) as [[rsp nd'] c'] end.
    exact H.
  - destruct (match k_limiter _ with Some _ => _ | None => _ end) as [[] k2]; apply own_refl.
Qed.

Lemma own_step_speaks sys sys' :
  manager_wf (nd_channels (sys_node sys)) -> own_step cfg base overflow prefix sys sys' ->
  own (sys_node sys) (sys_node sys').
Proof using Hon Ht.
  intros Hm Hstep. destruct Hstep as [sys app s tx origin sent secs Hno Hfree _|sys s frame lo now secs
    |sys s k Hk|sys s now|sys now secs|sys now|sys raws|sys method uri segments read nonces batch_nonces request_id now secs
    |sys request_id expected|sys app merged remote rq now].
  - apply own_open_connection.
  - unfold frame_step. destruct (sys_tasks sys !! s) as [k|] eqn:Hk; [|apply own_refl].
    pose proof (own_on_frame (sys_node sys) (sys_apps sys) k frame lo now secs) as H.
    destruct (on_frame _ _ _ _ _ _ _ _ _ _) as [[[r stop] nd] k']. cbn [fst snd] in H |- *.
    destruct stop; [|exact H]. eapply own_trans; [exact H|]. apply (own_close (put sys nd (<[s := k']> (sys_tasks sys)))).
  - simpl. unfold on_outbound. destruct (nd_mbs _ !! _) as [mb|]; [|apply own_refl].
    destruct (mb_queue mb) as [|[] ?]; [apply own_refl|apply own_mbs..].
  - apply own_close.
  - unfold connection_maintenance. destruct (foldl _ _ _) as [mbs tasks]. simpl.
    apply own_local; [apply gc_wf|intros i n; apply gc_same|]. apply agree_same_users, same_roster_agree, gc_same.
  - by apply publisher_says.
  - unfold reload_step. destruct (reload_apps_with _ _) as [[reload|e] next]; [apply own_mbs|apply own_refl].
  - apply own_harmless, serve_harmless.
  - by apply own_same.
  - apply own_harmless, listing_harmless.
Qed.

(** Messages of the peers and the sweep publish no news and change no seat. *)
Lemma incoming_speaks nd sink env apps now : speaks nd (handle_incoming cfg sink nd env apps now).
Proof. apply speaks_tame. intros Hw. split; [by apply handle_incoming_wf|]. apply incoming_keeps, Hw. Qed.

Lemma sweep_speaks nd apps now : speaks nd (presence_cache_gc cfg base overflow nd apps now).
Proof. apply speaks_tame, sweep_tame. Qed.
End Speaking.
