(* ===== verification/Mail.v ===== *)
(** * The mailboxes of the connections

    A connection reads what the server has for it from a bounded queue of its own
    ([handle.rs] of [zatat-connection]).  This file proves what every step of a node
    does to the queues: whatever the handlers, the API, the timers and the messages
    of the peers do, a queue only ever grows at its end, and only its own
    connection takes from its front.  With the handles stored in the channels this
    gives the way of an event, from its publication to the queues of all
    subscribers, on its node and on the others. *)

From S2P Require Import Prelude.
From S2P Require Import Core.
From S2P Require Import Json.
From S2P Require Import Envelope.
From S2P Require Import Auth.
From S2P Require Import Connection.
From S2P Require Import Channel.
From S2P Require Import Manager.
From S2P Require Import Message.
From S2P Require Import PeerState.
From S2P Require Import Encryption.
From S2P Require Import Bus.
From S2P Require Import Dispatcher.
From S2P Require Import Webhooks.
From S2P Require Import Routes.
From S2P Require Import Handler.
From S2P Require Import Apps.
From S2P Require Import Router.
From S2P Require Import Tasks.
From S2P Require Import System.
From S2P Require Import HandlerProps.
From S2P Require Import Topic.
From S2P Require Import Speech.
From stdpp Require Import options.

(** ** Sequences of sends *)

Definition sends (msgs : list Outbound) (mb : Mailbox) : Mailbox :=
  foldl (fun mb msg => (mailbox_send msg mb).2) mb msgs.

(** A queue within its capacity keeps the messages that fit, in order; the kick is
    raised exactly when one did not fit. *)
Lemma sends_spec msgs mb :
  mb_closed mb = false -> length (mb_queue mb) <= mb_capacity mb ->
  sends msgs mb = {| mb_queue := take (mb_capacity mb) (mb_queue mb ++ msgs); mb_capacity := mb_capacity mb;
                     mb_closed := false;
                     mb_kicked := mb_kicked mb || (mb_capacity mb <? length (mb_queue mb ++ msgs)) |}.
Proof.
  revert mb. induction msgs as [|msg msgs IH]; intros [q cap cl ki] Hc Hl; simpl in *; subst cl.
  - rewrite app_nil_r, take_ge by done. by rewrite (proj2 (Nat.ltb_ge _ _) Hl), orb_false_r.
  - unfold mailbox_send at 1. simpl. destruct (Nat.leb_spec cap (length q)) as [Hf|Hf]; simpl.
    + fold (sends msgs). rewrite IH by done. simpl. rewrite !take_app_ge, !length_app by lia. simpl.
      replace (cap - length q) with 0 by lia. simpl.
      by rewrite (proj2 (Nat.ltb_lt cap (length q + S (length msgs)))), orb_true_r by lia.
    + fold (sends msgs). rewrite IH by (simpl; rewrite ?length_app; simpl; done || lia). simpl.
      by rewrite <- !(assoc_L (++)).
Qed.

Lemma sends_app l1 l2 mb : sends (l1 ++ l2) mb = sends l2 (sends l1 mb).
Proof. apply foldl_app. Qed.

(** What steps other than the connection's own do to the store of queues. *)
Definition posts (mbs mbs' : Mailboxes) : Prop := forall tx, exists msgs, mbs' !! tx = sends msgs <$> mbs !! tx.

#[export] Instance posts_preorder : PreOrder posts.
Proof.
  split.
  - intros mbs tx. exists []. by destruct (mbs !! tx).
  - intros m1 m2 m3 H1 H2 tx. destruct (H1 tx) as [l1 E1], (H2 tx) as [l2 E2]. exists (l1 ++ l2).
    rewrite E2, E1. destruct (m1 !! tx); simpl; [by rewrite sends_app|done].
Qed.

Lemma try_send_posts h msg mbs : posts mbs (try_send h msg mbs).2.
Proof.
  intros tx. destruct (decide (h_tx h = tx)) as [<-|Hne].
  - exists [msg]. by rewrite try_send_same.
  - exists []. rewrite try_send_other by done. by destruct (mbs !! tx).
Qed.

Lemma fold_posts {A} (f : Mailboxes -> A -> Mailboxes) l mbs :
  (forall mbs x, posts mbs (f mbs x)) -> posts mbs (foldl f mbs l).
Proof. intros Hf. revert mbs. induction l as [|x l IH]; intros mbs; simpl; [done|]. by etrans; [apply Hf|]. Qed.

Lemma send_all_posts hs msg mbs : posts mbs (send_all hs msg mbs).
Proof. apply fold_posts. intros. apply try_send_posts. Qed.

(** ** The steps of a node *)

Section Incoming.
Context `{HI : HashIter} `{WI : Wire} `{SJ : SerdeJson} `{SB : SecretBox} (cfg : Config) {W : Type}.
Context (sink : option (App -> FleetTransition -> Instant -> W -> W)).
Implicit Types nd : Node W.

Definition posted nd nd' : Prop := posts (nd_mbs nd) (nd_mbs nd').

#[export] Instance posted_preorder : PreOrder posted.
Proof. split; [intros nd; by unfold posted|]. intros n1 n2 n3 H1 H2. unfold posted in *. by etrans. Qed.

Lemma posted_same nd nd' : nd_mbs nd' = nd_mbs nd -> posted nd nd'.
Proof. unfold posted. by intros ->. Qed.

Lemma fold_posted {B} (f : Node W -> B -> Node W) l nd : (forall nd x, posted nd (f nd x)) -> posted nd (foldl f nd l).
Proof. intros Hf. revert nd. induction l as [|x l IH]; intros nd; simpl; [done|]. by etrans; [apply Hf|]. Qed.

Lemma when_posted (b : bool) nd nd1 nd2 : posted nd nd1 -> posted nd1 nd2 -> posted nd (if b then nd2 else nd1).
Proof. intros H1 H2. destruct b; [by etrans|done]. Qed.

Lemma publish_env_posted nd env now : posted nd (publish_env cfg nd env now).
Proof. by apply posted_same. Qed.

Lemma when_scaling_posted nd env now : posted nd (when_scaling cfg nd env now).
Proof. unfold when_scaling. case_ifs; by apply posted_same. Qed.

Lemma set_view_posted nd v : posted nd (set_view nd v).
Proof. by apply posted_same. Qed.

Lemma set_manager_posted nd m : posted nd (set_manager nd m).
Proof. by apply posted_same. Qed.

Lemma to_local_posted nd local frame : posted nd (to_local nd local frame).
Proof. destruct local; [apply send_all_posts|done]. Qed.

Lemma node_accept_posted nd node app key seq now : posted nd (node_accept nd node app key seq now).2.
Proof. unfold node_accept. destruct (accept_seq _ _ _ _ _ _). by apply posted_same. Qed.

Lemma claim_report_posted nd app channel uid tr now :
  posted nd (let '(claimed, nd) := claim_withheld nd app channel uid now in
             if claimed : bool then report_transition sink nd app tr now else nd).
Proof.
  apply posted_same. unfold claim_withheld, report_transition.
  destruct (nd_withheld nd !! _); [|done]. destruct (_ <? _)%Z; [|done]. by destruct sink.
Qed.

Lemma watchlist_posted nd id uid ev : posted nd (emit_local_watchlist_event nd id uid ev).
Proof. unfold emit_local_watchlist_event. destruct (watchers_of _ _ _); [done|apply send_all_posts]. Qed.

Lemma user_event_posted nd id uid event data : posted nd (deliver_user_event_locally nd id uid event data).
Proof. apply send_all_posts. Qed.

Lemma broadcast_locally_posted nd id app channel event data ex now :
  posted nd (broadcast_locally_with_app nd id app channel event data ex now).
Proof.
  unfold broadcast_locally_with_app. destruct (strip_prefix _ _); [apply user_event_posted|].
  destruct (match app with Some _ => _ | None => _ end) as [[c|] m]; [|apply set_manager_posted].
  unfold broadcast. apply send_all_posts.
Qed.

Lemma user_update_posted nd app origin uid now :
  posted nd (apply_remote_user_online nd app origin uid now) /\
  posted nd (apply_remote_user_offline nd app origin uid now).
Proof.
  unfold apply_remote_user_online, apply_remote_user_offline. cbv zeta.
  split; case_ifs; try (by apply posted_same); (etrans; [|apply watchlist_posted]; by apply posted_same).
Qed.

Lemma member_update_posted nd app origin channel uid info ww vw now :
  posted nd (apply_remote_member_added nd app origin channel uid info now) /\
  posted nd (apply_remote_member_removed cfg sink nd app origin channel uid ww vw now).
Proof.
  unfold apply_remote_member_added, apply_remote_member_removed. cbv zeta. split.
  - case_ifs; [apply set_view_posted|]. etrans; [apply set_view_posted|apply to_local_posted].
  - case_ifs; repeat (etrans; [|apply claim_report_posted]); try (etrans; [|apply to_local_posted]);
      apply set_view_posted.
Qed.

Lemma subscription_count_posted nd app origin channel n vw now :
  posted nd (apply_remote_subscription_count cfg sink nd app origin channel n vw now).
Proof.
  unfold apply_remote_subscription_count. cbv zeta.
  destruct (find_channel _ _ _); case_ifs; try (etrans; [|apply to_local_posted]);
    try (etrans; [|apply claim_report_posted]); apply set_view_posted.
Qed.

Lemma snapshot_posted nd app node channel ms seq now :
  posted nd (apply_remote_presence_snapshot nd app node channel ms seq now).
Proof.
  unfold apply_remote_presence_snapshot.
  pose proof (node_accept_posted nd node app ("p:" +:+ channel) seq now) as Hn.
  destruct (node_accept _ _ _ _ _ _) as [ok nd1]. simpl in Hn. cbv zeta.
  etrans; [exact Hn|]. destruct ok; simpl; [|apply set_view_posted].
  destruct (find_channel _ _ _); [|apply set_view_posted].
  etrans; [|apply fold_posted; intros nd' u; unfold announce_joined; case_ifs; done || apply to_local_posted].
  etrans; [|apply fold_posted; intros nd' u; unfold announce_left; case_ifs; done || apply to_local_posted].
  apply set_view_posted.
Qed.

Lemma count_snapshot_posted nd app node counts seq now :
  posted nd (apply_remote_channel_count_snapshot nd app node counts seq now).
Proof.
  unfold apply_remote_channel_count_snapshot. cbv zeta.
  destruct (PeerChannelCounts.retain_node_channels _ _ _ _ _ _) as [[dropped t] v].
  etrans; [apply (fold_posted (apply_count app node seq now) counts)|].
  - intros nd' c. unfold apply_count.
    pose proof (node_accept_posted nd' node app ("c:" +:+ cc_channel c) seq now) as Hn.
    destruct (node_accept _ _ _ _ _ _). by etrans; [exact Hn|apply set_view_posted].
  - case_ifs; [apply set_view_posted|]. etrans; [|apply fold_posted]; [apply set_view_posted|].
    intros nd' c. unfold emit_total. destruct (find_channel _ _ _); [|done]. case_ifs; [done|apply to_local_posted].
Qed.

Lemma session_snapshot_posted nd app node users seq now :
  posted nd (apply_remote_user_session_snapshot nd app node users seq now).
Proof.
  unfold apply_remote_user_session_snapshot. cbv zeta.
  assert (forall online nd u, posted nd (session_update app node seq now online nd u)) as Hs.
  { intros online nd' u. unfold session_update.
    pose proof (node_accept_posted nd' node app ("u:" +:+ u) seq now) as Hn.
    destruct (node_accept _ _ _ _ _ _) as [ok nd1]. simpl in Hn.
    etrans; [exact Hn|]. case_ifs; [done|apply user_update_posted|apply user_update_posted]. }
  etrans; [|apply fold_posted; intros; apply Hs]. etrans; [|apply fold_posted; intros; apply Hs]. apply set_view_posted.
Qed.

Lemma incoming_posted nd env apps now : posted nd (handle_incoming cfg sink nd env apps now).
Proof.
  unfold handle_incoming. destruct (_ <? _)%Z; [by apply posted_same|].
  etrans; [apply (posted_same _ (saw_peer cfg nd (payload env) now))|].
  { unfold saw_peer. destruct (payload_node_id _); [|done]. by case_ifs. }
  generalize (saw_peer cfg nd (payload env) now). clear nd. intros nd.
  destruct (apps _) as [app|]; [|done].
  destruct (payload env); cbn [handle_payload handle_peer_state]; try (destruct (String.eqb _ _); [done|]).
  all: try (match goal with |- context [node_accept ?n ?o ?a ?k ?s ?t] =>
        pose proof (node_accept_posted n o a k s t) as Hn; destruct (node_accept n o a k s t) as [[] ?];
        [etrans; [exact Hn|]|exact Hn] end).
  - apply broadcast_locally_posted.
  - destruct (handle_for_socket _ _ _); [apply try_send_posts|done].
  - apply send_all_posts.
  - destruct (find_channel _ _ _); [apply send_all_posts|done].
  - apply snapshot_posted.
  - apply user_event_posted.
  - unfold respond_to_metrics_request. destruct (foldl _ _ _). by apply posted_same.
  - destruct (nd_inflight nd !! _); by apply posted_same.
  - by apply (member_update_posted _ _ _ _ _ _ false false).
  - by apply (member_update_posted _ _ _ _ _ None).
  - apply subscription_count_posted.
  - apply user_update_posted.
  - apply user_update_posted.
  - apply count_snapshot_posted.
  - apply session_snapshot_posted.
Qed.
End Incoming.

Section Handlers.
Context `{HI : HashIter} `{WI : Wire} `{SJ : SerdeJson} `{CR : Crypto} `{IP : InboundParser}.
Context (cfg : Config) (base : Z) (overflow : WebhookOverflow).
Implicit Types nd : Server.

Lemma hook_posted nd app e now : posted nd (hook base overflow nd app e now).
Proof. by apply posted_same. Qed.

Lemma proto_posted nd ch frame ex : posted nd (broadcast_proto nd ch frame ex).
Proof. apply send_all_posts. Qed.

Lemma send_text_posted nd h frame : posted nd (send_text nd h frame).
Proof. apply try_send_posts. Qed.

Lemma withheld_posted nd app channel uid now : posted nd (note_withheld nd app channel uid now).
Proof. by apply posted_same. Qed.

Lemma fanout_posted nd id uid ev : posted nd (fanout_watchlist_event nd id uid ev).
Proof. apply send_all_posts. Qed.

Lemma announce_posted nd app ch n w now : posted nd (announce_subscription_count cfg base overflow nd app ch n w now).
Proof.
  unfold announce_subscription_count. etrans; [|apply when_scaling_posted].
  case_ifs; [|done]. etrans; [apply proto_posted|apply hook_posted].
Qed.

Lemma join_effects_posted app channel p s occ now ch r e :
  posted e.1.1 (join_effects cfg base overflow app channel p s occ now ch r e).1.1.
Proof.
  destruct e as [[nd rm] rp]. unfold join_effects. simpl. destruct (sr_was_new r); simpl; [|done].
  transitivity (if (sr_member_count r =? 1) && negb occ then hook base overflow nd app (ChannelOccupied channel) now else nd).
  { case_ifs; [apply hook_posted|done]. }
  destruct p as [pm|]; [|apply announce_posted]. destruct (sr_user_added r); simpl; [|done].
  etrans; [|apply when_scaling_posted]. destruct rp; simpl; [done|]. etrans; [apply proto_posted|apply hook_posted].
Qed.

Lemma leave_effects_posted app channel now ch o nd : posted nd (leave_effects cfg base overflow app channel now ch o nd).
Proof.
  unfold leave_effects. destruct (uo_was_member o); simpl; [|done]. generalize ((uo_member_count o =? 0) && occupied_on_peers nd (app_id app) channel (from_name channel) now). intros vac.
  match goal with |- posted nd (if _ then announce_subscription_count _ _ _ ?n _ _ _ _ _ else _) =>
    transitivity n; [|generalize n; clear nd; intros nd] end.
  { case_ifs; done || apply withheld_posted || apply hook_posted. }
  destruct (is_presence _); simpl; [|apply announce_posted].
  destruct (uo_user_removed o) as [uid|]; [|done]. etrans; [|apply when_scaling_posted].
  case_ifs; [apply withheld_posted|]. etrans; [apply proto_posted|apply hook_posted].
Qed.

Lemma replay_cache_posted nd app channel h cached now : posted nd (replay_cache base overflow nd app channel h cached now).
Proof.
  unfold replay_cache. destruct cached; [apply send_text_posted|]. cbv zeta. etrans; [|apply send_text_posted].
  destruct (find_channel _ _ _); [|done]. destruct (claim_cache_miss_notification _ _). case_ifs; by apply posted_same.
Qed.

Lemma subscribe_posted nd app c h data now : posted nd (handle_subscribe cfg base overflow nd app c h data now).1.2.
Proof.
  unfold handle_subscribe. destruct (check_subscribe app c data) as [[name p]|]; [|done]. cbv zeta.
  set (occ := occupied_on_peers _ _ _ _ _). clearbody occ.
  pose proof (subscribe_with_effect (fun e => posted nd e.1.1) (nd_channels nd) app name (c_socket_id c) h p
    (join_admit app name p now) (join_effects cfg base overflow app name p (c_socket_id c) occ now) now (nd, [], false)) as He.
  destruct (subscribe_with _ _ _ _ _ _ _ _ _ _) as [[out m] [[nd1 rm] rp]]. simpl in He.
  assert (posted nd nd1) as Hn.
  { apply He; [| |done].
    - intros ch [[nd' l] b] H. unfold join_admit. destruct p; [|done]. cbv zeta. by case_ifs.
    - intros ch r e H. etrans; [exact H|apply join_effects_posted]. }
  assert (posted nd (set_manager nd1 m)) as Hm by (etrans; [exact Hn|apply set_manager_posted]).
  destruct out; [|done]. cbn [fst snd]. case_ifs; [|done]. etrans; [exact Hm|apply replay_cache_posted].
Qed.

Lemma leave_posted nd app s name now : posted nd (leave_channel cfg base overflow nd app s name now).
Proof.
  unfold leave_channel.
  pose proof (unsubscribe_with_effect (posted nd) (nd_channels nd) (app_id app) name s
    (leave_effects cfg base overflow app name now) now nd) as He.
  destruct (unsubscribe_with _ _ _ _ _ _ _) as [[o m] nd1]. etrans; [apply He|apply set_manager_posted]; [|done].
  intros ch r nd' H. etrans; [exact H|apply leave_effects_posted].
Qed.

Lemma signin_transition_posted nd app c h uid wl now :
  posted nd (signin_transition cfg nd app c h uid wl now).1.
Proof.
  unfold signin_transition. cbv zeta. destruct (bind_user _ _ _ _) as [first m].
  set (st := match wl with Some _ => _ | None => _ end). assert (posted nd st.1) as Hs.
  { unfold st. destruct wl as [l|]; [|by apply posted_same]. cbn [fst]. etrans; [|apply send_text_posted].
    by apply posted_same. }
  destruct st as [nd1 c1]. cbn [fst] in *. etrans; [exact Hs|].
  apply when_posted; [|apply when_scaling_posted]. apply when_posted; [done|apply fanout_posted].
Qed.

Lemma signin_posted nd app c h data now : posted nd (handle_signin cfg nd app c h data now).1.2.
Proof.
  unfold handle_signin. cbv zeta. destruct (field_str _ "auth"); [|done]. destruct (field_str _ "user_data"); [|done].
  destruct (negb _); [done|]. destruct (id_text _) as [uid|]; [|done]. destruct (is_empty_str _); [done|].
  destruct (c_user_id c); [done|]. destruct (read_watchlist _) as [[w tr]|]; [|done].
  pose proof (signin_transition_posted nd app c h uid w now) as Ht.
  destruct (signin_transition _ _ _ _ _ _ _ _) as [nd1 c1]. cbn [fst snd] in *. etrans; [exact Ht|].
  case_ifs; [apply send_text_posted|done].
Qed.

Lemma client_event_posted nd app c ev frame now :
  posted nd (handle_client_event cfg base overflow nd app c ev frame now).2.
Proof.
  unfold handle_client_event. case_decide; [done|]. destruct (f_channel frame) as [n|]; [|done]. cbv zeta.
  destruct (negb _); [done|]. destruct (find_channel _ _ _) as [ch|]; [|done]. destruct (negb _); [done|].
  cbn [snd]. etrans; [|apply hook_posted]. etrans; [|apply when_scaling_posted]. apply send_all_posts.
Qed.

Lemma inbound_posted nd apps app c h text now :
  posted nd (handle_inbound cfg base overflow nd apps app c h text now).1.2.
Proof.
  unfold handle_inbound. destruct (parse_inbound text) as [f|]; [|done]. cbv zeta.
  destruct (String.eqb _ "pusher:ping"); [done|].
  destruct (String.eqb _ "pusher:subscribe"); [apply subscribe_posted|].
  destruct (String.eqb _ "pusher:unsubscribe").
  { unfold handle_unsubscribe. destruct (field_str _ _); [apply leave_posted|done]. }
  destruct (String.eqb _ "pusher:signin"); [apply signin_posted|].
  destruct (starts_with _ _); [|done]. destruct (_ <? _)%Z; [done|].
  pose proof (client_event_posted nd (default app (apps (app_id app))) c (f_event f) f now) as H.
  by destruct (handle_client_event _ _ _ _ _ _ _ _ _).
Qed.

Lemma cleanup_user_posted nd app uid s now : posted nd (cleanup_user cfg nd app uid s now).
Proof.
  unfold cleanup_user. cbv zeta. destruct (unbind_user _ _ _ _) as [last m]. destruct last; cbn [negb]; [|by apply posted_same].
  etrans; [|apply set_manager_posted]. etrans; [|apply when_scaling_posted].
  case_ifs; [etrans; [|apply fanout_posted]|]; by apply posted_same.
Qed.

Lemma cleanup_posted nd app c s now : posted nd (cleanup_connection cfg base overflow nd app c s now).
Proof.
  unfold cleanup_connection. cbv zeta. etrans; [|apply set_manager_posted].
  pose proof (fold_posted (fun nd name => leave_channel cfg base overflow nd app s name now) (subscriptions_snapshot c) nd
    (fun nd name => leave_posted nd app s name now)) as H.
  destruct (c_user_id c); [|exact H]. etrans; [exact H|apply cleanup_user_posted].
Qed.

(** *** The timers *)

Lemma next_seq_posted nd : posted nd (node_next_seq nd).2.
Proof. unfold node_next_seq. destruct (next_seq _). by apply posted_same. Qed.

Lemma snapshot_channel_posted app now acc ch : posted acc.1 (snapshot_channel cfg app now acc ch).1.
Proof.
  unfold snapshot_channel. destruct acc as [nd counts]. destruct (is_presence _); [|by case_ifs].
  pose proof (next_seq_posted nd) as H. destruct (node_next_seq nd) as [seq nd1]. cbn [fst snd] in *.
  destruct (presence_snapshot ch); [|done]. case_ifs; [done|]. etrans; [exact H|apply when_scaling_posted].
Qed.

Lemma snapshots_posted nd app now : posted nd (publish_snapshots_for_app cfg nd app now).
Proof.
  unfold publish_snapshots_for_app.
  pose proof (next_seq_posted nd) as H. destruct (node_next_seq nd) as [seq nd1]. cbn [fst snd] in *.
  assert (forall l acc, posted acc.1 (foldl (snapshot_channel cfg app now) acc l).1) as Hf.
  { induction l as [|ch l IH]; intros acc; [done|]. cbn [foldl]. etrans; [apply snapshot_channel_posted|apply IH]. }
  specialize (Hf (all_channels (nd_channels nd1) (app_id app)) (nd1, [])). destruct (foldl _ _ _) as [nd2 counts].
  cbv zeta. set (nd3 := publish_channel_count_snapshot _ _ _ _ _ _).
  pose proof (next_seq_posted nd3) as H3. destruct (node_next_seq nd3) as [seq3 nd4]. cbn [fst snd] in *.
  etrans; [exact H|]. etrans; [exact Hf|]. etrans; [apply (when_scaling_posted cfg nd2)|].
  etrans; [exact H3|apply when_scaling_posted].
Qed.

Lemma publisher_posted nd apps now : posted nd (presence_snapshot_publisher cfg nd apps now).
Proof. apply fold_posted. intros. apply snapshots_posted. Qed.

Lemma expire_member_posted apps now nd e : posted nd (expire_member cfg base overflow apps now nd e).
Proof.
  unfold expire_member. destruct (app_by_id _ _) as [app|]; [|done]. destruct (find_channel _ _ _) as [ch|]; [|done].
  cbv zeta. case_ifs; try done; (etrans; [apply proto_posted|]); try done; by apply posted_same.
Qed.

Lemma expire_count_posted apps now nd e : posted nd (expire_count cfg base overflow apps now nd e).
Proof.
  unfold expire_count. destruct e as [[[id channel] node] n]. destruct (app_by_id _ _) as [app|]; [|done]. cbv zeta.
  match goal with |- context [if ?b then hook _ _ _ _ ?e _ else _] =>
    pose proof (when_posted b nd nd _ ltac:(done) (hook_posted nd app e now)) as Hh end.
  destruct (find_channel _ _ _); [|exact Hh]. destruct (is_presence _ || _); [exact Hh|].
  etrans; [exact Hh|apply proto_posted].
Qed.

Lemma expire_session_posted apps now nd e : posted nd (expire_session apps now nd e).
Proof.
  unfold expire_session. destruct e as [[id node] uid]. destruct (app_by_id _ _) as [app|]; [|done]. cbv zeta.
  case_ifs; [apply set_manager_posted|]. destruct (watchers_of _ _ _); [apply set_manager_posted|].
  etrans; [apply set_manager_posted|apply send_all_posts].
Qed.

Lemma sweep_posted nd apps now : posted nd (presence_cache_gc cfg base overflow nd apps now).
Proof.
  unfold presence_cache_gc. cbv zeta. destruct (PresenceCache.gc_expired _ _) as [e1 t1].
  destruct (PeerChannelCounts.gc_expired _ _) as [e2 t2]. destruct (PeerUserSessions.gc_expired _ _) as [e3 t3].
  etrans; [|apply set_view_posted]. etrans; [|apply fold_posted; intros; apply expire_session_posted].
  etrans; [|apply set_view_posted]. etrans; [|apply fold_posted; intros; apply expire_count_posted].
  etrans; [|apply set_view_posted]. etrans; [|apply fold_posted; intros; apply expire_member_posted].
  apply set_view_posted.
Qed.

Lemma maintain_posts secs l acc : posts acc.1 (foldl (maintain_one secs) acc l).1.
Proof.
  revert acc. induction l as [|[s k] l IH]; intros [mbs tasks]; [done|]. cbn [foldl]. etrans; [|apply IH].
  unfold maintain_one. case_ifs; done || apply try_send_posts.
Qed.

Lemma maintenance_posted sys now secs : posted (sys_node sys) (sys_node (connection_maintenance sys now secs)).
Proof.
  unfold connection_maintenance.
  pose proof (maintain_posts secs (hiter (sys_tasks sys)) (nd_mbs (sys_node sys), sys_tasks sys)) as H.
  by destruct (foldl _ _ _) as [mbs tasks].
Qed.
End Handlers.

Section Api.
Context `{HI : HashIter} `{WI : Wire} `{SJ : SerdeJson} `{CR : Crypto} `{SB : SecretBox} `{BP : BodyParser}.
Context (cfg : Config) (prefix : string).
Implicit Types nd : Server.

Lemma fleet_stats_posted nd app channel now : posted nd (fleet_channel_stats nd app channel now).2.
Proof. unfold fleet_channel_stats. destruct (channel_stats _ _ _ _). case_ifs; by apply posted_same. Qed.

Lemma dispatch_message_posted nd app channel event data ex n now :
  posted nd (dispatch_message cfg nd app channel event data ex n now).2.
Proof.
  unfold dispatch_message. destruct (maybe_encrypt _ _ _ _ _) as [d|]; [|done].
  etrans; [apply broadcast_locally_posted|apply when_scaling_posted].
Qed.

Lemma dispatch_channels_posted channels nd app name data ex nonces now :
  posted nd (dispatch_channels cfg nd app name data ex channels nonces now).2.
Proof.
  revert nd nonces. induction channels as [|ch chs IH]; intros nd nonces; [done|]. cbn [dispatch_channels].
  pose proof (dispatch_message_posted nd app ch name data ex (default "" (head nonces)) now) as H.
  destruct (dispatch_message _ _ _ _ _ _ _ _ _) as [[[]|e] nd1]; simpl in H; [|done]. by etrans; [exact H|].
Qed.

Lemma dispatch_batch_posted batch nd app nonces i now out :
  posted nd (dispatch_batch cfg nd app batch nonces i now out).2.
Proof.
  revert nd i out. induction batch as [|ev batch IH]; intros nd i out; [done|]. cbn [dispatch_batch].
  pose proof (dispatch_channels_posted (event_channels ev) nd app (ep_name ev) (data_to_string (ep_data ev))
    (ep_socket_id ev) (nonces i) now) as H. unfold dispatch_event.
  destruct (dispatch_channels _ _ _ _ _ _ _ _ _) as [[[]|e] nd1]; simpl in H; [|done].
  etrans; [exact H|]. destruct (ep_info ev); [destruct (head (event_channels ev)) as [ch|]|]; try apply IH.
  pose proof (fleet_stats_posted nd1 app ch now) as Hs. destruct (fleet_channel_stats _ _ _ _) as [st nd2].
  by etrans; [exact Hs|].
Qed.

Lemma channel_infos_posted app info now chs (acc : list (string * Value) * Server) : posted acc.2 (foldl (add_channel_info app info now) acc chs).2.
Proof.
  revert acc. induction chs as [|ch chs IH]; intros [obj nd]; [done|]. cbn [foldl]. etrans; [|apply IH].
  unfold add_channel_info. pose proof (fleet_stats_posted nd app ch now) as Hs. by destruct (fleet_channel_stats _ _ _ _).
Qed.

Lemma publish_event_posted nd apps id rq nonces now secs :
  posted nd (publish_event cfg prefix nd apps id rq nonces now secs).2.
Proof.
  unfold publish_event. destruct (authorize _ _ _ _ _ _) as [app|]; [|done].
  destruct (parse_event _) as [ev|]; [|done]. destruct (validate_event_payload _ _); [|done]. unfold dispatch_event.
  pose proof (dispatch_channels_posted (event_channels ev) nd app (ep_name ev) (data_to_string (ep_data ev))
    (ep_socket_id ev) nonces now) as H.
  destruct (dispatch_channels _ _ _ _ _ _ _ _ _) as [[[]|e] nd1]; simpl in H; [|done].
  destruct (ep_info ev) as [info|]; [|done].
  pose proof (channel_infos_posted app info now (event_channels ev) ([], nd1)) as Hs.
  destruct (foldl _ _ _) as [obj nd2]. by etrans; [exact H|].
Qed.

Lemma publish_batch_posted nd apps id rq nonces now secs :
  posted nd (publish_batch_events cfg prefix nd apps id rq nonces now secs).2.
Proof.
  unfold publish_batch_events. destruct (authorize _ _ _ _ _ _) as [app|]; [|done].
  destruct (parse_batch _) as [[|ev batch]|]; [done| |done]. destruct (check_each _ _); [|done].
  pose proof (dispatch_batch_posted (ev :: batch) nd app nonces 0 now []) as H.
  by destruct (dispatch_batch _ _ _ _ _ _ _ _) as [[out|e] nd1].
Qed.

Lemma cache_info_posted nd app channel now : posted nd (cache_info nd app channel now).2.
Proof.
  unfold cache_info. destruct (find_channel _ _ _); [|done]. destruct (cached_payload_with_ttl _ _). by apply posted_same.
Qed.

Lemma list_local_posted nd app filter now : posted nd (list_local nd app filter now).2.
Proof. unfold list_local. destruct (foldl (channel_metric _ _) _ _). by apply posted_same. Qed.

Lemma ask_fleet_posted nd app query req now expected nd' :
  ask_fleet_start cfg nd app query req now = Some (expected, nd') -> posted nd nd'.
Proof. unfold ask_fleet_start. destruct (scaling_enabled cfg); [|done]. intros [= _ <-]. by apply posted_same. Qed.

Lemma listing_posted nd app merged remote rq now : posted nd (list_channels_finish nd app merged remote rq now).2.
Proof.
  unfold list_channels_finish. cbv zeta. match goal with |- context [list_entry app ?i now] => set (info := i) end.
  generalize (bt_iter (foldl merge_metric merged remote)). intros l.
  assert (forall acc : _ * Server, posted acc.2 (foldl (list_entry app info now) acc l).2) as Hf.
  { induction l as [|[name e] l IH]; intros [obj nd1]; [done|]. cbn [foldl]. etrans; [|apply IH].
    unfold list_entry. destruct (mg_occupied e); [|done]. simpl. destruct (wants info "cache"); [|done].
    pose proof (cache_info_posted nd1 app name now) as Hc. by destruct (cache_info _ _ _ _). }
  specialize (Hf ([], nd)). by destruct (foldl _ _ _).
Qed.

Lemma serve_posted nd apps method uri segments read nonces batch_nonces request_id now secs :
  posted nd (serve cfg prefix nd apps method uri segments read nonces batch_nonces request_id now secs).2.
Proof.
  unfold serve. destruct (route method segments) as [[id endpoint]|]; [|done].
  destruct read as [| |body]; [done|done|]. simpl. cbv zeta. destruct endpoint; simpl.
  - apply publish_event_posted.
  - apply publish_batch_posted.
  - unfold list_channels_begin. destruct (authorize _ _ _ _ _ _) as [app|]; [|done].
    cbv zeta. match goal with |- context [list_local nd app ?x now] => set (f := x) end.
    pose proof (list_local_posted nd app f now) as Hl. destruct (list_local nd app f now) as [merged nd1]. simpl in Hl.
    destruct (ask_fleet_start _ _ _ _ _ _) as [[expected nd2]|] eqn:E; [|done].
    etrans; [exact Hl|by eapply ask_fleet_posted].
  - unfold channel_info. destruct (authorize _ _ _ _ _ _) as [app|]; [|done].
    match goal with |- context [fleet_channel_stats nd app ?c now] =>
      pose proof (fleet_stats_posted nd app c now) as Hs; destruct (fleet_channel_stats nd app c now) as [st nd1] end.
    etrans; [exact Hs|]. destruct (wants _ _); [|done].
    match goal with |- context [cache_info nd1 app ?c now] =>
      pose proof (cache_info_posted nd1 app c now) as Hc end. by destruct (cache_info _ _ _ _).
  - done.
  - unfold connections_begin. destruct (authorize _ _ _ _ _ _) as [app|]; [|done].
    destruct (ask_fleet_start _ _ _ _ _ _) as [[expected nd2]|] eqn:E; [|done]. by eapply ask_fleet_posted.
  - unfold user_events. destruct (authorize _ _ _ _ _ _) as [app|]; [|done].
    destruct (parse_user_event _); [|done]. destruct (validate_event_name _); [|done]. case_ifs; [done|].
    etrans; [apply user_event_posted|apply when_scaling_posted].
  - unfold terminate_user_impl. destruct (authorize _ _ _ _ _ _) as [app|]; [|done].
    etrans; [|apply when_scaling_posted]. apply send_all_posts.
  - unfold terminate_user_impl. destruct (authorize _ _ _ _ _ _) as [app|]; [|done].
    etrans; [|apply when_scaling_posted]. apply send_all_posts.
Qed.
End Api.

Lemma reload_posted `{HI : HashIter} `{GL : GlobLib} `{FG : Figment} sys raws :
  posted (sys_node sys) (sys_node (reload_step sys raws)).
Proof.
  unfold reload_step. destruct (reload_apps_with _ _) as [[reload|] next]; [|done]. unfold posted. simpl.
  etrans; [|apply fold_posts; intros mbs x]; [apply fold_posts; intros; apply send_all_posts|].
  unfold recheck_app. destruct (app_by_id _ _); [|done]. apply fold_posts. intros mbs' [s k].
  unfold recheck_origin. case_ifs; done || apply try_send_posts.
Qed.
