(* ===== verification/Delivery.v ===== *)
(** * The way of an event to its subscribers

    Two invariants of every history of a node: each open connection has a live queue
    of its own, whose messages only its own task takes, first come first served; and
    the handle a channel stores for a subscriber is the handle of its connection.
    From them follows what [EventDispatcher::dispatch] and the message it sends to
    the peers do: every connection subscribed to the channel, on any node, finds the
    event at the end of its queue, and no other queue changes; and so for client
    events and for the requests that end a user's sessions. *)

From S2P Require Import Prelude.
From S2P Require Import Core.
From S2P Require Import Json.
From S2P Require Import Envelope.
From S2P Require Import Auth.
From S2P Require Import Connection.
From S2P Require Import Channel.
From S2P Require Import Manager.
From S2P Require Import Message.
From S2P Require Import PeerState.
From S2P Require Import Encryption.
From S2P Require Import Bus.
From S2P Require Import Dispatcher.
From S2P Require Import Webhooks.
From S2P Require Import Routes.
From S2P Require Import Handler.
From S2P Require Import Apps.
From S2P Require Import Router.
From S2P Require Import Tasks.
From S2P Require Import System.
From S2P Require Import Topic.
From S2P Require Import Speech.
From S2P Require Import Mail.
From stdpp Require Import options.

Section Queues.
Context `{HI : HashIter} `{WI : Wire} `{SJ : SerdeJson} `{CR : Crypto} `{IP : InboundParser}.
Context (cfg : Config) (base : Z) (overflow : WebhookOverflow).
Context `{GL : GlobLib} `{FG : Figment} `{SB : SecretBox} `{BP : BodyParser} (prefix : string).

Definition mailbox (sys : System) (k : Task) : option Mailbox := nd_mbs (sys_node sys) !! h_tx (k_handle k).

(** The queue of a connection that was just opened. *)
Definition fresh_mailbox : Mailbox :=
  {| mb_queue := []; mb_capacity := OUTBOUND_CAPACITY; mb_closed := false; mb_kicked := false |}.

(** Its own task took the first message of the queue [mb], leaving [mb']. *)
Definition took (mb mb' : Mailbox) : Prop :=
  exists msg, mb = {| mb_queue := msg :: mb_queue mb'; mb_capacity := mb_capacity mb'; mb_closed := mb_closed mb';
                      mb_kicked := mb_kicked mb' |}.

(** What a step may do to a queue. *)
Definition flows (o o' : option Mailbox) : Prop :=
  (exists msgs, o' = sends msgs <$> o) \/ (exists mb mb', o = Some mb /\ o' = Some mb' /\ took mb mb').

(** A connection open after a step was just opened, or was open before with the same
    handle. *)
Definition carried (sys sys' : System) (s : SocketId) (k' : Task) : Prop :=
  (sys_tasks sys !! s = None /\ mailbox sys' k' = Some fresh_mailbox) \/
  (exists k, sys_tasks sys !! s = Some k /\ k_handle k' = k_handle k /\ flows (mailbox sys k) (mailbox sys' k')).

Lemma posted_flows (nd nd' : Server) tx : posted nd nd' -> flows (nd_mbs nd !! tx) (nd_mbs nd' !! tx).
Proof. intros H. by left. Qed.

Lemma flows_refl o : flows o o.
Proof. left. exists []. by destruct o. Qed.

Lemma posted_carried sys nd s k' :
  posted (sys_node sys) nd -> sys_tasks (put sys nd (sys_tasks sys)) !! s = Some k' -> carried sys (put sys nd (sys_tasks sys)) s k'.
Proof. intros Hp Hk. right. exists k'. split; [done|]. split; [done|]. by apply posted_flows. Qed.

(** Closing a connection leaves the queues of the others alone. *)
Lemma close_carried sys s0 now s k' :
  tracked (sys_tasks sys) -> sys_tasks (close_connection cfg base overflow sys s0 now) !! s = Some k' ->
  sys_tasks sys !! s = Some k' /\ flows (mailbox sys k') (mailbox (close_connection cfg base overflow sys s0 now) k').
Proof.
  intros Ht. unfold close_connection. destruct (sys_tasks sys !! s0) as [k0|] eqn:E0; [|intros; split; [done|apply flows_refl]].
  simpl. intros [Hne Hk]%lookup_delete_Some. split; [done|]. unfold mailbox. simpl.
  rewrite lookup_alter_ne by (intros He; apply Hne; by eapply (tracked_tx _ Ht)).
  apply posted_flows, cleanup_posted.
Qed.

Lemma frame_posted sys apps k frame lo now secs :
  posted (sys_node sys) (on_frame cfg base overflow (sys_node sys) apps k frame lo now secs).1.2.
Proof.
  unfold on_frame. destruct frame as [text| |]; [| |done]; cbv zeta.
  - destruct (k_limiter _); [destruct (check lo _ now) as [[] rl]|]; simpl; [| done |];
      (destruct (_ <? _)%Z; [done|]);
      match goal with |- context [handle_inbound ?a ?b ?o ?n ?ap ?k ?c ?h ?t ?now] =>
        pose proof (inbound_posted a b o n ap k c h t now) as Hi; destruct (handle_inbound a b o n ap k c h t now) as [[rsp nd'] c'] end;
      exact Hi.
  - destruct (k_limiter _); [destruct (check lo _ now) as [[] rl]|]; done.
Qed.

Lemma frame_carried sys s0 frame lo now secs s k' :
  tracked (sys_tasks sys) -> sys_tasks (frame_step cfg base overflow sys s0 frame lo now secs).2 !! s = Some k' ->
  carried sys (frame_step cfg base overflow sys s0 frame lo now secs).2 s k'.
Proof.
  intros Ht. unfold frame_step. destruct (sys_tasks sys !! s0) as [k0|] eqn:E0; [|intros; by apply posted_carried].
  pose proof (on_frame_task cfg base overflow (sys_node sys) (sys_apps sys) k0 frame lo now secs) as (F1 & F2 & F3).
  pose proof (frame_posted sys (sys_apps sys) k0 frame lo now secs) as Hp.
  destruct (on_frame _ _ _ _ _ _ _ _ _ _) as [[[r stop] nd] k1]. simpl in *.
  set (sys1 := put sys nd (<[s0 := k1]> (sys_tasks sys))).
  assert (tracked (sys_tasks sys1)) as Ht1.
  { apply (tracked_update _ s0 k0 k1 Ht); try done. rewrite F2, F3. by eapply tracked_app. }
  assert (forall k, sys_tasks sys1 !! s = Some k -> exists k0, sys_tasks sys !! s = Some k0 /\ k_handle k = k_handle k0) as Hold.
  { simpl. intros k [[<- <-]|[_ H]]%lookup_insert_Some; eauto. }
  assert (stop = true -> sys_tasks (close_connection cfg base overflow sys1 s0 now) !! s = Some k' ->
    carried sys (close_connection cfg base overflow sys1 s0 now) s k') as Hclose.
  { intros _. unfold close_connection. simpl. rewrite lookup_insert_eq. simpl. rewrite delete_insert_eq.
    intros [Hne Hk]%lookup_delete_Some. right. exists k'. split; [done|]. split; [done|]. unfold mailbox. simpl.
    rewrite lookup_alter_ne by (intros He; rewrite F1 in He; apply Hne; by eapply (tracked_tx _ Ht)).
    apply posted_flows. etrans; [exact Hp|apply cleanup_posted]. }
  destruct stop; [by apply Hclose|]. intros Hk. destruct (Hold _ Hk) as (k & H0 & Hh). right. exists k. split; [done|].
  split; [done|]. unfold mailbox. rewrite Hh. by apply posted_flows.
Qed.

Lemma maintain_carried sys now secs s k' :
  sys_tasks (connection_maintenance sys now secs) !! s = Some k' -> carried sys (connection_maintenance sys now secs) s k'.
Proof.
  pose proof (maintenance_posted sys now secs) as Hp. unfold connection_maintenance in *.
  destruct (maintain_tasks secs (hiter (sys_tasks sys)) (sys_tasks sys) (nd_mbs (sys_node sys), sys_tasks sys)) as [T1 _].
  { intros s0 k. by rewrite elem_of_hiter. }
  { intros s0 k Hk. exists k, (k_conn k). by rewrite set_task_conn_id. }
  { done. }
  destruct (foldl _ _ _) as [mbs tasks]. simpl in *. intros Hk. destruct (T1 _ _ Hk) as (k0 & c & H0 & -> & _).
  right. exists k0. split; [done|]. split; [done|]. by apply posted_flows.
Qed.

Lemma outbound_carried sys s0 k0 s k' :
  tracked (sys_tasks sys) -> sys_tasks sys !! s0 = Some k0 -> sys_tasks sys !! s = Some k' ->
  carried sys (put sys (on_outbound (sys_node sys) k0).2 (sys_tasks sys)) s k'.
Proof.
  intros Ht H0 Hk. right. exists k'. split; [done|]. split; [done|]. unfold mailbox, on_outbound. simpl.
  destruct (nd_mbs (sys_node sys) !! h_tx (k_handle k0)) as [mb|] eqn:Em; [|apply flows_refl].
  destruct (mb_queue mb) as [|msg rest] eqn:Eq; [apply flows_refl|].
  destruct (decide (s = s0)) as [->|Hne].
  - simplify_eq. right. eexists mb, _. rewrite Em. split; [done|].
    split; [destruct msg; simpl; apply lookup_insert_eq|]. exists msg. destruct mb. simpl in *. by subst.
  - destruct msg; simpl; rewrite lookup_insert_ne; try apply flows_refl;
      (intros He; apply Hne; by eapply (tracked_tx _ Ht)).
Qed.

Lemma open_carried sys app s0 tx origin sent secs s k' :
  sys_tasks sys !! s0 = None -> (forall s' k, sys_tasks sys !! s' = Some k -> h_tx (k_handle k) <> tx) ->
  sys_tasks (open_connection sys app s0 tx origin sent secs).2 !! s = Some k' ->
  carried sys (open_connection sys app s0 tx origin sent secs).2 s k'.
Proof.
  intros H0 Hfresh. unfold open_connection. destruct (register_connection _ _ _) as [[[]|] m]; simpl.
  - destruct sent; simpl; [|by apply posted_carried, set_manager_posted].
    intros [[<- <-]|[Hne Hk]]%lookup_insert_Some.
    + left. split; [done|]. unfold mailbox. simpl. apply lookup_insert_eq.
    + right. exists k'. split; [done|]. split; [done|]. unfold mailbox. simpl.
      rewrite lookup_insert_ne by (intros He; by eapply Hfresh). apply flows_refl.
  - by apply posted_carried, set_manager_posted.
Qed.

Lemma step_carried sys sys' s k' :
  tracked (sys_tasks sys) -> sys_step cfg base overflow prefix sys sys' -> sys_tasks sys' !! s = Some k' ->
  carried sys sys' s k'.
Proof.
  intros Ht Hstep. destruct Hstep as [sys sys' Hown|sys env now|sys now|sys op _].
  - destruct Hown as [sys app s0 tx origin sent secs Hno _ Hfresh|sys s0 frame lo now secs
      |sys s0 k Hk|sys s0 now|sys now secs|sys now|sys raws|sys method uri segments read nonces batch_nonces request_id now secs
      |sys request_id expected|sys app merged remote rq now].
    + by apply open_carried.
    + by apply frame_carried.
    + exact (outbound_carried sys s0 k s k' Ht Hk).
    + intros Hk. destruct (close_carried sys s0 now s k' Ht Hk) as [H0 Hf]. right. by exists k'.
    + apply maintain_carried.
    + apply posted_carried, publisher_posted.
    + intros Hk. pose proof (reload_posted sys raws) as Hp. assert (sys_tasks (reload_step sys raws) = sys_tasks sys) as E
        by (unfold reload_step; by destruct (reload_apps_with _ _) as [[]]).
      rewrite E in Hk. right. exists k'. split; [done|]. split; [done|]. by apply posted_flows.
    + apply posted_carried, serve_posted.
    + by apply posted_carried, posted_same.
    + apply posted_carried, listing_posted.
  - apply posted_carried, incoming_posted.
  - apply posted_carried, sweep_posted.
  - by apply posted_carried, posted_same.
Qed.

(** The queue of an open connection. *)
Definition live (mb : Mailbox) : Prop :=
  mb_closed mb = false /\ mb_capacity mb = OUTBOUND_CAPACITY /\ length (mb_queue mb) <= OUTBOUND_CAPACITY.

Definition mailed (sys : System) : Prop :=
  forall s k, sys_tasks sys !! s = Some k -> exists mb, mailbox sys k = Some mb /\ live mb.

Lemma live_sends msgs mb : live mb -> live (sends msgs mb).
Proof.
  intros (Hc & Hp & Hl). rewrite sends_spec by (rewrite ?Hp; done). split_and!; [done|done|]. simpl.
  rewrite length_take, Hp. lia.
Qed.

Lemma live_flows mb o' : live mb -> flows (Some mb) o' -> exists mb', o' = Some mb' /\ live mb'.
Proof.
  intros Hl [[msgs ->]|(mb0 & mb' & [= <-] & -> & msg & Hm)].
  - eexists. split; [done|]. by apply live_sends.
  - exists mb'. split; [done|]. destruct Hl as (H1 & H2 & H3). rewrite Hm in *. simpl in *. split_and!; [done|done|lia].
Qed.

Lemma live_fresh : live fresh_mailbox.
Proof. split_and!; [done|done|]. simpl. lia. Qed.

Lemma reachable_mailed sys : sys_reachable cfg base overflow prefix sys -> mailed sys.
Proof.
  intros Hr. induction Hr as [raws idx _|sys sys' Hr IH Hs]; intros s k' Hk; [simpl in Hk; by rewrite lookup_empty in Hk|].
  destruct (step_carried sys sys' s k' (reachable_tracked _ _ _ _ _ Hr) Hs Hk) as [[_ ->]|(k & H0 & _ & Hf)].
  - eexists. split; [done|]. apply live_fresh.
  - destruct (IH s k H0) as (mb & Hm & Hl). rewrite Hm in Hf. by eapply live_flows.
Qed.

(** ** The handles stored in the channels *)

(** Who sits in the channels of [m'] sat there in [m], or sat down as [s] with handle [h]. *)
Definition sits (s : SocketId) (h : ConnectionHandle) (m m' : Manager) : Prop :=
  forall id n s' mem, seats m' id n !! s' = Some mem ->
    seats m id n !! s' = Some mem \/ (s' = s /\ m_handle mem = h).

#[export] Instance sits_preorder s h : PreOrder (sits s h).
Proof.
  split; [by left|]. intros m1 m2 m3 H1 H2 id n s' mem H. destruct (H2 _ _ _ _ H) as [H'|]; [by apply H1|by right].
Qed.

Lemma same_sits s h m m' : same_seats m m' -> sits s h m m'.
Proof. intros H id n s' mem. rewrite H. by left. Qed.

Lemma roster_sits s h m m' : same_roster m m' -> sits s h m m'.
Proof. intros [H _] id n s' mem. rewrite H. by left. Qed.

Lemma leave_sits s h nd app s0 name now :
  sits s h (nd_channels nd) (nd_channels (leave_channel cfg base overflow nd app s0 name now)).
Proof.
  unfold leave_channel.
  pose proof (unsubscribe_with_seats (nd_channels nd) (app_id app) name s0 (leave_effects cfg base overflow app name now)
    now nd) as Hs.
  destruct (unsubscribe_with _ _ _ _ _ _ _) as [[o m] nd1]. simpl in *. intros id n s' mem. rewrite Hs.
  case_decide as Hd; [|by left]. destruct Hd as [-> ->]. rewrite lookup_delete_Some. intros [_ H]. by left.
Qed.

Lemma subscribe_sits nd app (c : Conn) h data now :
  sits (c_socket_id c) h (nd_channels nd) (nd_channels (handle_subscribe cfg base overflow nd app c h data now).1.2).
Proof.
  unfold handle_subscribe. destruct (check_subscribe app c data) as [[name p]|]; [|done]. cbv zeta.
  set (occ := occupied_on_peers _ _ _ _ _). clearbody occ.
  pose proof (subscribe_with_seats (nd_channels nd) app name (c_socket_id c) h p
    (join_admit app name p now) (join_effects cfg base overflow app name p (c_socket_id c) occ now) now (nd, [], false)) as Hs.
  destruct (subscribe_with _ _ _ _ _ _ _ _ _ _) as [[out m] [[nd1 rm] rp]]. simpl in Hs.
  assert (sits (c_socket_id c) h (nd_channels nd) m) as Hm.
  { intros id n s' mem. rewrite Hs. destruct (decide _) as [(-> & -> & _)|_]; [|intros; by left].
    rewrite subscribe_members, seats_find.
    assert (ch_members (default (with_cache_ttl name (from_secs <$> cache_ttl_seconds app))
      (find_channel (nd_channels nd) (app_id app) name)) = match find_channel (nd_channels nd) (app_id app) name with Some ch => ch_members ch | None => ∅ end) as ->
      by (by destruct (find_channel _ _ _)).
    destruct (_ !! c_socket_id c); [by left|]. intros [[<- <-]|[_ H]]%lookup_insert_Some; [by right|by left]. }
  destruct out; [|done]. cbn [fst snd]. case_ifs; [|done].
  etrans; [exact Hm|]. apply roster_sits, (replay_cache_same _ _ (set_manager nd1 m)).
Qed.

Lemma signin_transition_sits s h0 nd app (c : Conn) h uid wl now :
  sits s h0 (nd_channels nd) (nd_channels (signin_transition cfg nd app c h uid wl now).1).
Proof.
  unfold signin_transition. cbv zeta.
  match goal with |- context [bind_user ?a ?b ?u ?s] => pose proof (bind_seats a b u s) as Hb; destruct (bind_user a b u s) as [first m] end.
  apply same_sits. etrans; [apply touch_seats|]. etrans; [exact Hb|]. cbn [snd].
  set (st := match wl with Some _ => _ | None => _ end).
  assert (same_seats m (nd_channels st.1)) as Hs by (unfold st; destruct wl; [apply watchers_seats|done]).
  destruct st as [nd1 c1]. cbn [fst] in *. unfold publish_user_online.
  case_ifs; rewrite ?when_scaling_channels; exact Hs.
Qed.

Lemma signin_sits s h0 nd app (c : Conn) h data now :
  sits s h0 (nd_channels nd) (nd_channels (handle_signin cfg nd app c h data now).1.2).
Proof.
  unfold handle_signin. cbv zeta. destruct (field_str _ "auth"); [|done]. destruct (field_str _ "user_data"); [|done].
  destruct (negb _); [done|]. destruct (id_text _) as [uid|]; [|done]. destruct (is_empty_str _); [done|].
  destruct (c_user_id c); [done|]. destruct (read_watchlist _) as [[w tr]|]; [|done].
  pose proof (signin_transition_sits s h0 nd app c h uid w now) as Ht.
  destruct (signin_transition _ _ _ _ _ _ _ _) as [nd1 c1]. cbn [fst snd] in *. by case_ifs.
Qed.

Lemma inbound_sits nd apps app (c : Conn) h text now :
  sits (c_socket_id c) h (nd_channels nd) (nd_channels (handle_inbound cfg base overflow nd apps app c h text now).1.2).
Proof.
  unfold handle_inbound. destruct (parse_inbound text) as [f|]; [|done]. cbv zeta.
  destruct (String.eqb _ "pusher:ping"); [done|].
  destruct (String.eqb _ "pusher:subscribe"); [apply subscribe_sits|].
  destruct (String.eqb _ "pusher:unsubscribe").
  { unfold handle_unsubscribe. destruct (field_str _ _); [apply leave_sits|done]. }
  destruct (String.eqb _ "pusher:signin"); [apply signin_sits|].
  destruct (starts_with _ _); [|done]. destruct (_ <? _)%Z; [done|].
  pose proof (client_event_channels cfg base overflow nd (default app (apps (app_id app))) c (f_event f) f now) as [H _].
  destruct (handle_client_event _ _ _ _ _ _ _ _ _). simpl in *. by rewrite H.
Qed.

Lemma cleanup_sits s h nd app (c : Conn) s0 now :
  sits s h (nd_channels nd) (nd_channels (cleanup_connection cfg base overflow nd app c s0 now)).
Proof.
  unfold cleanup_connection. cbv zeta.
  assert (sits s h (nd_channels nd) (nd_channels (foldl (fun nd name => leave_channel cfg base overflow nd app s0 name now) nd
    (subscriptions_snapshot c)))) as Hl.
  { generalize (subscriptions_snapshot c). intros l. revert nd. induction l as [|x l IH]; intros nd; [done|]. cbn [foldl].
    etrans; [apply leave_sits|apply IH]. }
  generalize dependent (foldl (fun nd name => leave_channel cfg base overflow nd app s0 name now) nd (subscriptions_snapshot c)).
  intros nd1 Hl. etrans; [exact Hl|]. apply same_sits. etrans; [|apply unregister_seats].
  destruct (c_user_id c) as [uid|]; [|done]. unfold cleanup_user. cbv zeta.
  match goal with |- context [unbind_user ?a ?b ?u ?s] => pose proof (unbind_seats a b u s) as Hu; destruct (unbind_user a b u s) as [last m] end.
  etrans; [apply touch_seats|]. etrans; [exact Hu|]. cbn [snd]. case_ifs; try done; unfold publish_user_offline;
    cbn [nd_channels set_manager set_local]; rewrite when_scaling_channels; apply unwatch_seats.
Qed.

Lemma frame_sits sys apps k frame lo now secs :
  sits (c_socket_id (k_conn k)) (k_handle k) (nd_channels (sys_node sys))
    (nd_channels (on_frame cfg base overflow (sys_node sys) apps k frame lo now secs).1.2).
Proof.
  unfold on_frame. destruct frame as [text| |]; [| |done]; cbv zeta.
  - destruct (k_limiter _); [destruct (check lo _ now) as [[] rl]|]; simpl; [| done |];
      (destruct (_ <? _)%Z; [done|]);
      match goal with |- context [handle_inbound ?a ?b ?o ?n ?ap ?k ?c ?h ?t ?now] =>
        pose proof (inbound_sits n ap k c h t now) as Hi; destruct (handle_inbound a b o n ap k c h t now) as [[rsp nd'] c'] end;
      exact Hi.
  - destruct (k_limiter _); [destruct (check lo _ now) as [[] rl]|]; done.
Qed.

(** A seat taken in a step is taken by an open connection, with its own handle. *)
Definition seated_by (sys sys' : System) : Prop :=
  forall id n s mem, seats (nd_channels (sys_node sys')) id n !! s = Some mem ->
    seats (nd_channels (sys_node sys)) id n !! s = Some mem \/
    (exists k, sys_tasks sys !! s = Some k /\ m_handle mem = k_handle k).

Lemma sits_seated sys sys' s k :
  sys_tasks sys !! s = Some k -> sits s (k_handle k) (nd_channels (sys_node sys)) (nd_channels (sys_node sys')) ->
  seated_by sys sys'.
Proof. intros Hk H id n s' mem Hs. destruct (H _ _ _ _ Hs) as [|[-> ->]]; [by left|right; eauto]. Qed.

Lemma same_seated sys sys' : same_seats (nd_channels (sys_node sys)) (nd_channels (sys_node sys')) -> seated_by sys sys'.
Proof. intros H id n s mem. rewrite H. by left. Qed.

Lemma roster_seated sys sys' : same_roster (nd_channels (sys_node sys)) (nd_channels (sys_node sys')) -> seated_by sys sys'.
Proof. intros [H _]. by apply same_seated. Qed.

Lemma tame_seated sys nd : sys_inv cfg sys -> tame cfg (sys_node sys) nd -> seated_by sys (put sys nd (sys_tasks sys)).
Proof. intros Hinv Ht. destruct (Ht (inv_node _ _ Hinv)) as [_ [Hk _]]. by apply roster_seated. Qed.

Lemma close_seated sys s now : seated_by sys (close_connection cfg base overflow sys s now).
Proof.
  unfold close_connection. destruct (sys_tasks sys !! s) as [k|] eqn:Hk; [|by apply same_seated].
  apply (sits_seated _ _ s k Hk). apply (cleanup_sits s (k_handle k)).
Qed.

Lemma step_seated sys sys' : sys_inv cfg sys -> sys_step cfg base overflow prefix sys sys' -> seated_by sys sys'.
Proof.
  intros Hinv Hstep. destruct Hstep as [sys sys' Hown|sys env now|sys now|sys op _].
  - destruct Hown as [sys app s0 tx origin sent secs Hno _ Hfresh|sys s0 frame lo now secs
      |sys s0 k Hk|sys s0 now|sys now secs|sys now|sys raws|sys method uri segments read nonces batch_nonces request_id now secs
      |sys request_id expected|sys app merged remote rq now].
    + apply same_seated. unfold open_connection.
      match goal with |- context [register_connection ?m ?a ?h] =>
        pose proof (register_seats m a h) as Hr; destruct (register_connection m a h) as [[[]|] m'] end; [|exact Hr].
      destruct sent; [exact Hr|]. etrans; [exact Hr|apply unregister_seats].
    + unfold frame_step. destruct (sys_tasks sys !! s0) as [k|] eqn:Hk; [|by apply same_seated].
      pose proof (frame_sits sys (sys_apps sys) k frame lo now secs) as Hf. rewrite (inv_socket _ _ Hinv _ _ Hk) in Hf.
      destruct (on_frame _ _ _ _ _ _ _ _ _ _) as [[[r stop] nd] k1]. cbn [fst snd] in *.
      apply (sits_seated _ _ s0 k Hk). destruct stop; [|exact Hf]. unfold close_connection. simpl.
      rewrite lookup_insert_eq. etrans; [exact Hf|apply cleanup_sits].
    + apply same_seated. unfold on_outbound. destruct (nd_mbs _ !! _) as [mb|]; [|done].
      by destruct (mb_queue mb) as [|[] rest].
    + apply close_seated.
    + apply roster_seated. unfold connection_maintenance. destruct (foldl _ _ _) as [mbs tasks]. apply gc_same.
    + apply same_seated. unfold presence_snapshot_publisher. simpl.
      pose proof (publisher_publishes cfg (sys_node sys) (sys_apps sys) now) as [Hc _].
      unfold presence_snapshot_publisher in Hc. by rewrite Hc.
    + apply same_seated. unfold reload_step. by destruct (reload_apps_with _ _) as [[]].
    + apply tame_seated; [done|]. apply serve_harmless.
    + by apply same_seated.
    + apply tame_seated; [done|]. apply listing_harmless.
  - apply tame_seated; [done|]. intros Hw. split; [by apply handle_incoming_wf|]. apply incoming_keeps, Hw.
  - apply tame_seated; [done|]. apply sweep_tame.
  - by apply same_seated.
Qed.

(** Every seat holds the handle of the connection that sits on it. *)
Definition owned (sys : System) : Prop :=
  forall id n s mem, seats (nd_channels (sys_node sys)) id n !! s = Some mem ->
    exists k, sys_tasks sys !! s = Some k /\ m_handle mem = k_handle k.

Lemma reachable_owned sys : sys_reachable cfg base overflow prefix sys -> owned sys.
Proof.
  intros Hr. induction Hr as [raws idx _|sys sys' Hr IH Hs]; intros id n s mem Hseat.
  { simpl in Hseat. unfold seats, app_slot, chans_seats in Hseat. rewrite lookup_empty in Hseat. simpl in Hseat.
    by rewrite lookup_empty in Hseat. }
  pose proof (reachable_inv _ _ _ _ _ Hr) as Hinv. pose proof (step_inv _ _ _ _ _ _ Hinv Hs) as Hinv'.
  assert (exists k, sys_tasks sys !! s = Some k /\ m_handle mem = k_handle k) as (k & Hk & Hm).
  { destruct (step_seated sys sys' Hinv Hs _ _ _ _ Hseat) as [H|H]; [by eapply IH|done]. }
  destruct (proj1 (inv_member _ _ Hinv' id n s)) as (k' & Hk' & _); [apply member_seats; eauto|].
  exists k'. split; [done|].
  destruct (step_carried sys sys' s k' (reachable_tracked _ _ _ _ _ Hr) Hs Hk') as [[Hn _]|(k0 & H0 & Hh & _)];
    congruence.
Qed.

(** ** Events *)

(** Who hears what is sent to a channel of application [id]: the subscribers except
    [ex], or, for the channel of a user, the connections signed in as that user. *)
Definition hears (id : AppId) (channel : string) (ex : option SocketId) (s : SocketId) (k : Task) : Prop :=
  app_id (k_app k) = id /\
  match strip_prefix "#server-to-user-" channel with
  | Some uid => c_user_id (k_conn k) = Some uid
  | None => channel ∈ c_subscriptions (k_conn k) /\ Some s <> ex
  end.

#[export] Instance hears_dec id channel ex s k : Decision (hears id channel ex s k).
Proof. unfold hears. destruct (strip_prefix _ _); apply _. Defined.

(** From [sys] to [sys'] the connections [P] holds of got [msg] at the end of their
    queues, once, and no other connection got anything. *)
Definition gets (sys sys' : System) (P : SocketId -> Task -> Prop) `{!forall s k, Decision (P s k)} (msg : Outbound) : Prop :=
  sys_tasks sys' = sys_tasks sys /\
  forall s k, sys_tasks sys !! s = Some k -> exists mb, mailbox sys k = Some mb /\ live mb /\
    mailbox sys' k = Some (if decide (P s k) then (mailbox_send msg mb).2 else mb).

Definition receives (sys sys' : System) (id : AppId) (channel : string) (ex : option SocketId) (frame : string) : Prop :=
  gets sys sys' (hears id channel ex) (Text frame).

(** What holds of a node in every history. *)
Record wired (sys : System) : Prop := {
  wired_inv : sys_inv cfg sys;
  wired_tracked : tracked (sys_tasks sys);
  wired_mailed : mailed sys;
  wired_owned : owned sys
}.

Lemma reachable_wired sys : sys_reachable cfg base overflow prefix sys -> wired sys.
Proof.
  intros Hr. split; [by eapply reachable_inv|by eapply reachable_tracked|by apply reachable_mailed|by apply reachable_owned].
Qed.

(** Sending to the handles of some open connections. *)
Lemma send_all_gets sys nd hs (P : SocketId -> Task -> Prop) `{!forall s k, Decision (P s k)} msg :
  wired sys -> distinct_tx hs ->
  (forall h, h ∈ hs <-> exists s k, sys_tasks sys !! s = Some k /\ P s k /\ k_handle k = h) ->
  nd_mbs nd = send_all hs msg (nd_mbs (sys_node sys)) ->
  gets sys (put sys nd (sys_tasks sys)) P msg.
Proof.
  intros Hw Hd Hhs Hn. split; [done|]. intros s k Hk. destruct (wired_mailed _ Hw s k Hk) as (mb & Hm & Hl).
  exists mb. split; [done|]. split; [done|]. unfold mailbox in *. simpl. rewrite Hn.
  destruct (decide (P s k)) as [Hh|Hh].
  - rewrite send_all_in, Hm; [done|done|]. apply Hhs. eauto.
  - rewrite send_all_other; [done|]. intros h (s' & k' & Hk' & Hh' & <-)%Hhs He.
    assert (s' = s) as -> by (by eapply (tracked_tx _ (wired_tracked _ Hw))). by simplify_eq.
Qed.

Lemma members_receive sys nd id channel ex frame c :
  wired sys -> strip_prefix "#server-to-user-" channel = None ->
  ch_members c = seats (nd_channels (sys_node sys)) id channel ->
  nd_mbs nd = send_to_members c frame ex (nd_mbs (sys_node sys)) ->
  receives sys (put sys nd (sys_tasks sys)) id channel ex frame.
Proof.
  intros Hw Hp Hc Hn. pose proof (wired_inv _ Hw) as Hinv.
  assert (forall s m, ch_members c !! s = Some m -> exists k, sys_tasks sys !! s = Some k /\ m_handle m = k_handle k) as Hown.
  { intros s m. rewrite Hc. apply (wired_owned _ Hw). }
  apply (send_all_gets sys nd (recipients c ex)); [done| | |done].
  - apply recipients_distinct. intros s s' m m' Hs Hs' He.
    destruct (Hown _ _ Hs) as (k & Hk & E), (Hown _ _ Hs') as (k' & Hk' & E'). rewrite E, E' in He.
    by eapply (tracked_tx _ (wired_tracked _ Hw)).
  - intros h. rewrite elem_of_recipients. unfold hears. rewrite Hp. split.
    + intros (s & m & Hs & Hne & <-). destruct (Hown _ _ Hs) as (k & Hk & E).
      rewrite Hc in Hs. destruct (proj1 (inv_member _ _ Hinv id channel s)) as (k' & Hk' & Hid & Hsub); [apply member_seats; eauto|].
      simplify_eq. exists s, k. by rewrite E.
    + intros (s & k & Hk & (Hid & Hsub & Hne) & <-).
      assert (is_Some (seats (nd_channels (sys_node sys)) id channel !! s)) as [m Hs].
      { apply member_seats, (inv_member _ _ Hinv). by exists k. }
      rewrite <- Hc in Hs. destruct (Hown _ _ Hs) as (k' & Hk' & E). simplify_eq. by exists s, m.
Qed.

(** The handles of a user. *)
Lemma elem_of_user_handles m id uid h :
  h ∈ connections_for_user m id uid <-> exists s, s ∈ user_sockets m id uid /\ conn_of m id s = Some h.
Proof.
  unfold connections_for_user, user_sockets, conn_of, app_slot.
  destruct (m !! id) as [slot|]; simpl; [|rewrite lookup_empty; simpl; set_solver].
  destruct (user_index slot !! uid) as [l|]; simpl; [apply list_elem_of_omap|set_solver].
Qed.

Lemma user_handles_distinct sys id uid :
  wired sys -> distinct_tx (connections_for_user (nd_channels (sys_node sys)) id uid).
Proof.
  intros Hw. pose proof (wired_inv _ Hw) as Hinv.
  assert (forall s h, conn_of (nd_channels (sys_node sys)) id s = Some h ->
    exists k, sys_tasks sys !! s = Some k /\ k_handle k = h) as Hconn.
  { intros s h (k & Hk & _ & Hh)%(inv_conn _ _ Hinv). eauto. }
  unfold connections_for_user, conn_of, app_slot in *. unfold distinct_tx.
  destruct (nd_channels (sys_node sys) !! id) as [slot|] eqn:Em; [|constructor].
  destruct (user_index slot !! uid) as [l|] eqn:El; [|constructor].
  destruct (slot_users _ (node_manager _ _ (inv_node _ _ Hinv) _ _ Em) _ _ El) as [_ Hnd]. clear El.
  induction Hnd as [|s l Hs Hnd IH]; simpl; [constructor|].
  destruct (connections slot !! s) as [h|] eqn:Eh; [|done]. rewrite fmap_cons, NoDup_cons. split; [|done].
  intros (h' & He & (s' & Hin & Hh')%list_elem_of_omap)%list_elem_of_fmap.
  destruct (Hconn _ _ Eh) as (k & Hk & <-), (Hconn _ _ Hh') as (k' & Hk' & <-).
  assert (s = s') as -> by (by eapply (tracked_tx _ (wired_tracked _ Hw))). done.
Qed.

(** The connections signed in as a user. *)
Definition signed_in (id : AppId) (uid : string) (s : SocketId) (k : Task) : Prop :=
  app_id (k_app k) = id /\ c_user_id (k_conn k) = Some uid.

#[export] Instance signed_in_dec id uid s k : Decision (signed_in id uid s k).
Proof. unfold signed_in. apply _. Defined.

Lemma user_handles sys id uid h :
  wired sys -> h ∈ connections_for_user (nd_channels (sys_node sys)) id uid <->
  exists s k, sys_tasks sys !! s = Some k /\ signed_in id uid s k /\ k_handle k = h.
Proof.
  intros Hw. pose proof (wired_inv _ Hw) as Hinv. rewrite elem_of_user_handles. split.
  - intros (s & (k & Hk & Hid & Hu)%(inv_user _ _ Hinv) & (k' & Hk' & _ & Hh)%(inv_conn _ _ Hinv)). simplify_eq. by exists s, k.
  - intros (s & k & Hk & [Hid Hu] & <-). exists s.
    split; [apply (inv_user _ _ Hinv)|apply (inv_conn _ _ Hinv)]; by exists k.
Qed.

Lemma user_receives sys id uid event data ex :
  wired sys ->
  receives sys (put sys (deliver_user_event_locally (sys_node sys) id uid event data) (sys_tasks sys)) id
    ("#server-to-user-" +:+ uid) ex (encode_envelope_raw_data event (Some data) (Some ("#server-to-user-" +:+ uid))).
Proof.
  intros Hw. apply (send_all_gets sys _ (connections_for_user (nd_channels (sys_node sys)) id uid));
    [done|by apply user_handles_distinct| |done].
  intros h. rewrite (user_handles sys) by done. unfold hears, signed_in.
  by rewrite (proj2 (strip_prefix_Some "#server-to-user-" ("#server-to-user-" +:+ uid) uid)) by done.
Qed.

Lemma broadcast_receives sys app channel event data ex now :
  wired sys ->
  receives sys (put sys (broadcast_locally_with_app (sys_node sys) (app_id app) (Some app) channel event data ex now) (sys_tasks sys))
    (app_id app) channel ex (encode_envelope_raw_data event (Some data) (Some channel)).
Proof.
  intros Hw. unfold broadcast_locally_with_app. destruct (strip_prefix "#server-to-user-" channel) as [uid|] eqn:Ep.
  { apply strip_prefix_Some in Ep as ->. by apply user_receives. }
  pose proof (get_or_create_same (nd_channels (sys_node sys)) app channel) as [Hs _].
  assert (forall m, (forall id n, seats m id n = seats (nd_channels (sys_node sys)) id n) -> forall c,
    find_channel m (app_id app) channel = Some c -> ch_members c = seats (nd_channels (sys_node sys)) (app_id app) channel) as Hmem.
  { intros m Hm c Hf. by rewrite <- Hm, seats_find, Hf. }
  destruct (get_or_create_cache_channel (nd_channels (sys_node sys)) app channel) as [o m] eqn:Eg. simpl in Hs.
  assert (o = find_channel m (app_id app) channel) as Ho.
  { unfold get_or_create_cache_channel in Eg. destruct (is_cache _); simpl in Eg; injection Eg as <- <-; [|done].
    rewrite find_channel_insert. simpl. by rewrite lookup_insert_eq. }
  rewrite <- Ho. destruct o as [c|].
  - by apply (members_receive _ _ _ _ _ _ c); [| |by eapply Hmem|].
  - apply (members_receive _ _ _ _ _ _ (Channel_new channel)); [done|done| |].
    + unfold Channel_new. rewrite new_members, <- Hs, seats_find, <- Ho. done.
    + assert (recipients (Channel_new channel) ex = []) as Hr; [|by unfold send_to_members; rewrite Hr].
      apply elem_of_nil_inv. intros h (s & m' & Hx & _)%elem_of_recipients. simpl in Hx. by rewrite lookup_empty in Hx.
Qed.

(** Steps that leave the queues alone before or after a delivery. *)
Lemma receives_same sys nd nd' id channel ex frame :
  nd_mbs nd' = nd_mbs nd -> receives sys (put sys nd (sys_tasks sys)) id channel ex frame ->
  receives sys (put sys nd' (sys_tasks sys)) id channel ex frame.
Proof. intros He [Ht Hd]. split; [done|]. intros s k Hk. unfold mailbox. simpl. rewrite He. by apply Hd. Qed.

Lemma dispatch_receives sys app channel event data ex nonce now data' :
  wired sys -> maybe_encrypt app (from_name channel) channel data nonce = Ok data' ->
  let r := dispatch_message cfg (sys_node sys) app channel event data ex nonce now in
  r.1 = Ok tt /\
  receives sys (put sys r.2 (sys_tasks sys)) (app_id app) channel ex (encode_envelope_raw_data event (Some data') (Some channel)) /\
  nd_bus r.2 = if scaling_enabled cfg
    then spawn_publish (publish_overflow cfg) (nd_bus (sys_node sys))
           (mk_env app 0 (PMessage (node_id cfg) channel event data' ex)) now
    else nd_bus (sys_node sys).
Proof.
  intros Hw He. unfold dispatch_message. rewrite He. simpl. split; [done|].
  pose proof (broadcast_receives sys app channel event data' ex now Hw) as Hd.
  set (nd := broadcast_locally_with_app _ _ _ _ _ _ _ _) in *.
  assert (nd_bus nd = nd_bus (sys_node sys)) as Hb.
  { unfold nd, broadcast_locally_with_app. destruct (strip_prefix _ channel); [done|].
    destruct (get_or_create_cache_channel (nd_channels (sys_node sys)) app channel) as [[c|] m]; [done|].
    by destruct (find_channel m (app_id app) channel). }
  clearbody nd. unfold when_scaling. destruct (scaling_enabled cfg); simpl; [|done].
  split; [by apply (receives_same _ nd)|]. by rewrite Hb.
Qed.

(** [env] carries the event to the peers. *)
Definition carries (env : ScalingEnvelope) (origin : string) (id : AppId) (channel event data : string) (ex : option SocketId) : Prop :=
  (version env <= SCALING_VERSION)%Z /\ ref_id (env_app env) = id /\ payload env = PMessage origin channel event data ex.

Lemma relay_receives sink sys env origin id app channel event data ex now :
  wired sys -> carries env origin id channel event data ex -> origin <> node_id cfg ->
  app_by_id (sys_apps sys) id = Some app ->
  receives sys (put sys (handle_incoming cfg sink (sys_node sys) env (app_by_id (sys_apps sys)) now) (sys_tasks sys))
    id channel ex (encode_envelope_raw_data event (Some data) (Some channel)).
Proof.
  intros Hw (Hv & Hr & Hp) Hne Ha. unfold handle_incoming. rewrite Hr, Hp, Ha.
  assert ((SCALING_VERSION <? version env)%Z = false) as -> by (by apply Z.ltb_ge).
  cbn [handle_payload]. assert (String.eqb origin (node_id cfg) = false) as -> by (by apply String.eqb_neq).
  assert (app_id app = id) as Hid by (by eapply index_ids; [apply (inv_apps _ _ (wired_inv _ Hw))|]).
  rewrite <- Hid in *. set (nd0 := saw_peer cfg (sys_node sys) _ now).
  assert (nd_mbs nd0 = nd_mbs (sys_node sys) /\ nd_channels nd0 = nd_channels (sys_node sys)) as [E1 E2]
    by (unfold nd0, saw_peer; simpl; by case_ifs).
  clearbody nd0. pose proof (broadcast_receives sys app channel event data ex now Hw) as Hd.
  eapply receives_same; [|exact Hd]. unfold broadcast_locally_with_app, deliver_user_event_locally.
  rewrite E1, E2. destruct (strip_prefix _ channel); simpl; [by rewrite ?E1, ?E2|].
  destruct (get_or_create_cache_channel _ _ _) as [[c|] m]; [|destruct (find_channel _ _ _)]; simpl; by rewrite ?E1.
Qed.

(** ** Publishing over the API *)

Lemma receives_wired sys nd id channel ex frame :
  wired sys -> harmless cfg (sys_node sys) nd -> receives sys (put sys nd (sys_tasks sys)) id channel ex frame ->
  wired (put sys nd (sys_tasks sys)).
Proof.
  intros Hw [Ht _] [_ Hr]. split; [apply tame_inv; [apply Hw|done]|apply Hw| |].
  - intros s k Hk. destruct (Hr s k Hk) as (mb & _ & Hl & ->). eexists. split; [done|].
    destruct (decide _); [apply (live_sends [Text frame]), Hl|done].
  - destruct (Ht (inv_node _ _ (wired_inv _ Hw))) as [_ [[Hs _] _]]. intros id' n s mem. simpl. rewrite Hs. apply Hw.
Qed.

(** The data of an event for each of its channels: encrypted where the channel asks for it. *)
Fixpoint sealed (app : App) (data : string) (channels nonces : list string) : option (list (string * string)) :=
  match channels with
  | [] => Some []
  | ch :: rest =>
      match maybe_encrypt app (from_name ch) ch data (default EmptyString (head nonces)) with
      | Ok d => cons (ch, d) <$> sealed app data rest (tail nonces)
      | Err _ => None
      end
  end.

(** What a connection gets of them, in their order. *)
Definition heard_frames (id : AppId) (name : string) (ex : option SocketId) (s : SocketId) (k : Task)
    (l : list (string * string)) : list Outbound :=
  omap (fun cd : string * string => if decide (hears id cd.1 ex s k)
          then Some (Text (encode_envelope_raw_data name (Some cd.2) (Some cd.1))) else None) l.

(** What the peers are sent. *)
Definition relayed (app : App) (name : string) (ex : option SocketId) (now : Instant) (b : Bus) (l : list (string * string)) : Bus :=
  if scaling_enabled cfg
  then foldl (fun b cd => spawn_publish (publish_overflow cfg) b
                            (mk_env app 0 (PMessage (node_id cfg) cd.1 name cd.2 ex)) now) b l
  else b.

Lemma channels_receive sys app name data ex channels nonces now nd :
  wired sys -> dispatch_channels cfg (sys_node sys) app name data ex channels nonces now = (Ok tt, nd) ->
  exists events, sealed app data channels nonces = Some events /\
    (forall s k, sys_tasks sys !! s = Some k -> exists mb, mailbox sys k = Some mb /\ live mb /\
       nd_mbs nd !! h_tx (k_handle k) = Some (sends (heard_frames (app_id app) name ex s k events) mb)) /\
    nd_bus nd = relayed app name ex now (nd_bus (sys_node sys)) events.
Proof.
  revert sys nonces. induction channels as [|ch rest IH]; intros sys nonces Hw.
  - intros [= <-]. exists []. split; [done|]. split; [|unfold relayed; by case_ifs]. intros s k Hk. destruct (wired_mailed _ Hw s k Hk) as (mb & Hm & Hl). by exists mb.
  - cbn [dispatch_channels sealed].
    destruct (maybe_encrypt app (from_name ch) ch data (default "" (head nonces))) as [d|e] eqn:Ee.
    2:{ unfold dispatch_message. by rewrite Ee. }
    destruct (dispatch_receives sys app ch name data ex (default "" (head nonces)) now d Hw Ee) as (H1 & H2 & H3).
    pose proof (dispatch_message_harmless cfg (sys_node sys) app ch name data ex (default "" (head nonces)) now) as Hh.
    destruct (dispatch_message _ _ _ _ _ _ _ _ _) as [r nd1]. simpl in H1, H2, H3, Hh. subst r. intros Hd.
    destruct (IH (put sys nd1 (sys_tasks sys)) (tail nonces)) as (events & Ev & I1 & I2); [by eapply receives_wired|exact Hd|].
    exists ((ch, d) :: events). rewrite Ev. split; [done|]. split.
    + intros s k Hk. destruct H2 as [_ H2]. destruct (H2 s k Hk) as (mb & Hm & Hl & Hm1).
      destruct (I1 s k Hk) as (mb1 & Hm1' & _ & Hm2). exists mb. split; [done|]. split; [done|].
      rewrite Hm2. rewrite Hm1 in Hm1'. injection Hm1' as <-. unfold heard_frames. simpl. by destruct (decide _).
    + rewrite I2. simpl. rewrite H3. unfold relayed. by destruct (scaling_enabled cfg).
Qed.

(** Looking up the statistics of the channels touches no queue. *)
Lemma channel_infos_queues app info now chs (acc : list (string * Value) * Server) :
  nd_mbs (foldl (add_channel_info app info now) acc chs).2 = nd_mbs acc.2 /\
  nd_bus (foldl (add_channel_info app info now) acc chs).2 = nd_bus acc.2.
Proof.
  revert acc. induction chs as [|ch chs IH]; intros [obj nd]; [done|]. cbn [foldl]. destruct (IH (add_channel_info app info now (obj, nd) ch)) as [-> ->].
  unfold add_channel_info, fleet_channel_stats. destruct (channel_stats _ _ _ _) as [st m]. by case_ifs.
Qed.

(** An accepted request dispatched its event to all its channels. *)
Lemma publish_event_accepted sys id rq nonces now secs v nd :
  publish_event cfg prefix (sys_node sys) (sys_apps sys) id rq nonces now secs = (Ok v, nd) ->
  exists app ev nd1, authorize prefix (sys_apps sys) id rq (rq_body rq) secs = Ok app /\ parse_event (rq_body rq) = Ok ev /\
    dispatch_channels cfg (sys_node sys) app (ep_name ev) (data_to_string (ep_data ev)) (ep_socket_id ev) (event_channels ev)
      nonces now = (Ok tt, nd1) /\
    nd_mbs nd = nd_mbs nd1 /\ nd_bus nd = nd_bus nd1.
Proof.
  unfold publish_event. destruct (authorize _ _ _ _ _ _) as [app|]; [|done]. destruct (parse_event _) as [ev|]; [|done].
  destruct (validate_event_payload _ _); [|done]. unfold dispatch_event.
  destruct (dispatch_channels _ _ _ _ _ _ _ _ _) as [[[]|e] nd1] eqn:E; [|done].
  intros Hres. exists app, ev, nd1. split; [done|]. split; [done|]. split; [done|].
  destruct (ep_info ev) as [info|]; [|by injection Hres as _ <-].
  pose proof (channel_infos_queues app info now (event_channels ev) ([], nd1)) as Hs.
  destruct (foldl _ _ _) as [obj nd2]. by injection Hres as _ <-.
Qed.

(** C14: Queues.  In every history of the server an open connection has a queue of its
    own that is alive and holds at most 4096 messages, and a step does one of two things to
    it: the connection's own task takes the first message, or messages are appended.
    Nothing else is ever removed or reordered; what no longer fits is dropped, and
    the kick that closes the connection is then raised and never withdrawn. *)
Theorem queue_discipline sys sys' s k k' :
  sys_reachable cfg base overflow prefix sys -> sys_step cfg base overflow prefix sys sys' ->
  sys_tasks sys !! s = Some k -> sys_tasks sys' !! s = Some k' ->
  k_handle k' = k_handle k /\
  exists mb mb', mailbox sys k = Some mb /\ mailbox sys' k' = Some mb' /\ live mb /\ live mb' /\
    ((exists msg, mb_queue mb = msg :: mb_queue mb' /\ mb_kicked mb' = mb_kicked mb) \/
     (exists msgs, mb_queue mb' = take OUTBOUND_CAPACITY (mb_queue mb ++ msgs) /\
        mb_kicked mb' = mb_kicked mb || (OUTBOUND_CAPACITY <? length (mb_queue mb ++ msgs)))).
Proof.
  intros Hr Hs Hk Hk'. destruct (reachable_mailed sys Hr s k Hk) as (mb & Hm & Hl).
  destruct (step_carried sys sys' s k' (reachable_tracked _ _ _ _ _ Hr) Hs Hk') as [[Hn _]|(k0 & H0 & Hh & Hf)]; simplify_eq.
  split; [done|]. rewrite Hm in Hf. destruct (live_flows _ _ Hl Hf) as (mb' & Hm' & Hl').
  exists mb, mb'. do 4 (split; [done|]).
  destruct Hf as [[msgs E]|(mb0 & mb1 & [= <-] & E & msg & ->)]; rewrite Hm' in E; injection E as ->.
  - right. exists msgs. destruct Hl as (L1 & L2 & L3). by rewrite sends_spec, L2 by (rewrite ?L2; done).
  - left. by exists msg.
Qed.

(** C6: From the API to the clients.  When a request to publish an event is accepted, every
    connection of the node finds at the end of its queue exactly the frames of the
    channels it hears, in the order of the request, each once: those of the
    application it is connected to that it is subscribed to, unless it is the socket
    to leave out, and those of the user it is signed in as (what a full queue cannot
    hold is dropped and the kick raised).  Every other connection is left alone,
    and the peers are sent one message per channel. *)
Theorem event_published sys id rq nonces now secs v nd :
  sys_reachable cfg base overflow prefix sys ->
  publish_event cfg prefix (sys_node sys) (sys_apps sys) id rq nonces now secs = (Ok v, nd) ->
  exists app ev events, authorize prefix (sys_apps sys) id rq (rq_body rq) secs = Ok app /\ parse_event (rq_body rq) = Ok ev /\
    sealed app (data_to_string (ep_data ev)) (event_channels ev) nonces = Some events /\
    (forall s k, sys_tasks sys !! s = Some k -> exists mb, mailbox sys k = Some mb /\ live mb /\
       nd_mbs nd !! h_tx (k_handle k)
       = Some (sends (heard_frames (app_id app) (ep_name ev) (ep_socket_id ev) s k events) mb)) /\
    nd_bus nd = relayed app (ep_name ev) (ep_socket_id ev) now (nd_bus (sys_node sys)) events.
Proof.
  intros Hr Hp. destruct (publish_event_accepted sys id rq nonces now secs v nd Hp) as (app & ev & nd1 & Ha & Hev & Hd & -> & ->).
  destruct (channels_receive sys _ _ _ _ _ _ _ nd1 (reachable_wired sys Hr) Hd) as (events & He & Hm & Hb).
  by exists app, ev, events.
Qed.

(** ** Client events *)

Lemma private_no_user channel : is_private (from_name channel) = true -> strip_prefix "#server-to-user-" channel = None.
Proof.
  destruct (strip_prefix "#server-to-user-" channel) as [u|] eqn:E; [|done]. apply strip_prefix_Some in E as ->. discriminate.
Qed.

(** The frame of a client event: the sender's user id is told on presence channels only. *)
Definition client_frame (channel event data : string) (uid : option string) : string :=
  encode_client_event event data channel (if is_presence (from_name channel) then uid else None).

(** The data of a client event as text. *)
Definition event_text (frame : InboundFrame) : string := match f_data frame with VString s => s | v => to_string v end.

Lemma channel_kind sys channel id ch :
  wired sys -> find_channel (nd_channels (sys_node sys)) id channel = Some ch -> ch_kind ch = from_name channel.
Proof.
  intros Hw Hf. destruct (find_channel_wf _ _ _ _ (node_manager _ _ (inv_node _ _ (wired_inv _ Hw))) Hf) as [[<- Hwf] _].
  apply Hwf.
Qed.

Lemma client_relay_receives sink sys env origin id app channel event data s uid now :
  wired sys -> (version env <= SCALING_VERSION)%Z -> ref_id (env_app env) = id ->
  payload env = PClientEvent origin channel event data s uid -> is_private (from_name channel) = true ->
  origin <> node_id cfg -> app_by_id (sys_apps sys) id = Some app ->
  receives sys (put sys (handle_incoming cfg sink (sys_node sys) env (app_by_id (sys_apps sys)) now) (sys_tasks sys))
    id channel (Some s) (client_frame channel event data uid).
Proof.
  intros Hw Hv Hr Hp Hpriv Hne Ha. unfold handle_incoming. rewrite Hr, Hp, Ha.
  assert ((SCALING_VERSION <? version env)%Z = false) as -> by (by apply Z.ltb_ge).
  cbn [handle_payload]. assert (String.eqb origin (node_id cfg) = false) as -> by (by apply String.eqb_neq).
  assert (app_id app = id) as Hid by (by eapply index_ids; [apply (inv_apps _ _ (wired_inv _ Hw))|]).
  rewrite Hid. set (nd0 := saw_peer cfg (sys_node sys) _ now).
  assert (nd_mbs nd0 = nd_mbs (sys_node sys) /\ nd_channels nd0 = nd_channels (sys_node sys)) as [E1 E2]
    by (unfold nd0, saw_peer; simpl; by case_ifs).
  clearbody nd0. rewrite E2. destruct (find_channel (nd_channels (sys_node sys)) id channel) as [ch|] eqn:Ef.
  - apply (members_receive _ _ _ _ _ _ ch); [done|by apply private_no_user|by rewrite seats_find, Ef|].
    simpl. rewrite E1. unfold client_frame. by rewrite (channel_kind sys channel id ch Hw Ef).
  - apply (members_receive _ _ _ _ _ _ (Channel_new channel)); [done|by apply private_no_user| |].
    + rewrite seats_find, Ef. apply new_members.
    + assert (recipients (Channel_new channel) (Some s) = []) as Hrc; [|by unfold send_to_members; rewrite Hrc].
      apply elem_of_nil_inv. intros h (s' & m' & Hx & _)%elem_of_recipients. simpl in Hx. by rewrite lookup_empty in Hx.
Qed.

(** What a connection does when it triggers a client event: nothing when it is refused, and
    otherwise the other subscribers, here and on the peers, get it. *)
Lemma client_event_receives sys s k app event frame now :
  wired sys -> sys_tasks sys !! s = Some k -> app_id app = app_id (k_app k) ->
  let r := handle_client_event cfg base overflow (sys_node sys) app (k_conn k) event frame now in
  match r.1 with
  | Some _ => r.2 = sys_node sys
  | None =>
      accept_client_events_from app <> AcceptNone /\
      exists channel ch, f_channel frame = Some channel /\ is_private (from_name channel) = true /\
        channel ∈ c_subscriptions (k_conn k) /\ nd_channels r.2 = nd_channels (sys_node sys) /\
        find_channel (nd_channels (sys_node sys)) (app_id app) channel = Some ch /\
        let data := event_text frame in
        let uid := if is_presence (from_name channel) then presence_user_id ch s else None in
        receives sys (put sys r.2 (sys_tasks sys)) (app_id app) channel (Some s) (client_frame channel event data uid) /\
        nd_bus r.2 = if scaling_enabled cfg
          then spawn_publish (publish_overflow cfg) (nd_bus (sys_node sys))
                 (mk_env app 0 (PClientEvent (node_id cfg) channel event data s uid)) now
          else nd_bus (sys_node sys)
  end.
Proof.
  intros Hw Hk Happ. pose proof (inv_socket _ _ (wired_inv _ Hw) _ _ Hk) as Hs. unfold handle_client_event.
  case_decide as Ha; [done|]. destruct (f_channel frame) as [channel|]; [|done].
  destruct (is_private (from_name channel)) eqn:Ep; [|done].
  destruct (find_channel (nd_channels (sys_node sys)) (app_id app) channel) as [ch|] eqn:Ef; [|done].
  destruct (contains ch (c_socket_id (k_conn k))) eqn:Ec; [|done]. cbv zeta. rewrite Hs in *. cbn [fst snd].
  split; [done|]. exists channel, ch. split; [done|]. split; [done|]. split; [|split; [|split; [done|split]]].
  - assert (member (nd_channels (sys_node sys)) (app_id app) channel s) as Hm.
    { apply member_seats. rewrite seats_find, Ef. unfold contains in Ec. destruct (ch_members ch !! s); [by eexists|done]. }
    apply (inv_member _ _ (wired_inv _ Hw)) in Hm as (k' & Hk' & _ & Hsub). by simplify_eq.
  - unfold publish_client_event. simpl. by rewrite when_scaling_channels.
  - apply (members_receive _ _ _ _ _ _ ch); [done|by apply private_no_user|by rewrite seats_find, Ef|].
    unfold publish_client_event, client_frame, when_scaling. destruct (is_presence (from_name channel)), (scaling_enabled cfg); reflexivity.
  - unfold publish_client_event, when_scaling. by destruct (scaling_enabled cfg).
Qed.

(** ** Closing the connections of a user *)

Lemma terminate_gets sys nd id uid :
  wired sys -> nd_mbs nd = send_all (connections_for_user (nd_channels (sys_node sys)) id uid) close_terminated (nd_mbs (sys_node sys)) ->
  gets sys (put sys nd (sys_tasks sys)) (signed_in id uid) close_terminated.
Proof.
  intros Hw Hn. apply (send_all_gets sys _ (connections_for_user (nd_channels (sys_node sys)) id uid));
    [done|by apply user_handles_distinct| |done]. intros h. by apply user_handles.
Qed.

(** A message of a peer that tells to close them. *)
Definition carries_terminate (env : ScalingEnvelope) (origin : string) (id : AppId) (uid : string) : Prop :=
  (version env <= SCALING_VERSION)%Z /\ ref_id (env_app env) = id /\ payload env = PTerminateUser origin uid.

Lemma terminate_relay_gets sink sys env origin id app uid now :
  wired sys -> carries_terminate env origin id uid -> origin <> node_id cfg -> app_by_id (sys_apps sys) id = Some app ->
  gets sys (put sys (handle_incoming cfg sink (sys_node sys) env (app_by_id (sys_apps sys)) now) (sys_tasks sys))
    (signed_in id uid) close_terminated.
Proof.
  intros Hw (Hv & Hr & Hp) Hne Ha. unfold handle_incoming. rewrite Hr, Hp, Ha.
  assert ((SCALING_VERSION <? version env)%Z = false) as -> by (by apply Z.ltb_ge).
  cbn [handle_payload]. assert (String.eqb origin (node_id cfg) = false) as -> by (by apply String.eqb_neq).
  assert (app_id app = id) as Hid by (by eapply index_ids; [apply (inv_apps _ _ (wired_inv _ Hw))|]).
  rewrite Hid. apply terminate_gets; [done|]. unfold saw_peer. simpl. by case_ifs.
Qed.

(** A message of a peer that carries a client event. *)
Definition carries_client (env : ScalingEnvelope) (origin : string) (id : AppId) (channel event data : string) (s : SocketId)
    (uid : option string) : Prop :=
  (version env <= SCALING_VERSION)%Z /\ ref_id (env_app env) = id /\ payload env = PClientEvent origin channel event data s uid.
End Queues.

Section Targets.
Context `{HI : HashIter} `{WI : Wire} `{SJ : SerdeJson} `{CR : Crypto} `{IP : InboundParser}.
Context `{GL : GlobLib} `{FG : Figment} `{SB : SecretBox} `{BP : BodyParser} (base : Z) (overflow : WebhookOverflow) (prefix : string).

(** C7: Client events.  A connection that triggers a client event is refused, and then
    nothing at all changes; or its application accepts client events and it is subscribed to the
    private channel it names.  Then every other connection subscribed to the channel gets
    the event at the end of its queue, once, no other queue changes, nothing is
    stored in the channel, and the peers are sent one message; a node that knows the
    application and receives it delivers it in the same way to its own subscribers.
    (A full queue drops what it gets and raises the kick.) *)
Theorem client_event_delivered cfg sys s k app event frame now :
  sys_reachable cfg base overflow prefix sys -> sys_tasks sys !! s = Some k -> app_id app = app_id (k_app k) ->
  let r := handle_client_event cfg base overflow (sys_node sys) app (k_conn k) event frame now in
  match r.1 with
  | Some _ => r.2 = sys_node sys
  | None =>
      accept_client_events_from app <> AcceptNone /\
      exists channel ch, f_channel frame = Some channel /\ is_private (from_name channel) = true /\
        channel ∈ c_subscriptions (k_conn k) /\ nd_channels r.2 = nd_channels (sys_node sys) /\
        find_channel (nd_channels (sys_node sys)) (app_id app) channel = Some ch /\
        let data := event_text frame in
        let uid := if is_presence (from_name channel) then presence_user_id ch s else None in
        receives sys (put sys r.2 (sys_tasks sys)) (app_id app) channel (Some s) (client_frame channel event data uid) /\
        nd_bus r.2 = (if scaling_enabled cfg
          then spawn_publish (publish_overflow cfg) (nd_bus (sys_node sys))
                 (mk_env app 0 (PClientEvent (node_id cfg) channel event data s uid)) now
          else nd_bus (sys_node sys)) /\
        forall cfg' peer env sink later,
          sys_reachable cfg' base overflow prefix peer -> node_id cfg' <> node_id cfg ->
          carries_client env (node_id cfg) (app_id app) channel event data s uid ->
          is_Some (app_by_id (sys_apps peer) (app_id app)) ->
          receives peer (put peer (handle_incoming cfg' sink (sys_node peer) env (app_by_id (sys_apps peer)) later) (sys_tasks peer))
            (app_id app) channel (Some s) (client_frame channel event data uid)
  end.
Proof.
  intros Hr Hk Happ. pose proof (client_event_receives cfg base overflow sys s k app event frame now
    (reachable_wired _ _ _ _ _ Hr) Hk Happ) as H. cbv zeta in *.
  destruct (handle_client_event _ _ _ _ _ _ _ _ _) as [[fr|] nd]; cbn [fst snd] in *; [done|].
  destruct H as (Ha & channel & ch & H1 & H2 & H3 & H4 & H5 & H6 & H7). split; [done|]. exists channel, ch.
  split_and!; try done. intros cfg' peer env sink later Hp Hne (C1 & C2 & C3) [app' Hap].
  apply (client_relay_receives cfg' sink peer env (node_id cfg) (app_id app) app'); try done.
  by apply (reachable_wired _ base overflow prefix).
Qed.

(** C15: Ending a user's sessions.  When the request is accepted, every connection of the node
    signed in as the user gets the closing message at the end of its queue, once, no
    other connection gets anything, and the answer is their number; the peers are sent one message, and a node
    that knows the application and receives it tells its own connections of the user
    to close, and no others.  (A full queue drops the message and raises the kick.) *)
Theorem user_terminated cfg sys id uid rq body now secs v nd :
  sys_reachable cfg base overflow prefix sys ->
  terminate_user_impl cfg prefix (sys_node sys) (sys_apps sys) id uid rq body now secs = (Ok v, nd) ->
  exists app handles, authorize prefix (sys_apps sys) id rq body secs = Ok app /\
    NoDup handles /\ (forall h, h ∈ handles <-> exists s k, sys_tasks sys !! s = Some k /\ signed_in (app_id app) uid s k /\ k_handle k = h) /\
    v = Object [("terminated", value_of_nat (length handles))] /\
    gets sys (put sys nd (sys_tasks sys)) (signed_in (app_id app) uid) close_terminated /\
    nd_bus nd = (if scaling_enabled cfg
      then spawn_publish (publish_overflow cfg) (nd_bus (sys_node sys)) (mk_env app 0 (PTerminateUser (node_id cfg) uid)) now
      else nd_bus (sys_node sys)) /\
    forall cfg' peer env sink later,
      sys_reachable cfg' base overflow prefix peer -> node_id cfg' <> node_id cfg ->
      carries_terminate env (node_id cfg) (app_id app) uid -> is_Some (app_by_id (sys_apps peer) (app_id app)) ->
      gets peer (put peer (handle_incoming cfg' sink (sys_node peer) env (app_by_id (sys_apps peer)) later) (sys_tasks peer))
        (signed_in (app_id app) uid) close_terminated.
Proof.
  intros Hr. pose proof (reachable_wired _ _ _ _ _ Hr) as Hw. unfold terminate_user_impl.
  destruct (authorize _ _ _ _ _ _) as [app|]; [|done]. intros [= <- <-].
  exists app, (connections_for_user (nd_channels (sys_node sys)) (app_id app) uid). split; [done|].
  split; [by eapply NoDup_fmap_1, user_handles_distinct|]. split; [intros h; by apply (user_handles cfg)|]. split; [done|].
  unfold publish_terminate_user, when_scaling. split; [|split].
  - apply (terminate_gets cfg); [done|]. by case_ifs.
  - by case_ifs.
  - intros cfg' peer env sink later Hp Hne Hc [app' Ha].
    eapply (terminate_relay_gets cfg'); [by apply (reachable_wired _ base overflow prefix)|exact Hc|done|exact Ha].
Qed.
End Targets.
