(* ===== verification/Hearing.v ===== *)
(** * What a node learns from its peers

    The other end of [Speech]: how [handle_incoming] of
    [crates/zatat-scaling/src/dispatcher.rs] and the caches of
    [crates/zatat-scaling/src/presence_cache.rs] and
    [crates/zatat-scaling/src/peer_state.rs] follow the news of one node about
    one topic.  News in order are applied exactly as [hear] says; every other
    message leaves what was heard of the topic and its sequence number alone. *)

From S2P Require Import Prelude.
From S2P Require Import Core.
From S2P Require Import Json.
From S2P Require Import Envelope.
From S2P Require Import Connection.
From S2P Require Import Channel.
From S2P Require Import Manager.
From S2P Require Import Message.
From S2P Require Import PeerState.
From S2P Require Import Bus.
From S2P Require Import Dispatcher.
From S2P Require Import Webhooks.
From S2P Require Import Handler.
From S2P Require Import Apps.
From S2P Require Import Tasks.
From S2P Require Import System.
From S2P Require Import TaskProps.
From S2P Require Import Topic.
From stdpp Require Import options.

(** The fact at [node], as far as this node heard. *)
Definition heard (t : Topic) (v : PeerView) (node : string) : fact t :=
  match t with
  | Members id c => dom (default ∅ (roster_of v id c node))
  | Subscribers id c => default 0%Z (PeerChannelCounts.count <$> nodes_of (peer_channel_counts v) (id, c) !! node)
  | Session id u => bool_decide (u ∈ PeerUserSessions.users_of (peer_user_sessions v) id node)
  end.

(** ** The caches *)

Section Cache.
Implicit Types v : PeerView.

Lemma heard_ext t v v' node :
  presence_cache v' = presence_cache v -> peer_channel_counts v' = peer_channel_counts v ->
  peer_user_sessions v' = peer_user_sessions v -> heard t v' node = heard t v node.
Proof. intros H1 H2 H3. destruct t; simpl; unfold roster_of; by rewrite ?H1, ?H2, ?H3. Qed.

Lemma heard_touch v id channel node now id' channel' node' :
  heard (Members id' channel') (set_cache_view v (PresenceCache.touch (presence_cache v) id channel node now)) node'
  = heard (Members id' channel') v node'.
Proof. unfold heard. by rewrite touch_roster. Qed.

(** Replacing the entry of one node in one channel. *)
Lemma heard_insert v id channel node e id' channel' node' :
  heard (Members id' channel') (set_cache_view v (<[(id, channel) := <[node := e]> (nodes_of (presence_cache v) (id, channel))]>
                             (presence_cache v))) node'
  = if decide (id' = id /\ channel' = channel /\ node' = node) then dom (PresenceCache.members e)
    else heard (Members id' channel') v node'.
Proof.
  unfold heard, roster_of. simpl. rewrite nodes_of_insert.
  destruct (decide (id' = id /\ channel' = channel /\ node' = node)) as [Hd|Hd].
  - destruct Hd as (-> & -> & ->). by rewrite decide_True, lookup_insert_eq by done.
  - destruct (decide ((id', channel') = (id, channel))) as [Hk|]; [|done]. simplify_eq.
    by rewrite lookup_insert_ne by naive_solver.
Qed.

Lemma heard_add v id channel node uid info now id' channel' node' :
  heard (Members id' channel') (set_cache_view v (PresenceCache.add_live (presence_cache v) id channel node uid info now).2) node'
  = if decide (id' = id /\ channel' = channel /\ node' = node) then {[uid]} ∪ heard (Members id channel) v node
    else heard (Members id' channel') v node'.
Proof.
  unfold PresenceCache.add_live. cbv zeta. cbn [snd]. rewrite heard_insert. case_decide; [|done].
  cbn [PresenceCache.members]. rewrite dom_insert_L. f_equal. unfold heard, roster_of.
  by destruct (nodes_of (presence_cache v) (id, channel) !! node).
Qed.

Lemma heard_remove v id channel node uid now id' channel' node' :
  heard (Members id' channel') (set_cache_view v (PresenceCache.remove_live (presence_cache v) id channel node uid now).2) node'
  = if decide (id' = id /\ channel' = channel /\ node' = node) then heard (Members id channel) v node ∖ {[uid]}
    else heard (Members id' channel') v node'.
Proof.
  assert (nodes_of (presence_cache v) (id, channel) !! node = None -> heard (Members id channel) v node = ∅) as Hno.
  { intros Hn. unfold heard, roster_of. by rewrite Hn. }
  unfold PresenceCache.remove_live. cbv zeta. unfold nodes_of in Hno.
  destruct (presence_cache v !! (id, channel)) as [inner|] eqn:E; cbn [default] in Hno.
  - destruct (inner !! node) as [peer|] eqn:Ep; cbn [snd].
    + pose proof (heard_insert v id channel node {| PresenceCache.ps_inserted_at := now;
        PresenceCache.members := delete uid (PresenceCache.members peer) |} id' channel' node') as Hi.
      unfold nodes_of in Hi. rewrite E in Hi. cbn [default] in Hi. etrans; [exact Hi|]. case_decide; [|done].
      cbn [PresenceCache.members]. rewrite dom_delete_L. f_equal. unfold heard, roster_of, nodes_of. by rewrite E; simpl; rewrite Ep.
    + rewrite (heard_ext _ v) by done. case_decide as Hd; [|done]. destruct Hd as (-> & -> & ->). rewrite Hno by done. set_solver.
  - cbn [snd]. rewrite (heard_ext _ v) by done. case_decide as Hd; [|done]. destruct Hd as (-> & -> & ->).
    rewrite Hno by apply lookup_empty. set_solver.
Qed.

Lemma heard_snapshot v id channel node ms now id' channel' node' :
  heard (Members id' channel') (set_cache_view v (PresenceCache.insert_snapshot (presence_cache v) id channel node ms now)) node'
  = if decide (id' = id /\ channel' = channel /\ node' = node) then list_to_set (psm_user_id <$> ms)
    else heard (Members id' channel') v node'.
Proof.
  unfold PresenceCache.insert_snapshot. rewrite heard_insert. case_decide; [|done].
  apply set_eq. intros u. rewrite elem_of_dom, PeerSnapshot_members, elem_of_list_to_set. done.
Qed.

Lemma heard_set v id channel node n now id' channel' node' :
  heard (Subscribers id' channel') (set_counts_view v (PeerChannelCounts.set (peer_channel_counts v) id channel node n now).2) node'
  = if decide (id' = id /\ channel' = channel /\ node' = node) then n else heard (Subscribers id' channel') v node'.
Proof.
  simpl. rewrite nodes_of_insert. destruct (decide (id' = id /\ channel' = channel /\ node' = node)) as [Hd|Hd].
  - destruct Hd as (-> & -> & ->). by rewrite decide_True, lookup_insert_eq by done.
  - destruct (decide ((id', channel') = (id, channel))) as [Hk|]; [|done]. simplify_eq.
    by rewrite lookup_insert_ne by naive_solver.
Qed.

Lemma heard_touch_count v id channel node now id' channel' node' :
  heard (Subscribers id' channel') (set_counts_view v (PeerChannelCounts.touch (peer_channel_counts v) id channel node now)) node'
  = heard (Subscribers id' channel') v node'.
Proof.
  unfold PeerChannelCounts.touch. destruct (peer_channel_counts v !! (id, channel)) as [inner|] eqn:E; [|done].
  destruct (inner !! node) as [e|] eqn:En; [|done]. simpl. rewrite nodes_of_insert.
  destruct (decide ((id', channel') = (id, channel))) as [Hk|]; [|done]. simplify_eq.
  unfold nodes_of. rewrite E. simpl. destruct (decide (node' = node)) as [->|]; [by rewrite lookup_insert_eq, En|by rewrite lookup_insert_ne].
Qed.

(** Replacing what one node said of an application's users. *)
Lemma users_of_insert tb id node us now id' node' :
  PeerUserSessions.users_of (<[id := <[node := {| PeerUserSessions.users := us; PeerUserSessions.us_inserted_at := now |}]>
    (nodes_of tb id)]> tb) id' node'
  = if decide (id' = id /\ node' = node) then us else PeerUserSessions.users_of tb id' node'.
Proof.
  unfold PeerUserSessions.users_of. rewrite nodes_of_insert. destruct (decide (id' = id)) as [->|Hi].
  - destruct (decide (node' = node)) as [->|Hn]; [by rewrite lookup_insert_eq, decide_True|].
    rewrite lookup_insert_ne, decide_False by naive_solver. done.
  - rewrite decide_False; [done|naive_solver].
Qed.

Lemma users_of_add tb id node uid now id' node' :
  PeerUserSessions.users_of (PeerUserSessions.add tb id node uid now).2 id' node'
  = if decide (id' = id /\ node' = node) then {[uid]} ∪ PeerUserSessions.users_of tb id node
    else PeerUserSessions.users_of tb id' node'.
Proof. unfold PeerUserSessions.add. simpl. by rewrite users_of_insert. Qed.

Lemma users_of_remove tb id node uid now id' node' :
  PeerUserSessions.users_of (PeerUserSessions.remove tb id node uid now).2 id' node'
  = if decide (id' = id /\ node' = node) then PeerUserSessions.users_of tb id node ∖ {[uid]}
    else PeerUserSessions.users_of tb id' node'.
Proof.
  unfold PeerUserSessions.remove. destruct (tb !! id) as [inner|] eqn:E.
  - destruct (inner !! node) as [peer|] eqn:En; simpl.
    + pose proof (users_of_insert tb id node (PeerUserSessions.users peer ∖ {[uid]}) now id' node') as H.
      unfold nodes_of in H. rewrite E in H. simpl in H. rewrite H. case_decide; [|done].
      f_equal. unfold PeerUserSessions.users_of, nodes_of. by rewrite E; simpl; rewrite En.
    + case_decide as Hd; [|done]. destruct Hd as [-> ->]. unfold PeerUserSessions.users_of, nodes_of. rewrite E. simpl. rewrite En. set_solver.
  - simpl. case_decide as Hd; [|done]. destruct Hd as [-> ->]. unfold PeerUserSessions.users_of, nodes_of. rewrite E. set_solver.
Qed.

Lemma users_of_touch tb id node now id' node' :
  PeerUserSessions.users_of (PeerUserSessions.touch tb id node now) id' node' = PeerUserSessions.users_of tb id' node'.
Proof. unfold PeerUserSessions.touch. rewrite users_of_insert. case_decide as Hd; [|done]. by destruct Hd as [-> ->]. Qed.
End Cache.

(** A node that has just started heard nothing. *)
Lemma heard_start t node :
  let v := {| presence_cache := ∅; peer_channel_counts := ∅; peer_user_sessions := ∅; peers_seen := ∅; peer_seqs := ∅ |} in
  heard t v node = nothing t.
Proof. by destruct t. Qed.

(** ** Messages about something else *)

Section Unmoved.
Context `{HI : HashIter} `{WI : Wire} `{SJ : SerdeJson} (cfg : Config) {W : Type}.
Context (sink : option (App -> FleetTransition -> Instant -> W -> W)).
Context (t : Topic) (node : string).
Implicit Types nd : Node W.
Implicit Types v : PeerView.

(** The number of the last news of the topic that were applied. *)
Definition latest v : Z := applied v node (tp_app t) (tp_key t).

Definition unmoved v v' : Prop := heard t v' node = heard t v node /\ latest v' = latest v.

#[export] Instance unmoved_preorder : PreOrder unmoved.
Proof. split; [done|]. intros v1 v2 v3 [H1 H2] [H3 H4]. split; congruence. Qed.

Lemma unmoved_at v v' t' : unmoved v v' -> t = t' -> heard t' v' node = heard t' v node.
Proof. intros [H _] <-. exact H. Qed.

Lemma unmoved_ext v v' :
  presence_cache v' = presence_cache v -> peer_channel_counts v' = peer_channel_counts v ->
  peer_user_sessions v' = peer_user_sessions v -> peer_seqs v' = peer_seqs v -> unmoved v v'.
Proof. intros. split; [by apply heard_ext|by apply applied_ext]. Qed.

Lemma heard_accept v n i key seq now : heard t (accept_seq v n i key seq now).2 node = heard t v node.
Proof. destruct (accept_seq_frame v n i key seq now) as (H1 & H2 & H3 & _). by apply heard_ext. Qed.

Lemma unmoved_accept v n i key seq now :
  (n, i, key) <> (node, tp_app t, tp_key t) -> unmoved v (accept_seq v n i key seq now).2.
Proof.
  intros Hne. split; [apply heard_accept|].
  unfold latest, accept_seq, applied. destruct (seq =? 0)%Z; [done|].
  destruct (seq <=? _)%Z; simpl; by rewrite lookup_insert_ne.
Qed.

(** Keys of other topics. *)
Lemma members_key n i c : ~ (n = node /\ t = Members i c) -> (n, i, "p:" +:+ c) <> (node, tp_app t, tp_key t).
Proof. intros Hne [= Hn Hi Hc]. destruct t; simplify_eq/=; by destruct Hne. Qed.

Lemma counts_key n i c : ~ (n = node /\ t = Subscribers i c) -> (n, i, "c:" +:+ c) <> (node, tp_app t, tp_key t).
Proof. intros Hne [= Hn Hi Hc]. destruct t; simplify_eq/=; by destruct Hne. Qed.

Lemma session_key n i u : ~ (n = node /\ t = Session i u) -> (n, i, "u:" +:+ u) <> (node, tp_app t, tp_key t).
Proof. intros Hne [= Hn Hi Hc]. destruct t; simplify_eq/=; by destruct Hne. Qed.

(** Tables in which only the entry of another topic changed. *)
Lemma unmoved_cache v T n i c :
  (forall i' c' n', ~ (i' = i /\ c' = c /\ n' = n) -> heard (Members i' c') (set_cache_view v T) n' = heard (Members i' c') v n') ->
  ~ (n = node /\ t = Members i c) -> unmoved v (set_cache_view v T).
Proof.
  intros H Hne. split; [|by apply applied_ext]. destruct t as [i' c'|i' c'|i' u']; [|done|done]. apply H. intros (-> & -> & <-). by destruct Hne.
Qed.

Lemma unmoved_counts v T n i c :
  (forall i' c' n', ~ (i' = i /\ c' = c /\ n' = n) -> heard (Subscribers i' c') (set_counts_view v T) n' = heard (Subscribers i' c') v n') ->
  ~ (n = node /\ t = Subscribers i c) -> unmoved v (set_counts_view v T).
Proof.
  intros H Hne. split; [|by apply applied_ext]. destruct t as [i' c'|i' c'|i' u']; [done| |done]. apply H. intros (-> & -> & <-). by destruct Hne.
Qed.

Lemma unmoved_sessions v T n i u :
  (forall i' u' n', ~ (i' = i /\ u' = u /\ n' = n) ->
     (u' ∈ PeerUserSessions.users_of T i' n' <-> u' ∈ PeerUserSessions.users_of (peer_user_sessions v) i' n')) ->
  ~ (n = node /\ t = Session i u) -> unmoved v (set_sessions_view v T).
Proof.
  intros H Hne. split; [|by apply applied_ext]. destruct t as [i' c'|i' c'|i' u']; [done|done|]. apply bool_decide_ext. apply H.
  intros (-> & -> & <-). by destruct Hne.
Qed.

Definition still nd nd' : Prop := unmoved (nd_view nd) (nd_view nd').

#[export] Instance still_preorder : PreOrder still.
Proof. unfold still. split; [by intros nd|]. intros nd1 nd2 nd3. apply transitivity. Qed.

Lemma still_view nd nd' : nd_view nd' = nd_view nd -> still nd nd'.
Proof. unfold still. by intros ->. Qed.

Lemma still_fold {B} (f : Node W -> B -> Node W) l nd :
  (forall nd x, x ∈ l -> still nd (f nd x)) -> still nd (foldl f nd l).
Proof.
  revert nd. induction l as [|x l IH]; intros nd Hf; simpl; [done|].
  etrans; [apply Hf; by left|]. apply IH. intros nd' y Hy. apply Hf. by right.
Qed.

Lemma still_accept nd n app key seq now :
  (n, app_id app, key) <> (node, tp_app t, tp_key t) -> still nd (node_accept nd n app key seq now).2.
Proof.
  intros Hne. unfold still, node_accept. pose proof (unmoved_accept (nd_view nd) n (app_id app) key seq now Hne) as H.
  by destruct (accept_seq _ _ _ _ _ _).
Qed.

(** *** Users *)

Lemma online_view nd app o uid now :
  nd_view (apply_remote_user_online nd app o uid now)
  = set_sessions_view (nd_view nd) (PeerUserSessions.add (peer_user_sessions (nd_view nd)) (app_id app) o uid now).2.
Proof. unfold apply_remote_user_online, emit_local_watchlist_event. cbv zeta. destruct (_ || _); [done|]. by destruct (watchers_of _ _ _). Qed.

Lemma offline_view nd app o uid now :
  nd_view (apply_remote_user_offline nd app o uid now)
  = set_sessions_view (nd_view nd) (PeerUserSessions.remove (peer_user_sessions (nd_view nd)) (app_id app) o uid now).2.
Proof. unfold apply_remote_user_offline, emit_local_watchlist_event. cbv zeta. destruct (_ && _); [|done]. by destruct (watchers_of _ _ _). Qed.

Lemma still_user nd app o uid now :
  ~ (o = node /\ t = Session (app_id app) uid) ->
  still nd (apply_remote_user_online nd app o uid now) /\ still nd (apply_remote_user_offline nd app o uid now).
Proof.
  intros Hne. unfold still. rewrite online_view, offline_view.
  split; eapply unmoved_sessions; try exact Hne; intros i' u' n' Hd.
  - rewrite users_of_add. case_decide as He; [|done]. destruct He as [-> ->]. set_solver.
  - rewrite users_of_remove. case_decide as He; [|done]. destruct He as [-> ->]. set_solver.
Qed.

Lemma still_session online app n seq now nd u :
  ~ (n = node /\ t = Session (app_id app) u) -> still nd (session_update app n seq now online nd u).
Proof.
  intros Hne. unfold session_update. pose proof (still_accept nd n app ("u:" +:+ u) seq now (session_key _ _ _ Hne)) as Ha.
  destruct (node_accept _ _ _ _ _ _) as [ok nd1]. cbn [snd] in Ha. etrans; [exact Ha|].
  destruct ok; cbn [negb]; [|done]. destruct online; by apply still_user.
Qed.

Lemma touch_session_still nd i n now :
  still nd (set_view nd (set_sessions_view (nd_view nd) (PeerUserSessions.touch (peer_user_sessions (nd_view nd)) i n now))).
Proof.
  split; [|by apply applied_ext]. destruct t; [done|done|]. simpl. by rewrite users_of_touch.
Qed.

Lemma still_sessions nd app n us seq now :
  ~ (n = node /\ exists u, t = Session (app_id app) u) -> still nd (apply_remote_user_session_snapshot nd app n us seq now).
Proof.
  intros Hne. unfold apply_remote_user_session_snapshot. cbv zeta. etrans; [apply (touch_session_still nd (app_id app) n now)|].
  assert (forall online l nd0, still nd0 (foldl (session_update app n seq now online) nd0 l)) as Hf.
  { intros online l nd0. apply still_fold. intros nd' u _. apply still_session. clear -Hne. naive_solver. }
  by etrans; [apply Hf|].
Qed.

(** *** Counts *)

Lemma still_count app n seq now nd c :
  ~ (n = node /\ t = Subscribers (app_id app) (cc_channel c)) -> still nd (apply_count app n seq now nd c).
Proof.
  intros Hne. unfold apply_count.
  pose proof (still_accept nd n app ("c:" +:+ cc_channel c) seq now (counts_key _ _ _ Hne)) as Ha.
  destruct (node_accept _ _ _ _ _ _) as [ok nd2]. cbn [snd] in Ha. etrans; [exact Ha|]. unfold still. cbn [nd_view set_view].
  eapply unmoved_counts; [|exact Hne]. intros i' c' n' Hd.
  destruct ok; [rewrite heard_set, decide_False; [done|naive_solver]|apply heard_touch_count].
Qed.

Lemma subscription_view nd app o c k w now :
  nd_view (apply_remote_subscription_count cfg sink nd app o c k w now)
  = set_counts_view (nd_view nd) (PeerChannelCounts.set (peer_channel_counts (nd_view nd)) (app_id app) c o k now).2.
Proof.
  unfold apply_remote_subscription_count. cbv zeta.
  destruct (find_channel _ _ _); case_ifs; rewrite ?to_local_view, ?claim_report_view; reflexivity.
Qed.

Lemma still_subscription nd app o c k w now :
  ~ (o = node /\ t = Subscribers (app_id app) c) -> still nd (apply_remote_subscription_count cfg sink nd app o c k w now).
Proof.
  intros Hne. unfold still. rewrite subscription_view. eapply unmoved_counts; [|exact Hne]. intros i' c' n' Hd.
  rewrite heard_set, decide_False; [done|naive_solver].
Qed.

Lemma added_view nd app o c uid info now :
  nd_view (apply_remote_member_added nd app o c uid info now)
  = set_cache_view (nd_view nd) (PresenceCache.add_live (presence_cache (nd_view nd)) (app_id app) c o uid info now).2.
Proof. unfold apply_remote_member_added. cbv zeta. case_ifs; by rewrite ?to_local_view. Qed.

Lemma still_added nd app o c uid info now :
  ~ (o = node /\ t = Members (app_id app) c) -> still nd (apply_remote_member_added nd app o c uid info now).
Proof.
  intros Hne. unfold still. rewrite added_view. eapply unmoved_cache; [|exact Hne]. intros i' c' n' Hd.
  rewrite heard_add, decide_False; [done|naive_solver].
Qed.

Lemma removed_view nd app o c uid ww vw now :
  nd_view (apply_remote_member_removed cfg sink nd app o c uid ww vw now)
  = set_cache_view (nd_view nd) (PresenceCache.remove_live (presence_cache (nd_view nd)) (app_id app) c o uid now).2.
Proof.
  unfold apply_remote_member_removed. cbv zeta. case_ifs; by rewrite ?claim_report_view, ?to_local_view.
Qed.

Lemma still_removed nd app o c uid ww vw now :
  ~ (o = node /\ t = Members (app_id app) c) ->
  still nd (apply_remote_member_removed cfg sink nd app o c uid ww vw now).
Proof.
  intros Hne. unfold still. rewrite removed_view. eapply unmoved_cache; [|exact Hne]. intros i' c' n' Hd.
  rewrite heard_remove, decide_False; [done|naive_solver].
Qed.

(** The view after a snapshot, whether it was accepted or not. *)
Lemma snapshot_view nd app n c ms seq now :
  let r := node_accept nd n app ("p:" +:+ c) seq now in
  nd_view (apply_remote_presence_snapshot nd app n c ms seq now)
  = set_cache_view (nd_view r.2)
      (if r.1 then PresenceCache.insert_snapshot (presence_cache (nd_view r.2)) (app_id app) c n ms now
       else PresenceCache.touch (presence_cache (nd_view r.2)) (app_id app) c n now).
Proof.
  intros r. unfold apply_remote_presence_snapshot. fold r. destruct r as [ok nd1]. cbn [fst snd]. cbv zeta.
  destruct ok; cbn [negb]; [|done]. destruct (find_channel _ _ _) as [ch|]; [|done].
  assert (forall (f : Node W -> string -> Node W) l nd, (forall nd u, nd_view (f nd u) = nd_view nd) ->
    nd_view (foldl f nd l) = nd_view nd) as Hf.
  { intros f l. induction l as [|u l IH]; intros nd0 H0; simpl; [done|]. by rewrite IH, H0. }
  rewrite !Hf; [done| |]; intros nd0 u; [unfold announce_left|unfold announce_joined]; (case_ifs; [done|apply to_local_view]).
Qed.

Lemma still_snapshot nd app n c ms seq now :
  ~ (n = node /\ t = Members (app_id app) c) -> still nd (apply_remote_presence_snapshot nd app n c ms seq now).
Proof.
  intros Hne. pose proof (still_accept nd n app ("p:" +:+ c) seq now (members_key _ _ _ Hne)) as Ha.
  unfold still. rewrite snapshot_view. etrans; [exact Ha|]. eapply unmoved_cache; [|exact Hne]. intros i' c' n' Hd.
  destruct (node_accept nd n app ("p:" +:+ c) seq now).1; [|apply heard_touch].
  rewrite heard_snapshot, decide_False; [done|naive_solver].
Qed.

(** *** Counts a snapshot leaves out *)

Lemma latest_accept v seq now :
  (0 <= latest v < seq)%Z ->
  let r := accept_seq v node (tp_app t) (tp_key t) seq now in r.1 = true /\ latest r.2 = seq.
Proof.
  intros [Hlo Hs]. destruct (accept_seq_spec v node (tp_app t) (tp_key t) seq now) as [H1 H2]; [lia|done|].
  cbv zeta in H1, H2. fold (latest v) in H1, H2. rewrite (proj2 (Z.ltb_lt _ _) Hs), orb_true_r in H1.
  split; [done|]. unfold latest at 1. rewrite H2. lia.
Qed.

Section Retain.
Context (n : string) (i : AppId) (present : gset string) (seq : Z) (now : Instant).

Abbreviation acc_view a := (set_counts_view a.2 a.1.2).

Definition retain_step (acc : list string * PeerChannelCounts.Counts * PeerView) (key : string * string)
  : list string * PeerChannelCounts.Counts * PeerView :=
  let '(dropped, tb, v) := acc in
  match tb !! key with
  | None => (dropped, tb, v)
  | Some inner =>
      if String.eqb key.1 i && negb (bool_decide (key.2 ∈ present)) &&
         match inner !! n with Some _ => true | None => false end
      then let '(ok, v') := accept_seq v n i ("c:" +:+ key.2) seq now in
           if (ok : bool) then (dropped ++ [key.2], <[key := delete n inner]> tb, v') else (dropped, tb, v')
      else (dropped, tb, v)
  end.

Lemma retain_other acc key :
  ~ (n = node /\ t = Subscribers i key.2 /\ key.1 = i /\ key.2 ∉ present) -> unmoved (acc_view acc) (acc_view (retain_step acc key)).
Proof.
  intros Hne. destruct acc as [[dropped tb] v], key as [i0 c0]. unfold retain_step. cbn [fst snd] in *.
  destruct (tb !! (i0, c0)) as [inner|] eqn:E; [|done].
  destruct (String.eqb_spec i0 i) as [->|]; [|done]. destruct (bool_decide_reflect (c0 ∈ present)) as [|Hc]; [done|]. cbn [negb andb].
  destruct (inner !! n) as [e|] eqn:En; [|done].
  assert (~ (n = node /\ t = Subscribers i c0)) as Hne' by naive_solver.
  pose proof (unmoved_accept v n i ("c:" +:+ c0) seq now (counts_key _ _ _ Hne')) as Ha.
  assert (unmoved (set_counts_view v tb) (set_counts_view (accept_seq v n i ("c:" +:+ c0) seq now).2 tb)) as Hv.
  { destruct Ha as [_ Ha]. split; [|exact Ha]. destruct (accept_seq_frame v n i ("c:" +:+ c0) seq now) as (H1 & _ & H3 & _).
    by apply heard_ext. }
  destruct (accept_seq _ _ _ _ _ _) as [[] v']; [|exact Hv]. cbn [fst snd] in *. etrans; [exact Hv|].
  apply (unmoved_counts (set_counts_view v' tb) _ n i c0); [|exact Hne'].
  intros i' c' n' Hd. simpl. rewrite nodes_of_insert. case_decide as Hk; [|done]. simplify_eq.
  rewrite lookup_delete_ne by naive_solver. unfold nodes_of. by rewrite E.
Qed.

Lemma retain_others acc keys :
  (forall key, key ∈ keys -> ~ (n = node /\ t = Subscribers i key.2 /\ key.1 = i /\ key.2 ∉ present)) ->
  unmoved (acc_view acc) (acc_view (foldl retain_step acc keys)).
Proof.
  revert acc. induction keys as [|key keys IH]; intros acc Hk; [done|]. cbn [foldl].
  etrans; [apply retain_other, Hk; by left|]. apply IH. intros key' Hin. apply Hk. by right.
Qed.

Lemma retain_this c acc :
  n = node -> t = Subscribers i c -> c ∉ present -> (0 <= latest (acc_view acc) < seq)%Z ->
  let w' := acc_view (retain_step acc (i, c)) in
  heard (Subscribers i c) w' node = 0%Z /\ (latest w' = seq \/ latest w' = latest (acc_view acc)).
Proof.
  intros Hn Ht Hc Hl. destruct acc as [[dropped tb] v]. unfold retain_step. cbn [fst snd] in *.
  destruct (tb !! (i, c)) as [inner|] eqn:E; [|split; [simpl; unfold nodes_of; by rewrite E|by right]].
  rewrite String.eqb_refl, (bool_decide_false _ Hc). cbn [negb andb].
  destruct (inner !! n) as [e|] eqn:En; [|split; [simpl; unfold nodes_of; rewrite E; simpl; by rewrite <- Hn, En|by right]].
  destruct (latest_accept v seq now Hl) as [H1 H2]. rewrite Ht in H1, H2. cbn [tp_app tp_key] in H1, H2. rewrite <- Hn in H1, H2.
  destruct (accept_seq v n i ("c:" +:+ c) seq now) as [ok v']. cbn [fst snd] in H1, H2. subst ok. cbn [fst snd]. split.
  - simpl. rewrite nodes_of_insert, decide_True by done. by rewrite Hn, lookup_delete_eq.
  - left. rewrite <- H2. unfold latest. rewrite Ht. by rewrite Hn.
Qed.

Lemma retain_spec tb v :
  let r := PeerChannelCounts.retain_node_channels tb i n present (fun c v => accept_seq v n i ("c:" +:+ c) seq now) v in
  ((forall c, c ∉ present -> ~ (n = node /\ t = Subscribers i c)) -> unmoved (set_counts_view v tb) (acc_view r)) /\
  (forall c, c ∉ present -> n = node -> t = Subscribers i c -> (0 <= latest (set_counts_view v tb) < seq)%Z ->
     heard (Subscribers i c) (acc_view r) node = 0%Z /\ (latest (acc_view r) = seq \/ latest (acc_view r) = latest v)).
Proof.
  intros r. assert (r = foldl retain_step ([], tb, v) (hkeys tb)) as -> by done. split.
  - intros Hno. apply (retain_others ([], tb, v)). intros key _ (Hn & Ht & _ & Hc). by apply (Hno key.2).
  - intros c Hc Hn Ht Hl. destruct (decide ((i, c) ∈ hkeys tb)) as [Hin|Hin].
    + pose proof (NoDup_hkeys tb) as Hnd. apply list_elem_of_split in Hin as (l1 & l2 & Hk). rewrite Hk in Hnd |- *.
      apply NoDup_app in Hnd as (_ & Hd & [Hl2 _]%NoDup_cons).
      rewrite foldl_app. cbn [foldl].
      assert (forall acc keys, (i, c) ∉ keys -> unmoved (acc_view acc) (acc_view (foldl retain_step acc keys))) as Hrest.
      { intros acc keys Hnot. apply retain_others. intros [i' c'] Hin (_ & Ht' & Hi' & _). cbn [fst snd] in *. apply Hnot. congruence. }
      destruct (Hrest ([], tb, v) l1) as [_ A2]; [intros Hin; apply (Hd _ Hin); by left|]. set (a1 := foldl retain_step ([], tb, v) l1) in *.
      pose proof (Hrest (retain_step a1 (i, c)) l2 Hl2) as B. cbn [fst snd] in *.
      destruct (retain_this c a1 Hn Ht Hc) as [C1 C2]; [by rewrite A2|]. rewrite (unmoved_at _ _ _ B Ht), (proj2 B).
      split; [exact C1|]. destruct C2 as [C2|C2]; [by left|right; by rewrite C2, A2].
    + assert (unmoved (set_counts_view v tb) (acc_view (foldl retain_step ([], tb, v) (hkeys tb)))) as A.
      { apply (retain_others ([], tb, v)). intros [i' c'] Hkey (_ & Ht' & Hi' & _). cbn [fst snd] in *. apply Hin. congruence. }
      rewrite (unmoved_at _ _ _ A Ht), (proj2 A). split; [|by right]. simpl. rewrite elem_of_hkeys in Hin.
      unfold nodes_of. destruct (tb !! (i, c)); [destruct Hin; eauto|done].
Qed.
End Retain.

(** *** Count snapshots *)

(** The rest of a snapshot, once its number was taken. *)
Lemma count_stale app seq now nd c :
  t = Subscribers (app_id app) (cc_channel c) -> (0 < seq <= latest (nd_view nd))%Z -> still nd (apply_count app node seq now nd c).
Proof.
  intros Ht [H0 Hs]. unfold apply_count, node_accept. unfold latest in Hs. rewrite Ht in Hs. cbn [tp_app tp_key] in Hs.
  destruct (accept_seq_stale (nd_view nd) node (app_id app) ("c:" +:+ cc_channel c) seq now H0 Hs) as (H1 & H2).
  pose proof (accept_seq_spec (nd_view nd) node (app_id app) ("c:" +:+ cc_channel c) seq now ltac:(lia) ltac:(lia)) as [_ H3].
  destruct (accept_seq_frame (nd_view nd) node (app_id app) ("c:" +:+ cc_channel c) seq now) as (F1 & F2 & F3 & _).
  destruct (accept_seq _ _ _ _ _ _) as [ok v]. cbn [fst snd] in *. subst ok. cbv zeta. unfold still. cbn [nd_view set_view].
  split.
  - rewrite Ht. rewrite heard_touch_count. by apply heard_ext.
  - unfold latest. rewrite Ht. cbn [tp_app tp_key]. etrans; [|etrans; [exact H3|lia]]. by apply applied_ext.
Qed.

Lemma counts_loop app seq now c counts nd :
  t = Subscribers (app_id app) c -> (0 < seq)%Z -> (0 <= latest (nd_view nd))%Z ->
  let nd' := foldl (apply_count app node seq now) nd counts in
  if decide (latest (nd_view nd) < seq /\ c ∈ cc_channel <$> counts)%Z
  then heard (Subscribers (app_id app) c) (nd_view nd') node = count_in c ((fun e => (cc_channel e, cc_count e)) <$> counts) /\
       latest (nd_view nd') = seq
  else still nd nd'.
Proof.
  intros Ht H0. revert nd. induction counts as [|x counts IH]; intros nd Hlo; cbv zeta.
  { rewrite decide_False; [done|]. set_solver. }
  cbn [foldl]. set (nd1 := apply_count app node seq now nd x). specialize (IH nd1). cbv zeta in IH.
  destruct (decide (cc_channel x = c)) as [Hx|Hx].
  - destruct (decide (latest (nd_view nd) < seq)%Z) as [Hlt|Hge].
    + rewrite decide_True by (split; [done|]; rewrite fmap_cons, Hx; by left).
      assert (heard (Subscribers (app_id app) c) (nd_view nd1) node = cc_count x /\ latest (nd_view nd1) = seq) as [A1 A2].
      { unfold nd1, apply_count, node_accept. rewrite Hx. destruct (latest_accept (nd_view nd) seq now (conj Hlo Hlt)) as [H1 H2].
        rewrite Ht in H1, H2. cbn [tp_app tp_key] in H1, H2. destruct (accept_seq _ _ _ _ _ _) as [ok v]. cbn [fst snd] in *. subst ok.
        cbv zeta. cbn [nd_view set_view]. split; [by rewrite heard_set, decide_True|]. rewrite <- H2. unfold latest. by rewrite Ht. }
      rewrite decide_False in IH by lia. destruct IH as [B1 B2]; [lia|].
      rewrite (unmoved_at _ _ _ (conj B1 B2) Ht), B2. split; [|done]. rewrite A1. simpl. by rewrite Hx, String.eqb_refl.
    + rewrite decide_False by lia. assert (still nd nd1) as A by (apply count_stale; [by rewrite Hx|lia]).
      etrans; [exact A|]. rewrite (proj2 A) in IH. rewrite decide_False in IH by lia. by apply IH.
  - assert (still nd nd1) as A by (apply still_count; intros [_ Ht']; congruence).
    rewrite (proj2 A) in IH. specialize (IH Hlo). rewrite fmap_cons. simpl. apply String.eqb_neq in Hx as Hx'. rewrite Hx'.
    destruct (decide (latest (nd_view nd) < seq /\ c ∈ cc_channel <$> counts)%Z) as [Hd|Hd].
    + rewrite decide_True by set_solver. exact IH.
    + rewrite decide_False by set_solver. etrans; [exact A|exact IH].
Qed.

Lemma counts_view nd app n counts seq now :
  let nd1 := foldl (apply_count app n seq now) nd counts in
  let r := PeerChannelCounts.retain_node_channels (peer_channel_counts (nd_view nd1)) (app_id app) n (list_to_set (cc_channel <$> counts))
             (fun c v => accept_seq v n (app_id app) ("c:" +:+ c) seq now) (nd_view nd1) in
  nd_view (apply_remote_channel_count_snapshot nd app n counts seq now) = set_counts_view r.2 r.1.2.
Proof.
  intros nd1 r. unfold apply_remote_channel_count_snapshot. cbv zeta. fold nd1 r. destruct r as [[dropped tb] v]. cbn [fst snd].
  destruct (negb _); [done|]. generalize ((cc_channel <$> counts) ++ dropped). intros l.
  assert (forall nd0, nd_view (foldl (emit_total app now) nd0 l) = nd_view nd0) as Hf; [|by rewrite Hf].
  induction l as [|c l IH]; intros nd0; simpl; [done|]. rewrite IH. unfold emit_total.
  destruct (find_channel _ _ _); [|done]. case_ifs; [done|apply to_local_view].
Qed.

Lemma still_counts nd app n counts seq now :
  ~ (n = node /\ exists c, t = Subscribers (app_id app) c) -> still nd (apply_remote_channel_count_snapshot nd app n counts seq now).
Proof.
  intros Hne. unfold still. rewrite counts_view. set (nd1 := foldl (apply_count app n seq now) nd counts).
  assert (still nd nd1) as H1 by (apply still_fold; intros nd' c _; apply still_count; clear -Hne; naive_solver).
  etrans; [exact H1|].
  destruct (retain_spec n (app_id app) (list_to_set (cc_channel <$> counts)) seq now (peer_channel_counts (nd_view nd1)) (nd_view nd1)) as [H2 _].
  etrans; [|apply H2; clear -Hne; naive_solver]. by apply unmoved_ext.
Qed.

Lemma counts_heard nd app c counts seq now :
  t = Subscribers (app_id app) c -> (0 <= latest (nd_view nd) < seq)%Z ->
  let v' := nd_view (apply_remote_channel_count_snapshot nd app node counts seq now) in
  heard (Subscribers (app_id app) c) v' node = count_in c ((fun e => (cc_channel e, cc_count e)) <$> counts) /\
  (latest v' = seq \/ latest v' = latest (nd_view nd)).
Proof.
  intros Ht [Hlo Hs]. cbv zeta. rewrite counts_view. pose proof (counts_loop app seq now c counts nd Ht ltac:(lia) Hlo) as H1.
  cbv zeta in H1. set (nd1 := foldl (apply_count app node seq now) nd counts) in *.
  destruct (retain_spec node (app_id app) (list_to_set (cc_channel <$> counts)) seq now (peer_channel_counts (nd_view nd1)) (nd_view nd1)) as [H2 H3].
  assert (unmoved (nd_view nd1) (set_counts_view (nd_view nd1) (peer_channel_counts (nd_view nd1)))) as E by (by apply unmoved_ext).
  destruct (decide (c ∈ cc_channel <$> counts)) as [Hc|Hc].
  - rewrite decide_True in H1 by done. destruct H1 as [A1 A2].
    assert (unmoved (nd_view nd1) (set_counts_view (PeerChannelCounts.retain_node_channels (peer_channel_counts (nd_view nd1)) (app_id app) node
      (list_to_set (cc_channel <$> counts)) (fun c v => accept_seq v node (app_id app) ("c:" +:+ c) seq now) (nd_view nd1)).2
      (PeerChannelCounts.retain_node_channels (peer_channel_counts (nd_view nd1)) (app_id app) node (list_to_set (cc_channel <$> counts))
      (fun c v => accept_seq v node (app_id app) ("c:" +:+ c) seq now) (nd_view nd1)).1.2)) as B.
    { etrans; [exact E|]. apply H2. intros c' Hc' [_ Ht']. rewrite Ht in Ht'. injection Ht' as <-. by apply Hc', elem_of_list_to_set. }
    rewrite (unmoved_at _ _ _ B Ht), (proj2 B). split; [exact A1|]. by left.
  - rewrite decide_False in H1 by naive_solver.
    destruct (H3 c) as [B1 B2]; [by rewrite elem_of_list_to_set|done|done|rewrite (proj2 E), (proj2 H1); lia|].
    rewrite B1, <- (proj2 H1). split; [|exact B2]. clear -Hc. induction counts as [|x counts IH]; [done|]. simpl.
    rewrite fmap_cons, not_elem_of_cons in Hc. destruct Hc as [Hx Hc]. destruct (String.eqb_spec (cc_channel x) c); [by destruct Hx|by apply IH].
Qed.

(** *** Session snapshots *)

Lemma session_this online app seq now nd u :
  t = Session (app_id app) u -> (0 <= latest (nd_view nd) < seq)%Z ->
  let v' := nd_view (session_update app node seq now online nd u) in
  heard (Session (app_id app) u) v' node = online /\ latest v' = seq.
Proof.
  intros Ht Hl. cbv zeta. unfold session_update, node_accept. destruct (latest_accept (nd_view nd) seq now Hl) as [H1 H2].
  rewrite Ht in H1, H2. cbn [tp_app tp_key] in H1, H2. destruct (accept_seq _ _ _ _ _ _) as [ok v]. cbn [fst snd] in *. subst ok.
  cbn [negb]. destruct online; rewrite ?online_view, ?offline_view; cbn [nd_view set_view]; (split; [|rewrite <- H2; unfold latest; by rewrite Ht]);
    unfold heard; cbn [peer_user_sessions set_sessions_view]; rewrite ?users_of_add, ?users_of_remove, decide_True by done;
    [apply bool_decide_true|apply bool_decide_false]; set_solver.
Qed.

Lemma session_loop online app seq now u l nd :
  t = Session (app_id app) u -> NoDup l ->
  let nd' := foldl (session_update app node seq now online) nd l in
  (u ∉ l -> still nd nd') /\
  (u ∈ l -> (0 <= latest (nd_view nd) < seq)%Z ->
   heard (Session (app_id app) u) (nd_view nd') node = online /\ latest (nd_view nd') = seq).
Proof.
  intros Ht Hnd nd'.
  assert (forall nd l, u ∉ l -> still nd (foldl (session_update app node seq now online) nd l)) as Hskip.
  { intros nd0 l0 Hu. apply still_fold. intros nd1 x Hx. apply still_session. intros [_ Ht']. congruence. }
  split; [apply Hskip|]. intros (l1 & l2 & ->)%list_elem_of_split Hl. unfold nd'. rewrite foldl_app. cbn [foldl].
  apply NoDup_app in Hnd as (_ & Hd & [Hl2 _]%NoDup_cons).
  assert (still nd (foldl (session_update app node seq now online) nd l1)) as A by (apply Hskip; intros Hin; apply (Hd _ Hin); by left).
  set (nd1 := foldl _ nd l1) in *. destruct (session_this online app seq now nd1 u Ht) as [B1 B2]; [by rewrite (proj2 A)|].
  set (nd2 := session_update _ _ _ _ _ nd1 u) in *. pose proof (Hskip nd2 l2 Hl2) as C.
  by rewrite (unmoved_at _ _ _ C Ht), (proj2 C).
Qed.

Lemma sessions_heard nd app u us seq now :
  t = Session (app_id app) u -> (0 <= latest (nd_view nd) < seq)%Z ->
  let v' := nd_view (apply_remote_user_session_snapshot nd app node us seq now) in
  heard (Session (app_id app) u) v' node = bool_decide (u ∈ us) /\ (latest v' = seq \/ latest v' = latest (nd_view nd)).
Proof.
  intros Ht Hl. cbv zeta. unfold apply_remote_user_session_snapshot. cbv zeta.
  pose proof (touch_session_still nd (app_id app) node now) as T. set (nd0 := set_view nd _) in *.
  set (prev := PeerUserSessions.users_of _ _ _).
  assert (heard (Session (app_id app) u) (nd_view nd0) node = bool_decide (u ∈ prev)) as Hprev by done.
  destruct (session_loop true app seq now u (hset_iter (list_to_set us ∖ prev)) nd0 Ht (NoDup_hset_iter _)) as [A1 A2].
  set (nd1 := foldl _ nd0 _) in *. rewrite elem_of_hset_iter, elem_of_difference, elem_of_list_to_set in A1, A2.
  destruct (session_loop false app seq now u (hset_iter (prev ∖ list_to_set us)) nd1 Ht (NoDup_hset_iter _)) as [B1 B2].
  set (nd2 := foldl _ nd1 _) in *. rewrite elem_of_hset_iter, elem_of_difference, elem_of_list_to_set in B1, B2.
  rewrite <- (proj2 T) in Hl |- *.
  destruct (decide (u ∈ us)) as [Hu|Hu]; [rewrite bool_decide_true by done|rewrite bool_decide_false by done].
  - pose proof (B1 ltac:(tauto)) as B. rewrite (unmoved_at _ _ _ B Ht), (proj2 B). destruct (decide (u ∈ prev)) as [Hp|Hp].
    + pose proof (A1 ltac:(tauto)) as A. rewrite (unmoved_at _ _ _ A Ht), (proj2 A), Hprev, bool_decide_true by done. auto.
    + destruct (A2 (conj Hu Hp) Hl) as [-> ->]. auto.
  - pose proof (A1 ltac:(tauto)) as A. destruct (decide (u ∈ prev)) as [Hp|Hp].
    + destruct (B2 (conj Hp Hu)) as [-> ->]; [by rewrite (proj2 A)|]. auto.
    + pose proof (B1 ltac:(tauto)) as B. rewrite (unmoved_at _ _ _ B Ht), (proj2 B).
      rewrite (unmoved_at _ _ _ A Ht), (proj2 A), Hprev, bool_decide_false by done. auto.
Qed.

(** ** Every message *)

(** The topic of a message. *)
Lemma about_iff app seq p :
  about t node (mk_env app seq p) = true <->
  match p with
  | PMemberAdded o c _ _ | PMemberRemoved o c _ _ _ | PPresenceSnapshot o c _ => o = node /\ t = Members (app_id app) c
  | PSubscriptionCount o c _ _ => o = node /\ t = Subscribers (app_id app) c
  | PChannelCountSnapshot o _ => o = node /\ exists c, t = Subscribers (app_id app) c
  | PUserOnline o u | PUserOffline o u => o = node /\ t = Session (app_id app) u
  | PUserSessionSnapshot o _ => o = node /\ exists u, t = Session (app_id app) u
  | _ => False
  end.
Proof.
  unfold about. simpl.
  destruct t, p; simpl; rewrite ?andb_false_r, ?andb_true_r, ?andb_true_iff, ?String.eqb_eq; naive_solver.
Qed.

Lemma still_payload nd app seq p now :
  about t node (mk_env app seq p) = false -> still nd (handle_payload cfg sink nd app seq p now).
Proof.
  intros Ha. apply not_true_iff_false in Ha. rewrite about_iff in Ha. destruct p; cbn [handle_payload handle_peer_state].
  all: try (destruct (String.eqb _ _); [done|]).
  all: try (match goal with |- context [node_accept ?n ?o ?a ?k ?s ?t] =>
        let H := fresh in
        assert (still n (node_accept n o a k s t).2) as H by
          (apply still_accept; first [by apply counts_key|by apply session_key|by apply members_key]);
        destruct (node_accept n o a k s t) as [[] ?];
        [etrans; [exact H|]|exact H] end).
  - apply still_view. unfold broadcast_locally_with_app. destruct (strip_prefix _ _); [done|].
    destruct (get_or_create_cache_channel _ _ _) as [[c|] m]; [|destruct (find_channel _ _ _); [|done]];
      by destruct (broadcast _ _ _ _ _).
  - destruct (handle_for_socket _ _ _); by apply still_view.
  - by apply still_view.
  - destruct (find_channel _ _ _); by apply still_view.
  - by apply still_snapshot.
  - by apply still_view.
  - unfold respond_to_metrics_request. destruct (foldl _ _ _). by apply still_view.
  - destruct (nd_inflight nd !! _); by apply still_view.
  - by apply still_added.
  - by apply still_removed.
  - by apply still_subscription.
  - by apply still_user.
  - by apply still_user.
  - by apply still_counts.
  - by apply still_sessions.
Qed.

Lemma still_saw nd p now : still nd (saw_peer cfg nd p now).
Proof.
  unfold saw_peer. destruct (payload_node_id p) as [i|]; [|done]. destruct (String.eqb i _); [done|]. by apply unmoved_ext.
Qed.

Lemma still_incoming nd env apps now :
  (forall i app, apps i = Some app -> app_id app = i) -> about t node env = false ->
  still nd (handle_incoming cfg sink nd env apps now).
Proof.
  intros Hid Ha. unfold handle_incoming. destruct (_ <? _)%Z; [by apply still_view|].
  etrans; [apply (still_saw nd (payload env) now)|].
  destruct (apps _) as [app|] eqn:E; [|done]. apply still_payload.
  unfold about in *. simpl. by rewrite (Hid _ _ E).
Qed.

(** A message of an application that is not configured. *)
Lemma still_unknown nd env apps now :
  apps (ref_id (env_app env)) = None -> still nd (handle_incoming cfg sink nd env apps now).
Proof.
  intros Hno. unfold handle_incoming. destruct (_ <? _)%Z; [by apply still_view|]. rewrite Hno. apply still_saw.
Qed.

(** The node's own news, which come back to it. *)
Lemma still_echo nd env apps now :
  (forall i app, apps i = Some app -> app_id app = i) -> node = node_id cfg ->
  still nd (handle_incoming cfg sink nd env apps now).
Proof.
  intros Hid Hme. destruct (about t node env) eqn:Ha; [|by apply still_incoming].
  unfold handle_incoming. destruct (_ <? _)%Z; [by apply still_view|].
  etrans; [apply (still_saw nd (payload env) now)|].
  destruct (apps _) as [app|]; [|done]. unfold about in Ha. apply andb_true_iff in Ha as [_ Ha].
  destruct (payload env); cbn [news_of] in Ha; try done; apply andb_true_iff in Ha as [->%String.eqb_eq _]; cbn [handle_payload handle_peer_state];
    by rewrite Hme, String.eqb_refl.
Qed.

(** ** News in order *)

Definition applied_to nd nd' (env : ScalingEnvelope) : Prop :=
  heard t (nd_view nd') node = hear t node (heard t (nd_view nd) node) env /\
  (latest (nd_view nd') = env_seq env \/ latest (nd_view nd') = latest (nd_view nd)).

Lemma news_applied nd env apps app now :
  apps (ref_id (env_app env)) = Some app -> app_id app = tp_app t -> (version env <= SCALING_VERSION)%Z ->
  node <> node_id cfg -> about t node env = true -> (0 <= latest (nd_view nd) < env_seq env)%Z ->
  applied_to nd (handle_incoming cfg sink nd env apps now) env.
Proof.
  intros Happ Hid Hv Hne Ha Hl. unfold applied_to, handle_incoming. rewrite (proj2 (Z.ltb_ge _ _) Hv), Happ.
  destruct (still_saw nd (payload env) now) as [S1 S2]. rewrite <- S1, <- S2 in *.
  set (nd1 := saw_peer cfg nd (payload env) now) in *. clearbody nd1. unfold hear. rewrite Ha.
  destruct (latest_accept (nd_view nd1) (env_seq env) now Hl) as [Hok Hap].
  pose proof (heard_accept (nd_view nd1) node (tp_app t) (tp_key t) (env_seq env) now) as Hh.
  assert (about t node (mk_env app (env_seq env) (payload env)) = true) as Hab.
  { unfold about in *. apply andb_true_iff in Ha as [_ Ha]. simpl. by rewrite Hid, String.eqb_refl. }
  apply about_iff in Hab. assert (String.eqb node (node_id cfg) = false) as Hnode by (by apply String.eqb_neq).
  destruct (payload env); try done; destruct Hab as [-> Ht]; cbn [handle_payload handle_peer_state news_of]; rewrite Hnode.
  7:{ destruct Ht as [c Ht]. rewrite Ht in Hid |- *. cbn [tp_app] in Hid. by apply counts_heard. }
  7:{ destruct Ht as [u Ht]. rewrite Ht in Hid |- *. cbn [tp_app] in Hid. by apply sessions_heard. }
  1: rewrite snapshot_view.
  all: unfold node_accept; rewrite Ht in Hok, Hap, Hh; cbn [tp_app tp_key] in Hok, Hap, Hh;
    destruct (accept_seq _ _ _ _ _ _) as [ok v]; cbn [fst snd] in *; subst ok;
    rewrite ?added_view, ?removed_view, ?subscription_view, ?online_view, ?offline_view; cbn [nd_view set_view];
    rewrite Ht; (split; [|left; rewrite <- Hap; unfold latest; rewrite Ht; by apply applied_ext]).
  - by rewrite heard_snapshot, decide_True.
  - rewrite heard_add, decide_True by done. cbn [learn]. by rewrite Hh.
  - rewrite heard_remove, decide_True by done. cbn [learn]. by rewrite Hh.
  - by rewrite heard_set, decide_True.
  - unfold heard. cbn [peer_user_sessions set_sessions_view learn]. rewrite users_of_add, decide_True by done. apply bool_decide_true. set_solver.
  - unfold heard. cbn [peer_user_sessions set_sessions_view learn]. rewrite users_of_remove, decide_True by done. apply bool_decide_false. set_solver.
Qed.
End Unmoved.

(** ** The sweep of silent peers *)

Lemma gc_entry `{HI : HashIter} {K} `{Countable K} {A} `{ST : Stamped A} prune (tb : gmap K (gmap string A)) now k n :
  nodes_of (gc_table prune tb now).2 k !! n
  = match nodes_of tb k !! n with Some e => if fresh now e then Some e else None | None => None end.
Proof.
  destruct (gc_table_spec prune tb now) as (Hgc & _ & _). apply option_eq. intros e. rewrite Hgc.
  destruct (nodes_of tb k !! n) as [e'|]; [|by split; [intros [? _]|]].
  destruct (fresh now e') eqn:E; (split; [intros [[= ->] ?]|intros [= ->]]); congruence || done.
Qed.

Section Sweep.
Context `{HI : HashIter} `{WI : Wire} `{SJ : SerdeJson} (cfg : Config) (base : Z) (overflow : WebhookOverflow).
Context (t : Topic) (node : string).
Implicit Types nd : Server.

Lemma sweep_view nd apps now :
  let v := nd_view nd in
  let v' := nd_view (presence_cache_gc cfg base overflow nd apps now) in
  presence_cache v' = (gc_table true (presence_cache v) now).2 /\
  peer_channel_counts v' = (gc_table true (peer_channel_counts v) now).2 /\
  peer_user_sessions v' = (gc_table false (peer_user_sessions v) now).2 /\
  peer_seqs v' = peer_seqs (gc_peer_sequences v now).
Proof using WI.
  assert (forall B (f : Server -> B -> Server) l nd, (forall nd x, harmless cfg nd (f nd x)) ->
    nd_view (foldl f nd l) = nd_view nd) as Hf by (intros B f l nd0 H; by destruct (harmless_fold cfg f l nd0 H)).
  cbv zeta. unfold presence_cache_gc.
  assert ((PresenceCache.gc_expired (presence_cache (nd_view nd)) now).2 = (gc_table true (presence_cache (nd_view nd)) now).2) as <-
    by (unfold PresenceCache.gc_expired; by destruct (gc_table _ _ _)).
  destruct (PresenceCache.gc_expired _ _) as [e1 t1].
  set (nd1 := foldl (expire_member cfg base overflow apps now) _ e1).
  assert (nd_view nd1 = set_cache_view (nd_view nd) t1) as E1 by (apply Hf; intros; apply expire_member_harmless).
  clearbody nd1. rewrite E1.
  assert ((PeerChannelCounts.gc_expired (peer_channel_counts (nd_view nd)) now).2 = (gc_table true (peer_channel_counts (nd_view nd)) now).2) as <-
    by (unfold PeerChannelCounts.gc_expired; by destruct (gc_table _ _ _)).
  cbn [peer_channel_counts set_cache_view]. destruct (PeerChannelCounts.gc_expired _ _) as [e2 t2].
  set (nd2 := foldl (expire_count cfg base overflow apps now) _ e2).
  assert (nd_view nd2 = set_counts_view (nd_view nd1) t2) as E2 by (etrans; [apply Hf; intros; apply expire_count_harmless|by rewrite E1]).
  clearbody nd2. rewrite E2, E1.
  assert ((PeerUserSessions.gc_expired (peer_user_sessions (nd_view nd)) now).2 = (gc_table false (peer_user_sessions (nd_view nd)) now).2) as <-
    by (unfold PeerUserSessions.gc_expired; by destruct (gc_table _ _ _)).
  cbn [peer_user_sessions set_counts_view set_cache_view]. destruct (PeerUserSessions.gc_expired _ _) as [e3 t3].
  set (nd3 := foldl (expire_session apps now) _ e3).
  assert (nd_view nd3 = set_sessions_view (nd_view nd2) t3) as E3 by (etrans; [apply Hf; intros; apply expire_session_harmless|by rewrite E2, E1]).
  clearbody nd3. cbn [nd_view set_view]. by rewrite E3, E2, E1.
Qed.

(** When the node last heard of the peer, in the table the topic is kept in. *)
Definition last_word (v : PeerView) : option Instant :=
  match t with
  | Members id c => PresenceCache.ps_inserted_at <$> nodes_of (presence_cache v) (id, c) !! node
  | Subscribers id c => PeerChannelCounts.ce_inserted_at <$> nodes_of (peer_channel_counts v) (id, c) !! node
  | Session id _ => PeerUserSessions.us_inserted_at <$> nodes_of (peer_user_sessions v) id !! node
  end.

(** What the node heard of the topic has not grown old. *)
Definition alive (v : PeerView) (now : Instant) : Prop :=
  forall at_, last_word v = Some at_ -> (duration_since now at_ <= SNAPSHOT_TTL)%Z.

#[export] Instance alive_dec v now : Decision (alive v now).
Proof.
  unfold alive. destruct (last_word v) as [at_|]; [|by left].
  destruct (decide (duration_since now at_ <= SNAPSHOT_TTL)%Z) as [H|H]; [left; by intros ? [= <-]|right; intros Hd; by apply H, Hd].
Defined.

Lemma sweep_kept v v' now :
  presence_cache v' = (gc_table true (presence_cache v) now).2 ->
  peer_channel_counts v' = (gc_table true (peer_channel_counts v) now).2 ->
  peer_user_sessions v' = (gc_table false (peer_user_sessions v) now).2 ->
  (alive v now -> heard t v' node = heard t v node) /\ (~ alive v now -> heard t v' node = nothing t).
Proof.
  intros H1 H2 H3. unfold alive, last_word. destruct t as [id c|id c|id u]; simpl; unfold roster_of, PeerUserSessions.users_of; rewrite ?H1, ?H2, ?H3, gc_entry.
  all: match goal with |- context [nodes_of ?tb ?k !! ?n] => destruct (nodes_of tb k !! n) as [e|] end; [|done]; simpl;
    unfold fresh, inserted_at, PresenceCache.PeerSnapshot_stamped, PeerChannelCounts.CountEntry_stamped, PeerUserSessions.UserSessionEntry_stamped;
    match goal with |- context [Z.leb ?a ?b] => destruct (Z.leb_spec a b) as [Hd|Hd] end; simpl;
    (split; [intros Ha|intros Hn]); try done; try (specialize (Ha _ eq_refl); lia); destruct Hn; by intros ? [= <-].
Qed.

(** The sweep forgets what grew old; the sequence numbers it forgets count as 0
    from then on. *)
Lemma sweep_heard nd apps now :
  let v := nd_view nd in
  let v' := nd_view (presence_cache_gc cfg base overflow nd apps now) in
  (alive v now -> heard t v' node = heard t v node) /\
  (~ alive v now -> heard t v' node = nothing t) /\
  (latest t node v' = latest t node v \/ latest t node v' = 0%Z).
Proof using WI.
  cbv zeta. destruct (sweep_view nd apps now) as (H1 & H2 & H3 & Hs). set (v' := nd_view (presence_cache_gc _ _ _ _ _ _)) in *. clearbody v'.
  destruct (sweep_kept _ _ _ H1 H2 H3) as [K1 K2]. split_and!; [done|done|].
  unfold latest, applied. rewrite Hs. unfold gc_peer_sequences. cbn [peer_seqs set_seqs_view].
  destruct (peer_seqs (nd_view nd) !! (node, tp_app t, tp_key t)) as [e|] eqn:E.
  - destruct (decide ((duration_since now e.2 <? SNAPSHOT_TTL * 4)%Z = true)) as [Hd|Hd].
    + left. by rewrite (map_lookup_filter_Some_2 _ _ _ e) by done.
    + right. rewrite (map_lookup_filter_None_2); [done|]. right. intros e' He'. simplify_eq. done.
  - left. rewrite map_lookup_filter_None_2; [done|by left].
Qed.
End Sweep.
