(* ===== verification/Staleness.v ===== *)
(** * Late snapshots

    What the sequence numbers of [accept_seq] and [gc_peer_sequences]
    ([crates/zatat-scaling/src/dispatcher.rs]) are for: a roster snapshot a
    peer captured before a live update, and which arrives after it, is
    recognised as old.  The numbers are kept per peer, application and
    channel with the time they were accepted, survive everything the node does
    in between, and are dropped by the sweep when they are a minute old. *)

From S2P Require Import Prelude.
From S2P Require Import Core.
From S2P Require Import Json.
From S2P Require Import Envelope.
From S2P Require Import Connection.
From S2P Require Import Channel.
From S2P Require Import Manager.
From S2P Require Import Message.
From S2P Require Import PeerState.
From S2P Require Import Encryption.
From S2P Require Import Bus.
From S2P Require Import Dispatcher.
From S2P Require Import Webhooks.
From S2P Require Import Routes.
From S2P Require Import Handler.
From S2P Require Import Apps.
From S2P Require Import Auth.
From S2P Require Import Router.
From S2P Require Import Tasks.
From S2P Require Import System.
From S2P Require Import HandlerProps.
From S2P Require Import TaskProps.
From S2P Require Import Topic.
From S2P Require Import Speech.
From S2P Require Import Hearing.
From stdpp Require Import options.

(** ** Sequence numbers only grow *)

(** Every entry is as it was, or was set at [now] to a number not lower. *)
Definition seqs_grow (now : Instant) (v v' : PeerView) : Prop :=
  forall k : string * string * string, peer_seqs v' !! k = peer_seqs v !! k \/
    exists s, peer_seqs v' !! k = Some (s, now) /\ (default 0 (fst <$> peer_seqs v !! k) <= s)%Z.

#[export] Instance seqs_grow_preorder now : PreOrder (seqs_grow now).
Proof.
  split; [by left|]. intros v1 v2 v3 H1 H2 k. destruct (H2 k) as [->|(s & -> & Hs)]; [apply H1|].
  right. exists s. split; [done|]. destruct (H1 k) as [<-|(s' & E & Hs')]; [done|]. rewrite E in Hs. simpl in Hs. lia.
Qed.

Lemma seqs_grow_ext now v v' : peer_seqs v' = peer_seqs v -> seqs_grow now v v'.
Proof. intros H k. left. by rewrite H. Qed.

Lemma accept_grows v n i key seq now : seqs_grow now v (accept_seq v n i key seq now).2.
Proof.
  unfold accept_seq. destruct (seq =? 0)%Z; [done|].
  set (k0 := (n, i, key)). intros k. destruct (decide (k = k0)) as [->|Hne].
  - destruct (peer_seqs v !! k0) as [[s t]|] eqn:E; simpl.
    + destruct (Z.leb_spec seq s); simpl; rewrite lookup_insert_eq; [by left|]. right. eexists. split; [done|]. simpl. lia.
    + destruct (Z.leb_spec seq 0); simpl; rewrite lookup_insert_eq; right; eexists; (split; [done|]); simpl; lia.
  - left. destruct (seq <=? _)%Z; simpl; by rewrite lookup_insert_ne.
Qed.

Section Growing.
Context `{HI : HashIter} `{WI : Wire} `{SJ : SerdeJson} (cfg : Config) {W : Type}.
Context (sink : option (App -> FleetTransition -> Instant -> W -> W)).
Implicit Types nd : Node W.

Definition grows now nd nd' : Prop := seqs_grow now (nd_view nd) (nd_view nd').

#[local] Instance grows_preorder now : PreOrder (grows now).
Proof. unfold grows. split; [by intros nd|]. intros nd1 nd2 nd3. apply transitivity. Qed.

Lemma grows_view now nd nd' : nd_view nd' = nd_view nd -> grows now nd nd'.
Proof. unfold grows. by intros ->. Qed.

Lemma grows_fold {B} now (f : Node W -> B -> Node W) l nd :
  (forall nd x, grows now nd (f nd x)) -> grows now nd (foldl f nd l).
Proof. intros Hf. revert nd. induction l as [|x l IH]; intros nd; simpl; [done|]. by etrans; [apply Hf|]. Qed.

Lemma accept_node_grows nd n app key seq now : grows now nd (node_accept nd n app key seq now).2.
Proof.
  unfold grows, node_accept. pose proof (accept_grows (nd_view nd) n (app_id app) key seq now) as H.
  by destruct (accept_seq _ _ _ _ _ _).
Qed.

Lemma session_grows online app n seq now nd u : grows now nd (session_update app n seq now online nd u).
Proof.
  unfold session_update. pose proof (accept_node_grows nd n app ("u:" +:+ u) seq now) as Ha.
  destruct (node_accept _ _ _ _ _ _) as [[] nd1]; cbn [negb snd] in *; [|done]. etrans; [exact Ha|].
  destruct online; apply seqs_grow_ext; by rewrite ?online_view, ?offline_view.
Qed.

Lemma count_grows app n seq now nd c : grows now nd (apply_count app n seq now nd c).
Proof.
  unfold apply_count. pose proof (accept_node_grows nd n app ("c:" +:+ cc_channel c) seq now) as Ha.
  destruct (node_accept _ _ _ _ _ _) as [ok nd1]. etrans; [exact Ha|]. by apply seqs_grow_ext.
Qed.

Lemma retain_grows n i present seq now tb (v : PeerView) :
  seqs_grow now v (PeerChannelCounts.retain_node_channels tb i n present
                     (fun c v => accept_seq v n i ("c:" +:+ c) seq now) v).2.
Proof.
  unfold PeerChannelCounts.retain_node_channels.
  assert (forall keys acc, seqs_grow now acc.2 (foldl (retain_step n i present seq now) acc keys).2) as H.
  { induction keys as [|key keys IH]; intros acc; [done|]. cbn [foldl]. etrans; [|apply IH].
    destruct acc as [[dropped t] v0]. unfold retain_step. destruct (t !! key); [|done]. destruct (_ && _); [|done].
    pose proof (accept_grows v0 n i ("c:" +:+ key.2) seq now) as Ha.
    by destruct (accept_seq _ _ _ _ _ _) as [[] v1]. }
  apply (H (hkeys tb) ([], tb, v)).
Qed.

Lemma payload_grows nd app seq p now : grows now nd (handle_payload cfg sink nd app seq p now).
Proof.
  destruct p; cbn [handle_payload handle_peer_state]; try (destruct (String.eqb _ _); [done|]).
  all: try (match goal with |- context [node_accept ?n ?o ?a ?k ?s ?t] =>
        pose proof (accept_node_grows n o a k s t) as Ha; destruct (node_accept n o a k s t) as [[] ?];
        [etrans; [exact Ha|]|exact Ha] end;
        apply seqs_grow_ext; by rewrite ?added_view, ?removed_view, ?subscription_view, ?online_view, ?offline_view).
  - apply grows_view. unfold broadcast_locally_with_app. destruct (strip_prefix _ _); [done|].
    destruct (get_or_create_cache_channel _ _ _) as [[c|] m]; [|destruct (find_channel _ _ _); [|done]];
      by destruct (broadcast _ _ _ _ _).
  - destruct (handle_for_socket _ _ _); by apply grows_view.
  - by apply grows_view.
  - destruct (find_channel _ _ _); by apply grows_view.
  - etrans; [apply accept_node_grows|]. unfold grows. rewrite snapshot_view. by apply seqs_grow_ext.
  - by apply grows_view.
  - unfold respond_to_metrics_request. destruct (foldl _ _ _). by apply grows_view.
  - destruct (nd_inflight nd !! _); by apply grows_view.
  - unfold grows. rewrite counts_view. etrans; [|apply seqs_grow_ext; reflexivity].
    etrans; [|apply retain_grows]. apply grows_fold. intros. apply count_grows.
  - unfold apply_remote_user_session_snapshot. cbv zeta.
    assert (forall online n l nd0, grows now nd0 (foldl (session_update app n seq now online) nd0 l)) as Hf
      by (intros; apply grows_fold; intros; apply session_grows).
    etrans; [|apply Hf]. etrans; [|apply Hf]. by apply seqs_grow_ext.
Qed.

Lemma incoming_grows nd env apps now : grows now nd (handle_incoming cfg sink nd env apps now).
Proof.
  unfold handle_incoming. destruct (_ <? _)%Z; [by apply grows_view|].
  etrans; [apply seqs_grow_ext, (saw_peer_frame cfg nd (payload env) now)|].
  destruct (apps _); [apply payload_grows|done].
Qed.
End Growing.

(** ** Numbers that are held *)

(** A number not lower than [seq], accepted not before [lo]. *)
Definition held (lo : Instant) (seq : Z) (v : PeerView) (k : string * string * string) : Prop :=
  exists (s : Z) (t : Instant), peer_seqs v !! k = Some (s, t) /\ (seq <= s)%Z /\ (lo <= t)%Z.

Lemma held_grows lo seq v v' k now : (lo <= now)%Z -> seqs_grow now v v' -> held lo seq v k -> held lo seq v' k.
Proof.
  intros Hlo Hg (s & t & Hs & Hle & Ht). destruct (Hg k) as [E|(s' & E & Hs')].
  - exists s, t. by rewrite E.
  - rewrite Hs in Hs'. simpl in Hs'. exists s', now. split_and!; [done|lia|done].
Qed.

Lemma held_sweep lo seq v v' k now :
  (now < lo + from_secs 60)%Z -> peer_seqs v' = peer_seqs (gc_peer_sequences v now) -> held lo seq v k -> held lo seq v' k.
Proof.
  intros Hnow E (s & t & Hs & Hle & Ht). exists s, t. split; [|done]. rewrite E. simpl.
  apply map_lookup_filter_Some_2; [done|]. simpl. apply Z.ltb_lt. unfold duration_since.
  change (SNAPSHOT_TTL * 4)%Z with (from_secs 60). unfold from_secs in *. lia.
Qed.

Lemma held_applied lo seq v node app key : held lo seq v (node, app, key) -> (seq <= applied v node app key)%Z.
Proof. intros (s & t & Hs & Hle & _). unfold applied. by rewrite Hs. Qed.

Lemma held_accept v node app key seq now :
  (applied v node app key < seq)%Z -> (0 < seq)%Z ->
  held now seq (accept_seq v node app key seq now).2 (node, app, key).
Proof.
  intros Ha Hp. unfold accept_seq, applied in *. destruct (Z.eqb_spec seq 0); [lia|].
  exists seq, now. destruct (Z.leb_spec seq (default (0%Z, now) (peer_seqs v !! (node, app, key))).1) as [Hl|]; simpl.
  - destruct (peer_seqs v !! (node, app, key)) as [[s t]|]; simpl in *; lia.
  - rewrite lookup_insert_eq. split_and!; [done|lia|lia].
Qed.

(** ** The node in between *)

Section Stale.
Context `{HI : HashIter} `{WI : Wire} `{SJ : SerdeJson} `{CR : Crypto} `{IP : InboundParser} `{GL : GlobLib}
  `{FG : Figment} `{SB : SecretBox} `{BP : BodyParser}.
Context (cfg : Config) (base : Z) (overflow : WebhookOverflow) (prefix : string).
Context (Hscaling : scaling_enabled cfg = true).

Abbreviation hears sys env now := (put sys (handle_incoming cfg (Some (transition_sink base overflow)) (sys_node sys) env
                                              (app_by_id (sys_apps sys)) now) (sys_tasks sys)).

(** Any step of the node, its messages not before [lo] and its sweeps before [hi]. *)
Inductive timed_step (lo hi : Instant) : System -> System -> Prop :=
| timed_own sys sys' : own_step cfg base overflow prefix sys sys' -> timed_step lo hi sys sys'
| timed_bus sys env now : (lo <= now)%Z -> timed_step lo hi sys (hears sys env now)
| timed_sweep sys now : (now < hi)%Z ->
    timed_step lo hi sys (put sys (presence_cache_gc cfg base overflow (sys_node sys) (sys_apps sys) now) (sys_tasks sys))
| timed_worker sys op : op ∈ [Forward; Take; Mark; Finish] ->
    timed_step lo hi sys (put sys (set_bus (sys_node sys) (bus_step (publish_overflow cfg) op (nd_bus (sys_node sys))))
                            (sys_tasks sys)).

Lemma timed_sys lo hi sys sys' : timed_step lo hi sys sys' -> sys_step cfg base overflow prefix sys sys'.
Proof. destruct 1; [by apply sys_own|apply sys_bus|apply sys_sweep|by apply sys_worker]. Qed.

Lemma timed_held lo seq k sys sys' :
  sys_reachable cfg base overflow prefix sys ->
  timed_step lo (lo + from_secs 60)%Z sys sys' ->
  held lo seq (nd_view (sys_node sys)) k -> held lo seq (nd_view (sys_node sys')) k.
Proof using Hscaling.
  intros Hr Hstep. destruct Hstep as [sys sys' Ho|sys env now Hn|sys now Hn|sys op _]; [| | |done].
  - destruct (own_step_speaks cfg base overflow Hscaling (Session EmptyString EmptyString) I prefix sys sys'
      (node_manager _ _ (inv_node _ _ (reachable_inv _ _ _ _ _ Hr))) Ho) as [_ ->]. done.
  - apply (held_grows lo seq _ _ k now Hn). apply incoming_grows.
  - apply (held_sweep lo seq _ _ k now Hn). apply (sweep_view cfg base overflow (sys_node sys) (sys_apps sys) now).
Qed.

Lemma timed_run lo seq k sys sys' :
  sys_reachable cfg base overflow prefix sys -> rtc (timed_step lo (lo + from_secs 60)%Z) sys sys' ->
  held lo seq (nd_view (sys_node sys)) k ->
  held lo seq (nd_view (sys_node sys')) k /\ sys_reachable cfg base overflow prefix sys'.
Proof using Hscaling.
  intros Hr Hrun. induction Hrun as [|s1 s2 s3 H12 _ IH]; intros Hh; [done|].
  apply IH; [by eapply sys_next, timed_sys|]. by eapply timed_held.
Qed.

(** A live update that is news leaves its number. *)
Lemma live_held sys live app origin channel t1 :
  app_by_id (sys_apps sys) (ref_id (env_app live)) = Some app ->
  (version live <= SCALING_VERSION)%Z -> live_presence origin channel (payload live) -> origin <> node_id cfg ->
  (applied (nd_view (sys_node sys)) origin (app_id app) ("p:" +:+ channel) < env_seq live)%Z -> (0 < env_seq live)%Z ->
  held t1 (env_seq live) (nd_view (sys_node (hears sys live t1))) (origin, app_id app, "p:" +:+ channel).
Proof.
  intros Happ Hv Hlive Ho Ha Hp. simpl. unfold handle_incoming. rewrite (proj2 (Z.ltb_ge _ _) Hv), Happ.
  rewrite (applied_ext _ (nd_view (saw_peer cfg (sys_node sys) (payload live) t1))) in Ha
    by (symmetry; apply saw_peer_frame).
  set (nd1 := saw_peer _ _ _ _) in *. clearbody nd1.
  pose proof (held_accept _ _ _ _ _ t1 Ha Hp) as Hh.
  destruct Hlive as [(uid & info & E)|(uid & ww & vw & E)]; rewrite E; cbn [handle_payload];
    rewrite (proj2 (String.eqb_neq _ _) Ho); unfold node_accept; destruct (accept_seq _ _ _ _ _ _) as [ok v];
    (destruct ok; [|exact Hh]); rewrite ?added_view, ?removed_view; exact Hh.
Qed.

(** A snapshot numbered no higher than what was applied. *)
Lemma stale_snapshot nd snap apps origin channel ms t2 :
  (forall app, apps (ref_id (env_app snap)) = Some app ->
     (env_seq snap <= applied (nd_view nd) origin (app_id app) ("p:" +:+ channel))%Z) ->
  payload snap = PPresenceSnapshot origin channel ms -> (0 < env_seq snap)%Z ->
  let nd' := handle_incoming cfg (Some (transition_sink base overflow)) nd snap apps t2 in
  (forall id c n, roster_of (nd_view nd') id c n = roster_of (nd_view nd) id c n) /\ nd_mbs nd' = nd_mbs nd.
Proof.
  intros Hap Hsnap Hpos nd'. unfold nd', handle_incoming. destruct (_ <? _)%Z; [done|].
  rewrite Hsnap. destruct (saw_peer_frame cfg nd (PPresenceSnapshot origin channel ms) t2) as (Hs & Hc & Hm).
  set (nd1 := saw_peer cfg nd _ t2) in *.
  assert (forall id c n, roster_of (nd_view nd1) id c n = roster_of (nd_view nd) id c n) as Hro
    by (intros; unfold roster_of; by rewrite Hc).
  destruct (apps (ref_id (env_app snap))) as [app|]; [|done]. cbn [handle_payload].
  destruct (String.eqb origin (node_id cfg)); [done|]. specialize (Hap app eq_refl).
  rewrite <- (applied_ext _ _ origin (app_id app) ("p:" +:+ channel) Hs) in Hap.
  unfold apply_remote_presence_snapshot, node_accept.
  destruct (accept_seq_stale _ _ _ _ _ t2 Hpos Hap) as [Hf Hpc].
  destruct (accept_seq (nd_view nd1) _ _ _ _ t2) as [ok v]. simpl in *. subst ok. simpl.
  split; [|done]. intros id c n. rewrite touch_roster. unfold roster_of. by rewrite Hpc, Hc.
Qed.

(** C19: A snapshot cannot undo a newer live update.  A node applies a peer's
    live join or leave; after that come any number of steps of the node, of
    any kind: clients, API requests, background tasks, reloads, other messages
    of that or any other peer, and sweeps of silent peers, these within a
    minute of the update (four times [SNAPSHOT_TTL], after which the sweep
    drops the number and the guard with it).  If then a roster snapshot
    arrives that the peer numbered before that update or with it, no stored
    roster changes and no local subscriber is sent anything. *)
Theorem snapshot_no_undo sys live snap app origin channel ms t1 sys' t2 :
  sys_reachable cfg base overflow prefix sys ->
  app_by_id (sys_apps sys) (ref_id (env_app live)) = Some app -> (version live <= SCALING_VERSION)%Z ->
  live_presence origin channel (payload live) -> origin <> node_id cfg ->
  (applied (nd_view (sys_node sys)) origin (app_id app) ("p:" +:+ channel) < env_seq live)%Z ->
  rtc (timed_step t1 (t1 + from_secs 60)%Z) (hears sys live t1) sys' ->
  payload snap = PPresenceSnapshot origin channel ms -> ref_id (env_app snap) = ref_id (env_app live) ->
  (0 < env_seq snap <= env_seq live)%Z ->
  let after := sys_node (hears sys' snap t2) in
  (forall id c n, roster_of (nd_view after) id c n = roster_of (nd_view (sys_node sys')) id c n) /\
  nd_mbs after = nd_mbs (sys_node sys').
Proof using Hscaling.
  intros Hr Happ Hv Hlive Ho Hnew Hrun Hsnap Href [Hpos Hseq] after.
  destruct (timed_run t1 (env_seq live) (origin, app_id app, "p:" +:+ channel) _ _
    (sys_next _ _ _ _ _ _ Hr (sys_bus _ _ _ _ sys live t1)) Hrun) as [Hh Hr'].
  { by apply live_held; try lia. }
  apply (stale_snapshot _ _ _ origin channel ms); [|done|done]. intros app' Happ'.
  pose proof (index_ids _ (inv_apps _ _ (reachable_inv _ _ _ _ _ Hr'))) as Hids'.
  pose proof (index_ids _ (inv_apps _ _ (reachable_inv _ _ _ _ _ Hr))) as Hids.
  rewrite (Hids' _ _ Happ'), Href, <- (Hids _ _ Happ). etrans; [exact Hseq|]. by apply held_applied in Hh.
Qed.
End Stale.

(** ** Witness *)

Section Witnesses.
#[local] Existing Instance canonical_iter.
#[local] Existing Instance demo_crypto.
#[local] Existing Instance h_wire.
#[local] Existing Instance h_json.
#[local] Existing Instance h_figment.
#[local] Existing Instance h_body.
#[local] Existing Instance h_parser.
#[local] Existing Instance literal_globs.
#[local] Existing Instance toy_box.

Abbreviation demo_hears sys env now :=
  (put sys (handle_incoming (demo_cfg "n1") (Some (transition_sink 100 WBestEffort)) (sys_node sys) env
              (app_by_id (sys_apps sys)) now) (sys_tasks sys)).

Definition late_sys : System := sys_start (demo_cfg "n1") WBestEffort demo_index.
Definition late_live : System := demo_hears late_sys (demo_env 5 (PMemberAdded "n2" "presence-x" "u" None)) 0%Z.
Definition late_other : System :=
  demo_hears late_live (demo_env 9 (PMemberAdded "n2" "presence-y" "v" None)) (from_secs 5).
Definition late_swept : System :=
  put late_other (presence_cache_gc (demo_cfg "n1") 100 WBestEffort (sys_node late_other) (sys_apps late_other)
                    (from_secs 10)) (sys_tasks late_other).

(** "n2" reports that "u" joined; another of its messages and a sweep later
    comes the empty snapshot it had taken before. *)
Lemma snapshot_no_undo_witness :
  roster_of (nd_view (sys_node (demo_hears late_swept (demo_env 4 (PPresenceSnapshot "n2" "presence-x" []))
                                  (from_secs 11)))) "a" "presence-x" "n2" = Some {[ "u" := None ]}.
Proof.
  transitivity (roster_of (nd_view (sys_node late_swept)) "a" "presence-x" "n2"); [|vm_compute; reflexivity].
  destruct (app_by_id demo_index "a") as [app|] eqn:E; [|vm_compute in E; discriminate E].
  destruct (snapshot_no_undo (demo_cfg "n1") 100 WBestEffort EmptyString eq_refl late_sys
    (demo_env 5 (PMemberAdded "n2" "presence-x" "u" None)) (demo_env 4 (PPresenceSnapshot "n2" "presence-x" []))
    app "n2" "presence-x" [] 0%Z late_swept (from_secs 11)) as [Hr _].
  - apply (sys_init _ _ _ _ [plain_raw "a"]). reflexivity.
  - exact E.
  - vm_compute. congruence.
  - left. eauto.
  - discriminate.
  - vm_compute. reflexivity.
  - eapply (rtc_l _ late_live late_other); [apply timed_bus; vm_compute; discriminate|].
    eapply (rtc_l _ late_other late_swept); [apply timed_sweep; vm_compute; reflexivity|]. apply rtc_refl.
  - reflexivity.
  - reflexivity.
  - vm_compute. split; congruence.
  - exact (Hr "a" "presence-x" "n2").
Defined.
End Witnesses.
