(* ===== verification/Reports.v ===== *)
(** * What a node reports of the fleet

    The queries of the HTTP API ([fleet_channel_stats] and [channel_users] of
    [crates/zatat-http/src/routes.rs]) and of the watchlists ([user_online_anywhere]
    of [crates/zatat-ws/src/handler.rs]), expressed in the facts of the node itself
    and what it heard of its peers. *)

From S2P Require Import Prelude.
From S2P Require Import Core.
From S2P Require Import Json.
From S2P Require Import Envelope.
From S2P Require Import Auth.
From S2P Require Import Connection.
From S2P Require Import Channel.
From S2P Require Import Manager.
From S2P Require Import Message.
From S2P Require Import PeerState.
From S2P Require Import Encryption.
From S2P Require Import Bus.
From S2P Require Import Dispatcher.
From S2P Require Import Webhooks.
From S2P Require Import Routes.
From S2P Require Import Handler.
From S2P Require Import Apps.
From S2P Require Import Router.
From S2P Require Import Tasks.
From S2P Require Import System.
From S2P Require Import HandlerProps.
From S2P Require Import TaskProps.
From S2P Require Import Topic.
From S2P Require Import Speech.
From S2P Require Import Hearing.
From stdpp Require Import options.

(** ** Sums over nodes *)

Definition total (g : string -> Z) (X : gset string) : Z := set_fold (fun n acc => (g n + acc)%Z) 0%Z X.

Lemma total_empty g : total g ∅ = 0%Z.
Proof. apply set_fold_empty. Qed.

Lemma total_insert g n X : n ∉ X -> total g ({[n]} ∪ X) = (g n + total g X)%Z.
Proof.
  intros Hn. unfold total, set_fold. simpl.
  assert (forall l1 l2, Permutation l1 l2 -> foldr (fun n acc => (g n + acc)%Z) 0%Z l1 = foldr (fun n acc => (g n + acc)%Z) 0%Z l2) as H
    by (induction 1; simpl; lia).
  by rewrite (H _ _ (elements_union_singleton X n Hn)).
Qed.

Lemma total_ext g h X : (forall n, n ∈ X -> g n = h n) -> total g X = total h X.
Proof.
  induction X as [|n X Hn IH] using set_ind_L; intros Hg; [done|].
  rewrite !total_insert by done. rewrite Hg, IH by set_solver. done.
Qed.

Lemma total_zero g X : (forall n, n ∈ X -> g n = 0%Z) -> total g X = 0%Z.
Proof.
  induction X as [|n X Hn IH] using set_ind_L; intros Hg; [apply total_empty|].
  rewrite total_insert by done. rewrite Hg, IH by set_solver. done.
Qed.

Lemma total_union g X Y : X ## Y -> total g (X ∪ Y) = (total g X + total g Y)%Z.
Proof.
  induction X as [|n X Hn IH] using set_ind_L; intros Hd; [by rewrite union_empty_l_L, total_empty|].
  rewrite <- union_assoc_L, !total_insert by set_solver. rewrite IH by set_solver. lia.
Qed.

Lemma total_support g X Y :
  (forall n, g n <> 0%Z -> n ∈ X) -> (forall n, g n <> 0%Z -> n ∈ Y) -> total g X = total g Y.
Proof.
  intros HX HY. assert (forall A B, (forall n, g n <> 0%Z -> n ∈ A) -> total g (A ∪ B) = total g A) as H.
  { intros A B HA. rewrite (union_difference_L A (A ∪ B)) by set_solver. rewrite total_union by set_solver.
    rewrite (total_zero g (_ ∖ _)); [lia|]. intros n Hn. destruct (decide (g n = 0%Z)); [done|]. set_solver. }
  rewrite <- (H X Y HX), <- (H Y X HY). by rewrite union_comm_L.
Qed.

(** ** Queries *)

Section Queries.
Context `{HI : HashIter} {W : Type}.
Implicit Types nd : Node W.

(** What was heard of a peer is worth nothing or fresh. *)
Definition credible (t : Topic) (v : PeerView) (now : Instant) : Prop :=
  forall a, heard t v a = nothing t \/ alive t a v now.

(** The users of a presence channel. *)
Lemma reported_users nd app channel now u :
  let t := Members (app_id app) channel in
  credible t (nd_view nd) now ->
  u ∈ fleet_users nd app channel now <-> u ∈ seat_users (seats (nd_channels nd) (app_id app) channel) \/
    exists a, u ∈ heard (Members (app_id app) channel) (nd_view nd) a.
Proof.
  intros t Hal. unfold fleet_users. rewrite elem_of_union. f_equiv.
  - rewrite seats_find. destruct (find_channel _ _ _) as [ch|]; [|done]. unfold seat_users, members_iter.
    rewrite !elem_of_list_to_set, !list_elem_of_omap. setoid_rewrite list_elem_of_fmap. split.
    + intros (e & (x & -> & Hx) & He). exists x. split; [|done]. destruct x. apply elem_of_map_to_list. by apply elem_of_hiter.
    + intros (x & Hx & He). eexists. split; [exists x; split; [done|]|done]. destruct x. apply elem_of_hiter. by apply elem_of_map_to_list in Hx.
  - rewrite elem_of_list_to_set. destruct (remote_members_spec (presence_cache (nd_view nd)) (app_id app) channel now) as [_ ->].
    unfold reports. simpl. split; intros [a Ha]; exists a.
    + destruct Ha as (peer & Hp & _ & Hu). unfold roster_of. rewrite Hp. simpl. by apply elem_of_dom.
    + specialize (Hal a). unfold t, alive, last_word in Hal. simpl in Hal. unfold roster_of in Hal.
      destruct Hal as [Hal|Hal]; [exfalso; revert Ha; unfold roster_of; rewrite Hal; apply not_elem_of_empty|].
      unfold roster_of in Ha. destruct (nodes_of _ _ !! a) as [peer|]; simpl in Ha; [|apply elem_of_dom in Ha as [? Ha]; by rewrite lookup_empty in Ha].
      exists peer. split_and!; [done| |by apply elem_of_dom]. apply Z.leb_le. by apply Hal.
Qed.

(** Whether a user is online. *)
Lemma reported_online nd id u now :
  credible (Session id u) (nd_view nd) now ->
  is_user_online (nd_channels nd) id u || PeerUserSessions.is_present_excluding (peer_user_sessions (nd_view nd)) id u None now = true <->
  is_user_online (nd_channels nd) id u = true \/ exists a, heard (Session id u) (nd_view nd) a = true.
Proof.
  intros Hal. rewrite orb_true_iff, session_present_iff. f_equiv. simpl. setoid_rewrite bool_decide_eq_true.
  unfold PeerUserSessions.users_of. split.
  - intros (a & e & _ & He & _ & Hu). exists a. by rewrite He.
  - intros [a Ha]. specialize (Hal a). unfold alive, last_word in Hal. simpl in Hal. unfold PeerUserSessions.users_of in Hal.
    destruct (nodes_of (peer_user_sessions (nd_view nd)) id !! a) as [e|] eqn:E; simpl in *; [|set_solver].
    exists a, e. split_and!; [done|done| |done]. destruct Hal as [Hal|Hal]; [by apply bool_decide_eq_false in Hal|].
    apply Z.leb_le. by apply Hal.
Qed.

Lemma live_total_heard nd id c now X :
  credible (Subscribers id c) (nd_view nd) now -> (forall a, heard (Subscribers id c) (nd_view nd) a <> 0%Z -> a ∈ X) ->
  live_total (nodes_of (peer_channel_counts (nd_view nd)) (id, c)) now = total (heard (Subscribers id c) (nd_view nd)) X.
Proof.
  unfold credible, alive, last_word. simpl. set (inner := nodes_of _ _). intros Hal HX.
  rewrite <- (total_support _ (dom inner) X); [|intros a Ha|done].
  2:{ unfold heard in Ha. fold inner in Ha. destruct (inner !! a) as [e|] eqn:E; [by apply elem_of_dom; eauto|done]. }
  change (heard (Subscribers id c) (nd_view nd)) with (fun a => default 0%Z (PeerChannelCounts.count <$> inner !! a)).
  clear HX. clearbody inner. revert Hal. induction inner as [|a e inner Ha IH] using map_ind; intros Hal.
  - unfold live_total. by rewrite map_fold_empty, dom_empty_L, total_empty.
  - rewrite live_total_insert, delete_id, dom_insert_L, total_insert by (done || by apply not_elem_of_dom).
    rewrite lookup_insert_eq. simpl. f_equal.
    + specialize (Hal a). rewrite lookup_insert_eq in Hal. simpl in Hal. destruct (fresh now e) eqn:E; [done|].
      destruct Hal as [Hal|Hal]; [done|]. specialize (Hal _ eq_refl). apply Z.leb_gt in E. unfold inserted_at, PeerChannelCounts.CountEntry_stamped in E. lia.
    + rewrite IH.
      * apply total_ext. intros n Hn. rewrite lookup_insert_ne; [done|]. intros ->. by apply not_elem_of_dom in Ha.
      * intros n. specialize (Hal n). destruct (decide (n = a)) as [->|Hne]; [left; by rewrite Ha|]. by rewrite lookup_insert_ne in Hal by done.
Qed.

(** The subscribers of another channel. *)
Lemma reported_count nd app c now X :
  is_presence (kind c) = false -> let t := Subscribers (app_id app) c in
  credible t (nd_view nd) now -> (forall a, heard (Subscribers (app_id app) c) (nd_view nd) a <> 0%Z -> a ∈ X) ->
  cs_subscription_count (fleet_channel_stats nd app c now).1
  = Z.to_nat (wrap_u64 (Z.of_nat (size (seats (nd_channels nd) (app_id app) c)) + total (heard (Subscribers (app_id app) c) (nd_view nd)) X)).
Proof.
  intros Hp t Hal HX. unfold fleet_channel_stats, channel_stats. rewrite seats_find.
  change (from_name c) with (kind c). rewrite Hp. rewrite <- (live_total_heard nd (app_id app) c now X Hal HX).
  assert (forall n v, wrap_u64 (n + PeerChannelCounts.sum v (app_id app) c now) = wrap_u64 (n + live_total (nodes_of v (app_id app, c)) now)) as Hsum.
  { intros n v. rewrite sum_spec. unfold wrap_u64. by rewrite Zplus_mod_idemp_r. }
  destruct (find_channel (nd_channels nd) (app_id app) c) as [ch|]; cbn; [|by rewrite Hsum].
  unfold stats. destruct (has_cached_payload ch now) as [cached ch']. cbn. by rewrite Hsum.
Qed.
End Queries.
