(* ===== verification/Lifecycle.v ===== *)
(** * zatat-ws: the life of a server

    Models [crates/zatat-ws/src/state.rs] (construction from a configuration,
    the draining flag), the health endpoint of [router.rs], the draining branch
    of [run_connection] and the close frames of [handler.rs], and the restart
    watcher of [tasks.rs].  The connections are those of file System; here an
    upgrade is admitted by the router first and starts later, so that a
    shutdown can fall in between. *)

From S2P Require Import Prelude.
From S2P Require Import Core.
From S2P Require Import Json.
From S2P Require Import Envelope.
From S2P Require Import Auth.
From S2P Require Import Connection.
From S2P Require Import Channel.
From S2P Require Import Manager.
From S2P Require Import Apps.
From S2P Require Import Settings.
From S2P Require Import Router.
From S2P Require Import Message.
From S2P Require Import Encryption.
From S2P Require Import Bus.
From S2P Require Import Dispatcher.
From S2P Require Import Webhooks.
From S2P Require Import Routes.
From S2P Require Import Handler.
From S2P Require Import Tasks.
From S2P Require Import System.
From S2P Require Import HandlerProps.
From S2P Require Import TaskProps.
From stdpp Require Import options.

(** ** Closing frames *)

Inductive WsOut := OutText (text : string) | OutClose (code : Z) (reason : string).

Definition pusher_close (code : Z) (reason : string) : WsOut := OutClose code reason.

Definition send_close `{SJ : SerdeJson} (code : Z) (reason : string) : list WsOut :=
  [OutText (error_with_message code reason); pusher_close code reason].

Definition run_rejected_connection `{SJ : SerdeJson} (code : Z) (reason : string) : list WsOut :=
  send_close code reason.

(** ** The server state *)

Record ServerState := {
  ss_server : ServerConfig;
  ss_system : System;
  ss_shutdown : bool;
  (** Upgrades the router admitted whose task has not started yet. *)
  ss_upgrades : list (App * option string)
}.

Definition with_system (st : ServerState) (sys : System) : ServerState :=
  {| ss_server := ss_server st; ss_system := sys; ss_shutdown := ss_shutdown st; ss_upgrades := ss_upgrades st |}.

Definition publish_overflow_of (server : ServerConfig) : PublishOverflow :=
  match sv_scaling server with
  | Some s => match sc_overflow_mode s with ModeBestEffort => BestEffort | ModeBlock => Block end
  | None => BestEffort
  end.

Definition webhook_overflow_of (server : ServerConfig) : WebhookOverflow :=
  match sv_webhook_overflow_mode server with ModeBestEffort => WBestEffort | ModeBlock => WBlock end.

(** The settings of the dispatcher; the node id is random. *)
Definition dispatcher_config (server : ServerConfig) (scaling : bool) (node : string) : Config :=
  {| scaling_enabled := scaling; node_id := node; publish_overflow := publish_overflow_of server |}.

Definition with_provider (config : LoadedConfig) (scaling : bool) (node : string) : ServerState :=
  {| ss_server := lc_server config;
     ss_system := sys_start (dispatcher_config (lc_server config) scaling node)
                    (webhook_overflow_of (lc_server config)) (lc_apps config);
     ss_shutdown := false; ss_upgrades := [] |}.

(** [ServerStateInner::new]. *)
Definition ServerState_new (config : LoadedConfig) (node : string) : ServerState :=
  with_provider config false node.

Definition shutdown_now (st : ServerState) : ServerState :=
  {| ss_server := ss_server st; ss_system := ss_system st; ss_shutdown := true; ss_upgrades := ss_upgrades st |}.

Definition is_draining (st : ServerState) : bool := ss_shutdown st.

Definition connection_count_total (st : ServerState) : nat :=
  sum_list_with (connection_count (nd_channels (sys_node (ss_system st))))
    (elements (dom (by_id (sys_apps (ss_system st))))).

(** Status and body of [/health] and [/up]. *)
Definition health (st : ServerState) : Z * string :=
  if is_draining st then (503%Z, "draining") else (200%Z, "ok").

(** ** The restart file *)

(** What the file system says of the file: its modification time, that it has
    none, that there is no file, or another error. *)
Inductive FileMeta := MTime (t : Instant) | NoMTime | NotFound | StatError.

Definition restart_poll (server : ServerConfig) : Duration :=
  Z.max (sv_restart_poll_interval server) (from_secs 1).

(** One turn of [restart_signal_watcher]. *)
Definition restart_turn (started_at : Instant) (meta : FileMeta) (st : ServerState) : ServerState :=
  match meta with
  | MTime t => if (started_at <? t)%Z then shutdown_now st else st
  | _ => st
  end.

Section Life.
Context `{HI : HashIter} `{WI : Wire} `{SJ : SerdeJson} `{CR : Crypto} `{IP : InboundParser}.
Context `{GL : GlobLib} `{FG : Figment} `{SB : SecretBox} `{BP : BodyParser}.
Context (cfg : Config) (base : Z) (overflow : WebhookOverflow) (prefix : string).

(** An upgrade request. *)
Definition upgrade (st : ServerState) (key : AppKey) (protocol : option string) (header : OriginHeader)
  : Upgrade * ServerState :=
  let u := ws_upgrade (is_draining st) (sys_apps (ss_system st)) key protocol header in
  match u with
  | Upgraded _ app o =>
      (u, {| ss_server := ss_server st; ss_system := ss_system st; ss_shutdown := ss_shutdown st;
             ss_upgrades := ss_upgrades st ++ [(app, o)] |})
  | _ => (u, st)
  end.

(** An admitted upgrade starts its task. *)
Definition start_connection (st : ServerState) (s : SocketId) (tx : nat) (sent : bool) (secs : Z) : ServerState :=
  match ss_upgrades st with
  | [] => st
  | (app, origin) :: rest =>
      {| ss_server := ss_server st; ss_system := (open_connection (ss_system st) app s tx origin sent secs).2;
         ss_shutdown := ss_shutdown st; ss_upgrades := rest |}
  end.

(** The draining branch of a connection's loop. *)
Definition drain_connection (st : ServerState) (s : SocketId) (now : Instant) : list WsOut * ServerState :=
  ([pusher_close 1001 "server going away"],
   with_system st (close_connection cfg base overflow (ss_system st) s now)).

(** The kick branch: a queue overflowed, the slow subscriber is dropped. *)
Definition kick_connection (st : ServerState) (s : SocketId) (now : Instant) : list WsOut * ServerState :=
  (send_close 4301 "slow subscriber",
   with_system st (close_connection cfg base overflow (ss_system st) s now)).

(** A step of the server: a request to upgrade, the start of an admitted
    connection, the draining or the kick branch of an open one, the start of a
    shutdown, or any step of file System that opens no connection. *)
Inductive life_step : ServerState -> ServerState -> Prop :=
| life_upgrade st key protocol origin : life_step st (upgrade st key protocol origin).2
| life_start st s tx sent secs app origin rest :
    ss_upgrades st = (app, origin) :: rest ->
    sys_tasks (ss_system st) !! s = None ->
    handle_for_socket (nd_channels (sys_node (ss_system st))) (app_id app) s = None ->
    (forall s' k, sys_tasks (ss_system st) !! s' = Some k -> h_tx (k_handle k) <> tx) ->
    life_step st (start_connection st s tx sent secs)
| life_drain st s now : is_draining st = true -> life_step st (drain_connection st s now).2
| life_kick st s k mb now :
    sys_tasks (ss_system st) !! s = Some k ->
    nd_mbs (sys_node (ss_system st)) !! h_tx (k_handle k) = Some mb -> mb_kicked mb = true ->
    life_step st (kick_connection st s now).2
| life_shutdown st : life_step st (shutdown_now st)
| life_restart st started meta : life_step st (restart_turn started meta st)
| life_turn st sys' :
    sys_step cfg base overflow prefix (ss_system st) sys' ->
    dom (sys_tasks sys') ⊆ dom (sys_tasks (ss_system st)) ->
    life_step st (with_system st sys').

(** What is left to close: connections, and upgrades that will become one. *)
Definition open_work (st : ServerState) : nat :=
  size (sys_tasks (ss_system st)) + 2 * length (ss_upgrades st).
End Life.

(** The histories of a server started on a configuration that compiled. *)
Section Runs.
Context `{HI : HashIter} `{WI : Wire} `{SJ : SerdeJson} `{CR : Crypto} `{IP : InboundParser}.
Context `{GL : GlobLib} `{FG : Figment} `{SB : SecretBox} `{BP : BodyParser}.
Context (base : Z) (prefix : string) (raw : RawConfig) (scaling : bool) (node : string).

Definition run_config (config : LoadedConfig) : Config :=
  dispatcher_config (lc_server config) scaling node.

Inductive life_reachable (config : LoadedConfig) : ServerState -> Prop :=
| life_init : compile raw = Ok config -> life_reachable config (with_provider config scaling node)
| life_next st st' :
    life_reachable config st ->
    life_step (run_config config) base (webhook_overflow_of (lc_server config)) prefix st st' ->
    life_reachable config st'.

(** Every state of a run is a reachable state of the connection system. *)
Lemma life_system config st :
  life_reachable config st ->
  sys_reachable (run_config config) base (webhook_overflow_of (lc_server config)) prefix (ss_system st).
Proof.
  induction 1 as [Hc|st st' _ IH Hs].
  - unfold compile in Hc. destruct (build_app_index (raw_apps raw)) as [idx|] eqn:E; [|done].
    injection Hc as <-. by apply (sys_init _ _ _ _ (raw_apps raw)).
  - destruct Hs as [st key protocol origin|st s tx sent secs app origin rest Hu Hs Hh Ht|st s now _|st s k mb now _ _ _|st|st started meta|st sys' Hs _].
    + unfold upgrade. by destruct (ws_upgrade _ _ _ _ _).
    + unfold start_connection. rewrite Hu. simpl. eapply sys_next; [done|]. by apply sys_own, own_open.
    + simpl. eapply sys_next; [done|]. apply sys_own, own_close.
    + simpl. eapply sys_next; [done|]. apply sys_own, own_close.
    + done.
    + unfold restart_turn. destruct meta; try done. by destruct (_ <? _)%Z.
    + simpl. by eapply sys_next.
Qed.

Lemma close_tasks cfg overflow sys s now :
  sys_tasks (close_connection cfg base overflow sys s now) = delete s (sys_tasks sys).
Proof.
  unfold close_connection. destruct (sys_tasks sys !! s) as [k|] eqn:E; simpl; [done|]. by rewrite delete_id.
Qed.

Lemma open_tasks sys app s tx origin sent secs :
  sys_tasks sys !! s = None ->
  size (sys_tasks (open_connection sys app s tx origin sent secs).2) <= S (size (sys_tasks sys)).
Proof.
  intros Hs. unfold open_connection. destruct (register_connection _ _ _) as [[u|e] m]; simpl; [|lia].
  destruct sent; simpl; [|lia]. rewrite map_size_insert_None by done. lia.
Qed.

(** A fresh socket id and a fresh channel always exist. *)
Lemma fresh_socket cfg sys :
  sys_inv cfg sys ->
  exists s tx, sys_tasks sys !! s = None /\
    (forall id, handle_for_socket (nd_channels (sys_node sys)) id s = None) /\
    (forall s' k, sys_tasks sys !! s' = Some k -> h_tx (k_handle k) <> tx).
Proof.
  intros Hi. set (s := fresh (dom (sys_tasks sys))).
  assert (sys_tasks sys !! s = None) as Hs by (apply not_elem_of_dom; apply is_fresh).
  exists s, (fresh (list_to_set ((fun k => h_tx (k_handle k)) <$> (map_to_list (sys_tasks sys)).*2) : gset nat)).
  split_and!; [done| |].
  - intros id. destruct (handle_for_socket _ id s) as [h|] eqn:E; [|done].
    assert (conn_of (nd_channels (sys_node sys)) id s = Some h) as Hc.
    { unfold conn_of, app_slot, handle_for_socket in *. by destruct (nd_channels (sys_node sys) !! id). }
    apply (inv_conn _ _ Hi) in Hc as (k & Hk & _). congruence.
  - intros s' k Hk Heq.
    pose proof (is_fresh (list_to_set ((fun k => h_tx (k_handle k)) <$> (map_to_list (sys_tasks sys)).*2) : gset nat)) as Hf.
    apply Hf. rewrite <- Heq, elem_of_list_to_set. apply list_elem_of_fmap. exists k. split; [done|].
    apply list_elem_of_fmap. exists (s', k). split; [done|]. by apply elem_of_map_to_list.
Qed.

(** While draining no step adds work. *)
Lemma drain_monotone cfg overflow st st' :
  is_draining st = true -> life_step cfg base overflow prefix st st' ->
  is_draining st' = true /\ open_work st' <= open_work st.
Proof.
  intros Hd Hs. unfold open_work.
  destruct Hs as [st key protocol origin|st s tx sent secs app origin rest Hu Hs _ _|st s now _|st s k mb now _ _ _|st|st started meta|st sys' _ Hsub].
  - unfold upgrade, ws_upgrade. rewrite Hd. simpl. auto.
  - unfold start_connection. rewrite Hu. simpl. split; [done|].
    pose proof (open_tasks (ss_system st) app s tx origin sent secs Hs). lia.
  - simpl. rewrite close_tasks. split; [done|]. rewrite map_size_delete.
    destruct (sys_tasks (ss_system st) !! s); simpl; lia.
  - simpl. rewrite close_tasks. split; [done|]. rewrite map_size_delete.
    destruct (sys_tasks (ss_system st) !! s); simpl; lia.
  - simpl. auto.
  - unfold restart_turn. destruct meta; try (split; [done|lia]). by destruct (_ <? _)%Z.
  - simpl. split; [done|]. rewrite <- !size_dom. apply subseteq_size in Hsub. lia.
Qed.

(** As long as work is left, some step removes some of it. *)
Lemma drain_progress config st :
  life_reachable config st -> is_draining st = true -> open_work st <> 0 ->
  exists st', life_step (run_config config) base (webhook_overflow_of (lc_server config)) prefix st st' /\
    open_work st' < open_work st.
Proof.
  intros Hr Hd Hw. pose proof (reachable_inv _ _ _ _ _ (life_system _ _ Hr)) as Hi.
  destruct (ss_upgrades st) as [|[app origin] rest] eqn:Eu.
  - destruct (decide (sys_tasks (ss_system st) = ∅)) as [He|(s & k & Hk)%map_choose].
    { exfalso. apply Hw. unfold open_work. by rewrite He, Eu, map_size_empty. }
    eexists. split; [by apply (life_drain _ _ _ _ st s 0%Z)|]. unfold open_work. simpl. rewrite close_tasks, Eu.
    pose proof (map_size_delete_Some s _ (mk_is_Some _ _ Hk)) as H1.
    assert (size (sys_tasks (ss_system st)) <> 0) by (intros H0%map_size_empty_iff; by rewrite H0, lookup_empty in Hk).
    simpl. lia.
  - destruct (fresh_socket _ _ Hi) as (s & tx & Hs & Hh & Ht).
    eexists. split; [by eapply (life_start _ _ _ _ st s tx true 0%Z)|]. unfold open_work, start_connection. rewrite Eu.
    pose proof (open_tasks (ss_system st) app s tx origin true 0%Z Hs). simpl. lia.
Qed.

(** A drained server holds nothing. *)
Lemma drained_empty config st :
  life_reachable config st -> open_work st = 0 ->
  let m := nd_channels (sys_node (ss_system st)) in
  forall id, connection_count m id = 0 /\ (forall n s, ~ member m id n s) /\ (forall u s, s ∉ user_sockets m id u).
Proof.
  intros Hr Hw m id. pose proof (reachable_inv _ _ _ _ _ (life_system _ _ Hr)) as Hi.
  assert (sys_tasks (ss_system st) = ∅) as He by (apply map_size_empty_iff; unfold open_work in Hw; lia).
  destruct Hi as [_ _ Hm Hu Hc _]. rewrite He in *.
  assert (forall s P, ~ open_as ∅ id s P) as Hno by (intros s P (k & Hk & _); by rewrite lookup_empty in Hk).
  split_and!.
  - unfold connection_count. specialize (fun s h => Hc id s h). unfold conn_of, app_slot in Hc. fold m in Hc.
    destruct (m !! id) as [slot|]; [|done]. simpl in Hc. apply map_size_empty_iff, map_empty. intros s.
    destruct (connections slot !! s) as [h|] eqn:E; [|done]. by apply Hc, Hno in E.
  - intros n s Hmm. by apply Hm, Hno in Hmm.
  - intros u s Hin. by apply Hu, Hno in Hin.
Qed.

Lemma drain_reaches config st :
  life_reachable config st -> is_draining st = true ->
  exists n st', n <= open_work st /\
    nsteps (life_step (run_config config) base (webhook_overflow_of (lc_server config)) prefix) n st st' /\
    life_reachable config st' /\ open_work st' = 0.
Proof.
  remember (open_work st) as w eqn:Ew. revert st Ew.
  induction w as [w IH] using lt_wf_ind; intros st -> Hr Hd.
  destruct (decide (open_work st = 0)) as [Hz|Hz]; [exists 0, st; split_and!; [lia|constructor|done|done]|].
  destruct (drain_progress config st Hr Hd Hz) as (st1 & Hs & Hlt).
  destruct (drain_monotone _ _ _ _ Hd Hs) as [Hd1 _].
  destruct (IH _ Hlt st1 eq_refl (life_next _ _ _ Hr Hs) Hd1) as (n & st' & Hn & Hsteps & Hr' & H0).
  exists (S n), st'. split_and!; [lia| |done|done]. by econstructor.
Qed.

(** C21: Once a shutdown has begun it runs to its end.  It cannot be undone: the
    health check fails, every further upgrade is refused, and no step of the
    server adds work.  Within as many steps as there are connections and
    admitted upgrades (twice for an upgrade: it starts first) all of them can
    be closed, and then no connection, subscription or signed-in user is left
    in any application. *)
Theorem drain_completes config st :
  life_reachable config st -> is_draining st = true ->
  health st = (503%Z, "draining") /\
  (forall key protocol origin, upgrade st key protocol origin = (Unavailable, st)) /\
  (forall st', life_step (run_config config) base (webhook_overflow_of (lc_server config)) prefix st st' ->
     is_draining st' = true /\ open_work st' <= open_work st) /\
  exists n st', n <= open_work st /\
    nsteps (life_step (run_config config) base (webhook_overflow_of (lc_server config)) prefix) n st st' /\
    let m := nd_channels (sys_node (ss_system st')) in
    forall id, connection_count m id = 0 /\ (forall c s, ~ member m id c s) /\ (forall u s, s ∉ user_sockets m id u).
Proof.
  intros Hr Hd. split_and!.
  - unfold health. by rewrite Hd.
  - intros. unfold upgrade, ws_upgrade. by rewrite Hd.
  - intros st' Hs. by eapply drain_monotone.
  - destruct (drain_reaches config st Hr Hd) as (n & st' & Hn & Hs & Hr' & H0).
    exists n, st'. split_and!; [done|done|]. by apply drained_empty with config.
Qed.
End Runs.

(** ** Witness *)

Section Witnesses.
#[local] Existing Instance canonical_iter.
#[local] Existing Instance demo_crypto.
#[local] Existing Instance h_wire.
#[local] Existing Instance h_json.
#[local] Existing Instance h_figment.
#[local] Existing Instance h_body.
#[local] Existing Instance h_parser.
#[local] Existing Instance literal_globs.
#[local] Existing Instance toy_box.

Definition demo_raw_config : RawConfig := {| raw_server := RawServer_default; raw_apps := [plain_raw "a"] |}.

Definition demo_config : LoadedConfig :=
  match compile demo_raw_config with
  | Ok c => c
  | Err _ => {| lc_server := compile_server RawServer_default; lc_apps := {| by_id := ∅; by_key := ∅ |} |}
  end.

(** One admitted upgrade, then a shutdown. *)
Definition demo_draining : ServerState :=
  shutdown_now (upgrade (with_provider demo_config true "n1") "key" None OriginAbsent).2.

Lemma demo_draining_reachable : life_reachable 100 EmptyString demo_raw_config true "n1" demo_config demo_draining.
Proof.
  eapply life_next; [|apply life_shutdown]. eapply life_next; [|apply life_upgrade].
  apply life_init. reflexivity.
Qed.

Lemma drain_completes_witness :
  open_work demo_draining = 2 /\ health demo_draining = (503%Z, "draining").
Proof.
  split; [vm_compute; reflexivity|].
  exact (proj1 (drain_completes 100 EmptyString demo_raw_config true "n1" demo_config demo_draining
    demo_draining_reachable eq_refl)).
Defined.

(** An upgrade admitted before a reload and started after it. *)
Definition late_start : ServerState :=
  let st := (upgrade (with_provider demo_config true "n1") "key" None OriginAbsent).2 in
  let st := with_system st (reload_step (ss_system st) (Ok [])) in
  start_connection st "1.1" 0 true 0%Z.

Lemma reload_tasks sys raws : sys_tasks (reload_step sys raws) = sys_tasks sys.
Proof. unfold reload_step. by destruct (reload_apps_with _ _) as [[r|e] next]. Qed.

Lemma late_start_reachable : life_reachable 100 EmptyString demo_raw_config true "n1" demo_config late_start.
Proof.
  eapply life_next; [eapply life_next; [eapply life_next; [apply life_init; reflexivity|apply life_upgrade]|]|].
  - apply life_turn; [apply sys_own, (own_reload _ _ _ _ _ (Ok []))|]. by rewrite reload_tasks.
  - eapply life_start; [vm_compute; reflexivity|vm_compute; reflexivity|vm_compute; reflexivity|].
    intros s k H. vm_compute in H. discriminate H.
Qed.

(** A reload closes the registered connections of a removed application, but a
    connection whose upgrade was admitted just before it registers afterwards:
    it is open for an application that no longer exists, and nothing tells it
    to close. *)
Theorem late_start_escapes_reload :
  exists st s k,
    life_reachable 100 EmptyString demo_raw_config true "n1" demo_config st /\
    sys_tasks (ss_system st) !! s = Some k /\
    app_by_id (sys_apps (ss_system st)) (app_id (k_app k)) = None /\
    mb_queue <$> nd_mbs (sys_node (ss_system st)) !! h_tx (k_handle k) = Some [].
Proof.
  destruct (sys_tasks (ss_system late_start) !! "1.1") as [k|] eqn:E; [|vm_compute in E; discriminate E].
  exists late_start, "1.1", k. split; [apply late_start_reachable|]. split; [done|].
  assert (app_id (k_app k) = "a" /\ h_tx (k_handle k) = 0) as [-> ->]
    by (pose proof E as E'; vm_compute in E'; injection E' as <-; split; reflexivity).
  split; vm_compute; reflexivity.
Qed.
End Witnesses.
