(* ===== verification/Cli.v ===== *)
(** * zatat-cli: the process

    Models [crates/zatat-cli/src/main.rs]: the supervisor of the background
    tasks, the subscriber of the bus, the watchers of the configuration and of
    the certificate, the choice of provider, the open-file limit, the flush of
    the outbound queues at the end of a shutdown, and the [ping] command.  The
    operating system, timers and sockets are inputs. *)

From S2P Require Import Prelude.
From S2P Require Import Core.
From S2P Require Import Json.
From S2P Require Import Auth.
From S2P Require Import HttpSign.
From S2P Require Import Connection.
From S2P Require Import Manager.
From S2P Require Import Apps.
From S2P Require Import Settings.
From S2P Require Import Redis.
From S2P Require Import Message.
From S2P Require Import Bus.
From S2P Require Import Dispatcher.
From S2P Require Import Webhooks.
From S2P Require Import WebhookWorker.
From S2P Require Import Handler.
From S2P Require Import Tasks.
From S2P Require Import System.
From S2P Require Import HandlerProps.
From S2P Require Import TaskProps.
From S2P Require Import Lifecycle.
From stdpp Require Import options.

(** ** The supervisor *)

(** How a supervised task ends. *)
Inductive TaskEnd := ExitedCleanly | Panicked | Cancelled.

(** The pauses, in milliseconds, before each respawn for a sequence of ends,
    and whether the supervisor itself stopped. *)
Fixpoint supervise_from (backoff_ms : Z) (ends : list TaskEnd) : list Z * bool :=
  match ends with
  | [] => ([], false)
  | Cancelled :: _ => ([], true)
  | _ :: rest =>
      let '(pauses, stopped) := supervise_from (Z.min (wrap_u64 (backoff_ms * 2)) 30000) rest in
      (backoff_ms :: pauses, stopped)
  end.

Definition supervise (ends : list TaskEnd) : list Z * bool := supervise_from 500 ends.

(** ** The subscriber of the bus *)

(** What the provider's stream yields. *)
Inductive Recv := Got (bytes : string) | Lagged (n : Z) | StreamClosed.

Definition LAG_WARN_INTERVAL : Duration := from_secs 10.

Record Subscriber := {
  sb_node : Server;
  sb_lagged_total : Z;
  sb_last_warn : option Instant;
  sb_warned : list Instant
}.

Section Subscribe.
Context `{HI : HashIter} `{WI : Wire} `{SJ : SerdeJson}.
Context (cfg : Config) (base : Z) (overflow : WebhookOverflow) (apps : AppIndex).

Definition on_bytes (nd : Server) (bytes : string) (now : Instant) : Server :=
  match parse bytes with
  | Some env => handle_incoming cfg (Some (transition_sink base overflow)) nd env (app_by_id apps) now
  | None => nd
  end.

Definition on_lag (sb : Subscriber) (n : Z) (now : Instant) : Subscriber :=
  let should_warn := match sb_last_warn sb with
                     | None => true
                     | Some t => (LAG_WARN_INTERVAL <=? duration_since now t)%Z
                     end in
  {| sb_node := sb_node sb; sb_lagged_total := wrap_u64 (sb_lagged_total sb + n);
     sb_last_warn := if should_warn then Some now else sb_last_warn sb;
     sb_warned := if should_warn then sb_warned sb ++ [now] else sb_warned sb |}.

(** The receive loop, until the stream closes. *)
Fixpoint scaling_subscriber (sb : Subscriber) (events : list (Recv * Instant)) : Subscriber :=
  match events with
  | [] => sb
  | (Got bytes, now) :: rest =>
      scaling_subscriber {| sb_node := on_bytes (sb_node sb) bytes now; sb_lagged_total := sb_lagged_total sb;
                            sb_last_warn := sb_last_warn sb; sb_warned := sb_warned sb |} rest
  | (Lagged n, now) :: rest => scaling_subscriber (on_lag sb n now) rest
  | (StreamClosed, _) :: _ => sb
  end.
End Subscribe.

(** ** Choosing the provider *)

(** Whether the node scales, or why it cannot start. *)
Definition choose_provider (connected : RedisConfig -> string -> result RedisPubSubProvider string)
    (server : ServerConfig) : result (option RedisPubSubProvider) string :=
  match sv_scaling server with
  | Some s =>
      if sc_enabled s then
        match connected (sc_redis s) (sc_channel s) with
        | Ok p => Ok (Some p)
        | Err e => Err e
        end
      else Ok None
  | None => Ok None
  end.

(** The prefix the routes are nested under, if any. *)
Definition route_prefix (server : ServerConfig) : option string :=
  let prefix := trim_end_slash (sv_path server) in
  if is_empty_str prefix then None else Some prefix.

(** ** Watching the configuration and the certificate *)

(** [std::env::var(..).parse::<u64>()] with a default, in seconds. *)
Definition poll_interval (var : option string) (fallback : Z) : Duration :=
  from_secs (default fallback (var ≫= parse_usize)).

(** [tokio::time::interval] panics for a zero period. *)
Definition start_interval (period : Duration) : option Duration :=
  if (period =? 0)%Z then None else Some period.

Section Watch.
Context `{HI : HashIter} `{GL : GlobLib} `{FG : Figment}.

(** One turn of [watch_config_apps]: [raws] is what reading the file gives. *)
Definition watch_turn (last : Instant) (meta : FileMeta) (raws : result (list RawApp) ConfigError)
    (sys : System) : Instant * System :=
  match meta with
  | MTime mtime =>
      if (mtime <=? last)%Z then (last, sys)
      else match reload_apps_with (sys_apps sys) raws with
           | (Ok _, _) => (mtime, reload_step sys raws)
           | (Err _, _) => (last, sys)
           end
  | _ => (last, sys)
  end.

Fixpoint watch_config_apps (last : Instant) (turns : list (FileMeta * result (list RawApp) ConfigError))
    (sys : System) : Instant * System :=
  match turns with
  | [] => (last, sys)
  | (meta, raws) :: rest =>
      let '(last, sys) := watch_turn last meta raws sys in watch_config_apps last rest sys
  end.
End Watch.

Definition modified_or (initial : Instant) (meta : FileMeta) : option Instant :=
  match meta with
  | MTime t => Some t
  | NoMTime => Some initial
  | NotFound | StatError => None
  end.

(** One turn of [watch_tls_reload]: the time remembered, and whether the
    certificate is loaded again; [loads] tells whether that succeeds. *)
Definition tls_turn (initial last : Instant) (cert key : FileMeta) (loads : bool) : Instant * bool :=
  match modified_or initial cert, modified_or initial key with
  | Some a, Some b =>
      let latest := Z.max a b in
      if (last <? latest)%Z then (if loads then latest else last, true) else (last, false)
  | _, _ => (last, false)
  end.

(** ** The open-file limit *)

Record Rlimit := { rl_current : option Z; rl_maximum : option Z }.

Definition WARN_BELOW : Z := 16384.
Definition UNLIMITED_TARGET : Z := 2 ^ 20.

(** [accepts] tells whether the kernel takes a limit; the result is the limit in force. *)
Definition raise_fd_limit (accepts : Rlimit -> bool) (limit : Rlimit) : Rlimit :=
  let target := default UNLIMITED_TARGET (rl_maximum limit) in
  match rl_current limit with
  | Some soft =>
      if (soft <? target)%Z then
        let wanted := {| rl_current := Some target; rl_maximum := rl_maximum limit |} in
        if accepts wanted then wanted
        else match rl_maximum limit with
             | Some _ => limit
             | None =>
                 let fallback := {| rl_current := Some 10240%Z; rl_maximum := None |} in
                 if accepts fallback then fallback else limit
             end
      else limit
  | None => limit
  end.

(** ** Flushing the outbound queues *)

Definition OUTBOUND_DRAIN_TIMEOUT : Duration := from_secs 5.
Definition DRAIN_POLL : Duration := (50 * 1000000)%Z.

Inductive DrainEnd := Flushed | DeadlinePassed.

(** What one poll looks at: the bus and the webhook worker, which run on, as they
    are at each of its loads. *)
Record Poll := {
  at_staged : Bus; at_depth : Bus; at_counter : Bus;
  at_queue : Worker; at_wstaged : Worker; at_mark : Worker; at_flight : Worker
}.

Definition poll_publishes (p : Poll) : nat := pending_publishes (at_staged p) (at_depth p) (at_counter p).
Definition poll_webhooks (p : Poll) : Z := pending (at_queue p) (at_wstaged p) (at_mark p) (at_flight p).

(** Poll [i] is [polls i], at time [clock i]. *)
Fixpoint drain_loop (fuel : nat) (polls : nat -> Poll) (clock : nat -> Instant) (deadline : Instant) (i : nat)
  : option (DrainEnd * nat) :=
  match fuel with
  | O => None
  | S fuel =>
      let publishes := poll_publishes (polls i) in
      let webhooks := poll_webhooks (polls i) in
      if (publishes =? 0)%nat && (webhooks =? 0)%Z then Some (Flushed, i)
      else if (deadline <=? clock i)%Z then Some (DeadlinePassed, i)
      else drain_loop fuel polls clock deadline (S i)
  end.

Definition drain_outbound (fuel : nat) (polls : nat -> Poll) (clock : nat -> Instant)
    (started : Instant) (timeout : Duration) : option (DrainEnd * nat) :=
  drain_loop fuel polls clock (started + timeout)%Z 0.

(** ** The ping command *)

Definition connect_host (host : string) : string :=
  if String.eqb host "0.0.0.0" || String.eqb host "::" then "127.0.0.1" else host.

(** The address that is dialled and the URL that is reported. *)
Definition ping_target (server : ServerConfig) : string * string :=
  (connect_host (sv_host server) +:+ ":" +:+ dec_string (sv_port server),
   "http://" +:+ sv_host server +:+ ":" +:+ dec_string (sv_port server) +:+ "/health").

(** ** Properties *)

Definition is_cancelled (e : TaskEnd) : bool := match e with Cancelled => true | _ => false end.

(** The ends before the first cancellation. *)
Fixpoint before_cancel (ends : list TaskEnd) : nat :=
  match ends with
  | [] | Cancelled :: _ => 0
  | _ :: rest => S (before_cancel rest)
  end.

Lemma supervise_from_spec ends k :
  supervise_from (Z.min (500 * 2 ^ Z.of_nat k) 30000) ends
  = ((fun i => Z.min (500 * 2 ^ Z.of_nat i) 30000) <$> List.seq k (before_cancel ends), existsb is_cancelled ends).
Proof.
  revert k. induction ends as [|e ends IH]; intros k; [done|].
  assert (Z.min (wrap_u64 (Z.min (500 * 2 ^ Z.of_nat k) 30000 * 2)) 30000
          = Z.min (500 * 2 ^ Z.of_nat (S k)) 30000)%Z as Hn.
  { pose proof (Z.pow_pos_nonneg 2 (Z.of_nat k)). unfold wrap_u64. rewrite Z.mod_small by lia.
    rewrite Nat2Z.inj_succ, Z.pow_succ_r by lia. lia. }
  destruct e; cbn [supervise_from before_cancel existsb is_cancelled]; [| |done];
    rewrite Hn, IH; reflexivity.
Qed.

(** A supervised task is started again however often it exits or panics; the
    pause before the [k]-th respawn is 500 ms doubled [k] times, never more
    than 30 s, and only a cancellation ends the supervisor. *)
Theorem supervise_respawns ends :
  supervise ends = ((fun k => Z.min (500 * 2 ^ Z.of_nat k) 30000) <$> List.seq 0 (before_cancel ends),
                    existsb is_cancelled ends) /\
  (existsb is_cancelled ends = false -> before_cancel ends = length ends).
Proof.
  split; [apply (supervise_from_spec ends 0)|].
  induction ends as [|e ends IH]; [done|]. destruct e; simpl; [| |done]; intros H; by rewrite IH.
Qed.

(** ** The subscriber *)

Section SubscribeProps.
Context `{HI : HashIter} `{WI : Wire} `{SJ : SerdeJson}.
Context (cfg : Config) (base : Z) (overflow : WebhookOverflow) (apps : AppIndex).

(** The events the loop sees: those before the stream closes. *)
Fixpoint until_closed (events : list (Recv * Instant)) : list (Recv * Instant) :=
  match events with
  | [] | (StreamClosed, _) :: _ => []
  | e :: rest => e :: until_closed rest
  end.

Definition apply_recv (nd : Server) (e : Recv * Instant) : Server :=
  match e.1 with Got bytes => on_bytes cfg base overflow apps nd bytes e.2 | _ => nd end.

Definition lag_of (e : Recv * Instant) : Z := match e.1 with Lagged n => n | _ => 0%Z end.

(** Consecutive warnings are at least the interval apart. *)
Fixpoint spaced (l : list Instant) : Prop :=
  match l with
  | t1 :: ((t2 :: _) as rest) => (LAG_WARN_INTERVAL <= duration_since t2 t1)%Z /\ spaced rest
  | _ => True
  end.

Lemma spaced_snoc l t :
  spaced l -> (forall t', last l = Some t' -> (LAG_WARN_INTERVAL <= duration_since t t')%Z) -> spaced (l ++ [t]).
Proof.
  induction l as [|x l IH]; intros Hs Hl; [done|]. destruct l as [|y l]; [split; [by apply Hl|done]|].
  destruct Hs as [H1 H2]. split; [done|]. apply IH; [done|]. intros t' Ht. by apply Hl.
Qed.

Definition warn_ok (sb : Subscriber) : Prop := spaced (sb_warned sb) /\ last (sb_warned sb) = sb_last_warn sb.

Lemma on_lag_ok sb n now : warn_ok sb -> warn_ok (on_lag sb n now).
Proof.
  intros [Hs Hl]. unfold warn_ok, on_lag. simpl.
  destruct (sb_last_warn sb) as [t|] eqn:E; [destruct (Z.leb_spec LAG_WARN_INTERVAL (duration_since now t))|]; simpl.
  - split; [|by rewrite last_snoc]. apply spaced_snoc; [done|]. intros t' Ht. rewrite Hl in Ht. by injection Ht as <-.
  - done.
  - split; [|by rewrite last_snoc]. apply spaced_snoc; [done|]. intros t' Ht. by rewrite Hl in Ht.
Qed.

(** The subscriber applies every message it can read, in the order it arrives
    and until the stream closes, keeps the node well formed, counts what it
    missed (modulo 2^64), and warns of it at most every ten seconds. *)
Theorem subscriber_applies sb events :
  warn_ok sb -> node_wf cfg (sb_node sb) ->
  let sb' := scaling_subscriber cfg base overflow apps sb events in
  sb_node sb' = foldl apply_recv (sb_node sb) (until_closed events) /\ node_wf cfg (sb_node sb') /\
  (sb_lagged_total sb' mod 2 ^ 64
     = (sb_lagged_total sb + foldr (fun e n => lag_of e + n) 0 (until_closed events)) mod 2 ^ 64)%Z /\
  spaced (sb_warned sb').
Proof.
  revert sb. induction events as [|[[bytes|n|] now] events IH]; intros sb Hw Hn; simpl.
  - rewrite Z.add_0_r. by destruct Hw.
  - destruct (IH {| sb_node := on_bytes cfg base overflow apps (sb_node sb) bytes now;
                    sb_lagged_total := sb_lagged_total sb; sb_last_warn := sb_last_warn sb;
                    sb_warned := sb_warned sb |}) as (H1 & H2 & H3 & H4); [done| |done].
    simpl. unfold on_bytes. destruct (parse bytes); [by apply handle_incoming_wf|done].
  - destruct (IH (on_lag sb n now)) as (H1 & H2 & H3 & H4); [by apply on_lag_ok|done|].
    split_and!; [done|done| |done]. rewrite H3. simpl. unfold lag_of at 2, wrap_u64. simpl.
    rewrite Zplus_mod_idemp_l. f_equal. lia.
  - rewrite Z.add_0_r. by destruct Hw.
Qed.
End SubscribeProps.

(** ** Watching the configuration *)

Section WatchProps.
Context `{HI : HashIter} `{GL : GlobLib} `{FG : Figment}.

(** A change of the file is applied as soon as it can be read: turns on which
    it cannot (a half-written file, a duplicate key) change nothing and are
    retried, the first that succeeds installs the new table and closes what it
    invalidates, and the same change is not applied again. *)
Theorem config_change_applied (last mtime : Instant) sys fails raws r next later :
  (last < mtime)%Z ->
  Forall (fun f => is_ok (reload_apps_with (sys_apps sys) f).1 = false) fails ->
  reload_apps_with (sys_apps sys) raws = (Ok r, next) ->
  Forall (fun turn : FileMeta * result (list RawApp) ConfigError =>
            forall t, turn.1 = MTime t -> (t <= mtime)%Z) later ->
  watch_config_apps last (((fun f => (MTime mtime, f)) <$> fails) ++ (MTime mtime, raws) :: later) sys
  = (mtime, reload_step sys raws) /\
  sys_apps (reload_step sys raws) = next.
Proof.
  intros Hlt Hf Hr Hl. split; [|unfold reload_step; by rewrite Hr].
  assert (forall sys', watch_config_apps mtime later sys' = (mtime, sys')) as Hlater.
  { intros sys'. induction Hl as [|[meta f] later Hm _ IH]; [done|]. simpl in *.
    destruct meta as [t| | |]; simpl; try done. by rewrite (proj2 (Z.leb_le t mtime)) by auto. }
  induction Hf as [|f fails Hfail _ IH]; simpl; rewrite (proj2 (Z.leb_gt mtime last)) by done.
  - by rewrite Hr, Hlater.
  - by destruct (reload_apps_with (sys_apps sys) f) as [[?|?] ?].
Qed.
End WatchProps.

(** The poll intervals are read without a lower bound: a zero makes the
    watcher's timer panic each time it is started. *)
Example zero_interval_panics : start_interval (poll_interval (Some "0") 5) = None.
Proof. reflexivity. Qed.

(** ** The open-file limit *)

(** With a finite hard limit the soft limit is never lowered and never passes
    it; it reaches it when the kernel accepts. *)
Theorem fd_limit_raised accepts limit soft hard :
  rl_current limit = Some soft -> rl_maximum limit = Some hard -> (soft <= hard)%Z ->
  exists soft', rl_current (raise_fd_limit accepts limit) = Some soft' /\
    rl_maximum (raise_fd_limit accepts limit) = Some hard /\ (soft <= soft' <= hard)%Z /\
    (accepts {| rl_current := Some hard; rl_maximum := Some hard |} = true -> soft' = hard).
Proof.
  intros Hs Hh Hle. unfold raise_fd_limit. rewrite Hs, Hh. simpl.
  destruct (Z.ltb_spec soft hard); [destruct (accepts _); simpl|]; rewrite ?Hs, ?Hh; eexists; split_and!; (done || lia).
Qed.

(** Without a hard limit the fallback can lower it: a soft limit of 16000,
    which the kernel had accepted, becomes 10240 when it refuses 2^20. *)
Theorem fd_limit_can_drop :
  raise_fd_limit (fun l => match rl_current l with Some n => (n <=? 20000)%Z | None => false end)
    {| rl_current := Some 16000%Z; rl_maximum := None |}
  = {| rl_current := Some 10240%Z; rl_maximum := None |}.
Proof. reflexivity. Qed.

(** ** Routes and signatures *)

(** The path a request is signed for is the path without the prefix the routes
    are nested under, whatever the configured path and its trailing slashes. *)
Theorem nested_path_signed server path :
  starts_with "/" path = true ->
  strip_path_prefix (default EmptyString (route_prefix server) +:+ path) (sv_path server) = path.
Proof.
  intros Hp. unfold strip_path_prefix, route_prefix. cbv zeta.
  destruct (is_empty_str (sv_path server)) eqn:E1.
  { destruct (sv_path server); [done|discriminate]. }
  destruct (is_empty_str (trim_end_slash (sv_path server))) eqn:E2; [done|]. cbn [default from_option id].
  assert (strip_prefix (trim_end_slash (sv_path server)) (trim_end_slash (sv_path server) +:+ path) = Some path) as ->
    by (by apply strip_prefix_Some).
  destruct path; [done|]. by rewrite Hp.
Qed.

(** ** Flushing *)

Section DrainProps.
Context (polls : nat -> Poll) (clock : nat -> Instant) (started : Instant) (timeout : Duration).
(** A sleep lasts at least as long as asked for. *)
Hypothesis clock_start : (started <= clock 0)%Z.
Hypothesis clock_step : forall i, (clock i + DRAIN_POLL <= clock (S i))%Z.
Hypothesis timeout_nonneg : (0 <= timeout)%Z.
Set Default Proof Using "Type*".

Definition idle (p : Poll) : Prop := poll_publishes p = 0 /\ poll_webhooks p = 0%Z.

#[local] Instance idle_dec p : Decision (idle p).
Proof. unfold idle. apply _. Defined.

Lemma clock_at i : (started + Z.of_nat i * DRAIN_POLL <= clock i)%Z.
Proof. induction i as [|i IH]; [lia|]. specialize (clock_step i). unfold DRAIN_POLL in *. lia. Qed.

Definition max_polls : nat := S (Z.to_nat (timeout / DRAIN_POLL)).

Lemma drain_loop_ends fuel i :
  i <= max_polls -> S max_polls - i <= fuel ->
  exists e j, drain_loop fuel polls clock (started + timeout)%Z i = Some (e, j) /\ i <= j <= max_polls /\
    (forall l, i <= l < j -> ~ idle (polls l) /\ (clock l < started + timeout)%Z) /\
    match e with
    | Flushed => idle (polls j)
    | DeadlinePassed => ~ idle (polls j) /\ (started + timeout <= clock j)%Z
    end.
Proof.
  revert i. induction fuel as [|fuel IH]; intros i Hi Hf; [lia|]. cbn [drain_loop]. cbv zeta.
  assert ((poll_publishes (polls i) =? 0)%nat && (poll_webhooks (polls i) =? 0)%Z = bool_decide (idle (polls i))) as ->.
  { unfold idle. destruct (Nat.eqb_spec (poll_publishes (polls i)) 0), (Z.eqb_spec (poll_webhooks (polls i)) 0);
      symmetry; (apply bool_decide_eq_true || apply bool_decide_eq_false); naive_solver. }
  destruct (bool_decide (idle (polls i))) eqn:Ea.
  { apply bool_decide_eq_true in Ea. exists Flushed, i. split_and!; [done|lia|lia|lia|done]. }
  apply bool_decide_eq_false in Ea.
  destruct (Z.leb_spec (started + timeout) (clock i)) as [Hd|Hd].
  { exists DeadlinePassed, i. split_and!; [done|lia|lia|lia|done|done]. }
  assert (i < max_polls) as Hlt.
  { destruct (decide (i < max_polls)) as [|Hge]; [done|exfalso].
    pose proof (clock_at i). pose proof (Z.mul_succ_div_gt timeout DRAIN_POLL ltac:(done)).
    unfold max_polls in *. assert (Z.of_nat i = Z.succ (timeout / DRAIN_POLL)) as Hz.
    { pose proof (Z.div_pos timeout DRAIN_POLL ltac:(lia) ltac:(done)). lia. }
    rewrite Hz in *. unfold DRAIN_POLL in *. lia. }
  destruct (IH (S i)) as (e & j & H1 & H2 & H3 & H4); [lia|lia|].
  exists e, j. split_and!; [done|lia|lia| |done]. intros l Hl.
  destruct (decide (l = i)) as [->|]; [done|]. apply H3. lia.
Qed.
End DrainProps.

(** A poll of a process that runs on: between its loads the bus and the worker
    take any steps; [sent] is what the bus hands to the provider meanwhile. *)
Record poll_runs `{WI : Wire} (mode : PublishOverflow) (base : Z) (overflow : WebhookOverflow) (p : Poll)
    (sent : list string) : Prop := {
  pr_bus : bus_wf mode (at_staged p);
  pr_encoded : Forall (fun s => (0 < len s)%Z) (staged (at_staged p));
  pr_publisher : exists ops1 ops2 ins1 outs1 ins2 outs2,
    history mode ops1 (at_staged p) = (ins1, outs1, at_depth p) /\
    history mode ops2 (at_depth p) = (ins2, outs2, at_counter p) /\ sent = outs1 ++ outs2;
  pr_worker : w_reachable base overflow (at_queue p) /\ rtc (w_step base overflow) (at_queue p) (at_wstaged p) /\
    rtc (w_step base overflow) (at_wstaged p) (at_mark p) /\ rtc (w_step base overflow) (at_mark p) (at_flight p)
}.

(** C31: The final flush ends, and what its success means.  Within 102 polls 50 ms
    or more apart, the publisher and the webhook worker running on between any
    two loads, it stops at the first poll that reads zero, or at the first one
    5 s after it began.  Zero means: what waited for the peers as the poll began
    went to the provider in order, but for a batch taken and not yet counted;
    webhook queue and staging were empty when each was read, and every delivery
    begun before the third load has ended.  No more is promised: an event just
    received or just leaving the staging is not counted. *)
Theorem drain_outbound_ends `{WI : Wire} mode base overflow (polls : nat -> Poll) (clock : nat -> Instant)
    (started : Instant) (sent : nat -> list string) :
  (0 < base)%Z -> (started <= clock 0%nat)%Z -> (forall i, (clock i + 50000000 <= clock (S i))%Z) ->
  (forall i, poll_runs mode base overflow (polls i) (sent i)) ->
  exists e j, drain_outbound 102 polls clock started OUTBOUND_DRAIN_TIMEOUT = Some (e, j) /\ j <= 101 /\
    (forall l, l < j -> ~ idle (polls l) /\ (clock l < started + 5000000000)%Z) /\
    match e with
    | Flushed =>
        contents (at_staged (polls j)) `prefix_of` sent j ++ batch (at_counter (polls j)) /\
        publishing (at_counter (polls j)) = 0 /\
        wh_tx (w_queue (at_queue (polls j))) = [] /\
        match wh_staging (w_queue (at_wstaged (polls j))) with Some (q, _) => q = [] | None => True end /\
        w_started (at_mark (polls j)) ⊆+ (w_finished (at_flight (polls j))).*1
    | DeadlinePassed => ~ idle (polls j) /\ (started + 5000000000 <= clock j)%Z
    end.
Proof.
  intros Hb Hs Hc Hp.
  destruct (drain_loop_ends polls clock started (from_secs 5) Hs Hc ltac:(done) 102 0) as (e & j & H1 & H2 & H3 & H4);
    [apply Nat.le_0_l|vm_compute; lia|].
  change (max_polls (from_secs 5)) with 101 in H2. change (from_secs 5) with 5000000000%Z in H1, H3, H4.
  exists e, j. split_and!; [exact H1|lia|intros; apply H3; lia|]. destruct e; [|done].
  destruct H4 as [Hp1 Hp2], (Hp j) as [Hw He (o1 & o2 & i1 & x1 & i2 & x2 & E1 & E2 & ->) (W1 & W2 & W3 & W4)].
  pose proof (pending_publishes_zero mode o1 o2 (at_staged (polls j)) Hw He) as Hpub. rewrite E1, E2 in Hpub.
  destruct (Hpub Hp1) as [Hpre Hcnt]. rewrite app_assoc in Hpre.
  destruct (pending_zero_read base overflow Hb _ _ _ _ W1 W2 W3 W4 Hp2) as (Q1 & Q2 & Q3).
  split_and!; [exact Hpre|exact Hcnt|exact Q1|exact Q2|exact Q3].
Qed.

(** ** Witnesses *)

Section Witnesses.
#[local] Existing Instance canonical_iter.
#[local] Existing Instance h_wire.
#[local] Existing Instance h_json.
#[local] Existing Instance h_figment.
#[local] Existing Instance literal_globs.

Lemma config_change_applied_witness :
  watch_config_apps 0%Z [(MTime 7%Z, Ok [plain_raw "a"; plain_raw "a"]); (MTime 7%Z, Ok []); (NotFound, Ok [])] demo_open
  = (7%Z, reload_step demo_open (Ok [])).
Proof.
  destruct (config_change_applied 0%Z 7%Z demo_open [Ok [plain_raw "a"; plain_raw "a"]] (Ok [])
    {| loaded := 0; revoked := ["a"]; origins_changed := [] |} {| by_id := ∅; by_key := ∅ |} [(NotFound, Ok [])])
    as [H _].
  - reflexivity.
  - repeat constructor.
  - apply demo_reload.
  - constructor; [discriminate|constructor].
  - exact H.
Defined.

Lemma nested_path_signed_witness :
  strip_path_prefix "/zatat/apps/a/events" (sv_path (compile_server
    {| rv_host := default_host; rv_port := default_port; rv_path := "/zatat/"; rv_max_request_size := 1;
       rv_restart_signal_file := EmptyString; rv_restart_poll_interval_seconds := 5; rv_tls := None;
       rv_scaling := None; rv_prometheus := None; rv_webhook_overflow_mode := RawBestEffort |}))
  = "/apps/a/events".
Proof.
  exact (nested_path_signed (compile_server
    {| rv_host := default_host; rv_port := default_port; rv_path := "/zatat/"; rv_max_request_size := 1;
       rv_restart_signal_file := EmptyString; rv_restart_poll_interval_seconds := 5; rv_tls := None;
       rv_scaling := None; rv_prometheus := None; rv_webhook_overflow_mode := RawBestEffort |})
    "/apps/a/events" eq_refl).
Defined.

Lemma subscriber_applies_witness :
  spaced (sb_warned (scaling_subscriber (demo_cfg "n1") 100 WBestEffort demo_index
    {| sb_node := demo_server; sb_lagged_total := 0; sb_last_warn := None; sb_warned := [] |}
    [(Lagged 3, 0%Z); (Got "x", 1%Z); (Lagged 2, from_secs 1); (Lagged 1, from_secs 10); (StreamClosed, from_secs 11)])).
Proof.
  apply (subscriber_applies (demo_cfg "n1") 100 WBestEffort demo_index
    {| sb_node := demo_server; sb_lagged_total := 0; sb_last_warn := None; sb_warned := [] |}).
  - split; [exact I|reflexivity].
  - apply demo_server_wf.
Defined.

(** An envelope on the bus and an event for a webhook; both are gone at the
    second poll. *)
Definition busy_bus : Bus := set_publish_tx (bus_new true BestEffort) (Some ["envelope"]).
Definition flush_bus : Bus := publisher_done (publisher_mark (publisher_take busy_bus)).

Definition served_worker : option Worker :=
  w ← w_recv demo_worker; w ← w_mark (fun _ => [demo_target]) w; w ← w_spawn 0 0%Z w; w ← w_handed w;
  w_respond 0 true 1%Z w.

Definition flush_worker : Worker := default demo_worker served_worker.

Lemma flush_worker_reachable : w_reachable 100 WBestEffort flush_worker.
Proof.
  unfold flush_worker, served_worker.
  destruct (w_recv demo_worker) as [w1|] eqn:E1; [|apply demo_worker_reachable]. simpl.
  destruct (w_mark _ w1) as [w2|] eqn:E2; [|apply demo_worker_reachable]. simpl.
  destruct (w_spawn 0 0%Z w2) as [w3|] eqn:E3; [|apply demo_worker_reachable]. simpl.
  destruct (w_handed w3) as [w4|] eqn:E4; [|apply demo_worker_reachable]. simpl.
  destruct (w_respond 0 true 1%Z w4) as [w5|] eqn:E5; [|apply demo_worker_reachable]. simpl.
  eapply w_next; [|by eapply ws_respond]. eapply w_next; [|by eapply ws_handed].
  eapply w_next; [|by eapply ws_spawn]. eapply w_next; [|by eapply ws_mark].
  eapply w_next; [apply demo_worker_reachable|by eapply ws_recv].
Qed.

Definition still_poll (b : Bus) (w : Worker) : Poll :=
  {| at_staged := b; at_depth := b; at_counter := b; at_queue := w; at_wstaged := w; at_mark := w; at_flight := w |}.

Definition demo_polls (i : nat) : Poll :=
  match i with 0 => still_poll busy_bus demo_worker | _ => still_poll flush_bus flush_worker end.

Lemma still_poll_runs b w :
  bus_wf BestEffort b -> block_tx b = None -> w_reachable 100 WBestEffort w ->
  poll_runs BestEffort 100 WBestEffort (still_poll b w) [].
Proof.
  intros Hb Hs Hw. split; simpl; [done|by unfold staged; rewrite Hs| |split_and!; [done|apply rtc_refl..]].
  by exists [], [], [], [], [], [].
Qed.

Lemma busy_bus_wf : bus_wf BestEffort busy_bus.
Proof. split; [vm_compute; discriminate|split; [simpl; lia|by left]|done]. Qed.

Lemma flush_bus_wf : bus_wf BestEffort flush_bus.
Proof.
  apply publisher_done_spec, publisher_mark_spec, publisher_take_spec, busy_bus_wf.
Qed.

Lemma drain_outbound_ends_witness :
  drain_outbound 102 demo_polls (fun i => (Z.of_nat i * DRAIN_POLL)%Z) 0%Z OUTBOUND_DRAIN_TIMEOUT = Some (Flushed, 1) /\
  ~ idle (demo_polls 0) /\ length (w_started flush_worker) = 1 /\
  w_started flush_worker ⊆+ (w_finished flush_worker).*1.
Proof.
  assert (drain_outbound 102 demo_polls (fun i => (Z.of_nat i * DRAIN_POLL)%Z) 0%Z OUTBOUND_DRAIN_TIMEOUT
          = Some (Flushed, 1)) as E by (vm_compute; reflexivity).
  destruct (drain_outbound_ends BestEffort 100 WBestEffort demo_polls (fun i => (Z.of_nat i * DRAIN_POLL)%Z) 0%Z
    (fun _ => [])) as (e & j & H1 & _ & H3 & H4).
  - reflexivity.
  - discriminate.
  - intros i. unfold DRAIN_POLL. lia.
  - intros [|i]; apply still_poll_runs; [apply busy_bus_wf|reflexivity|apply demo_worker_reachable|
      apply flush_bus_wf|reflexivity|apply flush_worker_reachable].
  - rewrite E in H1. injection H1 as <- <-. split_and!; [exact E|apply H3; lia|vm_compute; reflexivity|apply H4].
Defined.
End Witnesses.
