(* ===== verification/Start.v ===== *)
(** * zatat-cli: start-up and shutdown

    Models [start] of [crates/zatat-cli/src/main.rs]: the stages of the start-up,
    each of which may fail and ends the process, the tasks they leave running, and
    the phases of a shutdown: the close frames, the drain of the HTTP listener and
    its deadline.  Sockets, certificates, the recorder and Redis are inputs; the
    requests the listener waits for are events. *)

From S2P Require Import Prelude.
From S2P Require Import Core.
From S2P Require Import Json.
From S2P Require Import Envelope.
From S2P Require Import Auth.
From S2P Require Import Connection.
From S2P Require Import Manager.
From S2P Require Import Apps.
From S2P Require Import Settings.
From S2P Require Import Metrics.
From S2P Require Import Redis.
From S2P Require Import Router.
From S2P Require Import Message.
From S2P Require Import Encryption.
From S2P Require Import Bus.
From S2P Require Import Dispatcher.
From S2P Require Import Webhooks.
From S2P Require Import Routes.
From S2P Require Import Handler.
From S2P Require Import Tasks.
From S2P Require Import System.
From S2P Require Import HandlerProps.
From S2P Require Import TaskProps.
From S2P Require Import Lifecycle.
From S2P Require Import Cli.
From stdpp Require Import options.

(** ** Start-up *)

(** Why a node does not start, by the stage that fails. *)
Inductive StartError `{FG : Figment} :=
| LoadingConfig (e : ConfigError)
| ParsingPrometheusListen
| InstallingMetrics (msg : string)
| ConnectingRedis (msg : string)
| BindingMetrics (addr : SocketAddr)
| ParsingHostPort
| LoadingTls
| Binding.

(** A node that listens. *)
Record Started := {
  up_state : ServerState;
  up_metrics : option MetricsInstaller;
  up_registry : gmap (string * string) Z;
  up_provider : option RedisPubSubProvider;
  up_supervised : list string;
  up_prefix : option string;
  up_listen : SocketAddr;
  up_tls : option TlsConfig
}.

Section Startup.
Local Open Scope zatat_scope.
Context `{HI : HashIter} `{FG : Figment}.
Context (show : SocketAddr -> string) (parse_addr : string -> option SocketAddr) (recorder : result unit string).
Context (connected : RedisConfig -> string -> result RedisPubSubProvider string).
Context (can_bind : SocketAddr -> bool) (from_pem_file : TlsConfig -> bool).

Definition metrics_handle (server : ServerConfig) : result (option MetricsInstaller) StartError :=
  match sv_prometheus server with
  | Some p =>
      match parse_addr (pm_listen p) with
      | None => Err ParsingPrometheusListen
      | Some listen =>
          match install show recorder listen (pm_bearer_token p) with
          | Ok installer => Ok (Some installer)
          | Err e => Err (InstallingMetrics e)
          end
      end
  | None => Ok None
  end.

(** The tasks that are respawned when they end. *)
Definition supervised_tasks (scaling : bool) : list string :=
  (if scaling then ["scaling_subscriber"; "presence_snapshot_publisher"; "presence_cache_gc"] else []) ++
  ["restart_signal_watcher"; "connection_maintenance"; "watch_config_apps"].

(** The metrics listener is bound before any traffic is served. *)
Definition bind_metrics (metrics : option MetricsInstaller) : result unit StartError :=
  match metrics with
  | Some handle => if can_bind (mi_listen handle) then Ok tt else Err (BindingMetrics (mi_listen handle))
  | None => Ok tt
  end.

Definition bind_server (server : ServerConfig) (addr : SocketAddr) : result unit StartError :=
  match sv_tls server with
  | Some tls => if negb (from_pem_file tls) then Err LoadingTls else if can_bind addr then Ok tt else Err Binding
  | None => if can_bind addr then Ok tt else Err Binding
  end.

Definition register_apps (metrics : option MetricsInstaller) (apps : AppIndex) : gmap (string * string) Z :=
  match metrics with
  | Some _ => foldl register_app ∅ (hkeys (by_id apps))
  | None => ∅
  end.

Definition start (loaded : result LoadedConfig ConfigError) (node : string) : result Started StartError :=
  match loaded with
  | Err e => Err (LoadingConfig e)
  | Ok config =>
      let server := lc_server config in
      let? metrics := metrics_handle server in
      match choose_provider connected server with
      | Err e => Err (ConnectingRedis e)
      | Ok provider =>
          let scaling := bool_decide (is_Some provider) in
          let state := with_provider config scaling node in
          let registry := register_apps metrics (lc_apps config) in
          let? _ := bind_metrics metrics in
          match parse_addr (sv_host server +:+ ":" +:+ dec_string (sv_port server)) with
          | None => Err ParsingHostPort
          | Some addr =>
              let? _ := bind_server server addr in
              Ok {| up_state := state; up_metrics := metrics; up_registry := registry; up_provider := provider;
                    up_supervised := supervised_tasks scaling; up_prefix := route_prefix server;
                    up_listen := addr; up_tls := sv_tls server |}
          end
      end
  end.
End Startup.

(** What the metrics listener answers; [rendered] is the recorder's page. *)
Definition metrics_endpoint (handle : MetricsInstaller) (authorization : option string) (rendered : string) : Z * string :=
  if authorize_metrics handle authorization then (200%Z, rendered) else (401%Z, EmptyString).

(** The [restart] command: the file it writes, and with what. *)
Definition restart (server : ServerConfig) (epoch_secs : Z) : string * string :=
  (sv_restart_signal_file server, dec_string epoch_secs).

(** ** Shutdown *)

Definition GRACEFUL_HTTP_TIMEOUT : Duration := from_secs 30.
Definition WS_CLOSE_FLUSH_DELAY : Duration := from_secs 2.

(** Where the process is, with the times of what happened: draining began, the
    listener was asked to drain, it was done or given up, and the process
    returned from the flush; or [serve] returned an error, which [?] hands on
    at once. *)
Inductive Phase :=
| Serving
| FlushingCloses (began : Instant)
| HttpDraining (began asked : Instant)
| HttpDone (began asked ended : Instant) (timed_out : bool)
| Exited (began asked ended : Instant) (timed_out : bool) (flush : DrainEnd)
| Failed.

(** The requests the listener has accepted and not answered, and those it will
    never answer. *)
Record Process := { p_state : ServerState; p_phase : Phase; p_inflight : gset nat; p_dropped : gset nat }.

Definition with_phase (p : Process) (ph : Phase) : Process :=
  {| p_state := p_state p; p_phase := ph; p_inflight := p_inflight p; p_dropped := p_dropped p |}.

(** The serve future is dropped, and the handlers of its requests with it. *)
Definition drop_serve (p : Process) (ph : Phase) : Process :=
  {| p_state := p_state p; p_phase := ph; p_inflight := ∅; p_dropped := p_dropped p ∪ p_inflight p |}.

(** [begin_shutdown], up to its pause. *)
Definition begin_shutdown (now : Instant) (p : Process) : Process :=
  {| p_state := shutdown_now (p_state p); p_phase := FlushingCloses now;
     p_inflight := p_inflight p; p_dropped := p_dropped p |}.

(** The listener takes requests until it is asked to drain. *)
Definition listening (ph : Phase) : bool :=
  match ph with Serving | FlushingCloses _ => true | _ => false end.

Definition serving (ph : Phase) : bool :=
  match ph with Serving | FlushingCloses _ | HttpDraining _ _ => true | _ => false end.

Section Shutdown.
Context `{HI : HashIter} `{WI : Wire} `{SJ : SerdeJson} `{CR : Crypto} `{IP : InboundParser}.
Context `{GL : GlobLib} `{FG : Figment} `{SB : SecretBox} `{BP : BodyParser}.
Context (cfg : Config) (base : Z) (overflow : WebhookOverflow) (prefix : string).

(** With TLS the listener is [axum_server]'s, which has the drain timeout built
    in; without, [axum::serve], raced against [drain_deadline].  Either is done
    once every request it accepted was answered, or is given up after the
    timeout; the flush comes after it. *)
Inductive proc_step (now : Instant) : Process -> Process -> Prop :=
| proc_signal p : p_phase p = Serving -> proc_step now p (begin_shutdown now p)
| proc_restart p :
    p_phase p = Serving -> is_draining (p_state p) = true -> proc_step now p (begin_shutdown now p)
| proc_request p r :
    listening (p_phase p) = true -> r ∉ p_inflight p ∪ p_dropped p ->
    proc_step now p {| p_state := p_state p; p_phase := p_phase p; p_inflight := {[r]} ∪ p_inflight p;
                       p_dropped := p_dropped p |}
| proc_answer p r :
    r ∈ p_inflight p ->
    proc_step now p {| p_state := p_state p; p_phase := p_phase p; p_inflight := p_inflight p ∖ {[r]};
                       p_dropped := p_dropped p |}
| proc_drain p began :
    p_phase p = FlushingCloses began -> (began + WS_CLOSE_FLUSH_DELAY <= now)%Z ->
    proc_step now p (with_phase p (HttpDraining began now))
| proc_served p began asked :
    p_phase p = HttpDraining began asked -> p_inflight p = ∅ ->
    proc_step now p (with_phase p (HttpDone began asked now false))
| proc_timeout p began asked :
    p_phase p = HttpDraining began asked -> (asked + GRACEFUL_HTTP_TIMEOUT <= now)%Z ->
    proc_step now p (drop_serve p (HttpDone began asked now true))
| proc_error p : serving (p_phase p) = true -> proc_step now p (drop_serve p Failed)
| proc_flush p began asked ended late polls clock e j :
    p_phase p = HttpDone began asked ended late ->
    drain_outbound 102 polls clock ended OUTBOUND_DRAIN_TIMEOUT = Some (e, j) -> clock j = now ->
    proc_step now p (with_phase p (Exited began asked ended late e))
| proc_life p st :
    life_step cfg base overflow prefix (p_state p) st ->
    proc_step now p {| p_state := st; p_phase := p_phase p; p_inflight := p_inflight p; p_dropped := p_dropped p |}.

Definition booted (st0 : ServerState) : Process :=
  {| p_state := st0; p_phase := Serving; p_inflight := ∅; p_dropped := ∅ |}.

(** The states of a process that began to serve, with the time they are reached at. *)
Inductive process_at (st0 : ServerState) : Process -> Instant -> Prop :=
| at_start t : process_at st0 (booted st0) t
| at_step p t p' t' : process_at st0 p t -> (t <= t')%Z -> proc_step t' p p' -> process_at st0 p' t'.

(** When the timer the process waits for goes off. *)
Definition due (ph : Phase) : option Instant :=
  match ph with
  | FlushingCloses began => Some (began + WS_CLOSE_FLUSH_DELAY)%Z
  | HttpDraining _ asked => Some (asked + GRACEFUL_HTTP_TIMEOUT)%Z
  | _ => None
  end.

(** Those of them in which no timer is late. *)
Inductive punctual_at (st0 : ServerState) : Process -> Instant -> Prop :=
| punctual_start t : punctual_at st0 (booted st0) t
| punctual_step p t p' t' : punctual_at st0 p t -> (t <= t')%Z -> (forall d, due (p_phase p) = Some d -> t' <= d)%Z ->
    proc_step t' p p' -> punctual_at st0 p' t'.

(** When the shutdown began. *)
Definition began_at (ph : Phase) : option Instant :=
  match ph with
  | Serving | Failed => None
  | FlushingCloses began | HttpDraining began _ | HttpDone began _ _ _ | Exited began _ _ _ _ => Some began
  end.

(** What a process has waited for, and what it has given up. *)
Definition proc_inv (p : Process) (t : Instant) : Prop :=
  match p_phase p with
  | Serving => p_dropped p = ∅
  | FlushingCloses began => p_dropped p = ∅ /\ (began <= t)%Z
  | HttpDraining began asked => p_dropped p = ∅ /\ (began + WS_CLOSE_FLUSH_DELAY <= asked <= t)%Z
  | HttpDone began asked ended late | Exited began asked ended late _ =>
      p_inflight p = ∅ /\ (began + WS_CLOSE_FLUSH_DELAY <= asked <= ended)%Z /\ (ended <= t)%Z /\
      (late = true -> asked + GRACEFUL_HTTP_TIMEOUT <= ended)%Z /\ (late = false -> p_dropped p = ∅)
  | Failed => p_inflight p = ∅
  end.

Lemma proc_inv_later p t t' : (t <= t')%Z -> proc_inv p t -> proc_inv p t'.
Proof. intros Hle. unfold proc_inv. destruct (p_phase p); intros; split_and?; naive_solver lia. Qed.

Lemma proc_step_inv now p p' : proc_inv p now -> proc_step now p p' -> proc_inv p' now.
Proof.
  intros Hi Hs. destruct Hs as [p Hp|p Hp _|p r Hl _|p r Hr|p began Hp Hw|p began asked Hp He|p began asked Hp Hw|p Hl
    |p began asked ended late polls clock e j Hp _ _|p st _]; unfold proc_inv in *; simpl; try rewrite Hp in Hi.
  - split; [done|lia].
  - split; [done|lia].
  - by destruct (p_phase p).
  - destruct (p_phase p); simpl in *; try done; split_and?; set_solver.
  - split; [apply Hi|]. lia.
  - destruct Hi as [Hd Ha]. split_and!; try done; lia.
  - destruct Hi as [Hd Ha]. split_and!; try done; lia.
  - done.
  - done.
  - done.
Qed.

Lemma process_inv st0 p t : process_at st0 p t -> proc_inv p t.
Proof.
  induction 1 as [t|p t p' t' _ IH Hle Hs]; [done|]. eapply proc_step_inv; [|exact Hs]. by eapply proc_inv_later.
Qed.

Lemma punctual_process st0 p t :
  punctual_at st0 p t -> process_at st0 p t /\ (forall d, due (p_phase p) = Some d -> t <= d)%Z /\
    match p_phase p with HttpDraining began asked => asked = (began + WS_CLOSE_FLUSH_DELAY)%Z | _ => True end.
Proof.
  assert (0 <= WS_CLOSE_FLUSH_DELAY /\ 0 <= GRACEFUL_HTTP_TIMEOUT)%Z as [Hw Hg] by done.
  induction 1 as [t|p t p' t' _ (IH1 & IH2 & IH3) Hle Hd Hs]; [split_and!; [apply at_start|done|done]|].
  split; [by eapply at_step|]. destruct Hs as [p Hp|p Hp _|p r Hl _|p r Hr|p began Hp Hb|p began asked Hp He|p began asked Hp Hb|p Hl
    |p began asked ended late polls clock e j Hp _ _|p st _]; simpl; try done; split; try done; try (intros d [= <-]; lia).
  specialize (Hd _ ltac:(by rewrite Hp)). lia.
Qed.

(** A shutdown is never stuck: unless it is over, there is a step at some time
    no later than the timer it waits for. *)
Lemma shutdown_goes_on st0 p t :
  punctual_at st0 p t -> (exists d, due (p_phase p) = Some d) ->
  exists p' t', punctual_at st0 p' t' /\ p_phase p' <> p_phase p /\ proc_step t' p p'.
Proof.
  intros Hat [d Hd]. destruct (punctual_process _ _ _ Hat) as (_ & Hle & _). specialize (Hle d Hd).
  assert (exists p', proc_step d p p' /\ p_phase p' <> p_phase p) as (p' & Hs & Hne).
  { destruct (p_phase p) as [|began|began asked| | |] eqn:E; try done; injection Hd as <-.
    - eexists. split; [eapply proc_drain; [exact E|lia]|done].
    - eexists. split; [eapply proc_timeout; [exact E|lia]|done]. }
  exists p', d. split; [|done]. eapply punctual_step; [exact Hat|done| |exact Hs]. intros d' Hd'. rewrite Hd in Hd'. naive_solver.
Qed.

(** A restart file written after the node began to watch it leads out of serving:
    the watcher's next turn starts the drain, and the process notices. *)
Lemma restart_noticed st0 p t started mtime now :
  process_at st0 p t -> p_phase p = Serving -> (started < mtime)%Z -> (t <= now)%Z ->
  process_at st0 (begin_shutdown now {| p_state := restart_turn started (MTime mtime) (p_state p); p_phase := Serving;
                                        p_inflight := p_inflight p; p_dropped := p_dropped p |}) now.
Proof.
  intros Hat Hp Hm Ht. pose proof (proc_life now p _ (life_restart _ _ _ _ (p_state p) started (MTime mtime))) as Hl.
  rewrite Hp in Hl. eapply at_step; [eapply at_step; [exact Hat|exact Ht|exact Hl]|lia|].
  apply proc_restart; [done|]. unfold restart_turn. simpl. by rewrite (proj2 (Z.ltb_lt _ _) Hm).
Qed.

End Shutdown.

(** ** What a started node has *)

Section Closed.
Context `{HI : HashIter} `{FG : Figment}.
Context (show : SocketAddr -> string) (parse_addr : string -> option SocketAddr) (recorder : result unit string).
Context (connected : RedisConfig -> string -> result RedisPubSubProvider string).
Context (can_bind : SocketAddr -> bool) (from_pem_file : TlsConfig -> bool).

Lemma metrics_handle_Ok server m :
  metrics_handle show parse_addr recorder server = Ok m ->
  match sv_prometheus server with
  | Some p => exists h, m = Some h /\ parse_addr (pm_listen p) = Some (mi_listen h) /\ mi_bearer_token h = pm_bearer_token p /\
      (is_loopback (addr_ip (mi_listen h)) = true \/ is_Some (pm_bearer_token p))
  | None => m = None
  end.
Proof.
  unfold metrics_handle. destruct (sv_prometheus server) as [p|]; [|by intros [= <-]].
  destruct (parse_addr _) as [listen|]; [|done]. unfold install.
  destruct (is_loopback (addr_ip listen)) eqn:El; simpl; [|case_bool_decide as Ht; simpl; [|done]];
    destruct recorder; try done; intros [= <-]; eexists; split_and!; eauto.
Qed.

Lemma registered_all l r id : id ∈ l \/ is_Some (r !! (GAUGE_CONNECTIONS, id)) ->
  is_Some (foldl register_app r l !! (GAUGE_CONNECTIONS, id)).
Proof.
  revert r. induction l as [|a l IH]; intros r; [by intros [?%elem_of_nil|?]|]. rewrite elem_of_cons. intros H. cbn [foldl]. apply IH.
  destruct H as [[->|?]|[v Hv]]; [right|by left|right].
  - unfold register_app. cbv zeta. apply increment_keeps, increment_there.
  - exists v. by apply (proj1 (register_app_idempotent r a)).
Qed.

Lemma always_supervised scaling task :
  task ∈ ["restart_signal_watcher"; "connection_maintenance"; "watch_config_apps"] -> task ∈ supervised_tasks scaling.
Proof. intros H. apply elem_of_app. by right. Qed.

Lemma scaling_supervised task :
  task ∈ ["scaling_subscriber"; "presence_snapshot_publisher"; "presence_cache_gc"] -> task ∈ supervised_tasks true.
Proof. intros H. apply elem_of_app. by left. Qed.

(** C32: A node starts fully or not at all.  If [start] gets as far as serving: metrics,
    if configured, have a bound listener, on loopback or behind a token, and a
    gauge per application; with scaling, Redis is connected, the
    outbound queue exists, and subscriber, snapshot publisher and sweep are
    supervised (without Redis there is no queue); restart watcher, maintenance and
    configuration watcher always are; with TLS the certificate is loaded; the node
    listens where it was told to, answers its health check, is not draining, has
    the configured applications and no connection, channel or upgrade yet. *)
Theorem start_complete config node up :
  start show parse_addr recorder connected can_bind from_pem_file (Ok config) node = Ok up ->
  let server := lc_server config in
  let sys := ss_system (up_state up) in
  (forall p, sv_prometheus server = Some p -> exists h, up_metrics up = Some h /\ can_bind (mi_listen h) = true /\
     (is_loopback (addr_ip (mi_listen h)) = true \/ is_Some (mi_bearer_token h)) /\
     forall id, is_Some (by_id (lc_apps config) !! id) -> is_Some (up_registry up !! (GAUGE_CONNECTIONS, id))) /\
  (forall s, sv_scaling server = Some s -> sc_enabled s = true ->
     (exists pr, connected (sc_redis s) (sc_channel s) = Ok pr /\ up_provider up = Some pr) /\
     publish_tx (nd_bus (sys_node sys)) = Some [] /\
     "scaling_subscriber" ∈ up_supervised up /\ "presence_snapshot_publisher" ∈ up_supervised up /\
     "presence_cache_gc" ∈ up_supervised up) /\
  (up_provider up = None -> publish_tx (nd_bus (sys_node sys)) = None) /\
  ("restart_signal_watcher" ∈ up_supervised up /\ "connection_maintenance" ∈ up_supervised up /\
   "watch_config_apps" ∈ up_supervised up) /\
  (forall tls, sv_tls server = Some tls -> from_pem_file tls = true) /\
  parse_addr (sv_host server +:+ ":" +:+ dec_string (sv_port server)) = Some (up_listen up) /\
  can_bind (up_listen up) = true /\
  is_draining (up_state up) = false /\ health (up_state up) = (200%Z, "ok") /\
  sys_apps sys = lc_apps config /\ sys_tasks sys = ∅ /\ nd_channels (sys_node sys) = ∅ /\
  ss_upgrades (up_state up) = [].
Proof.
  intros Hs server sys. unfold start in Hs. fold server in Hs.
  destruct (metrics_handle _ _ _ _) as [m|] eqn:Em; [|done]. apply metrics_handle_Ok in Em.
  destruct (choose_provider _ _) as [pr|] eqn:Ep; [|done].
  destruct (bind_metrics _ _) as [[]|] eqn:Eb; [|done]. destruct (parse_addr _) as [addr|] eqn:Ea; [|done].
  destruct (bind_server _ _ _ _) as [[]|] eqn:Ebs; [|done]. injection Hs as <-. unfold sys. clear sys.
  cbn [up_metrics up_registry up_provider up_supervised up_listen up_state].
  split_and!; try reflexivity; try (apply always_supervised; repeat constructor).
  - intros p Hp. rewrite Hp in Em. destruct Em as (h & -> & _ & Ht & Hg). exists h. split_and!; [done| |by rewrite Ht|].
    + unfold bind_metrics in Eb. by destruct (can_bind _).
    + intros i Hi. apply registered_all. left. by apply elem_of_hkeys.
  - intros s Hsc He. unfold choose_provider in Ep. rewrite Hsc, He in Ep.
    destruct (connected _ _) as [q|] eqn:Ec; [|done]. injection Ep as <-. rewrite bool_decide_true by eauto.
    split_and!; [by exists q|reflexivity| | |]; apply scaling_supervised; repeat constructor.
  - intros ->. by rewrite bool_decide_false by (by intros [? [=]]).
  - intros tls Ht. unfold bind_server in Ebs. rewrite Ht in Ebs. by destruct (from_pem_file tls).
  - unfold bind_server in Ebs. destruct (sv_tls server); [destruct (from_pem_file _); [|done]|]; by destruct (can_bind addr).
Qed.
End Closed.

(** ** Witnesses *)

Section Witnesses.
#[local] Existing Instance canonical_iter.
#[local] Existing Instance demo_crypto.
#[local] Existing Instance h_wire.
#[local] Existing Instance h_json.
#[local] Existing Instance h_figment.
#[local] Existing Instance h_body.
#[local] Existing Instance h_parser.
#[local] Existing Instance literal_globs.
#[local] Existing Instance toy_box.

(** A server with metrics and scaling, as the default settings have the rest. *)
Definition demo_scaled : LoadedConfig :=
  {| lc_server := {| sv_host := default_host; sv_port := default_port; sv_path := EmptyString;
       sv_max_request_size := default_max_request_size; sv_restart_signal_file := default_restart_signal_file;
       sv_restart_poll_interval := from_secs default_restart_poll; sv_tls := None;
       sv_scaling := Some {| sc_enabled := true; sc_channel := default_scaling_channel;
         sc_redis := {| redis_url := None; redis_host := default_redis_host; redis_port := default_redis_port; redis_db := 0;
           redis_username := None; redis_password := None; redis_timeout_seconds := default_redis_timeout |};
         sc_overflow_mode := ModeBestEffort |};
       sv_prometheus := Some {| pm_listen := default_prometheus_listen; pm_bearer_token := None |};
       sv_webhook_overflow_mode := ModeBestEffort |};
     lc_apps := {| by_id := ∅; by_key := ∅ |} |}.

Definition demo_addr (text : string) : option SocketAddr :=
  Some {| addr_ip := if String.eqb text default_prometheus_listen then V4 127 0 0 1 else V4 0 0 0 0; addr_port := 8080 |}.

Lemma start_complete_witness :
  exists up, start (fun _ => EmptyString) demo_addr (Ok tt) (fun _ c => Ok {| subscribe_channel := c |})
    (fun _ => true) (fun _ => true) (Ok demo_scaled) "n1" = Ok up /\
    "presence_cache_gc" ∈ up_supervised up /\ is_draining (up_state up) = false.
Proof.
  destruct (start (fun _ => EmptyString) demo_addr (Ok tt) (fun _ c => Ok {| subscribe_channel := c |})
    (fun _ => true) (fun _ => true) (Ok demo_scaled) "n1") as [up|e] eqn:E; [|vm_compute in E; discriminate E].
  destruct (start_complete _ _ _ _ _ _ _ _ _ E) as (_ & Hs & _ & _ & _ & _ & _ & Hd & _).
  destruct (Hs _ eq_refl eq_refl) as (_ & _ & _ & _ & H). exists up. split; [reflexivity|]. split; [exact H|exact Hd].
Defined.

(** A request that never ends: the listener is given up 32 s after the signal. *)
Definition stuck_start : Process := booted (with_provider demo_config true "n1").
Definition stuck_request : Process :=
  {| p_state := p_state stuck_start; p_phase := Serving; p_inflight := {[7]} ∪ ∅; p_dropped := ∅ |}.
Definition stuck_begun : Process := begin_shutdown 0%Z stuck_request.
Definition stuck_asked : Process := with_phase stuck_begun (HttpDraining 0%Z (from_secs 2)).
Definition stuck_given_up : Process := drop_serve stuck_asked (HttpDone 0%Z (from_secs 2) (from_secs 32) true).

Lemma stuck_at :
  process_at (demo_cfg "n1") 100 WBestEffort EmptyString (with_provider demo_config true "n1") stuck_given_up (from_secs 32).
Proof.
  apply (at_step _ _ _ _ _ stuck_asked (from_secs 2)); [|discriminate|apply proc_timeout; [reflexivity|discriminate]].
  apply (at_step _ _ _ _ _ stuck_begun 0%Z); [|discriminate|apply proc_drain; [reflexivity|discriminate]].
  apply (at_step _ _ _ _ _ stuck_request 0%Z); [|discriminate|apply proc_signal; reflexivity].
  apply (at_step _ _ _ _ _ stuck_start 0%Z); [apply at_start|discriminate|].
  apply (proc_request _ _ _ _ _ stuck_start 7); [reflexivity|set_solver].
Qed.

End Witnesses.
