(* ===== verification/Account.v ===== *)
(** * The account one node keeps of another, as a protocol

    The specification the fleet is held to.  For two nodes and a topic, an
    [Account] holds the fact at the speaker, what the listener believes it is,
    and the news on their way.  The steps are what may happen to it: the speaker
    queues news, the listener hears one, news are lost, the speaker stops, the
    listener forgets.
    Two properties follow for every history: the numbers of the news stay in
    order, however many are lost, and as long as nothing is lost the news on
    their way make up exactly the difference between belief and fact.  [Fleet]
    proves that the nodes of [crates/zatat-scaling] and [crates/zatat-ws] take
    only such steps. *)

From S2P Require Import Prelude.
From S2P Require Import Core.
From S2P Require Import Message.
From S2P Require Import Bus.
From S2P Require Import Dispatcher.
From S2P Require Import Topic.
From S2P Require Import Speech.
From stdpp Require Import options.

(** ** News *)

(** Two envelopes that carry the same news. *)
Record same_news (env env' : ScalingEnvelope) : Prop := {
  same_version : version env' = version env;
  same_seq : env_seq env' = env_seq env;
  same_app : ref_id (env_app env') = ref_id (env_app env);
  same_change : news_of (payload env') = news_of (payload env)
}.

Section SameNews.
Context (t : Topic) (node : string).

Lemma same_about env env' : same_news env env' -> about t node env' = about t node env.
Proof. intros [_ _ Ha Hc]. unfold about. by rewrite Ha, Hc. Qed.

Lemma same_hear env env' x : same_news env env' -> hear t node x env' = hear t node x env.
Proof. intros Hs. unfold hear. by rewrite (same_about env env' Hs), (same_change _ _ Hs). Qed.

Lemma same_numbers l l' : Forall2 same_news l l' -> numbers t node l' = numbers t node l.
Proof.
  induction 1 as [|env env' l l' H _ IH]; [done|]. unfold numbers in *. simpl. rewrite (same_about _ _ H).
  destruct (about t node env); simpl; [|done]. rewrite (same_seq _ _ H). by f_equal.
Qed.

Lemma same_foldl l l' x : Forall2 same_news l l' -> foldl (hear t node) x l' = foldl (hear t node) x l.
Proof.
  intros H. revert x. induction H as [|env env' l l' H _ IH]; intros x; [done|]. simpl. by rewrite (same_hear _ _ _ H), IH.
Qed.
End SameNews.

(** ** Accounts *)

Record Account (t : Topic) := {
  ac_fact : fact t;
  ac_seq : Z;
  ac_heard : fact t;
  ac_applied : Z;
  ac_way : list ScalingEnvelope
}.
Arguments ac_fact {t} _.
Arguments ac_seq {t} _.
Arguments ac_heard {t} _.
Arguments ac_applied {t} _.
Arguments ac_way {t} _.

Section Accounts.
Context (t : Topic) (node : string).
Implicit Types c : Account t.
Implicit Types heard : fact t.

Abbreviation about := (about t node).
Abbreviation hear := (hear t node).
Abbreviation numbers := (numbers t node).

(** The first argument tells a calm step from one after which the listener may
    believe something else than the speaker meant. *)
Inductive account_step : bool -> Account t -> Account t -> Prop :=
| ac_speak (calm : bool) x seq heard applied way kept x' seq' :
    rising seq (numbers kept) seq' ->
    (calm = true -> foldl hear x kept = x') ->
    account_step calm
      {| ac_fact := x; ac_seq := seq; ac_heard := heard; ac_applied := applied; ac_way := way |}
      {| ac_fact := x'; ac_seq := seq'; ac_heard := heard; ac_applied := applied; ac_way := way ++ kept |}
| ac_hear x seq heard applied env way applied' :
    (about env = true -> applied < env_seq env)%Z ->
    applied' = applied \/ about env = true /\ applied' = env_seq env ->
    account_step true
      {| ac_fact := x; ac_seq := seq; ac_heard := heard; ac_applied := applied; ac_way := env :: way |}
      {| ac_fact := x; ac_seq := seq; ac_heard := hear heard env; ac_applied := applied'; ac_way := way |}
| ac_lose x seq heard applied way way' :
    sublist way' way ->
    account_step false
      {| ac_fact := x; ac_seq := seq; ac_heard := heard; ac_applied := applied; ac_way := way |}
      {| ac_fact := x; ac_seq := seq; ac_heard := heard; ac_applied := applied; ac_way := way' |}
| ac_stop x seq heard applied way x' way' :
    sublist way' way ->
    account_step false
      {| ac_fact := x; ac_seq := seq; ac_heard := heard; ac_applied := applied; ac_way := way |}
      {| ac_fact := x'; ac_seq := seq; ac_heard := heard; ac_applied := applied; ac_way := way' |}
| ac_forget (calm : bool) x seq heard applied way heard' applied' :
    (calm = true -> heard' = heard) -> applied' = applied \/ applied' = 0%Z ->
    account_step calm
      {| ac_fact := x; ac_seq := seq; ac_heard := heard; ac_applied := applied; ac_way := way |}
      {| ac_fact := x; ac_seq := seq; ac_heard := heard'; ac_applied := applied'; ac_way := way |}.

Lemma account_idle c : account_step true c c.
Proof. destruct c. apply ac_forget; [done|by left]. Qed.

(** A message that is not about the channel passes. *)
Lemma account_pass x seq heard applied env way :
  about env = false ->
  account_step true
    {| ac_fact := x; ac_seq := seq; ac_heard := heard; ac_applied := applied; ac_way := env :: way |}
    {| ac_fact := x; ac_seq := seq; ac_heard := heard; ac_applied := applied; ac_way := way |}.
Proof.
  intros Ha. pose proof (ac_hear x seq heard applied env way applied) as H. rewrite hear_skip, Ha in H by done.
  apply H; [done|by left].
Qed.

(** The numbers on their way are above the last one applied, rise, and end below
    the speaker's counter. *)
Definition ordered c : Prop := (0 <= ac_applied c)%Z /\ rising (ac_applied c) (numbers (ac_way c)) (ac_seq c).

(** Belief, brought up to date with what is on its way, is the fact. *)
Definition in_sync c : Prop := foldl hear (ac_heard c) (ac_way c) = ac_fact c.

Lemma rising_sublist lo l l' hi : sublist l' l -> rising lo l hi -> rising lo l' hi.
Proof.
  intros Hs. revert lo. induction Hs as [|x l l' _ IH|x l l' _ IH]; intros lo; simpl; [done| |].
  - intros [H1 H2]. split; [done|by apply IH].
  - intros [H1 H2]. apply IH, (rising_weaken x lo _ hi hi); [lia|lia|done].
Qed.

Lemma numbers_sublist l l' : sublist l' l -> sublist (numbers l') (numbers l).
Proof.
  unfold numbers, Speech.numbers. induction 1 as [|x l l' _ IH|x l l' _ IH]; simpl; [constructor| |].
  - destruct (about x); simpl; [by constructor|done].
  - destruct (about x); simpl; [by constructor|done].
Qed.

Lemma account_ordered calm c c' : account_step calm c c' -> ordered c -> ordered c'.
Proof.
  unfold ordered. destruct 1 as [calm x seq heard applied way kept x' seq' Hr _
    |x seq heard applied env way applied' Hn Ha|x seq heard applied way way' Hs|x seq heard applied way x' way' Hs|calm x seq heard applied way heard' applied' _ Ha];
    simpl; intros [H0 H1].
  - split; [done|]. rewrite numbers_app. by eapply rising_app.
  - unfold numbers, Speech.numbers in *. simpl in H1. destruct (about env); simpl in *.
    + destruct H1 as [H1 H2]. destruct Ha as [->|[_ ->]]; (split; [lia|]); [by apply (rising_weaken (env_seq env) _ _ seq); [lia..|]|done].
    + destruct Ha as [->|[? _]]; done.
  - split; [done|]. by eapply rising_sublist; [apply numbers_sublist|].
  - split; [done|]. by eapply rising_sublist; [apply numbers_sublist|].
  - destruct Ha as [->| ->]; [done|]. split; [lia|]. eapply (rising_weaken applied); [lia|reflexivity|done].
Qed.

Lemma account_in_sync c c' : account_step true c c' -> in_sync c -> in_sync c'.
Proof.
  unfold in_sync. intros Hstep. remember true as calm eqn:Ec. destruct Hstep as [calm x seq heard applied way kept x' seq' _ Hu
    |x seq heard applied env way applied' _ _|x seq heard applied way way' _|x seq heard applied way x' way' _
    |calm x seq heard applied way heard' applied' Hh _]; simpl; intros Hsync.
  - by rewrite foldl_app, Hsync, Hu.
  - done.
  - done.
  - done.
  - by rewrite Hh.
Qed.

(** Nothing about the channel is on its way. *)
Definition settled c : Prop := Forall (fun env => about env = false) (ac_way c).

Lemma settled_agree c : in_sync c -> settled c -> ac_heard c = ac_fact c.
Proof. unfold in_sync, settled. intros <- H. by rewrite hear_quiet. Qed.
End Accounts.
