(* ===== verification/Fleet.v ===== *)
(** * The fleet

    Several nodes of the server on one bus ([crates/zatat-scaling/src/redis.rs],
    [run_publisher] of [dispatcher.rs], the subscriber loop of
    [crates/zatat-cli/src/main.rs]): each node takes the steps of [System], its
    publisher hands batches to the bus, and the bus brings them to every node,
    in the order they were published or not at all.  For two nodes and a presence
    channel the fleet keeps an [Account]. *)

From S2P Require Import Prelude.
From S2P Require Import Core.
From S2P Require Import Json.
From S2P Require Import Envelope.
From S2P Require Import Auth.
From S2P Require Import Connection.
From S2P Require Import Channel.
From S2P Require Import Manager.
From S2P Require Import Message.
From S2P Require Import PeerState.
From S2P Require Import Encryption.
From S2P Require Import Bus.
From S2P Require Import Dispatcher.
From S2P Require Import Webhooks.
From S2P Require Import Routes.
From S2P Require Import Handler.
From S2P Require Import Apps.
From S2P Require Import Router.
From S2P Require Import Tasks.
From S2P Require Import System.
From S2P Require Import HandlerProps.
From S2P Require Import TaskProps.
From S2P Require Import Topic.
From S2P Require Import Speech.
From S2P Require Import Hearing.
From S2P Require Import Cli.
From S2P Require Import Account.
From stdpp Require Import options.

(** ** The model *)

(** The nodes that run, what each was sent by each and has not received yet, and
    the nodes that ran once with the last sequence number each had drawn.  A
    process draws a fresh id when it starts ([Uuid::new_v4]). *)
Record Fleet := {
  fl_nodes : gmap string System;
  fl_link : string -> string -> list string;
  fl_gone : gmap string Z
}.

Definition set_node (f : Fleet) (n : string) (sys : System) : Fleet :=
  {| fl_nodes := <[n := sys]> (fl_nodes f); fl_link := fl_link f; fl_gone := fl_gone f |}.

Definition set_link (f : Fleet) (a b : string) (l : list string) : Fleet :=
  {| fl_nodes := fl_nodes f;
     fl_link := fun x y => if decide (x = a /\ y = b) then l else fl_link f x y; fl_gone := fl_gone f |}.

(** The bus brings what a node publishes to all. *)
Definition publish_batch (f : Fleet) (a : string) (batch : list string) : Fleet :=
  {| fl_nodes := fl_nodes f;
     fl_link := fun x y => if decide (x = a) then fl_link f x y ++ batch else fl_link f x y; fl_gone := fl_gone f |}.

(** A node that joins gets what is published from then on. *)
Definition add_node (f : Fleet) (n : string) (sys : System) : Fleet :=
  {| fl_nodes := <[n := sys]> (fl_nodes f);
     fl_link := fun x y => if decide (y = n) then [] else fl_link f x y; fl_gone := fl_gone f |}.

(** A process that ends, whether it crashed or was stopped, takes its queues along. *)
Definition drop_node (f : Fleet) (n : string) (sys : System) : Fleet :=
  {| fl_nodes := delete n (fl_nodes f); fl_link := fl_link f;
     fl_gone := <[n := seq (nd_bus (sys_node sys))]> (fl_gone f) |}.

Definition with_bus (sys : System) (b : Bus) : System :=
  put sys (set_bus (sys_node sys) b) (sys_tasks sys).

Inductive Label :=
| LOwn (n : string) | LSweep (n : string) (now : Instant) | LWorker (n : string) | LPublish (n : string)
| LDeliver (a b : string) | LLose (a b : string) | LJoin (n : string) | LEnd (n : string).

Lemma omap_sublist {A B} (g : A -> option B) l l' : sublist l' l -> sublist (omap g l') (omap g l).
Proof. induction 1 as [|x l l' _ IH|x l l' _ IH]; simpl; [done| |]; destruct (g x); [by constructor|done|by constructor|done]. Qed.

Section Fleets.
Context `{HI : HashIter} `{WI : Wire} `{SJ : SerdeJson} `{CR : Crypto} `{IP : InboundParser}.
Context `{GL : GlobLib} `{FG : Figment} `{SB : SecretBox} `{BP : BodyParser}.
Context (policy : string -> PublishOverflow) (base : Z) (overflow : WebhookOverflow) (prefix : string).

Definition cfg_of (n : string) : Config :=
  {| scaling_enabled := true; node_id := n; publish_overflow := policy n |}.

Inductive fleet_step (f : Fleet) : Label -> Fleet -> Prop :=
| fleet_own n sys sys' :
    fl_nodes f !! n = Some sys -> own_step (cfg_of n) base overflow prefix sys sys' ->
    fleet_step f (LOwn n) (set_node f n sys')
| fleet_sweep n sys now :
    fl_nodes f !! n = Some sys ->
    fleet_step f (LSweep n now)
      (set_node f n (put sys (presence_cache_gc (cfg_of n) base overflow (sys_node sys) (sys_apps sys) now) (sys_tasks sys)))
| fleet_worker n sys op :
    fl_nodes f !! n = Some sys -> op = Forward \/ op = Take \/ op = Mark ->
    fleet_step f (LWorker n) (set_node f n (with_bus sys (bus_step (policy n) op (nd_bus (sys_node sys)))))
| fleet_publish n sys :
    fl_nodes f !! n = Some sys ->
    fleet_step f (LPublish n)
      (set_node (publish_batch f n (batch (nd_bus (sys_node sys)))) n
         (with_bus sys (publisher_done (nd_bus (sys_node sys)))))
| fleet_deliver a b sys bytes rest now :
    fl_nodes f !! b = Some sys -> fl_link f a b = bytes :: rest ->
    fleet_step f (LDeliver a b)
      (set_node (set_link f a b rest) b
         (put sys (on_bytes (cfg_of b) base overflow (sys_apps sys) (sys_node sys) bytes now) (sys_tasks sys)))
| fleet_lose a b l1 bytes l2 :
    fl_link f a b = l1 ++ bytes :: l2 -> fleet_step f (LLose a b) (set_link f a b (l1 ++ l2))
| fleet_join n raws idx :
    fl_nodes f !! n = None -> fl_gone f !! n = None -> build_app_index raws = Ok idx ->
    fleet_step f (LJoin n) (add_node f n (sys_start (cfg_of n) overflow idx))
| fleet_end n sys :
    fl_nodes f !! n = Some sys -> fleet_step f (LEnd n) (drop_node f n sys).

(** Every node starts with its own configuration and nothing on its way. *)
Definition fleet_start (f : Fleet) : Prop :=
  (forall n sys, fl_nodes f !! n = Some sys ->
     exists raws idx, build_app_index raws = Ok idx /\ sys = sys_start (cfg_of n) overflow idx) /\
  (forall a b, fl_link f a b = []) /\ fl_gone f = ∅.

(** A node that does not run counts as one with nothing in it; the numbers it drew
    are not drawn again. *)
Definition stopped (n : string) (k : Z) : System :=
  with_bus (sys_start (cfg_of n) overflow {| by_id := ∅; by_key := ∅ |}) (set_seq (bus_new true (policy n)) k).

Definition sys_at (f : Fleet) (n : string) : System :=
  default (stopped n (default 0%Z (fl_gone f !! n))) (fl_nodes f !! n).

Abbreviation node_at f n := (sys_node (sys_at f n)).

Definition drops_at (f : Fleet) (n : string) : Z := publish_drops (nd_bus (node_at f n)).
Definition seq_at (f : Fleet) (n : string) : Z := seq (nd_bus (node_at f n)).

(** What node [x] has sent or queued and node [y] not received. *)
Definition on_way (f : Fleet) (x y : string) : list ScalingEnvelope :=
  omap parse (fl_link f x y ++ contents (nd_bus (node_at f x))).

Section Pair.
Context (t : Topic) (Hproper : tp_proper t).
Context (Hwire : forall env, exists env', parse (to_vec env) = Some env' /\ same_news env env').

Definition account (f : Fleet) (a b : string) : Account t :=
  {| ac_fact := here t (nd_channels (node_at f a));
     ac_seq := seq_at f a;
     ac_heard := heard t (nd_view (node_at f b)) a;
     ac_applied := latest t a (nd_view (node_at f b));
     ac_way := on_way f a b |}.

(** A step after which [b] still knows what [a] means it to: [a] drops nothing,
    the bus loses nothing of [a] for [b], [b] has the application configured when it
    hears of it, [b] sweeps only while what it knows of [a] is fresh, and both keep
    running ([b] may start while nothing of [a] is on its way). *)
Definition calm (a b : string) (f : Fleet) (l : Label) (f' : Fleet) : Prop :=
  drops_at f' a = drops_at f a /\
  match l with
  | LSweep n now => n = b -> alive t a (nd_view (node_at f b)) now
  | LDeliver x y => x = a -> y = b -> is_Some (app_by_id (sys_apps (sys_at f b)) (tp_app t))
  | LLose x y => ~ (x = a /\ y = b)
  | LJoin n => n = b -> fl_link f a b = []
  | LEnd n => n <> a /\ n <> b
  | _ => True
  end.

(** ** The invariant of the nodes and of what they say *)

Definition node_fine (n : string) (sys : System) : Prop :=
  sys_inv (cfg_of n) sys /\ seated t (nd_channels (sys_node sys)) /\
  (0 <= seq (nd_bus (sys_node sys)))%Z /\ is_Some (publish_tx (nd_bus (sys_node sys))).

(** News of [x] are about [x] itself. *)
Definition from (x : string) (env : ScalingEnvelope) : Prop :=
  forall n, about t n env = true -> n = x /\ version env = SCALING_VERSION.

Definition fleet_ok (f : Fleet) : Prop :=
  (forall n, node_fine n (sys_at f n)) /\ (forall x y, Forall (from x) (on_way f x y)).

Lemma sys_at_lookup f n sys : fl_nodes f !! n = Some sys -> sys_at f n = sys.
Proof. unfold sys_at. by intros ->. Qed.

Lemma sys_at_set f n sys m : sys_at (set_node f n sys) m = if decide (m = n) then sys else sys_at f m.
Proof.
  unfold sys_at, set_node. simpl. case_decide as Hd; [subst; by rewrite lookup_insert_eq|by rewrite lookup_insert_ne].
Qed.

Lemma sys_at_same f n sys : sys_at (set_node f n sys) n = sys.
Proof. by rewrite sys_at_set, decide_True. Qed.

Lemma sys_at_other f n sys m : m <> n -> sys_at (set_node f n sys) m = sys_at f m.
Proof. intros. by rewrite sys_at_set, decide_False. Qed.

Lemma start_fine n raws idx : build_app_index raws = Ok idx -> node_fine n (sys_start (cfg_of n) overflow idx).
Proof.
  intros Hb. split_and!; [| |done|by eexists].
  - by eapply start_inv.
  - apply here_start.
Qed.

(** A bus that was exchanged for another in order. *)
Lemma worker_says n sys b' :
  node_fine n sys -> bus_wf (policy n) b' -> (0 <= seq b')%Z -> is_Some (publish_tx b') -> node_fine n (with_bus sys b').
Proof.
  intros (Hi & Hse & _) Hw Hs Ho. split_and!; [|done|done|done].
  apply roster_inv; [done| |done]. destruct (inv_node _ _ Hi) as [H1 H2]. by split.
Qed.

Lemma stopped_fine n k : (0 <= k)%Z -> node_fine n (stopped n k).
Proof using FG GL.
  intros Hk. apply worker_says; [by apply (start_fine n [])| |done|by eexists]. destruct (bus_new_wf (policy n) true). by split.
Qed.

Lemma new_contents n : contents (bus_new true (policy n)) = [].
Proof. unfold bus_new. by destruct (policy n). Qed.

Lemma stopped_contents n k : contents (nd_bus (sys_node (stopped n k))) = [].
Proof. exact (new_contents n). Qed.

Lemma fleet_start_ok f : fleet_start f -> fleet_ok f.
Proof.
  intros (Hn & Hl & Hg).
  assert (forall n, node_fine n (sys_at f n) /\ contents (nd_bus (node_at f n)) = []) as Hs.
  { intros n. unfold sys_at. destruct (fl_nodes f !! n) as [sys|] eqn:E; simpl.
    - destruct (Hn _ _ E) as (raws & idx & Hb & ->). split; [by eapply start_fine|apply new_contents].
    - rewrite Hg, lookup_empty. split; [by apply stopped_fine|exact (new_contents n)]. }
  split; [apply Hs|]. intros x y. unfold on_way. by rewrite Hl, (proj2 (Hs x)).
Qed.

(** What is queued arrives as the same news. *)
Lemma read_back kept : Forall2 same_news kept (omap parse (to_vec <$> kept)).
Proof using Hwire.
  induction kept as [|env kept IH]; [constructor|]. simpl. destruct (Hwire env) as (env' & -> & Hs). by constructor.
Qed.

Lemma from_read x kept : Forall (from x) kept -> Forall (from x) (omap parse (to_vec <$> kept)).
Proof using Hwire.
  intros H. pose proof (read_back kept) as Hr. induction Hr as [|env env' l l' Hs _ IH]; [constructor|].
  apply Forall_cons in H as [H1 H2]. constructor; [|by apply IH]. intros n. rewrite (same_about _ _ _ _ Hs), (same_version _ _ Hs). apply H1.
Qed.

(** ** One node moves *)

(** What a step of node [n] does, to the node and to its queue. *)
Definition moves (n : string) (sys sys' : System) : Prop :=
  node_fine n sys' /\ exists kept, says (cfg_of n) t (sys_node sys) (sys_node sys') kept.

Lemma speaks_moves n sys sys' :
  node_fine n sys -> sys_inv (cfg_of n) sys' -> speaks (cfg_of n) t (sys_node sys) (sys_node sys') -> moves n sys sys'.
Proof.
  intros (Hi & Hse & H0 & Ht) Hi' Hsp. destruct (Hsp (conj (inv_node _ _ Hi) Hse)) as [[_ Hse'] [kept Hk]].
  split; [|by exists kept]. destruct (says_bus _ _ _ _ _ Hk) as [_ Hs _ Hon _].
  split_and!; [done|done|lia|by apply Hon].
Qed.

Lemma own_moves n sys sys' :
  node_fine n sys -> own_step (cfg_of n) base overflow prefix sys sys' ->
  moves n sys sys' /\ nd_view (sys_node sys') = nd_view (sys_node sys).
Proof using Hproper.
  intros Hf Hstep. pose proof Hf as (Hi & _).
  destruct (own_step_speaks (cfg_of n) base overflow eq_refl t Hproper prefix sys sys'
    (node_manager _ _ (inv_node _ _ Hi)) Hstep) as [Hs Hv].
  split; [|done]. apply speaks_moves; [done|by eapply own_step_inv|done].
Qed.

Lemma sweep_moves n sys now :
  node_fine n sys ->
  moves n sys (put sys (presence_cache_gc (cfg_of n) base overflow (sys_node sys) (sys_apps sys) now) (sys_tasks sys)).
Proof.
  intros Hf. apply speaks_moves; [done| |apply sweep_speaks]. apply tame_inv; [apply Hf|apply sweep_tame].
Qed.

Lemma deliver_moves n sys bytes now :
  node_fine n sys ->
  moves n sys (put sys (on_bytes (cfg_of n) base overflow (sys_apps sys) (sys_node sys) bytes now) (sys_tasks sys)).
Proof.
  intros Hf. unfold on_bytes. destruct (parse bytes) as [env|].
  - apply speaks_moves; [done| |apply incoming_speaks]. apply tame_inv; [apply Hf|].
    intros Hw. split; [by apply handle_incoming_wf|]. apply incoming_keeps, Hw.
  - apply speaks_moves; [done|apply tame_inv; [apply Hf|by apply tame_same]|]. by apply speaks_tame, tame_same.
Qed.

(** ** The account of a pair follows the protocol *)

Lemma moves_ok f n sys' : fleet_ok f -> moves n (sys_at f n) sys' -> fleet_ok (set_node f n sys').
Proof using Hwire.
  intros [Hn Hw] [Hf (kept & Hk)]. split.
  - intros m. rewrite sys_at_set. case_decide; [by subst|apply Hn].
  - intros x y. unfold on_way. rewrite sys_at_set. case_decide as Hd; [subst x|apply Hw].
    change (fl_link (set_node f n sys') n y) with (fl_link f n y).
    rewrite (says_contents _ _ _ _ (says_bus _ _ _ _ _ Hk)), app_assoc, omap_app.
    apply Forall_app. split; [apply Hw|]. apply from_read, (says_source _ _ _ _ _ Hk).
Qed.

Lemma speaker_steps f a b sys' :
  a <> b -> fleet_ok f -> moves a (sys_at f a) sys' ->
  (seq (nd_bus (sys_node sys')) < 2 ^ 64)%Z ->
  exists c, account_step t a c (account f a b) (account (set_node f a sys') a b) /\
    (publish_drops (nd_bus (sys_node sys')) = drops_at f a -> c = true).
Proof using Hwire.
  intros Hne [Hn _] [Hf (kept & Hk)] Hlt. destruct (Hn a) as (_ & _ & H0 & Ht).
  exists (bool_decide (publish_drops (nd_bus (sys_node sys')) = drops_at f a)). split; [|by intros Hd; apply bool_decide_eq_true_2].
  unfold account, on_way, seq_at. rewrite !sys_at_same, !sys_at_other by done.
  change (fl_link (set_node f a sys') a b) with (fl_link f a b).
  rewrite (says_contents _ _ _ _ (says_bus _ _ _ _ _ Hk)), app_assoc, (omap_app parse (_ ++ _)).
  apply ac_speak; rewrite ?(same_numbers _ _ _ _ (read_back kept)), ?(same_foldl _ _ _ _ _ (read_back kept)).
  - by apply (says_order _ _ _ _ _ Hk).
  - intros Hd%bool_decide_eq_true_1. by apply (says_fact _ _ _ _ _ Hk).
Qed.

Lemma listener_account f a b sys' :
  a <> b ->
  account (set_node f b sys') a b
  = {| ac_fact := ac_fact (account f a b); ac_seq := ac_seq (account f a b);
       ac_heard := heard t (nd_view (sys_node sys')) a;
       ac_applied := latest t a (nd_view (sys_node sys')); ac_way := ac_way (account f a b) |}.
Proof. intros Hne. unfold account, on_way, seq_at. simpl. by rewrite !sys_at_same, !sys_at_other by done. Qed.

Lemma unmoved_account f a b sys' :
  a <> b -> unmoved t a (nd_view (node_at f b)) (nd_view (sys_node sys')) ->
  account (set_node f b sys') a b = account f a b.
Proof. intros Hne [H1 H2]. rewrite listener_account by done. unfold account at 4. by rewrite H1, H2. Qed.

Lemma other_account f n a b sys' : n <> a -> n <> b -> account (set_node f n sys') a b = account f a b.
Proof. intros Ha Hb. unfold account, on_way, seq_at. simpl. by rewrite !sys_at_other by done. Qed.

Lemma link_account f x y l a b :
  account (set_link f x y l) a b
  = {| ac_fact := ac_fact (account f a b); ac_seq := ac_seq (account f a b); ac_heard := ac_heard (account f a b);
       ac_applied := ac_applied (account f a b);
       ac_way := if decide (a = x /\ b = y) then omap parse (l ++ contents (nd_bus (node_at f a))) else on_way f a b |}.
Proof. unfold account, on_way, seq_at. simpl. by case_decide. Qed.

Lemma link_ok f x y l : fleet_ok f -> sublist l (fl_link f x y) -> fleet_ok (set_link f x y l).
Proof.
  intros [Hn Hw] Hs. split; [exact Hn|]. intros x' y'. specialize (Hw x' y'). unfold on_way in *. simpl in *.
  case_decide as Hd; [|exact Hw]. destruct Hd as [-> ->]. rewrite Forall_forall in Hw |- *.
  intros env He. apply Hw. eapply elem_of_submseteq; [exact He|]. by apply sublist_submseteq, omap_sublist, sublist_app.
Qed.

Lemma sweep_forgets f a b now :
  a <> b ->
  let f' := set_node f b (put (sys_at f b)
    (presence_cache_gc (cfg_of b) base overflow (node_at f b) (sys_apps (sys_at f b)) now) (sys_tasks (sys_at f b))) in
  exists c, account_step t a c (account f a b) (account f' a b) /\ (calm a b f (LSweep b now) f' -> c = true).
Proof.
  intros Hne f'. unfold f' at 1. rewrite listener_account by done.
  destruct (sweep_heard (cfg_of b) base overflow t a (node_at f b) (sys_apps (sys_at f b)) now) as (Hl & _ & Hap).
  set (v' := nd_view (presence_cache_gc _ _ _ _ _ _)) in *.
  exists (bool_decide (heard t v' a = heard t (nd_view (node_at f b)) a)).
  split; [|intros [_ Halive]; apply bool_decide_eq_true_2, Hl, Halive; done].
  unfold account. cbn [ac_fact ac_seq ac_way]. apply ac_forget; [|done]. by intros ?%bool_decide_eq_true_1.
Qed.

Lemma deliver_unmoved n sys bytes now a :
  node_fine n sys -> (forall env, parse bytes = Some env -> about t a env = false) ->
  unmoved t a (nd_view (sys_node sys))
    (nd_view (on_bytes (cfg_of n) base overflow (sys_apps sys) (sys_node sys) bytes now)).
Proof.
  intros (Hi & _) Ha. unfold on_bytes. destruct (parse bytes) as [env|]; [|done].
  apply still_incoming; [|by apply Ha]. intros i app. apply (index_ids _ (inv_apps _ _ Hi)).
Qed.

(** The account after a delivery from [a] to [b] that left node [nd'] on [b]. *)
Lemma delivered_account f a b sys bytes rest nd' :
  a <> b -> fl_link f a b = bytes :: rest ->
  let way := omap parse (rest ++ contents (nd_bus (node_at f a))) in
  account (set_node (set_link f a b rest) b (put sys nd' (sys_tasks sys))) a b
  = {| ac_fact := ac_fact (account f a b); ac_seq := ac_seq (account f a b); ac_heard := heard t (nd_view nd') a;
       ac_applied := latest t a (nd_view nd'); ac_way := way |} /\
  on_way f a b = match parse bytes with Some env => env :: way | None => way end.
Proof.
  intros Hne Hl way. rewrite listener_account, link_account, decide_True by done. split; [done|].
  unfold on_way. rewrite Hl. simpl. by destruct (parse bytes).
Qed.

(** What [b] cannot read, is not about the channel or is of an unknown application
    changes nothing on [b]. *)
Lemma deliver_passes f a b sys bytes rest nd' :
  a <> b -> fl_nodes f !! b = Some sys -> fl_link f a b = bytes :: rest ->
  unmoved t a (nd_view (sys_node sys)) (nd_view nd') ->
  (forall env, parse bytes = Some env -> about t a env = false) \/ app_by_id (sys_apps sys) (tp_app t) = None ->
  exists c, account_step t a c (account f a b)
      (account (set_node (set_link f a b rest) b (put sys nd' (sys_tasks sys))) a b) /\
    (is_Some (app_by_id (sys_apps (sys_at f b)) (tp_app t)) -> c = true).
Proof.
  intros Hne Hb Hl [U1 U2] Hcase. destruct (delivered_account f a b sys bytes rest nd' Hne Hl) as [-> Hway].
  rewrite U1, U2. unfold account. cbn [ac_fact ac_seq]. rewrite Hway, (sys_at_lookup _ _ _ Hb).
  destruct Hcase as [Ha|Ha].
  - exists true. split; [|done]. destruct (parse bytes) as [env|]; [by apply account_pass, Ha|apply account_idle].
  - exists false. split; [|rewrite Ha; by intros [? ?]]. apply ac_lose. destruct (parse bytes); [by constructor|done].
Qed.

(** [b] receives a message of [a]. *)
Lemma deliver_heard f a b sys bytes rest now :
  a <> b -> fleet_ok f -> ordered t a (account f a b) -> fl_nodes f !! b = Some sys -> fl_link f a b = bytes :: rest ->
  let f' := set_node (set_link f a b rest) b
    (put sys (on_bytes (cfg_of b) base overflow (sys_apps sys) (sys_node sys) bytes now) (sys_tasks sys)) in
  exists c, account_step t a c (account f a b) (account f' a b) /\
    (is_Some (app_by_id (sys_apps (sys_at f b)) (tp_app t)) -> c = true).
Proof.
  intros Hne [Hn Hw] [H0 Hord] Hb Hl f'.
  assert (node_fine b sys) as Hf by (rewrite <- (sys_at_lookup _ _ _ Hb); apply Hn).
  assert ((forall env, parse bytes = Some env -> about t a env = false) \/
    exists env, parse bytes = Some env /\ about t a env = true) as [Hq|(env & Ep & Ea)].
  { destruct (parse bytes) as [env|]; [|by left]. destruct (about t a env) eqn:Ea; [right; eauto|left; congruence]. }
  { apply (deliver_passes f a b sys bytes rest); [done|done|done|by apply deliver_unmoved|by left]. }
  assert (ref_id (env_app env) = tp_app t) as Hid by (unfold about in Ea; by apply andb_true_iff in Ea as [?%String.eqb_eq _]).
  destruct (app_by_id (sys_apps sys) (tp_app t)) as [app|] eqn:Eapp.
  2:{ apply (deliver_passes f a b sys bytes rest); [done|done|done| |by right]. unfold on_bytes. rewrite Ep. apply still_unknown. by rewrite Hid. }
  exists true. split; [|done]. unfold f'.
  destruct (delivered_account f a b sys bytes rest (on_bytes (cfg_of b) base overflow (sys_apps sys) (sys_node sys) bytes now) Hne Hl)
    as [-> Hway]. rewrite Ep in Hway. unfold account in *. cbn [ac_fact ac_seq ac_applied ac_way] in *.
  specialize (Hw a b). rewrite Hway, (sys_at_lookup _ _ _ Hb) in *. apply Forall_cons in Hw as [Hfrom _].
  unfold numbers in Hord. cbn [List.filter] in Hord. rewrite Ea in Hord. destruct Hord as [Hlt _].
  destruct (news_applied (cfg_of b) (Some (transition_sink base overflow)) t a (sys_node sys) env (app_by_id (sys_apps sys)) app now)
    as [N1 N2]; [by rewrite Hid|by apply (index_ids _ (inv_apps _ _ (proj1 Hf)))|by rewrite (proj2 (Hfrom a Ea))|done|done|done|].
  unfold on_bytes. rewrite Ep, N1. apply ac_hear; [done|]. destruct N2 as [N2|N2]; [by right|by left].
Qed.

Lemma worker_step n sys op :
  node_fine n sys -> op = Forward \/ op = Take \/ op = Mark ->
  let b := nd_bus (sys_node sys) in
  let b' := bus_step (policy n) op b in
  node_fine n (with_bus sys b') /\ contents b' = contents b /\ seq b' = seq b.
Proof.
  intros Hf Hop b b'. pose proof (node_bus _ _ (inv_node _ _ (proj1 Hf))) as Hw. unfold bus_ok in Hw.
  assert (bus_wf (policy n) b' /\ contents b' = contents b /\ seq b' = seq b /\ (is_Some (publish_tx b') <-> is_Some (publish_tx b)))
    as (H1 & H2 & H3 & H4); [|split_and!; [apply worker_says; [done|done|rewrite H3; apply Hf|apply H4, Hf]|done|done]].
  destruct Hop as [-> |[-> | ->]]; unfold b'; simpl.
  - destruct (forward_one_spec (policy n) b Hw) as [H1 H2]. split_and!; [done|done|unfold forward_one; by repeat case_match|].
    unfold forward_one. destruct (publish_tx b) as [q|] eqn:E; [|by rewrite E]. repeat case_match; simpl; rewrite ?E; by split; eexists.
  - destruct (publisher_take_spec (policy n) b Hw) as [H1 H2]. split_and!; [done|done|unfold publisher_take; by repeat case_match|].
    unfold publisher_take. destruct (publish_tx b) as [q|] eqn:E; [|by rewrite E]. repeat case_match; simpl; rewrite ?E; by split; eexists.
  - destruct (publisher_mark_spec (policy n) b Hw) as [H1 H2]. done.
Qed.

Lemma publish_step n sys :
  node_fine n sys ->
  let b := nd_bus (sys_node sys) in
  node_fine n (with_bus sys (publisher_done b)) /\ contents b = batch b ++ contents (publisher_done b).
Proof.
  intros Hf b. pose proof (node_bus _ _ (inv_node _ _ (proj1 Hf))) as Hw. unfold bus_ok in Hw.
  destruct (publisher_done_spec (policy n) b Hw) as [H1 H2]. split; [apply worker_says; [done|done|apply Hf..]|done].
Qed.

(** Moving messages from the queue to the bus changes nothing else. *)
Definition requeued (f f' : Fleet) (n : string) : Prop :=
  (forall x y, on_way f' x y = on_way f x y) /\
  exists sys', (forall m, sys_at f' m = if decide (m = n) then sys' else sys_at f m) /\
    node_fine n sys' /\ nd_view (sys_node sys') = nd_view (node_at f n) /\
    nd_channels (sys_node sys') = nd_channels (node_at f n) /\ seq (nd_bus (sys_node sys')) = seq_at f n.

Lemma worker_requeued f n sys op :
  node_fine n sys -> fl_nodes f !! n = Some sys -> op = Forward \/ op = Take \/ op = Mark ->
  requeued f (set_node f n (with_bus sys (bus_step (policy n) op (nd_bus (sys_node sys))))) n.
Proof.
  intros Hf Hs Hop. destruct (worker_step n sys op Hf Hop) as (W1 & W2 & W3). split.
  - intros x y. unfold on_way. rewrite sys_at_set. case_decide; [subst|done]. simpl. by rewrite W2, (sys_at_lookup _ _ _ Hs).
  - eexists. split; [apply sys_at_set|]. unfold seq_at. by rewrite (sys_at_lookup _ _ _ Hs).
Qed.

Lemma publish_requeued f n sys :
  node_fine n sys -> fl_nodes f !! n = Some sys ->
  requeued f (set_node (publish_batch f n (batch (nd_bus (sys_node sys)))) n
                (with_bus sys (publisher_done (nd_bus (sys_node sys))))) n.
Proof.
  intros Hf Hs. destruct (publish_step n sys Hf) as (W1 & W2). split.
  - intros x y. unfold on_way. rewrite sys_at_set. simpl. case_decide; [subst|done].
    rewrite (sys_at_lookup _ _ _ Hs), W2. simpl. by rewrite <- app_assoc.
  - eexists. split; [apply (sys_at_set (publish_batch f n _))|]. unfold seq_at. by rewrite (sys_at_lookup _ _ _ Hs).
Qed.

Lemma requeued_account f f' n a b : requeued f f' n -> account f' a b = account f a b.
Proof.
  intros (Hw & sys' & Hs & _ & Hv & Hc & Hq). unfold account, seq_at. rewrite !Hs, Hw.
  repeat case_decide; subst; by rewrite ?Hv, ?Hc, ?Hq.
Qed.

Lemma requeued_ok f f' n :
  fleet_ok f -> requeued f f' n -> fleet_ok f' /\ forall m, (seq_at f m <= seq_at f' m)%Z.
Proof.
  intros [Hn Hway] (Hw & sys' & Hs & Hf & _ & _ & Hq). split; [split|].
  - intros m. rewrite Hs. case_decide; [by subst|apply Hn].
  - intros x y. rewrite Hw. apply Hway.
  - intros m. unfold seq_at at 2. rewrite Hs. case_decide; [subst; by rewrite Hq|done].
Qed.

(** *** Nodes that come and go *)

Lemma sys_at_add f n sys m : sys_at (add_node f n sys) m = if decide (m = n) then sys else sys_at f m.
Proof. apply (sys_at_set f). Qed.

Lemma sys_at_drop f n sys m :
  sys_at (drop_node f n sys) m = if decide (m = n) then stopped n (seq (nd_bus (sys_node sys))) else sys_at f m.
Proof.
  unfold sys_at, drop_node. simpl. case_decide as Hd; [subst; by rewrite lookup_delete_eq, lookup_insert_eq|].
  by rewrite lookup_delete_ne, lookup_insert_ne.
Qed.

(** A node that was never heard of. *)
Definition stranger f (n : string) : Prop := fl_nodes f !! n = None /\ fl_gone f !! n = None.

Lemma sys_at_stranger f n : stranger f n -> sys_at f n = stopped n 0%Z.
Proof. intros [H1 H2]. unfold sys_at. by rewrite H1, H2. Qed.

Lemma join_ok f n raws idx :
  fleet_ok f -> stranger f n -> build_app_index raws = Ok idx ->
  let f' := add_node f n (sys_start (cfg_of n) overflow idx) in
  fleet_ok f' /\ forall m, seq_at f' m = seq_at f m.
Proof.
  intros [Hn Hw] Hs Hb f'. split; [split|].
  - intros m. unfold f'. rewrite sys_at_add. case_decide; [subst; by eapply start_fine|apply Hn].
  - intros x y. unfold on_way, f'. rewrite sys_at_add. rewrite omap_app. apply Forall_app. specialize (Hw x y).
    unfold on_way in Hw. rewrite omap_app in Hw. apply Forall_app in Hw as [W1 W2]. simpl. split; [by case_decide|].
    case_decide; [|done]. simpl. by rewrite new_contents.
  - intros m. unfold seq_at, f'. rewrite sys_at_add. case_decide; [subst; by rewrite sys_at_stranger|done].
Qed.

Lemma end_ok f n sys :
  fleet_ok f -> fl_nodes f !! n = Some sys ->
  let f' := drop_node f n sys in fleet_ok f' /\ forall m, seq_at f' m = seq_at f m.
Proof using FG GL.
  intros [Hn Hw] Hs f'. pose proof (Hn n) as Hf. rewrite (sys_at_lookup _ _ _ Hs) in Hf. split; [split|].
  - intros m. unfold f'. rewrite sys_at_drop. case_decide; [subst; apply stopped_fine, Hf|apply Hn].
  - intros x y. unfold on_way, f'. rewrite sys_at_drop. specialize (Hw x y).
    unfold on_way in Hw. case_decide; [|exact Hw]. rewrite omap_app in Hw. apply Forall_app in Hw as [W1 _].
    by rewrite stopped_contents, app_nil_r.
  - intros m. unfold seq_at, f'. rewrite sys_at_drop. case_decide; [subst; by rewrite (sys_at_lookup _ _ _ Hs)|done].
Qed.

(** A start is news to nobody; the newcomer missed what was on its way. *)
Lemma join_account f n raws idx a b :
  a <> b -> stranger f n -> build_app_index raws = Ok idx ->
  let f' := add_node f n (sys_start (cfg_of n) overflow idx) in
  exists c, account_step t a c (account f a b) (account f' a b) /\ (calm a b f (LJoin n) f' -> c = true).
Proof.
  intros Hne Hs Hb f'.
  assert (forall m, here t (nd_channels (node_at f' m)) = here t (nd_channels (node_at f m)) /\
    seq_at f' m = seq_at f m /\ nd_view (node_at f' m) = nd_view (node_at f m) /\
    contents (nd_bus (node_at f' m)) = contents (nd_bus (node_at f m))) as Hsame.
  { intros m. unfold seq_at, f'. rewrite sys_at_add. case_decide; [subst; by rewrite sys_at_stranger|done]. }
  destruct (Hsame a) as (A1 & A2 & _ & A4), (Hsame b) as (_ & _ & B3 & _).
  unfold account, on_way. rewrite A1, A2, B3, A4. simpl. case_decide as Hb'.
  - exists (bool_decide (fl_link f a b = [])). split.
    + case_bool_decide as Hl; [rewrite Hl; apply account_idle|].
      apply ac_lose. apply omap_sublist. by apply sublist_inserts_l.
    + intros [_ Hc]. by apply bool_decide_eq_true_2, Hc.
  - exists true. split; [apply account_idle|done].
Qed.

Lemma end_account f n sys a b :
  a <> b -> fl_nodes f !! n = Some sys ->
  let f' := drop_node f n sys in
  exists c, account_step t a c (account f a b) (account f' a b) /\ (calm a b f (LEnd n) f' -> c = true).
Proof.
  intros Hne Hs f'. destruct (decide (n = a)) as [->|Ha].
  { exists false. split; [|by intros [_ [? _]]]. unfold account, on_way, seq_at, f'. rewrite !sys_at_drop.
    rewrite decide_True, decide_False by done. rewrite (sys_at_lookup _ _ _ Hs), stopped_contents. apply ac_stop.
    apply omap_sublist, sublist_app; [done|apply sublist_nil_l]. }
  destruct (decide (n = b)) as [->|Hb].
  { exists false. split; [|by intros [_ [_ ?]]]. unfold account, on_way, seq_at, f'. rewrite !sys_at_drop.
    rewrite decide_False, decide_True by done. apply ac_forget; [done|by right]. }
  exists true. split; [|done]. unfold account, on_way, seq_at, f'. rewrite !sys_at_drop, !decide_False by done. apply account_idle.
Qed.

(** Every step of the fleet keeps the invariant. *)
Lemma fleet_step_ok f l f' :
  fleet_ok f -> fleet_step f l f' -> fleet_ok f' /\ forall n, (seq_at f n <= seq_at f' n)%Z.
Proof using Hproper Hwire.
  intros Hok Hstep.
  assert (forall f n sys', fleet_ok f -> moves n (sys_at f n) sys' ->
    fleet_ok (set_node f n sys') /\ forall m, (seq_at f m <= seq_at (set_node f n sys') m)%Z) as Hmove.
  { intros f0 n sys' Hok0 Hm. split; [by apply moves_ok|]. intros m. unfold seq_at. rewrite sys_at_set.
    case_decide; [subst|done]. destruct Hm as [_ (kept & Hk)]. apply (says_seq _ _ _ _ (says_bus _ _ _ _ _ Hk)). }
  pose proof (proj1 Hok) as Hn.
  destruct Hstep as [n sys sys' Hs Hown|n sys now Hs|n sys op Hs Hop|n sys Hs|x y sys bytes rest now Hs Hl|x y l1 bytes l2 Hl|n raws idx Hn0 Hg0 Hb|n sys Hs];
    try (pose proof (Hn n) as Hf; rewrite (sys_at_lookup _ _ _ Hs) in Hf).
  - apply Hmove; [done|]. rewrite (sys_at_lookup _ _ _ Hs). by apply own_moves.
  - apply Hmove; [done|]. rewrite (sys_at_lookup _ _ _ Hs). by apply sweep_moves.
  - eapply requeued_ok; [done|by apply worker_requeued].
  - eapply requeued_ok; [done|by apply publish_requeued].
  - pose proof (Hn y) as Hf. rewrite (sys_at_lookup _ _ _ Hs) in Hf.
    apply (Hmove (set_link f x y rest)).
    + apply link_ok; [done|]. rewrite Hl. by constructor.
    + change (sys_at (set_link f x y rest) y) with (sys_at f y). rewrite (sys_at_lookup _ _ _ Hs). by apply deliver_moves.
  - split; [|done]. apply link_ok; [done|]. rewrite Hl. apply sublist_app; [done|by constructor].
  - destruct (join_ok f n raws idx Hok (conj Hn0 Hg0) Hb) as [H1 H2]. split; [done|]. intros m. by rewrite H2.
  - destruct (end_ok f n sys Hok Hs) as [H1 H2]. split; [done|]. intros m. by rewrite H2.
Qed.

(** Every step of the fleet is a step of the protocol. *)
Lemma fleet_sim f l f' a b :
  a <> b -> fleet_ok f -> fleet_step f l f' -> (seq_at f' a < 2 ^ 64)%Z -> ordered t a (account f a b) ->
  exists c, account_step t a c (account f a b) (account f' a b) /\ (calm a b f l f' -> c = true).
Proof using Hproper Hwire.
  intros Hne Hok Hstep Hlt Hord. pose proof (proj1 Hok) as Hn.
  assert (forall f' l, account f' a b = account f a b -> exists c, account_step t a c (account f a b) (account f' a b) /\ (calm a b f l f' -> c = true)) as Hidle.
  { intros f0 l0 ->. exists true. split; [apply account_idle|done]. }
  assert (forall f0 sys' l, account f0 a b = account f a b -> sys_at f0 a = sys_at f a -> fleet_ok f0 ->
    moves a (sys_at f a) sys' -> (seq_at (set_node f0 a sys') a < 2 ^ 64)%Z ->
    exists c, account_step t a c (account f a b) (account (set_node f0 a sys') a b) /\ (calm a b f l (set_node f0 a sys') -> c = true)) as Hspeak.
  { intros f0 sys' l0 Ha Hs Hok0 Hm Hlt0. unfold seq_at in Hlt0. rewrite sys_at_same in Hlt0. rewrite <- Hs in Hm.
    destruct (speaker_steps f0 a b sys' Hne Hok0 Hm Hlt0) as (c & Hc & Hcalm). rewrite Ha in Hc.
    exists c. split; [done|]. intros [Hd _]. apply Hcalm. unfold drops_at in *. by rewrite sys_at_same in Hd; rewrite Hs. }
  destruct Hstep as [n sys sys' Hs Hown|n sys now Hs|n sys op Hs Hop|n sys Hs|x y sys bytes rest now Hs Hl|x y l1 bytes l2 Hl|n raws idx Hn0 Hg0 Hb|n sys Hs].
  - destruct (own_moves n (sys_at f n) sys') as [Hm Hv]; [apply Hn|by rewrite (sys_at_lookup _ _ _ Hs)|].
    destruct (decide (n = a)) as [->|Ha]; [by apply (Hspeak f)|]. apply Hidle.
    destruct (decide (n = b)) as [->|Hb]; [apply unmoved_account; [done|by rewrite Hv]|by apply other_account].
  - pose proof (sweep_moves n (sys_at f n) now (Hn n)) as Hm. rewrite <- (sys_at_lookup _ _ _ Hs) in Hlt |- *.
    destruct (decide (n = a)) as [->|Ha]; [by apply (Hspeak f)|].
    destruct (decide (n = b)) as [->|Hb]; [|by apply Hidle, other_account].
    apply sweep_forgets. done.
  - eapply Hidle, requeued_account, worker_requeued; [rewrite <- (sys_at_lookup _ _ _ Hs); apply Hn|done|done].
  - eapply Hidle, requeued_account, publish_requeued; [rewrite <- (sys_at_lookup _ _ _ Hs); apply Hn|done].
  - destruct (decide (x = a /\ y = b)) as [[-> ->]|Hxy].
    { destruct (deliver_heard f a b sys bytes rest now Hne Hok Hord Hs Hl) as (c & Hc & Hk). exists c. split; [done|].
      intros [_ Hcalm]. apply Hk, Hcalm; done. }
    assert (account (set_link f x y rest) a b = account f a b) as Hsame.
    { rewrite link_account, decide_False; [done|]. intros [-> ->]. by destruct Hxy. }
    assert (node_fine y sys) as Hf by (rewrite <- (sys_at_lookup _ _ _ Hs); apply Hn).
    destruct (decide (y = a)) as [->|Ha].
    { apply (Hspeak (set_link f x a rest)); [done|done|apply link_ok; [done|rewrite Hl; by constructor]| |done].
      rewrite (sys_at_lookup _ _ _ Hs). by apply deliver_moves. }
    apply Hidle. destruct (decide (y = b)) as [->|Hb]; [|by rewrite other_account].
    rewrite unmoved_account; [done|done|]. change (sys_at (set_link f x b rest) b) with (sys_at f b).
    rewrite (sys_at_lookup _ _ _ Hs). apply deliver_unmoved; [done|]. intros env He.
    destruct (about t a env) eqn:Ea; [|done]. destruct Hxy. split; [|done].
    pose proof (proj2 Hok x b) as Hw. unfold on_way in Hw. rewrite Hl in Hw. simpl in Hw. rewrite He in Hw.
    apply Forall_cons in Hw as [Hfrom _]. by destruct (Hfrom a Ea).
  - destruct (decide (x = a /\ y = b)) as [[-> ->]|Hxy].
    + exists false. split; [|by intros [_ []]]. rewrite link_account, decide_True by done. apply ac_lose.
      unfold on_way. rewrite Hl. apply omap_sublist, sublist_app; [|done]. apply sublist_app; [done|by constructor].
    + apply Hidle. rewrite link_account, decide_False; [done|]. intros [-> ->]. by destruct Hxy.
  - by eapply join_account.
  - by apply end_account.
Qed.

(** ** Histories *)

Definition goes (f f' : Fleet) : Prop := exists l, fleet_step f l f'.
Definition goes_calmly (a b : string) (f f' : Fleet) : Prop := exists l, fleet_step f l f' /\ calm a b f l f'.

Lemma start_account f a b :
  fleet_start f ->
  account f a b = {| ac_fact := nothing t; ac_seq := 0; ac_heard := nothing t; ac_applied := 0; ac_way := [] |}.
Proof.
  intros (Hn & Hl & Hg).
  assert (forall n, nd_channels (node_at f n) = ∅ /\ seq_at f n = 0%Z /\ contents (nd_bus (node_at f n)) = [] /\
    nd_view (node_at f n) = nd_view (sys_node (stopped n 0))) as Hs.
  { intros n. unfold seq_at, sys_at. destruct (fl_nodes f !! n) as [sys|] eqn:E; simpl.
    - destruct (Hn _ _ E) as (raws & idx & _ & ->). split_and!; [done|done|apply new_contents|done].
    - rewrite Hg, lookup_empty. split_and!; [done|done|apply stopped_contents|done]. }
  destruct (Hs a) as (A1 & A2 & A3 & _), (Hs b) as (_ & _ & _ & B4). unfold account, on_way.
  rewrite A1, A2, A3, B4, Hl, (proj1 (here_start t)). f_equal; apply (heard_start t a).
Qed.

(** However many messages are lost, the numbers stay in order. *)
Lemma run_ordered f0 f a b :
  a <> b -> fleet_start f0 -> rtc goes f0 f ->
  fleet_ok f /\ ((seq_at f a < 2 ^ 64)%Z -> ordered t a (account f a b)).
Proof using Hproper Hwire.
  intros Hne H0. revert f. apply rtc_ind_r; [|intros f f' _ [l Hstep] [Hok IH]].
  - split; [by apply fleet_start_ok|]. intros _. by rewrite (start_account _ _ _ H0).
  - destruct (fleet_step_ok f l f' Hok Hstep) as [Hok' Hseq]. split; [done|]. intros Hlt. specialize (Hseq a).
    destruct (fleet_sim f l f' a b Hne Hok Hstep Hlt) as (c & Hc & _); [apply IH; lia|]. eapply account_ordered; [exact Hc|]. apply IH. lia.
Qed.

(** A calm run keeps an account in sync. *)
Lemma run_calm f f' a b :
  a <> b -> fleet_ok f -> rtc (goes_calmly a b) f f' ->
  fleet_ok f' /\ (seq_at f a <= seq_at f' a)%Z /\
  (ordered t a (account f a b) -> in_sync t a (account f a b) -> (seq_at f' a < 2 ^ 64)%Z ->
   ordered t a (account f' a b) /\ in_sync t a (account f' a b)).
Proof using Hproper Hwire.
  intros Hne Hok. revert f'. apply rtc_ind_r; [done|intros f1 f2 _ (l & Hstep & Hcalm) (Hok1 & Hs1 & IH)].
  destruct (fleet_step_ok f1 l f2 Hok1 Hstep) as [Hok2 Hseq]. specialize (Hseq a). split_and!; [done|lia|].
  intros Ho Hi Hlt. destruct (IH Ho Hi) as [Ho1 Hi1]; [lia|].
  destruct (fleet_sim f1 l f2 a b Hne Hok1 Hstep Hlt Ho1) as (c & Hc & Hk). rewrite (Hk Hcalm) in Hc.
  split; [by eapply account_ordered|by eapply account_in_sync].
Qed.

(** A step with which the code repairs what was lost: the speaker publishes its
    snapshots and none is dropped, or, when there is nothing to tell (a channel
    without users, a node that ended), the listener sweeps what grew old, or it
    starts. *)
Inductive refreshes (a b : string) (f : Fleet) : Fleet -> Prop :=
| refresh_snapshot sys now :
    fl_nodes f !! a = Some sys -> is_Some (app_by_id (sys_apps sys) (tp_app t)) -> reported t (here t (nd_channels (sys_node sys))) ->
    let f' := set_node f a (put sys (presence_snapshot_publisher (cfg_of a) (sys_node sys) (sys_apps sys) now) (sys_tasks sys)) in
    drops_at f' a = drops_at f a -> refreshes a b f f'
| refresh_sweep sys now :
    fl_nodes f !! b = Some sys -> here t (nd_channels (node_at f a)) = nothing t ->
    Forall (fun env => about t a env = false) (on_way f a b) -> ~ alive t a (nd_view (sys_node sys)) now ->
    refreshes a b f
      (set_node f b (put sys (presence_cache_gc (cfg_of b) base overflow (sys_node sys) (sys_apps sys) now) (sys_tasks sys)))
| refresh_join raws idx :
    stranger f b -> build_app_index raws = Ok idx -> here t (nd_channels (node_at f a)) = nothing t ->
    Forall (fun env => about t a env = false) (omap parse (contents (nd_bus (node_at f a)))) ->
    refreshes a b f (add_node f b (sys_start (cfg_of b) overflow idx)).

Lemma refresh_step a b f f' : refreshes a b f f' -> goes f f'.
Proof.
  destruct 1 as [sys now Hs _ _ f' _|sys now Hs _ _ _|raws idx [H1 H2] Hb _ _].
  - exists (LOwn a). apply (fleet_own _ _ sys); [done|]. apply own_snapshots.
  - exists (LSweep b now). by apply fleet_sweep.
  - exists (LJoin b). by apply (fleet_join _ _ raws).
Qed.

Lemma refresh_sync a b f f' :
  a <> b -> fleet_ok f -> refreshes a b f f' -> in_sync t a (account f' a b).
Proof using Hproper Hwire.
  intros Hne Hok [sys now Hs Happ Hu f2 Hd|sys now Hs Hu Hway Hold|raws idx Hs Hb Hu Hway].
  - destruct (proj1 Hok a) as (Hi & Hse & _ & Ht). rewrite (sys_at_lookup _ _ _ Hs) in Hi, Hse, Ht.
    destruct Happ as [app Happ].
    destruct (publisher_says (cfg_of a) eq_refl t Hproper (sys_node sys) (sys_apps sys) now
      (node_manager _ _ (inv_node _ _ Hi))) as [_ Htell].
    unfold drops_at, f2 in Hd. rewrite sys_at_same, (sys_at_lookup _ _ _ Hs) in Hd.
    destruct (Htell app Happ (index_ids _ (inv_apps _ _ Hi) _ _ Happ) Hu) as (kept & Hk & Hall);
      [by split; [apply Hi|]|done|done|].
    unfold in_sync, account, on_way, f2. cbn [ac_fact ac_heard ac_way]. rewrite !sys_at_same, sys_at_other by done.
    change (fl_link (set_node f a _) a b) with (fl_link f a b). cbn [sys_node put].
    rewrite (says_contents _ _ _ _ (says_bus _ _ _ _ _ Hk)), app_assoc, (omap_app parse (_ ++ _)), foldl_app.
    by rewrite (same_foldl _ _ _ _ _ (read_back kept)), Hall.
  - rewrite listener_account by done. unfold in_sync. cbn [ac_fact ac_heard ac_way account].
    rewrite hear_quiet by done. rewrite Hu. by apply sweep_heard.
  - unfold in_sync, account, on_way. cbn [ac_fact ac_heard ac_way]. rewrite !sys_at_add, decide_True, decide_False by done.
    simpl. rewrite decide_True, hear_quiet, Hu by done. apply (heard_start t a).
Qed.

(** A node hears nothing of itself, since it ignores its own news, nor of
    strangers to the fleet. *)
Definition unheard_of (f : Fleet) (b a : string) : Prop :=
  heard t (nd_view (node_at f b)) a = nothing t /\ (a <> b -> forall y, fl_link f a y = []).

Lemma deliver_unheard f x b sys bytes rest now a :
  fleet_ok f -> fl_nodes f !! b = Some sys -> fl_link f x b = bytes :: rest -> a = b \/ fl_link f a b = [] ->
  unmoved t a (nd_view (sys_node sys))
    (nd_view (on_bytes (cfg_of b) base overflow (sys_apps sys) (sys_node sys) bytes now)).
Proof.
  intros [Hn Hw] Hs Hl Ha. pose proof (Hn b) as Hf. rewrite (sys_at_lookup _ _ _ Hs) in Hf. destruct Ha as [->|Ha].
  - unfold on_bytes. destruct (parse bytes) as [env|]; [|done].
    apply (still_echo (cfg_of b)); [|done]. intros i app. apply (index_ids _ (inv_apps _ _ (proj1 Hf))).
  - apply deliver_unmoved; [done|]. intros env He. destruct (about t a env) eqn:Ea; [|done].
    specialize (Hw x b). unfold on_way in Hw. rewrite Hl in Hw. simpl in Hw. rewrite He in Hw.
    apply Forall_cons in Hw as [Hfrom _]. destruct (Hfrom a Ea) as [<- _]. by rewrite Ha in Hl.
Qed.

Lemma unheard_view f l f' b a :
  fleet_ok f -> a = b \/ fl_link f a b = [] -> fleet_step f l f' ->
  heard t (nd_view (node_at f b)) a = nothing t -> heard t (nd_view (node_at f' b)) a = nothing t.
Proof using Hproper.
  intros Hok Hab Hstep IH.
  assert (forall f0 m sys', sys_at f0 b = sys_at f b ->
    (m = b -> heard t (nd_view (sys_node sys')) a = nothing t) -> heard t (nd_view (node_at (set_node f0 m sys') b)) a = nothing t) as Hset.
  { intros f1 m sys' Hs Hm. rewrite sys_at_set. case_decide; [by apply Hm|by rewrite Hs]. }
  pose proof (proj1 Hok b) as Hf.
  destruct Hstep as [m sys sys' Hs Hown|m sys now Hs|m sys op Hs Hop|m sys Hs|x y sys bytes rest now Hs Hl|x y l1 bytes l2 Hl
    |n raws idx Hn0 Hg0 Hb|n sys Hs];
    [apply Hset; [done|]; intros ->; rewrite (sys_at_lookup _ _ _ Hs) in IH, Hf..|exact IH| |].
  - destruct (own_moves b sys sys' Hf Hown) as [_ ->]. exact IH.
  - destruct (sweep_heard (cfg_of b) base overflow t a (sys_node sys) (sys_apps sys) now) as (H1 & H2 & _).
    destruct (decide (alive t a (nd_view (sys_node sys)) now)); simpl; [by rewrite H1|by apply H2].
  - exact IH.
  - exact IH.
  - destruct (deliver_unheard f x b sys bytes rest now a) as [H1 _]; [done|done|done|done|by etrans; [exact H1|]].
  - rewrite sys_at_add. case_decide; [apply (heard_start t a)|exact IH].
  - rewrite sys_at_drop. case_decide; [apply (heard_start t a)|exact IH].
Qed.

Lemma unheard_link f l f' a :
  stranger f a -> fleet_step f l f' -> (forall y, fl_link f a y = []) -> forall y, fl_link f' a y = [].
Proof.
  intros [Hno _] Hstep Hlink z.
  destruct Hstep as [m sys sys' Hs Hown|m sys now Hs|m sys op Hs Hop|m sys Hs|x y sys bytes rest now Hs Hl|x y l1 bytes l2 Hl
    |n raws idx Hn0 Hg0 Hb|n sys Hs]; simpl; try apply Hlink; case_decide as Hd; try apply Hlink; try done.
  - subst. congruence.
  - destruct Hd as [<- <-]. by rewrite Hlink in Hl.
  - destruct Hd as [<- <-]. rewrite Hlink in Hl. by destruct l1.
Qed.

Lemma step_stranger f l f' a : fleet_step f l f' -> stranger f' a -> stranger f a.
Proof.
  intros Hstep [H1 H2].
  destruct Hstep as [m sys sys' Hs Hown|m sys now Hs|m sys op Hs Hop|m sys Hs|x y sys bytes rest now Hs Hl|x y l1 bytes l2 Hl
    |n raws idx Hn0 Hg0 Hb|n sys Hs]; simpl in *; try (split; [|done]); try done;
    try (by apply lookup_insert_None in H1 as [? _]).
  apply lookup_insert_None in H2 as [H2 Hne]. by rewrite lookup_delete_ne in H1.
Qed.

Lemma run_unheard f0 f b a :
  fleet_start f0 -> rtc goes f0 f -> a = b \/ stranger f a -> unheard_of f b a.
Proof using Hproper Hwire.
  intros H0 Hrun.
  enough (fleet_ok f /\ (a = b \/ stranger f a -> heard t (nd_view (node_at f b)) a = nothing t) /\
    (stranger f a -> forall y, fl_link f a y = [])) as (_ & H1 & H2) by (intros Hab; split; [by apply H1|]; naive_solver).
  revert f Hrun. apply rtc_ind_r.
  - split_and!; [by apply fleet_start_ok| |intros _ y; apply H0].
    intros _. exact (f_equal ac_heard (start_account f0 a b H0)).
  - intros f f' _ [l Hstep] (Hok & IH1 & IH2). split_and!; [by eapply fleet_step_ok| |].
    + intros Hab. eapply unheard_view; [done| |done|]; destruct Hab as [->|Hs%(step_stranger _ _ _ _ Hstep)]; auto.
    + intros Hs%(step_stranger _ _ _ _ Hstep). eapply unheard_link; [done|done|auto].
Qed.

(** A node that ended says nothing more. *)
Lemma step_gone f l f' a b :
  is_Some (fl_gone f !! a) -> fl_nodes f !! a = None -> fleet_step f l f' -> fl_link f a b = [] ->
  is_Some (fl_gone f' !! a) /\ fl_nodes f' !! a = None /\ fl_link f' a b = [].
Proof.
  intros Hg Hno Hstep Hlink.
  destruct Hstep as [m sys sys' Hs Hown|m sys now Hs|m sys op Hs Hop|m sys Hs|x y sys bytes rest now Hs Hl|x y l1 bytes l2 Hl
    |n raws idx Hn0 Hg0 Hb|n sys Hs]; simpl; rewrite ?lookup_insert_ne, ?lookup_delete_ne by (intros ->; destruct Hg; congruence);
    split_and!; try done; case_decide as Hd; try done.
  - subst. congruence.
  - destruct Hd as [<- <-]. by rewrite Hlink in Hl.
  - destruct Hd as [<- <-]. rewrite Hlink in Hl. by destruct l1.
Qed.

Lemma run_gone f f' a b :
  fleet_ok f -> is_Some (fl_gone f !! a) -> fl_nodes f !! a = None -> fl_link f a b = [] ->
  heard t (nd_view (node_at f b)) a = nothing t -> rtc goes f f' -> heard t (nd_view (node_at f' b)) a = nothing t.
Proof using Hproper Hwire.
  intros Hok Hg Hno Hl Hh Hrun.
  enough (fleet_ok f' /\ is_Some (fl_gone f' !! a) /\ fl_nodes f' !! a = None /\ fl_link f' a b = [] /\
    heard t (nd_view (node_at f' b)) a = nothing t) by naive_solver.
  revert f' Hrun. apply rtc_ind_r; [done|]. intros f1 f2 _ [l Hstep] (Hok1 & Hg1 & Hno1 & Hl1 & Hh1).
  destruct (step_gone f1 l f2 a b Hg1 Hno1 Hstep Hl1) as (G & N & L).
  split_and!; [by eapply fleet_step_ok|done|done|done|]. eapply unheard_view; [done|by right|done|done].
Qed.
End Pair.

(** Nodes that run and nodes that ended are different ones. *)
Lemma gone_apart f0 f a : fleet_start f0 -> rtc goes f0 f -> is_Some (fl_gone f !! a) -> fl_nodes f !! a = None.
Proof.
  intros H0. revert f. apply (rtc_ind_r (fun f => is_Some (fl_gone f !! a) -> fl_nodes f !! a = None)).
  - destruct H0 as (_ & _ & ->). rewrite lookup_empty. by intros [? ?].
  - intros f f' _ [l Hstep] IH.
    destruct Hstep as [m sys sys' Hs Hown|m sys now Hs|m sys op Hs Hop|m sys Hs|x y sys bytes rest now Hs Hl|x y l1 bytes l2 Hl
      |n raws idx Hn0 Hg0 Hb|n sys Hs]; simpl; try done;
      try (intros Hg; rewrite lookup_insert_ne; [by apply IH|]; intros ->; specialize (IH Hg); congruence).
    + intros Hg. rewrite lookup_insert_ne; [by apply IH|]. intros ->. rewrite Hg0 in Hg. by destruct Hg.
    + destruct (decide (n = a)) as [->|Hne]; [by rewrite lookup_delete_eq|]. by rewrite lookup_insert_ne, lookup_delete_ne.
Qed.
End Fleets.
