(* ===== verification/FleetProps.v ===== *)
(** * What the nodes of a fleet know of one another

    The theorems about a whole fleet, from the protocol of [Account], the proof in
    [Fleet] that the nodes follow it, and the queries of [Reports]. *)

From S2P Require Import Prelude.
From S2P Require Import Core.
From S2P Require Import Json.
From S2P Require Import Envelope.
From S2P Require Import Auth.
From S2P Require Import Connection.
From S2P Require Import Channel.
From S2P Require Import Manager.
From S2P Require Import Message.
From S2P Require Import PeerState.
From S2P Require Import Encryption.
From S2P Require Import Bus.
From S2P Require Import Dispatcher.
From S2P Require Import Webhooks.
From S2P Require Import Routes.
From S2P Require Import Handler.
From S2P Require Import Apps.
From S2P Require Import Router.
From S2P Require Import Tasks.
From S2P Require Import System.
From S2P Require Import HandlerProps.
From S2P Require Import TaskProps.
From S2P Require Import Topic.
From S2P Require Import Speech.
From S2P Require Import Hearing.
From S2P Require Import Reports.
From S2P Require Import Cli.
From S2P Require Import Account.
From S2P Require Import Fleet.
From stdpp Require Import options.

Section Theorems.
Context `{HI : HashIter} `{WI : Wire} `{SJ : SerdeJson} `{CR : Crypto} `{IP : InboundParser}.
Context `{GL : GlobLib} `{FG : Figment} `{SB : SecretBox} `{BP : BodyParser}.
Context (policy : string -> PublishOverflow) (base : Z) (overflow : WebhookOverflow) (prefix : string).
Context (Hwire : forall env, exists env', parse (to_vec env) = Some env' /\ same_news env env').

Abbreviation at_node f n := (sys_node (sys_at policy overflow f n)).
Abbreviation true_at t f n := (here t (nd_channels (at_node f n))).
Abbreviation believed t f b a := (heard t (nd_view (at_node f b)) a).
Abbreviation steps := (goes policy base overflow prefix).
Abbreviation calm_steps t := (goes_calmly policy base overflow prefix t).
Abbreviation pair t f a b := (account policy overflow t f a b).
Abbreviation settled_way t f a b := (Forall (fun env => about t a env = false) (on_way policy overflow f a b)).

Lemma calm_in_sync t f0 f a b :
  tp_proper t -> a <> b -> fleet_start policy overflow f0 -> rtc (calm_steps t a b) f0 f ->
  (seq_at policy overflow f a < 2 ^ 64)%Z -> in_sync t a (pair t f a b).
Proof using Hwire.
  intros Ht Hne H0 Hrun Hlt. pose proof (start_account policy overflow t f0 a b H0) as Ha.
  destruct (run_calm policy base overflow prefix t Ht Hwire f0 f a b Hne) as (_ & _ & Hsync);
    [by eapply fleet_start_ok|done|]. rewrite Ha in Hsync. by apply Hsync.
Qed.

(** C2: Nodes follow one another.  For the users of a presence channel, the
    subscribers of another channel and whether a user is signed in, whatever the
    clients, the API and the timers do on any node, whichever other nodes join or
    end, and however the bus schedules its messages: as long as node [a] drops nothing, the bus loses nothing of [a] for
    [b], [b] knows the application and sweeps nothing fresh, what [b] believes of
    [a], brought up to date with the news of [a] still on their way, is the truth;
    when none are on their way the two are equal. *)
Theorem fleet_agreement t f0 f a b :
  tp_proper t -> a <> b -> fleet_start policy overflow f0 -> rtc (calm_steps t a b) f0 f ->
  (seq_at policy overflow f a < 2 ^ 64)%Z ->
  foldl (hear t a) (believed t f b a) (on_way policy overflow f a b) = true_at t f a /\
  (settled_way t f a b -> believed t f b a = true_at t f a).
Proof using Hwire.
  intros Ht Hne H0 Hrun Hlt. pose proof (calm_in_sync t f0 f a b Ht Hne H0 Hrun Hlt) as Hi.
  split; [exact Hi|exact (settled_agree _ _ (pair t f a b) Hi)].
Qed.

(** The account of [a] that [b] keeps was repaired and kept in calm since. *)
Definition repaired t (f0 f : Fleet) (a b : string) : Prop :=
  exists f1 f2, rtc steps f0 f1 /\ refreshes policy base overflow t a b f1 f2 /\ rtc (calm_steps t a b) f2 f.

Lemma repaired_in_sync t f0 f a b :
  tp_proper t -> a <> b -> fleet_start policy overflow f0 -> repaired t f0 f a b ->
  (seq_at policy overflow f a < 2 ^ 64)%Z -> in_sync t a (pair t f a b).
Proof using Hwire.
  intros Ht Hne H0 (f1 & f2 & Hrun & Href & Hcalm) Hlt.
  destruct (run_ordered policy base overflow prefix t Ht Hwire f0 f1 a b Hne H0 Hrun) as [Hok1 _].
  pose proof (refresh_sync policy base overflow t Ht Hwire a b f1 f2 Hne Hok1 Href) as Hi.
  assert (rtc steps f0 f2) as Hrun2 by (eapply rtc_r; [exact Hrun|]; by eapply refresh_step).
  destruct (run_ordered policy base overflow prefix t Ht Hwire f0 f2 a b Hne H0 Hrun2) as [Hok2 Ho].
  destruct (run_calm policy base overflow prefix t Ht Hwire f2 f a b Hne Hok2 Hcalm) as (_ & Hs & Hsync).
  apply Hsync; [apply Ho; lia|done|done].
Qed.

(** C3: What was lost heals.  From any state the fleet can get into, messages
    dropped and lost at will, nodes started and ended at will, one undropped turn of
    the snapshot publisher of [a] (for a presence channel, while it has users there;
    where there is nothing to tell, the sweep on [b] of what grew old, or the start of
    [b]) and a calm stretch are enough: once the news of [a] have arrived, [b]
    believes what is true.  (Both have the application configured.) *)
Theorem fleet_heals t f0 f a b :
  tp_proper t -> a <> b -> fleet_start policy overflow f0 -> repaired t f0 f a b ->
  (seq_at policy overflow f a < 2 ^ 64)%Z -> settled_way t f a b -> believed t f b a = true_at t f a.
Proof using Hwire.
  intros Ht Hne H0 Hrep Hlt. apply (settled_agree t a (pair t f a b)). by eapply repaired_in_sync.
Qed.

(** C4: A node that ended is forgotten.  Once what it published has arrived or was
    lost, the sweep of what a node heard of it and grew old is final: whatever happens
    afterwards, the node counts none of its users, subscribers and sessions. *)
Theorem fleet_forgets t f0 f1 f sys a b now :
  tp_proper t -> fleet_start policy overflow f0 -> rtc steps f0 f1 -> a ∈ dom (fl_gone f1) -> fl_nodes f1 !! b = Some sys ->
  fl_link f1 a b = [] -> ~ alive t a (nd_view (sys_node sys)) now ->
  rtc steps (set_node f1 b (put sys (presence_cache_gc (cfg_of policy b) base overflow (sys_node sys) (sys_apps sys) now) (sys_tasks sys))) f ->
  believed t f b a = nothing t.
Proof using Hwire.
  intros Ht H0 Hrun Hg%elem_of_dom Hb Hl Hold. pose proof (gone_apart policy base overflow prefix f0 f1 a H0 Hrun Hg) as Hno.
  assert (a <> b) as Hne by congruence.
  destruct (run_ordered policy base overflow prefix t Ht Hwire f0 f1 a b Hne H0 Hrun) as [Hok _].
  apply (run_gone policy base overflow prefix t Ht Hwire); [|done|simpl; by rewrite lookup_insert_ne|done|].
  - eapply (fleet_step_ok policy base overflow prefix t Ht Hwire); [done|]. by apply (fleet_sweep _ _ _ _ _ _ sys now).
  - rewrite sys_at_same. by apply sweep_heard.
Qed.

(** Node [b] is up to date about a topic: towards each of the other nodes, those that
    ended included, its past was calm from the start or from a repair on, none of
    their news are on their way, and what it heard of those that run is fresh. *)
Definition informed (t : Topic) (f0 f : Fleet) (b : string) (now : Instant) : Prop :=
  fleet_start policy overflow f0 /\ rtc steps f0 f /\
  forall a, a ∈ dom (fl_nodes f) ∪ dom (fl_gone f) -> a <> b ->
    (rtc (calm_steps t a b) f0 f \/ repaired t f0 f a b) /\ (seq_at policy overflow f a < 2 ^ 64)%Z /\
    settled_way t f a b /\ (a ∈ dom (fl_nodes f) -> alive t a (nd_view (at_node f b)) now).

Lemma informed_view t f0 f b now :
  tp_proper t -> informed t f0 f b now ->
  (forall a, believed t f b a = if decide (a = b) then nothing t else true_at t f a) /\
  credible t (nd_view (at_node f b)) now /\ (forall a, a ∉ dom (fl_nodes f) -> true_at t f a = nothing t).
Proof using Hwire.
  intros Ht (H0 & Hrun & Hall).
  assert (forall a, a ∉ dom (fl_nodes f) -> true_at t f a = nothing t) as Hno.
  { intros a Ha%not_elem_of_dom. unfold sys_at. rewrite Ha. apply here_start. }
  assert (forall a, (believed t f b a = if decide (a = b) then nothing t else true_at t f a) /\
    (believed t f b a = nothing t \/ alive t a (nd_view (at_node f b)) now)) as Heq.
  { intros a. destruct (decide (a = b)) as [->|Hne].
    { destruct (run_unheard policy base overflow prefix t Ht Hwire f0 f b b H0 Hrun (or_introl eq_refl)) as [H1 _]. auto. }
    destruct (decide (a ∈ dom (fl_nodes f) ∪ dom (fl_gone f))) as [Ea|Ea].
    - destruct (Hall a Ea Hne) as (Hpast & Hlt & Hway & Hal).
      assert (believed t f b a = true_at t f a) as Hbel.
      { apply (settled_agree t a (pair t f a b)); [|done]. destruct Hpast; [by eapply calm_in_sync|by eapply repaired_in_sync]. }
      split; [done|]. destruct (decide (a ∈ dom (fl_nodes f))) as [|Hn]; [right; auto|left]. by rewrite Hbel, Hno.
    - assert (stranger f a) as Hs by (split; apply not_elem_of_dom; set_solver).
      destruct (run_unheard policy base overflow prefix t Ht Hwire f0 f b a H0 Hrun (or_intror Hs)) as [H1 _].
      rewrite Hno by (apply not_elem_of_dom, Hs). auto. }
  split_and!; [intros a; apply Heq|intros a; apply Heq|done].
Qed.

(** C9: Every node reports the fleet's users.  A node that is up to date about a
    presence channel answers the API with the users of all the nodes. *)
Theorem fleet_roster f0 f b app channel now :
  is_presence (kind channel) = true -> informed (Members (app_id app) channel) f0 f b now ->
  forall u, u ∈ fleet_users (at_node f b) app channel now <->
    exists n, u ∈ seat_users (seats (nd_channels (at_node f n)) (app_id app) channel).
Proof using Hwire.
  intros Hp Hinf u. destruct (informed_view (Members (app_id app) channel) f0 f b now Hp Hinf) as (Heq & Hc & _).
  rewrite reported_users by done. split.
  - intros [Hu|[a Ha]]; [by exists b|]. exists a. rewrite Heq in Ha. case_decide; [by apply elem_of_empty in Ha|done].
  - intros [n Hn]. destruct (decide (n = b)) as [->|Hne]; [by left|]. right. exists n. rewrite Heq. by rewrite decide_False.
Qed.

(** C10: Every node counts the fleet's subscribers.  A node that is up to date about
    a channel without presence answers the API with the number of its subscribers on
    all the nodes (a 64-bit sum). *)
Theorem fleet_subscribers f0 f b app channel now :
  is_presence (kind channel) = false -> informed (Subscribers (app_id app) channel) f0 f b now ->
  b ∈ dom (fl_nodes f) ->
  cs_subscription_count (fleet_channel_stats (at_node f b) app channel now).1
  = Z.to_nat (wrap_u64 (total (fun n => Z.of_nat (size (seats (nd_channels (at_node f n)) (app_id app) channel))) (dom (fl_nodes f)))).
Proof using Hwire.
  intros Hp Hinf Hb. destruct (informed_view (Subscribers (app_id app) channel) f0 f b now Hp Hinf) as (Heq & Hc & Hno).
  set (g := fun n => Z.of_nat (size (seats (nd_channels (at_node f n)) (app_id app) channel))).
  rewrite (reported_count _ _ _ _ (dom (fl_nodes f) ∖ {[b]}) Hp Hc).
  - do 2 f_equal. rewrite (union_difference_singleton_L b (dom (fl_nodes f)) Hb) at 2.
    rewrite total_insert by set_solver. f_equal. apply total_ext. intros n Hn. rewrite Heq, decide_False by set_solver. done.
  - intros a Ha. rewrite Heq in Ha. case_decide as Hd; [done|]. apply elem_of_difference. split; [|set_solver].
    destruct (decide (a ∈ dom (fl_nodes f))) as [|Hn]; [done|]. by rewrite Hno in Ha.
Qed.

(** C11: Every node knows who is online in the fleet.  On a node that is up to date
    about a user, a watchlist shows the user online exactly when the user is signed in
    on some node. *)
Theorem fleet_online f0 f b id u now :
  informed (Session id u) f0 f b now ->
  user_online_anywhere (at_node f b) id u now = true <-> exists n, is_user_online (nd_channels (at_node f n)) id u = true.
Proof using Hwire.
  intros Hinf. destruct (informed_view (Session id u) f0 f b now I Hinf) as (Heq & Hc & _).
  unfold user_online_anywhere. rewrite reported_online by done. split.
  - intros [Hu|[a Ha]]; [by exists b|]. exists a. rewrite Heq in Ha. by case_decide.
  - intros [n Hn]. destruct (decide (n = b)) as [->|Hne]; [by left|]. right. exists n. rewrite Heq. by rewrite decide_False.
Qed.
End Theorems.

(** ** Witnesses *)

(** A wire format that carries the news: their encoding as a number, in binary. *)
Abbreviation code := (Z * Z * string * option (string * (Z * list string * list (string * Z))))%type.

Definition news_code (w : News) : Z * list string * list (string * Z) :=
  match w with
  | Joined c u => (0, [c; u], [])
  | Departed c u => (1, [c; u], [])
  | Roster c us => (2, c :: us, [])
  | Counted c n => (3, [], [(c, n)])
  | Counts l => (4, [], l)
  | Online u => (5, [u], [])
  | Offline u => (6, [u], [])
  | Sessions us => (7, us, [])
  end%Z.

Definition news_payload (n : string * (Z * list string * list (string * Z))) : ScalingPayload :=
  let o := n.1 in
  match n.2 with
  | (0, [c; u], _) => PMemberAdded o c u None
  | (1, [c; u], _) => PMemberRemoved o c u false false
  | (2, c :: us, _) => PPresenceSnapshot o c ((fun u => {| psm_user_id := u; psm_user_info := None |}) <$> us)
  | (3, _, [(c, n)]) => PSubscriptionCount o c n false
  | (4, _, l) => PChannelCountSnapshot o ((fun e => {| cc_channel := e.1; cc_count := e.2 |}) <$> l)
  | (5, [u], _) => PUserOnline o u
  | (6, [u], _) => PUserOffline o u
  | (7, us, _) => PUserSessionSnapshot o us
  | _ => PTerminate EmptyString
  end%Z.

Fixpoint bits (p : positive) : string :=
  match p with xH => EmptyString | xO p => String "0" (bits p) | xI p => String "1" (bits p) end.

Fixpoint unbits (s : string) : positive :=
  match s with
  | EmptyString => xH
  | String c s => if Ascii.eqb c "1" then xI (unbits s) else xO (unbits s)
  end.

Lemma unbits_bits p : unbits (bits p) = p.
Proof. induction p as [p IH|p IH|]; simpl; congruence. Qed.

Definition news_wire : Wire := {|
  to_vec := fun env => bits (encode ((version env, env_seq env, ref_id (env_app env),
    (fun n : string * News => (n.1, news_code n.2)) <$> news_of (payload env)) : code));
  parse := fun s => (fun c : code => {| version := c.1.1.1; env_seq := c.1.1.2;
    env_app := {| ref_id := c.1.2; ref_key := EmptyString |};
    payload := default (PTerminate EmptyString) (news_payload <$> c.2) |}) <$> decode (unbits s)
|}.

Section Witnesses.
#[local] Existing Instance canonical_iter.
#[local] Existing Instance demo_crypto.
#[local] Existing Instance news_wire.
#[local] Instance fleet_json : SerdeJson :=
  {| from_str := fun s => Some (Object [("user_id", VString s); ("id", VString s)]); to_string := fun _ => "{}" |}.
#[local] Existing Instance h_figment.
#[local] Existing Instance h_body.
#[local] Existing Instance literal_globs.
#[local] Existing Instance toy_box.

(** The frames the clients send: sign in, join the channel [room], join the
    presence channel as the user named. *)
#[local] Instance fleet_parser : InboundParser :=
  {| parse_inbound := fun text => Some
       (if String.eqb text "signin" then
          {| f_event := "pusher:signin"; f_channel := None;
             f_data := Object [("user_data", VString "u"); ("auth", VString (sign_user_auth "key" "1.1" "u" "secret"))] |}
        else
          {| f_event := "pusher:subscribe"; f_channel := None;
             f_data := if String.eqb text "room" then join_data "room" None else join_data "presence-x" (Some text) |}) |}.

Lemma news_wire_faithful env : exists env', parse (to_vec env) = Some env' /\ same_news env env'.
Proof.
  eexists. split; [simpl; rewrite unbits_bits, decode_encode; reflexivity|].
  split; [reflexivity..|]. simpl. destruct (payload env); try reflexivity; simpl; rewrite <- list_fmap_compose; unfold compose; simpl.
  - by rewrite list_fmap_id.
  - do 3 f_equal. rewrite <- (list_fmap_id (_ <$> counts)) at 2. apply list_fmap_ext. by intros ? [].
Qed.

Definition best_effort (n : string) : PublishOverflow := BestEffort.

(** Two nodes; on the first a client connects and sends a frame. *)
Definition demo_fleet : Fleet :=
  {| fl_nodes := {["n1" := sys_start (demo_cfg "n1") WBestEffort demo_index;
                   "n2" := sys_start (demo_cfg "n2") WBestEffort demo_index]};
     fl_link := fun _ _ => []; fl_gone := ∅ |}.

Abbreviation node f n := (sys_at best_effort WBestEffort f n).
Abbreviation bus_of f n := (nd_bus (sys_node (node f n))).

Definition opened : Fleet :=
  set_node demo_fleet "n1" (open_connection (node demo_fleet "n1") (demo_app "a" None) "1.1" 0 None true 0%Z).2.
Definition said (text : string) : Fleet :=
  set_node opened "n1" (frame_step (demo_cfg "n1") 100 WBestEffort (node opened "n1") "1.1" (WsText text) 0%Z 0%Z 0%Z).2.
Definition taken (f : Fleet) : Fleet := set_node f "n1" (with_bus (node f "n1") (publisher_take (bus_of f "n1"))).
Definition published (f : Fleet) : Fleet :=
  set_node (publish_batch f "n1" (batch (bus_of f "n1"))) "n1" (with_bus (node f "n1") (publisher_done (bus_of f "n1"))).
Definition delivered (f : Fleet) : Fleet :=
  match fl_link f "n1" "n2" with
  | bytes :: rest => set_node (set_link f "n1" "n2" rest) "n2"
      (put (node f "n2") (on_bytes (demo_cfg "n2") 100 WBestEffort (sys_apps (node f "n2")) (sys_node (node f "n2")) bytes 0%Z)
           (sys_tasks (node f "n2")))
  | [] => f
  end.
Definition lost (f : Fleet) : Fleet := set_link f "n1" "n2" (tail (fl_link f "n1" "n2")).

(** A fact about concrete data that can be computed. *)
Local Ltac computes := apply (bool_decide_eq_true_1 _); vm_compute; reflexivity.

Abbreviation stepping := (fleet_step best_effort 100 WBestEffort EmptyString).

Lemma take_step f : is_Some (fl_nodes f !! "n1") -> stepping f (LWorker "n1") (taken f).
Proof.
  intros [sys Hs]. unfold taken, sys_at. rewrite Hs.
  apply (fleet_worker best_effort 100 WBestEffort EmptyString f "n1" sys Take Hs). by right; left.
Qed.

Lemma publishing_step f : is_Some (fl_nodes f !! "n1") -> stepping f (LPublish "n1") (published f).
Proof. intros [sys Hs]. unfold published, sys_at. rewrite Hs. by apply fleet_publish. Qed.

Lemma delivery_step f :
  is_Some (fl_nodes f !! "n2") -> fl_link f "n1" "n2" <> [] -> stepping f (LDeliver "n1" "n2") (delivered f).
Proof.
  intros [sys Hs] Hl. unfold delivered, sys_at. rewrite Hs. destruct (fl_link f "n1" "n2") as [|bytes rest] eqn:El; [done|].
  by apply fleet_deliver.
Qed.

Lemma loss_step f : fl_link f "n1" "n2" <> [] -> stepping f (LLose "n1" "n2") (lost f).
Proof.
  unfold lost. destruct (fl_link f "n1" "n2") as [|bytes rest] eqn:El; [done|]. intros _.
  by apply (fleet_lose _ _ _ _ f "n1" "n2" [] bytes rest).
Qed.

Lemma demo_fleet_start : fleet_start best_effort WBestEffort demo_fleet.
Proof.
  split; [|by split]. intros n sys Hn. exists [plain_raw "a"], demo_index. split; [vm_compute; reflexivity|].
  unfold demo_fleet in Hn. cbn [fl_nodes] in Hn. apply lookup_insert_Some in Hn as [[<- <-]|[_ Hn]]; [reflexivity|]. by apply lookup_singleton_Some in Hn as [<- <-].
Qed.

Abbreviation calmly t := (goes_calmly best_effort 100 WBestEffort EmptyString t "n1" "n2").
Abbreviation drops := (drops_at best_effort WBestEffort).

Lemma opening : stepping demo_fleet (LOwn "n1") opened.
Proof.
  apply (fleet_own _ _ _ _ _ _ (node demo_fleet "n1")); [vm_compute; reflexivity|].
  apply own_open; [vm_compute; reflexivity|vm_compute; reflexivity|]. intros s k H. vm_compute in H. discriminate H.
Qed.

Lemma saying text : stepping opened (LOwn "n1") (said text).
Proof. apply (fleet_own _ _ _ _ _ _ (node opened "n1")); [vm_compute; reflexivity|]. apply own_frame. Qed.

(** From a queued message to its delivery. *)
Abbreviation sent f := (delivered (published (taken f))).

Lemma send_calmly t f :
  tp_app t = "a" -> is_Some (fl_nodes f !! "n1") -> is_Some (fl_nodes (taken f) !! "n1") -> is_Some (fl_nodes (published (taken f)) !! "n2") ->
  fl_link (published (taken f)) "n1" "n2" <> [] ->
  drops (taken f) "n1" = drops f "n1" -> drops (published (taken f)) "n1" = drops (taken f) "n1" ->
  drops (sent f) "n1" = drops (published (taken f)) "n1" ->
  is_Some (app_by_id (sys_apps (node (published (taken f)) "n2")) "a") ->
  rtc (calmly t) f (sent f).
Proof.
  intros Ht H1 H2 H3 H4 D1 D2 D3 Happ.
  eapply rtc_l; [exists (LWorker "n1"); split; [by apply take_step|by split]|].
  eapply rtc_l; [exists (LPublish "n1"); split; [by apply publishing_step|by split]|].
  eapply rtc_l; [exists (LDeliver "n1" "n2"); split; [by apply delivery_step|split; [done|by rewrite Ht]]|]. apply rtc_refl.
Qed.

Lemma said_calmly t text : drops (said text) "n1" = drops opened "n1" -> rtc (calmly t) demo_fleet (said text).
Proof.
  intros Hd. eapply rtc_l; [exists (LOwn "n1"); split; [apply opening|split; [vm_compute; reflexivity|exact I]]|].
  eapply rtc_l; [exists (LOwn "n1"); split; [apply saying|split; [exact Hd|exact I]]|]. apply rtc_refl.
Qed.

Local Ltac sends := apply send_calmly; [reflexivity|computes|computes|computes|vm_compute; discriminate|vm_compute; reflexivity..|computes].
Local Ltac arrives text := transitivity (said text); [apply said_calmly; vm_compute; reflexivity|sends].

Lemma calmly_goes t f f' : rtc (calmly t) f f' -> rtc (goes best_effort 100 WBestEffort EmptyString) f f'.
Proof. apply rtc_subrel. intros x y (l & H & _). by exists l. Qed.

Abbreviation roster := (Members "a" "presence-x").

Lemma fleet_agreement_witness :
  heard roster (nd_view (sys_node (node (sent (said "u")) "n2"))) "n1" = here roster (nd_channels (sys_node (node (sent (said "u")) "n1"))).
Proof.
  refine (proj2 (fleet_agreement best_effort 100 WBestEffort EmptyString news_wire_faithful roster demo_fleet (sent (said "u")) "n1" "n2"
    _ _ _ _ _) _); [reflexivity|discriminate|apply demo_fleet_start|arrives "u"|vm_compute; reflexivity|]. vm_compute. constructor.
Defined.

(** The first message is lost; the snapshot publisher repairs it. *)
Definition missed : Fleet := lost (published (taken (said "u"))).
Definition repeated : Fleet :=
  set_node missed "n1" (put (node missed "n1") (presence_snapshot_publisher (demo_cfg "n1") (sys_node (node missed "n1"))
    (sys_apps (node missed "n1")) 0%Z) (sys_tasks (node missed "n1"))).

Lemma missed_run : rtc (goes best_effort 100 WBestEffort EmptyString) demo_fleet missed.
Proof.
  transitivity (said "u"); [apply (calmly_goes roster), said_calmly; vm_compute; reflexivity|].
  eapply rtc_l; [eexists; apply take_step; computes|]. eapply rtc_l; [eexists; apply publishing_step; computes|].
  eapply rtc_l; [eexists; apply loss_step; vm_compute; discriminate|]. apply rtc_refl.
Qed.

Lemma fleet_heals_witness :
  heard roster (nd_view (sys_node (node (sent repeated) "n2"))) "n1" = here roster (nd_channels (sys_node (node (sent repeated) "n1"))).
Proof.
  apply (fleet_heals best_effort 100 WBestEffort EmptyString news_wire_faithful roster demo_fleet (sent repeated) "n1" "n2").
  - reflexivity.
  - discriminate.
  - apply demo_fleet_start.
  - exists missed, repeated. split_and!; [apply missed_run| |sends].
    apply refresh_snapshot; [vm_compute; reflexivity|computes| |vm_compute; reflexivity].
    apply (bool_decide_eq_false_1 (_ = ∅)). vm_compute. reflexivity.
  - vm_compute. reflexivity.
  - vm_compute. repeat constructor.
Defined.

(** The first node ends after its user was announced. *)
Definition ended : Fleet := drop_node (sent (said "u")) "n1" (node (sent (said "u")) "n1").
Definition swept : Fleet :=
  set_node ended "n2" (put (node ended "n2") (presence_cache_gc (demo_cfg "n2") 100 WBestEffort (sys_node (node ended "n2"))
    (sys_apps (node ended "n2")) (from_secs 20)) (sys_tasks (node ended "n2"))).

Lemma ended_run : rtc (goes best_effort 100 WBestEffort EmptyString) demo_fleet ended.
Proof.
  transitivity (sent (said "u")); [apply (calmly_goes roster); arrives "u"|].
  eapply rtc_l; [|apply rtc_refl]. exists (LEnd "n1"). apply fleet_end. vm_compute. reflexivity.
Qed.

Lemma fleet_forgets_witness :
  heard roster (nd_view (sys_node (node ended "n2"))) "n1" = {["u"]} /\ heard roster (nd_view (sys_node (node swept "n2"))) "n1" = ∅.
Proof.
  split; [vm_compute; reflexivity|].
  apply (fleet_forgets best_effort 100 WBestEffort EmptyString news_wire_faithful roster demo_fleet ended swept
    (node ended "n2") "n1" "n2" (from_secs 20)); [reflexivity|apply demo_fleet_start|apply ended_run|computes|vm_compute; reflexivity
    |vm_compute; reflexivity| |apply rtc_refl].
  apply (bool_decide_eq_false_1 (alive _ _ _ _)). vm_compute. reflexivity.
Defined.

Lemma other_node (a : string) : a ∈ ({["n1"; "n2"]} : gset string) -> a <> "n2" -> a = "n1".
Proof. set_solver. Qed.

Lemma demo_informed t f :
  dom (fl_nodes f) ∪ dom (fl_gone f) = {["n1"; "n2"]} -> rtc (calmly t) demo_fleet f ->
  (seq_at best_effort WBestEffort f "n1" < 2 ^ 64)%Z ->
  Forall (fun env => about t "n1" env = false) (on_way best_effort WBestEffort f "n1" "n2") ->
  alive t "n1" (nd_view (sys_node (node f "n2"))) 0%Z ->
  informed best_effort 100 WBestEffort EmptyString t demo_fleet f "n2" 0%Z.
Proof.
  intros Hd Hrun Hseq Hway Hal. split_and!; [apply demo_fleet_start|by eapply calmly_goes|].
  intros a Ha Hne. rewrite Hd in Ha. rewrite (other_node a Ha Hne). split_and!; [by left|done|done|done].
Qed.

Local Ltac knows text := apply demo_informed; [computes|arrives text|vm_compute; reflexivity|vm_compute; constructor|computes].

Lemma fleet_roster_witness :
  "u" ∈ fleet_users (sys_node (node (sent (said "u")) "n2")) (demo_app "a" None) "presence-x" 0%Z.
Proof.
  apply (fleet_roster best_effort 100 WBestEffort EmptyString news_wire_faithful demo_fleet (sent (said "u")) "n2" (demo_app "a" None)
    "presence-x" 0%Z); [reflexivity|knows "u"|]. exists "n1". computes.
Defined.

Lemma fleet_subscribers_witness :
  cs_subscription_count (fleet_channel_stats (sys_node (node (sent (said "room")) "n2")) (demo_app "a" None) "room" 0%Z).1 = 1.
Proof.
  rewrite (fleet_subscribers best_effort 100 WBestEffort EmptyString news_wire_faithful demo_fleet (sent (said "room")) "n2" (demo_app "a" None)
    "room" 0%Z); [vm_compute; reflexivity|reflexivity|knows "room"|computes].
Defined.

Lemma fleet_online_witness :
  user_online_anywhere (sys_node (node (sent (said "signin")) "n2")) "a" "u" 0%Z = true.
Proof.
  apply (fleet_online best_effort 100 WBestEffort EmptyString news_wire_faithful demo_fleet (sent (said "signin")) "n2" "a" "u" 0%Z); [knows "signin"|].
  exists "n1". vm_compute. reflexivity.
Defined.
End Witnesses.
