(* ===== verification/RouteProps.v ===== *)
(** * The HTTP API: properties

    Requests are authenticated before anything else, a request is published
    whole or not at all unless the cipher fails half way, encrypted channels are
    published no plain text, and the queries answer what the fleet knows. *)

From S2P Require Import Prelude.
From S2P Require Import Core.
From S2P Require Import Json.
From S2P Require Import Envelope.
From S2P Require Import Auth.
From S2P Require Import HttpSign.
From S2P Require Import Connection.
From S2P Require Import Channel.
From S2P Require Import Manager.
From S2P Require Import Apps.
From S2P Require Import Message.
From S2P Require Import PeerState.
From S2P Require Import Encryption.
From S2P Require Import Bus.
From S2P Require Import Dispatcher.
From S2P Require Import Webhooks.
From S2P Require Import Routes.
From S2P Require Import HandlerProps.
From S2P Require Import TaskProps.
From stdpp Require Import options.

Lemma result_unit_ok {E} (r : result unit E) : is_ok r = true <-> r = Ok tt.
Proof. by destruct r as [[]|]. Qed.

Lemma check_each_ok {A} (f : A -> result unit ApiError) l :
  is_ok (check_each f l) = true <-> forall x, x ∈ l -> is_ok (f x) = true.
Proof.
  induction l as [|x l IH]; simpl; [set_solver|]. setoid_rewrite elem_of_cons.
  destruct (f x) as [[]|e] eqn:E; [rewrite IH|]; split; try done.
  - intros H y [->|Hy]; [by rewrite E|auto].
  - auto.
  - intros H. rewrite <- (H x), E; [done|by left].
Qed.

Section Publishing.
Context `{HI : HashIter} `{WI : Wire} `{SJ : SerdeJson} `{CR : Crypto} `{SB : SecretBox} `{BP : BodyParser}.
Context (cfg : Config) (prefix : string) {W : Type}.
Implicit Types nd : Node W.

(** An event is accepted exactly when its name has 1 to 200 bytes, it names 1
    to 100 channels, and each is a valid channel name (or a user channel with
    a user id) of at most 164 bytes on which its data can be delivered. *)
Theorem event_accepted_iff app ev :
  is_ok (validate_event_payload app ev) = true <->
  (1 <= len (ep_name ev) <= 200)%Z /\ 1 <= length (event_channels ev) <= 100 /\
  forall ch, ch ∈ event_channels ev ->
    (len ch <= 164)%Z /\
    match strip_prefix "#server-to-user-" ch with
    | Some uid => uid <> EmptyString
    | None => is_valid_channel_name ch = true
    end /\
    is_ok (validate_publish app ch (data_to_string (ep_data ev))) = true.
Proof.
  assert (forall ch, is_ok (validate_channel app (data_to_string (ep_data ev)) ch) = true <->
    (len ch <= 164)%Z /\
    match strip_prefix "#server-to-user-" ch with
    | Some uid => uid <> EmptyString
    | None => is_valid_channel_name ch = true
    end /\ is_ok (validate_publish app ch (data_to_string (ep_data ev))) = true) as Hc.
  { intros ch. unfold validate_channel, MAX_CHANNEL_NAME_LEN.
    destruct (is_empty_str ch) eqn:Ee.
    { destruct ch; [|done]. simpl. split; [done|]. by intros (_ & H & _). }
    destruct (Z.ltb_spec 164 (len ch)); [split; [done|]; intros [? _]; lia|]. cbv zeta.
    destruct (strip_prefix _ ch) as [u|]; [destruct u; simpl|destruct (is_valid_channel_name ch); simpl];
      try (split; [done|]; naive_solver); destruct (validate_publish _ _ _); naive_solver. }
  setoid_rewrite <- Hc. rewrite <- check_each_ok.
  unfold validate_event_payload, validate_event_name, MAX_EVENT_NAME_LEN, MAX_CHANNELS_PER_EVENT.
  destruct (is_empty_str (ep_name ev)) eqn:Ee.
  { destruct (ep_name ev); [|done]. simpl. split; [done|]. intros [[H _] _]. unfold len in H. simpl in H. lia. }
  assert (1 <= len (ep_name ev))%Z as H1 by (destruct (ep_name ev); [done|]; unfold len; simpl; lia).
  destruct (Z.ltb_spec 200 (len (ep_name ev))); [split; [done|]; lia|].
  destruct (Nat.ltb_spec 100 (length (event_channels ev))); [split; [done|]; lia|].
  destruct (event_channels ev) as [|c cs] eqn:Ec; [split; [done|]; simpl; lia|]. simpl length in *.
  split; [intros Hx; split_and!; [lia|lia|lia|lia|done]|]. by intros (_ & _ & Hx).
Qed.

Lemma verify_request_401 app method uri body secs e :
  verify_request (Value := Value) app method uri prefix body secs = Err e -> ve_code e = 401%Z.
Proof.
  unfold verify_request. cbv zeta. destruct (negb _); [by intros [= <-]|].
  destruct (find_param _ _); [|by intros [= <-]]. destruct (_ ≫= parse_i64); [|by intros [= <-]].
  repeat match goal with |- (if ?b then _ else _) = _ -> _ => destruct b; [by intros [= <-]|] end. done.
Qed.

Lemma authorize_status apps id rq body secs e :
  authorize prefix apps id rq body secs = Err e -> (ae_status e = 404 \/ ae_status e = 401)%Z.
Proof.
  unfold authorize, resolve_app, verify_and_log.
  destruct (app_by_id apps id) as [app|]; [|intros [= <-]; by left].
  destruct (verify_request _ _ _ _ _ _) as [[]|x] eqn:E; [done|]. intros [= <-]. right. simpl.
  by eapply verify_request_401.
Qed.

Lemma authorize_app apps id rq body secs app :
  authorize prefix apps id rq body secs = Ok app -> app_by_id apps id = Some app.
Proof.
  unfold authorize, resolve_app. destruct (app_by_id apps id) as [a|]; [|done].
  destruct (verify_and_log _ _ _ _ _); [|done]. by intros [= ->].
Qed.

Lemma check_each_err {A} (f : A -> result unit ApiError) l e : check_each f l = Err e -> exists x, f x = Err e.
Proof.
  induction l as [|x l IH]; simpl; [done|]. destruct (f x) as [u|e'] eqn:E; [done|]. intros [= <-]. eauto.
Qed.

(** The checks of an event refuse it with 400 or 422. *)
Lemma validate_event_status app ev e :
  validate_event_payload app ev = Err e -> (ae_status e = 400 \/ ae_status e = 422)%Z.
Proof.
  unfold validate_event_payload, validate_event_name.
  destruct (is_empty_str (ep_name ev)); [intros [= <-]; by left|].
  destruct (_ <? _)%Z; [intros [= <-]; by right|]. destruct (_ <? _); [intros [= <-]; by left|]. cbv zeta.
  assert (forall l, check_each (validate_channel app (data_to_string (ep_data ev))) l = Err e ->
    (ae_status e = 400 \/ ae_status e = 422)%Z) as Hc.
  { intros l (ch & Hch)%check_each_err. revert Hch. unfold validate_channel.
    destruct (is_empty_str ch); [intros [= <-]; by left|]. destruct (_ <? _)%Z; [intros [= <-]; by right|]. cbv zeta.
    match goal with |- context [if ?b then _ else _] => destruct b; [intros [= <-]; by left|] end.
    destruct (validate_publish _ _ _); [done|]. intros [= <-]. by left. }
  destruct (event_channels ev); [intros [= <-]; by left|apply Hc].
Qed.

(** The cipher fails on an encrypted channel. *)
Definition cipher_failed (app : App) (channel data nonce_bytes : string) : Prop :=
  is_encrypted (from_name channel) = true /\
  exists e, maybe_encrypt app (from_name channel) channel data nonce_bytes = Err (PEncryptionFailed e).

(** On a channel that passed the checks, this is the only way to fail. *)
Lemma validated_dispatch nd app channel event data ex n now :
  is_ok (validate_channel app data channel) = true ->
  match dispatch_message cfg nd app channel event data ex n now with
  | (Ok _, _) => True
  | (Err _, nd') => nd' = nd /\ cipher_failed app channel data n
  end.
Proof.
  unfold validate_channel. destruct (is_empty_str channel); [done|]. destruct (_ <? _)%Z; [done|]. cbv zeta.
  match goal with |- context [if ?b then _ else _] => destruct b; [done|] end. intros Hv.
  unfold dispatch_message, cipher_failed, validate_publish, maybe_encrypt in *.
  destruct (is_encrypted (from_name channel)); simpl in *; [|done]. destruct (looks_encrypted data); [done|].
  destruct (encryption_master_key app) as [b64|]; [|done].
  destruct (decode_master_key b64) as [master|]; [|done].
  destruct (encrypt_payload _ _ _); [done|]. split; [done|]. split; [done|]. eauto.
Qed.

Lemma validated_channels nd app name data ex chs nonces now :
  (forall ch, ch ∈ chs -> is_ok (validate_channel app data ch) = true) ->
  match dispatch_channels cfg nd app name data ex chs nonces now with
  | (Ok _, _) => True
  | (Err e, nd') => ae_status e = 500%Z /\ exists pre ch post n, chs = pre ++ ch :: post /\
      dispatch_channels cfg nd app name data ex pre nonces now = (Ok tt, nd') /\ cipher_failed app ch data n
  end.
Proof.
  revert nd nonces. induction chs as [|ch chs IH]; intros nd nonces H; [done|]. cbn [dispatch_channels].
  pose proof (validated_dispatch nd app ch name data ex (default "" (head nonces)) now) as Hd.
  specialize (Hd ltac:(apply H; by left)).
  destruct (dispatch_message _ _ _ _ _ _ _ _ _) as [[[]|err] nd1] eqn:Em.
  - specialize (IH nd1 (tail nonces) ltac:(intros; apply H; by right)).
    destruct (dispatch_channels cfg nd1 _ _ _ _ chs _ _) as [[u|e] nd2]; [done|].
    destruct IH as (He & pre & c & post & n & -> & Hpre & Hc). split; [done|].
    exists (ch :: pre), c, post, n. split_and!; [done| |done]. cbn [dispatch_channels]. by rewrite Em.
  - destruct Hd as [-> Hc]. split; [done|]. exists [], ch, chs. eexists. by split_and!.
Qed.

Lemma event_channels_valid app ev :
  is_ok (validate_event_payload app ev) = true ->
  forall ch, ch ∈ event_channels ev -> is_ok (validate_channel app (data_to_string (ep_data ev)) ch) = true.
Proof.
  intros H. apply check_each_ok. unfold validate_event_payload in H.
  destruct (validate_event_name _); [|done]. destruct (_ <? _); [done|]. by destruct (event_channels ev).
Qed.

(** The event was dispatched to the channels before [ch], where the cipher failed. *)
Definition cut_short nd (app : App) (ev : EventPayload) (nonces : list string) (now : Instant) nd' : Prop :=
  exists pre ch post n, event_channels ev = pre ++ ch :: post /\
    dispatch_channels cfg nd app (ep_name ev) (data_to_string (ep_data ev)) (ep_socket_id ev) pre nonces now
    = (Ok tt, nd') /\
    cipher_failed app ch (data_to_string (ep_data ev)) n.

Lemma validated_batch batch nd app nonces i now out :
  (forall ev, ev ∈ batch -> is_ok (validate_event_payload app ev) = true) ->
  match dispatch_batch cfg nd app batch nonces i now out with
  | (Ok _, _) => True
  | (Err e, nd') => ae_status e = 500%Z /\ exists pre ev post out1 nd1, batch = pre ++ ev :: post /\
      dispatch_batch cfg nd app pre nonces i now out = (Ok out1, nd1) /\
      cut_short nd1 app ev (nonces (i + length pre)) now nd'
  end.
Proof.
  revert nd i out. induction batch as [|ev batch IH]; intros nd i out H; [done|]. cbn [dispatch_batch].
  pose proof (validated_channels nd app (ep_name ev) (data_to_string (ep_data ev)) (ep_socket_id ev) (event_channels ev)
    (nonces i) now (event_channels_valid app ev ltac:(apply H; by left))) as Hd. fold (dispatch_event cfg nd app ev (nonces i) now) in Hd.
  destruct (dispatch_event _ _ _ _ _ _) as [[u|e] nd1] eqn:Ee.
  - match goal with |- context [let '(e, n) := ?x in dispatch_batch cfg n app batch nonces (S i) now (out ++ [e])] =>
      destruct x as [entry nd2] eqn:Ex end.
    specialize (IH nd2 (S i) (out ++ [entry]) ltac:(intros; apply H; by right)).
    destruct (dispatch_batch cfg nd2 _ batch _ _ _ _) as [[o|e] nd3]; [done|].
    destruct IH as (He & pre & ev' & post & out1 & nd4 & -> & Hpre & Hcut). split; [done|].
    exists (ev :: pre), ev', post, out1, nd4. split; [done|]. split; [cbn [dispatch_batch]; by rewrite Ee, Ex|].
    simpl. by rewrite Nat.add_succ_r.
  - destruct Hd as [He Hcut]. split; [done|]. exists [], ev, batch, out, nd. by rewrite Nat.add_0_r.
Qed.

(** C26: A request to publish is served whole or refused whole, with one exception.
    When the answer is an error other than 500, nothing was delivered, cached
    or sent to the peers for any event of the request.  A 500 means that the
    request passed every check and then the cipher failed for an encrypted channel:
    exactly the channels before that one, in the events before and in its own,
    were served. *)
Theorem publish_all_or_nothing nd apps id rq nonces batch_nonces now secs :
  let single := publish_event cfg prefix nd apps id rq nonces now secs in
  let batch := publish_batch_events cfg prefix nd apps id rq batch_nonces now secs in
  (forall e, single.1 = Err e ->
     if (ae_status e =? 500)%Z
     then exists app ev, parse_event (rq_body rq) = Ok ev /\ app_by_id apps id = Some app /\
            cut_short nd app ev nonces now single.2
     else single.2 = nd) /\
  (forall e, batch.1 = Err e ->
     if (ae_status e =? 500)%Z
     then exists app pre ev post out nd1, parse_batch (rq_body rq) = Ok (pre ++ ev :: post) /\
            app_by_id apps id = Some app /\
            dispatch_batch cfg nd app pre batch_nonces 0 now [] = (Ok out, nd1) /\
            cut_short nd1 app ev (batch_nonces (length pre)) now batch.2
     else batch.2 = nd).
Proof.
  assert (forall e, ae_status e <> 500%Z -> (ae_status e =? 500)%Z = false) as Hne by (intros; by apply Z.eqb_neq).
  intros single batch. unfold single, batch, publish_event, publish_batch_events.
  destruct (authorize _ _ _ _ _ _) as [app|e0] eqn:Ea.
  2:{ apply authorize_status in Ea. split; intros e [= <-]; rewrite Hne; (done || lia). }
  apply authorize_app in Ea. split; intros e.
  - destruct (parse_event _) as [ev|] eqn:Ep; [|by intros [= <-]].
    destruct (validate_event_payload app ev) as [u|e0] eqn:Ev.
    2:{ apply validate_event_status in Ev. intros [= <-]. rewrite Hne; (done || lia). }
    pose proof (validated_channels nd app (ep_name ev) (data_to_string (ep_data ev)) (ep_socket_id ev) (event_channels ev)
      nonces now (event_channels_valid app ev ltac:(by rewrite Ev))) as Hd.
    fold (dispatch_event cfg nd app ev nonces now) in Hd.
    destruct (dispatch_event _ _ _ _ _ _) as [[u'|e0] nd1].
    { destruct (ep_info ev); [by destruct (foldl _ _ _)|done]. }
    destruct Hd as [He Hcut]. intros [= <-]. rewrite He. simpl. by exists app, ev.
  - destruct (parse_batch _) as [[|ev0 evs]|] eqn:Ep; [by intros [= <-]| |by intros [= <-]].
    destruct (check_each _ _) as [u|e0] eqn:Ev.
    2:{ apply check_each_err in Ev as (ev & Ev). apply validate_event_status in Ev. intros [= <-]. rewrite Hne; (done || lia). }
    pose proof (validated_batch (ev0 :: evs) nd app batch_nonces 0 now []) as Hd.
    destruct (dispatch_batch _ _ _ _ _ _ _ _) as [[out|e0] nd1]; [done|].
    destruct Hd as (He & pre & ev & post & out1 & nd2 & Hb & Hpre & Hcut); [apply check_each_ok; by rewrite Ev|].
    intros [= <-]. rewrite He. simpl. exists app, pre, ev, post, out1, nd2. by rewrite <- Hb.
Qed.
End Publishing.

(** ** Encrypted channels *)

Section Sealing.
Context `{HI : HashIter} `{WI : Wire} `{SJ : SerdeJson} `{CR : Crypto} `{SB : SecretBox} `{BP : BodyParser}.
Context `{!SecretBoxLaws SJ SB}.
Context (cfg : Config) (prefix : string) {W : Type}.
Implicit Types nd : Node W.

(** One event is sent out: to the local subscribers and the cache of its
    channel, and to the peers. *)
Definition sent_out nd (app : App) (channel event out : string) (ex : option SocketId) (now : Instant) : Node W :=
  when_scaling cfg (broadcast_locally_with_app nd (app_id app) (Some app) channel event out ex now)
    (mk_env app 0 (PMessage (node_id cfg) channel event out ex)) now.

(** From [nd] to [nd'] only properly sealed data of the given events was sent
    out, on channels those events name; besides, channel statistics were read. *)
Inductive sends_sealed (app : App) (events : list EventPayload) (now : Instant) : Node W -> Node W -> Prop :=
| sealed_none nd : sends_sealed app events now nd nd
| sealed_event nd nd' ev channel out :
    ev ∈ events -> channel ∈ event_channels ev ->
    sealed_for app channel (data_to_string (ep_data ev)) out ->
    sends_sealed app events now (sent_out nd app channel (ep_name ev) out (ep_socket_id ev) now) nd' ->
    sends_sealed app events now nd nd'
| sealed_stats nd nd' channel :
    sends_sealed app events now (fleet_channel_stats nd app channel now).2 nd' ->
    sends_sealed app events now nd nd'.

(** Random nonces of 24 bytes, one for each of the at most 100 channels of an event. *)
Definition nonce_supply (nonces : list string) : Prop :=
  100 <= length nonces /\ Forall (fun n => len n = 24%Z) nonces.

#[local] Instance sends_sealed_trans app events now : Transitive (sends_sealed app events now).
Proof. intros x y z H. induction H; eauto using sends_sealed. Qed.

Lemma channels_sealed nd app events ev chs nonces now :
  ev ∈ events -> (forall ch, ch ∈ chs -> ch ∈ event_channels ev) ->
  length chs <= length nonces -> Forall (fun n => len n = 24%Z) nonces ->
  sends_sealed app events now nd
    (dispatch_channels cfg nd app (ep_name ev) (data_to_string (ep_data ev)) (ep_socket_id ev) chs nonces now).2.
Proof using Type*.
  intros He. revert nd nonces. induction chs as [|ch chs IH]; intros nd nonces Hc Hl Hn; [constructor|].
  destruct nonces as [|n nonces]; [simpl in Hl; lia|]. apply Forall_cons in Hn as [Hn Hns]. cbn [dispatch_channels head tail default].
  unfold dispatch_message at 1. destruct (maybe_encrypt _ _ _ _ _) as [out|e] eqn:E; [|constructor].
  eapply (sealed_event _ _ _ _ _ ev ch out He); [apply Hc; by left|by eapply maybe_encrypt_sealed|].
  apply IH; [intros; apply Hc; by right|simpl in Hl; lia|done].
Qed.

Lemma event_sealed nd app events ev nonces now :
  ev ∈ events -> is_ok (validate_event_payload app ev) = true -> nonce_supply nonces ->
  sends_sealed app events now nd (dispatch_event cfg nd app ev nonces now).2.
Proof using Type*.
  intros He Hv [H1 H2]. apply event_accepted_iff in Hv. destruct Hv as (_ & [_ Hl] & _). apply channels_sealed; [done|done|by etransitivity|done].
Qed.

Lemma batch_sealed nd app events batch nonces i now out :
  (forall ev, ev ∈ batch -> ev ∈ events /\ is_ok (validate_event_payload app ev) = true) ->
  (forall i, nonce_supply (nonces i)) ->
  sends_sealed app events now nd (dispatch_batch cfg nd app batch nonces i now out).2.
Proof using Type*.
  intros Hb Hn. revert nd i out Hb. induction batch as [|ev batch IH]; intros nd i out Hb; [constructor|]. cbn [dispatch_batch].
  destruct (Hb ev) as [He Hv]; [by left|]. pose proof (event_sealed nd app events ev (nonces i) now He Hv (Hn i)) as Hs.
  assert (forall ev', ev' ∈ batch -> ev' ∈ events /\ is_ok (validate_event_payload app ev') = true) as Hb'
    by (intros; apply Hb; by right).
  destruct (dispatch_event _ _ _ _ _ _) as [[u|e] nd1]; [|done]. etransitivity; [exact Hs|]. simpl.
  destruct (ep_info ev), (head (event_channels ev)) as [ch|]; [|by apply IH..].
  apply (sealed_stats _ _ _ _ _ ch). destruct (fleet_channel_stats _ _ _ _) as [st nd2]. by apply IH.
Qed.

Lemma infos_sealed app events info now chs (acc : list (string * Value) * Node W) :
  sends_sealed app events now acc.2 (foldl (add_channel_info app info now) acc chs).2.
Proof.
  revert acc. induction chs as [|ch chs IH]; intros [obj nd]; [constructor|]. cbn [foldl].
  apply (sealed_stats _ _ _ nd _ ch). assert ((add_channel_info app info now (obj, nd) ch).2 = (fleet_channel_stats nd app ch now).2)
    as <- by (unfold add_channel_info; by destruct (fleet_channel_stats nd app ch now)). apply IH.
Qed.

(** C29: Nothing the API publishes leaves in plain text on an encrypted channel.
    Whatever a request to publish an event or a batch is answered, all it did to
    the node was to send out data of its events on channels they name, to the
    local subscribers, the cache and the peers alike, and on a
    private-encrypted channel that data is an envelope: the publisher's own, or
    one that decrypts to the data under the key derived from the channel name
    and the application's 32-byte master key.  Other channels carry the data as
    it is.  (Client events are relayed as the client sent them.) *)
Theorem no_plaintext nd apps id rq nonces batch_nonces now secs :
  nonce_supply nonces -> (forall i, nonce_supply (batch_nonces i)) ->
  let single := publish_event cfg prefix nd apps id rq nonces now secs in
  let batch := publish_batch_events cfg prefix nd apps id rq batch_nonces now secs in
  (single.2 = nd \/ exists app ev, app_by_id apps id = Some app /\ parse_event (rq_body rq) = Ok ev /\
     sends_sealed app [ev] now nd single.2) /\
  (batch.2 = nd \/ exists app events, app_by_id apps id = Some app /\ parse_batch (rq_body rq) = Ok events /\
     sends_sealed app events now nd batch.2).
Proof using Type*.
  intros Hn Hbn single batch. unfold single, batch, publish_event, publish_batch_events.
  destruct (authorize _ _ _ _ _ _) as [app|e0] eqn:Ea; [|by split; left]. apply authorize_app in Ea. split.
  - destruct (parse_event _) as [ev|] eqn:Ep; [|by left].
    destruct (validate_event_payload app ev) as [u|e0] eqn:Ev; [|by left]. right. exists app, ev. do 2 (split; [done|]).
    pose proof (event_sealed nd app [ev] ev nonces now ltac:(by left) ltac:(by rewrite Ev) Hn) as Hs.
    destruct (dispatch_event _ _ _ _ _ _) as [[u'|e0] nd1]; [|done]. destruct (ep_info ev) as [info|]; [|done].
    pose proof (infos_sealed app [ev] info now (event_channels ev) ([], nd1)) as Hi.
    destruct (foldl _ _ _) as [obj nd2]. by etransitivity.
  - destruct (parse_batch _) as [[|ev0 evs]|] eqn:Ep; [by left| |by left].
    destruct (check_each _ _) as [u|e0] eqn:Ev; [|by left]. right. exists app, (ev0 :: evs). do 2 (split; [done|]).
    pose proof (batch_sealed nd app (ev0 :: evs) (ev0 :: evs) batch_nonces 0 now []) as Hs.
    destruct (dispatch_batch _ _ _ _ _ _ _ _) as [[out|e0] nd1]; apply Hs; try done;
      intros ev Hin; (split; [done|]); revert ev Hin; apply check_each_ok; by rewrite Ev.
Qed.
End Sealing.

(** ** Who may use the API *)

Section Access.
Context `{HI : HashIter} `{WI : Wire} `{SJ : SerdeJson} `{CR : Crypto} `{SB : SecretBox} `{BP : BodyParser}.
Context (cfg : Config) (prefix : string) {W : Type}.
Implicit Types nd : Node W.

Lemma authorize_refused apps id rq body secs :
  (forall app, app_by_id apps id = Some app ->
     verify_request app (rq_method rq) (rq_uri rq) prefix body secs <> Ok tt) ->
  exists e, authorize prefix apps id rq body secs = Err e /\ (ae_status e = 404 \/ ae_status e = 401)%Z.
Proof.
  intros H. unfold authorize, resolve_app, verify_and_log.
  destruct (app_by_id apps id) as [app|]; [|eexists; split; [done|by left]].
  specialize (H app eq_refl). destruct (verify_request _ _ _ _ _ _) as [[]|e] eqn:E; [done|].
  eexists. split; [done|]. right. simpl. by eapply verify_request_401.
Qed.

Lemma route_errors method segments status :
  route method segments = Err status -> (status = 404 \/ status = 405)%Z.
Proof. unfold route. repeat case_match; intros; simplify_eq; auto. Qed.

(** The body the handler of an endpoint checks the signature against. *)
Definition signed_body (e : Endpoint) (body : string) : string :=
  match e with
  | EEvents | EBatchEvents | EUserEvents _ | ETerminatePusher _ => body
  | _ => EmptyString
  end.

(** C28: Without a valid signature for the application named in its path a request
    is refused and changes nothing, whatever its route, method and body: the
    answer is 401 or 404, or the router's or the body reader's own error. *)
Theorem api_requires_signature nd apps method uri segments read nonces batch_nonces req_id now secs :
  (forall id endpoint body app,
     route method segments = Ok (id, endpoint) -> read = BodyReceived body -> app_by_id apps id = Some app ->
     verify_request app method uri prefix (signed_body endpoint body) secs <> Ok tt) ->
  exists e, serve cfg prefix nd apps method uri segments read nonces batch_nonces req_id now secs
              = (Answer (Err e), nd) /\ ae_status e ∈ [401; 404; 405; 408; 413]%Z.
Proof.
  intros H. unfold serve. destruct (route method segments) as [[id endpoint]|status] eqn:Er.
  - destruct read as [| |body]; simpl; [eexists; split; [done|set_solver]..|].
    destruct (authorize_refused apps id {| rq_method := method; rq_uri := uri; rq_body := body |}
      (signed_body endpoint body) secs) as (e & E & S).
    { intros app Ha. by apply (H id endpoint body app). }
    assert (ae_status e ∈ [401; 404; 405; 408; 413]%Z) by (destruct S as [-> | ->]; set_solver).
    exists e. split; [|done].
    destruct endpoint; simpl in E; unfold answer, publish_event, publish_batch_events, user_events, terminate_user_impl,
      channel_info, channel_users, list_channels_begin, connections_begin; cbn [rq_body]; by rewrite E.
  - eexists. split; [done|]. simpl. apply route_errors in Er as [-> | ->]; set_solver.
Qed.
End Access.

(** ** What the queries answer *)

Section Queries.
Context `{HI : HashIter} `{CR : Crypto}.
Context (prefix : string) {W : Type}.
Implicit Types nd : Node W.

Lemma local_users_present ch u :
  channel_wf ch -> is_presence (ch_kind ch) = true ->
  u ∈ omap (fun e : string * ConnectionHandle * option PresenceMember => user_id <$> e.2) (members_iter ch)
  <-> has_user_id ch u = true.
Proof.
  intros Hw Hp. rewrite (has_user_present ch u Hw), Hp. simpl. unfold roster.
  rewrite present_count, bool_decide_eq_true, map_count_pos, list_elem_of_omap.
  unfold members_iter. setoid_rewrite list_elem_of_fmap. split.
  - intros (e & ([s m] & -> & Hin%elem_of_hiter) & He). simpl in *. exists s, m. split; [done|].
    unfold joined_as. destruct (m_presence m) as [pm|]; [|done]. injection He as <-. apply String.eqb_refl.
  - intros (s & m & Hs & Hj). unfold joined_as in Hj. destruct (m_presence m) as [pm|] eqn:Em; [|done].
    apply String.eqb_eq in Hj. exists (s, m_handle m, Some pm). split; [|by subst].
    exists (s, m). split; [simpl; by rewrite Em|by apply elem_of_hiter].
Qed.

Lemma fleet_users_spec nd app channel now u :
  manager_wf (nd_channels nd) -> is_presence (from_name channel) = true ->
  u ∈ fleet_users nd app channel now <-> fleet_has nd (app_id app) channel u None now.
Proof.
  intros Hw Hp. unfold fleet_users, fleet_has. rewrite elem_of_union, !elem_of_list_to_set.
  destruct (remote_members_spec (presence_cache (nd_view nd)) (app_id app) channel now) as [_ ->].
  assert ((exists n, reports (presence_cache (nd_view nd)) (app_id app) channel n u now) <->
          (exists n, None <> Some n /\ reports (presence_cache (nd_view nd)) (app_id app) channel n u now)) as ->
    by naive_solver.
  destruct (find_channel (nd_channels nd) (app_id app) channel) as [ch|] eqn:E; simpl; [|set_solver].
  destruct (find_channel_wf _ _ _ _ Hw E) as [[Hn Hcw] _]. rewrite local_users_present; [done|done|].
  rewrite (wf_kind _ Hcw), Hn. done.
Qed.

(** The user listing of a presence channel is exact: sorted, without
    repetition, and it holds exactly the users the node considers present, on
    itself or on a peer: the same presence its subscribers are told about. *)
Theorem channel_users_exact nd apps id channel rq now secs app :
  authorize prefix apps id rq EmptyString secs = Ok app ->
  manager_wf (nd_channels nd) -> is_presence (from_name channel) = true ->
  exists users,
    channel_users prefix nd apps id channel rq now secs
      = Ok (Object [("users", Array ((fun u => Object [("id", VString u)]) <$> users))]) /\
    StronglySorted String.le users /\ NoDup users /\
    forall u, u ∈ users <-> fleet_has nd (app_id app) channel u None now.
Proof.
  intros Ha Hw Hp. unfold channel_users. rewrite Ha, Hp. simpl.
  exists (bt_set (fleet_users nd app channel now)).
  split_and!; [done|apply Sorted_bt_set|apply NoDup_bt_set|].
  intros u. rewrite elem_of_bt_set. by apply fleet_users_spec.
Qed.
End Queries.

(** ** The listing *)

Section Listing.
Context `{HI : HashIter} `{SJ : SerdeJson} {W : Type}.

Lemma merge_metric_comm acc a b : merge_metric (merge_metric acc a) b = merge_metric (merge_metric acc b) a.
Proof.
  unfold merge_metric. destruct (decide (cm_name a = cm_name b)) as [He|He].
  - rewrite He, !lookup_insert_eq, !insert_insert_eq. simpl. f_equal. f_equal.
    + by destruct (mg_occupied _), (cm_occupied a), (cm_occupied b).
    + unfold wrap_u64. rewrite !Zplus_mod_idemp_l. f_equal. lia.
    + do 2 case_bool_decide; set_solver.
    + by destruct (mg_has_cached_payload _), (cm_has_cached_payload a), (cm_has_cached_payload b).
    + by destruct (mg_is_presence _), (bool_decide (is_Some (cm_user_count a))), (bool_decide _).
  - rewrite !lookup_insert_ne by done. by rewrite insert_insert_ne.
Qed.

#[export] Instance merge_fold_proper acc : Proper (Permutation ==> eq) (foldl merge_metric acc).
Proof.
  intros l l' Hl. revert acc. induction Hl as [|x l l' _ IH|x y l|l1 l2 l3 _ IH1 _ IH2]; intros acc; simpl.
  - done.
  - apply IH.
  - by rewrite merge_metric_comm.
  - by rewrite IH1.
Qed.

(** What one name has in a merged listing: the sum, the disjunctions and the
    union over everything reported under it. *)
Definition merged_of (name : string) (entry : Merged) (l : list ChannelMetric) : Merged :=
  let mine := List.filter (fun m => String.eqb (cm_name m) name) l in
  {| mg_occupied := mg_occupied entry || existsb cm_occupied mine;
     mg_subscription_count := wrap_u64 (mg_subscription_count entry +
       foldr (fun m n => cm_subscription_count m + n) 0 mine)%Z;
     mg_user_ids := mg_user_ids entry ∪
       ⋃ ((fun m => if bool_decide (is_Some (cm_user_count m)) then list_to_set (cm_presence_user_ids m) else ∅) <$> mine);
     mg_has_cached_payload := mg_has_cached_payload entry || existsb cm_has_cached_payload mine;
     mg_is_presence := mg_is_presence entry || existsb (fun m => bool_decide (is_Some (cm_user_count m))) mine |}.

Lemma merge_fold_spec l acc name :
  (forall k e, acc !! k = Some e -> wrap_u64 (mg_subscription_count e) = mg_subscription_count e) ->
  foldl merge_metric acc l !! name =
  if bool_decide (is_Some (acc !! name)) || existsb (fun m => String.eqb (cm_name m) name) l
  then Some (merged_of name (default Merged_default (acc !! name)) l) else None.
Proof.
  revert acc. induction l as [|m l IH]; intros acc Hacc.
  - simpl. rewrite orb_false_r. destruct (acc !! name) as [e|] eqn:E; [|by rewrite bool_decide_false by (by intros [? ?])].
    rewrite bool_decide_true by by eexists. f_equal. unfold merged_of. simpl. rewrite !orb_false_r, Z.add_0_r, (Hacc _ _ E).
    destruct e; simpl. f_equal. set_solver.
  - cbn [foldl]. rewrite IH; clear IH.
    2: { intros k e. unfold merge_metric. rewrite lookup_insert_Some. intros [[_ <-]|[_ H]]; [|by eapply Hacc].
         simpl. unfold wrap_u64. by rewrite Zmod_mod. }
    assert (forall a b : Z, wrap_u64 (wrap_u64 a + b) = wrap_u64 (a + b)) as Hwrap
      by (intros; unfold wrap_u64; by rewrite Zplus_mod_idemp_l).
    unfold merge_metric. cbv zeta. destruct (String.eqb_spec (cm_name m) name) as [<-|Hne]; cbn [existsb].
    + rewrite lookup_insert_eq, String.eqb_refl, !orb_true_r. rewrite bool_decide_true by by eexists. cbn [orb default from_option id].
      f_equal. unfold merged_of. cbn [List.filter]. rewrite String.eqb_refl. cbn [existsb foldr fmap list_fmap union_list].
      cbn [mg_occupied mg_subscription_count mg_user_ids mg_has_cached_payload mg_is_presence].
      rewrite !orb_assoc, Hwrap. f_equal; [f_equal; lia|]. case_bool_decide; set_solver.
    + rewrite lookup_insert_ne by done. apply String.eqb_neq in Hne. rewrite Hne. cbn [orb].
      case_match; [|done]. f_equal. unfold merged_of. cbn [List.filter]. by rewrite Hne.
Qed.

Lemma map_insert_keys m k v k' : k' ∈ (map_insert m k v).*1 <-> k' = k \/ k' ∈ m.*1.
Proof.
  induction m as [|[a b] m IH]; simpl; [by rewrite elem_of_cons|].
  destruct (String.eqb_spec a k) as [->|]; simpl; rewrite !elem_of_cons; [naive_solver|]. rewrite IH. naive_solver.
Qed.

Lemma list_entries_keys app info now l (acc : list (string * Value) * Node W) name :
  name ∈ (foldl (list_entry app info now) acc l).1.*1 <->
  name ∈ acc.1.*1 \/ exists m, (name, m) ∈ l /\ mg_occupied m = true.
Proof.
  revert acc. induction l as [|[n m] l IH]; intros [obj nd]; cbn [foldl]; [set_solver|].
  rewrite IH. unfold list_entry. setoid_rewrite elem_of_cons. destruct (mg_occupied m) eqn:Em; cbn [negb].
  - destruct (if wants info "cache" then _ else _) as [cache nd']. cbn [fst]. rewrite map_insert_keys. naive_solver.
  - cbn [fst]. split; [intros [?|(x & ? & ?)]; eauto|].
    intros [?|(x & [[= -> ->]|?] & ?)]; [by left|congruence|eauto].
Qed.

(** C38: The channel listing does not depend on the order in which the peers
    answered, and it lists a channel exactly when this node or some peer
    reports it as occupied. *)
Theorem listing_exact nd app (merged : gmap string Merged) remote rq now :
  (forall k e, merged !! k = Some e -> wrap_u64 (mg_subscription_count e) = mg_subscription_count e) ->
  (forall remote', remote ≡ₚ remote' ->
     list_channels_finish (W := W) nd app merged remote' rq now = list_channels_finish nd app merged remote rq now) /\
  exists obj, (list_channels_finish nd app merged remote rq now).1 = Object [("channels", Object obj)] /\
    forall name, name ∈ obj.*1 <->
      mg_occupied (default Merged_default (merged !! name)) = true \/
      exists m, m ∈ remote /\ cm_name m = name /\ cm_occupied m = true.
Proof.
  intros Hm. split.
  { intros remote' Hp. unfold list_channels_finish. by rewrite Hp. }
  unfold list_channels_finish. set (all := foldl merge_metric merged remote).
  destruct (foldl (list_entry app _ now) ([], nd) (bt_iter all)) as [obj nd'] eqn:E. exists obj. split; [done|].
  intros name. assert (obj = (foldl (list_entry app (find_param (String.eqb "info") (parse_query (rq_uri rq))) now)
    ([], nd) (bt_iter all)).1) as -> by (by rewrite E).
  rewrite list_entries_keys. simpl. setoid_rewrite elem_of_bt_iter. unfold all. rewrite merge_fold_spec by done.
  assert (existsb cm_occupied (List.filter (fun m => String.eqb (cm_name m) name) remote) = true <->
          exists m, m ∈ remote /\ cm_name m = name /\ cm_occupied m = true) as Hex.
  { rewrite existsb_exists. setoid_rewrite filter_In. setoid_rewrite <- list_elem_of_In. setoid_rewrite String.eqb_eq.
    naive_solver. }
  split.
  - intros [H|(m & H & Ho)]; [set_solver|]. destruct (_ || _); [|done]. injection H as <-.
    unfold merged_of in Ho. simpl in Ho. apply orb_true_iff in Ho. by rewrite Hex in Ho.
  - intros H. right. exists (merged_of name (default Merged_default (merged !! name)) remote).
    assert (mg_occupied (merged_of name (default Merged_default (merged !! name)) remote) = true) as Ho.
    { unfold merged_of. simpl. apply orb_true_iff. by rewrite Hex. }
    split; [|done]. assert (bool_decide (is_Some (merged !! name)) || existsb (fun m => String.eqb (cm_name m) name) remote
      = true) as ->; [|done].
    destruct H as [H|(m & Hin & Hn & _)]; apply orb_true_iff.
    + left. destruct (merged !! name); [by apply bool_decide_eq_true|done].
    + right. apply existsb_exists. exists m. split; [by apply list_elem_of_In|by apply String.eqb_eq].
Qed.
End Listing.

(** ** Witnesses *)

Section Witnesses.
#[local] Existing Instance canonical_iter.
#[local] Existing Instance h_wire.
#[local] Existing Instance h_json.

(** A signature that is the secret itself, a cipher that never fails, and a
    parser that reads a body as the name of a channel. *)
#[local] Instance r_crypto : Crypto :=
  {| hmac_sha256 := fun k _ => k; hex_encode := fun s => s; md5_hex := fun s => s |}.
#[local] Instance r_box : SecretBox :=
  {| b64_encode := id; b64_decode := Some; sha256 := id; box_encrypt := fun _ _ p => Some p;
     box_decrypt := fun _ _ ct => Some ct; env_to_json := fun e => Some (nonce e +:+ ciphertext e);
     env_from_json := fun _ => None |}.
#[local] Instance r_body : BodyParser :=
  {| parse_event := fun s => Ok {| ep_name := "e"; ep_data := VString "d"; ep_channels := None;
       ep_channel := Some s; ep_socket_id := None; ep_info := None |};
     parse_batch := fun _ => Ok []; parse_user_event := fun _ => Err EmptyString |}.

Definition demo_request (sig body : string) : HttpRequest :=
  {| rq_method := "POST"; rq_body := body;
     rq_uri := {| uri_path := "/apps/a/events";
                  uri_query := Some ("auth_timestamp=0&auth_signature=" +:+ sig) |} |}.

Lemma publish_all_or_nothing_witness :
  exists e, (publish_event (demo_cfg "n1") EmptyString demo_room_server demo_index "a"
     (demo_request "secret" "not a channel!") [] 0%Z 0%Z).1 = Err e /\
  (publish_event (demo_cfg "n1") EmptyString demo_room_server demo_index "a"
     (demo_request "secret" "not a channel!") [] 0%Z 0%Z).2 = demo_room_server.
Proof.
  eexists. assert ((publish_event (demo_cfg "n1") EmptyString demo_room_server demo_index "a"
     (demo_request "secret" "not a channel!") [] 0%Z 0%Z).1 = Err (api_error 400 "invalid channel name: not a channel!")) as E
    by (vm_compute; reflexivity).
  split; [exact E|].
  exact (proj1 (publish_all_or_nothing (demo_cfg "n1") EmptyString demo_room_server demo_index "a"
    (demo_request "secret" "not a channel!") [] (fun _ => []) 0%Z 0%Z) _ E).
Defined.

Lemma api_requires_signature_witness :
  exists e, serve (demo_cfg "n1") EmptyString demo_room_server demo_index "POST" (rq_uri (demo_request "guess" ""))
      ["apps"; "a"; "events"] (BodyReceived "room") [] (fun _ => []) "r" 0%Z 0%Z = (Answer (Err e), demo_room_server) /\
    ae_status e ∈ [401; 404; 405; 408; 413]%Z.
Proof.
  apply (api_requires_signature (demo_cfg "n1") EmptyString demo_room_server demo_index "POST"
    (rq_uri (demo_request "guess" "")) ["apps"; "a"; "events"] (BodyReceived "room") [] (fun _ => []) "r" 0%Z 0%Z).
  intros id endpoint body app Hr Hb Ha. injection Hr as <- <-. injection Hb as <-.
  vm_compute in Ha. injection Ha as <-. vm_compute. discriminate.
Defined.

Lemma channel_users_exact_witness :
  exists users,
    channel_users EmptyString demo_room_server demo_index "a" "presence-x" (demo_request "secret" "") 0%Z 0%Z
      = Ok (Object [("users", Array ((fun u => Object [("id", VString u)]) <$> users))]) /\
    forall u, u ∈ users <-> fleet_has demo_room_server "a" "presence-x" u None 0%Z.
Proof.
  destruct (app_by_id demo_index "a") as [app|] eqn:E; [|vm_compute in E; discriminate E].
  assert (app_id app = "a") as Hid by (pose proof E as E'; vm_compute in E'; by injection E' as <-).
  destruct (channel_users_exact EmptyString demo_room_server demo_index "a" "presence-x"
    (demo_request "secret" "") 0%Z 0%Z app) as (users & H1 & _ & _ & H2).
  - vm_compute in E. injection E as <-. vm_compute. reflexivity.
  - apply demo_room_server_wf.
  - reflexivity.
  - exists users. rewrite Hid in H2. split; [exact H1|exact H2].
Defined.
Lemma listing_exact_witness :
  let metric n o := {| cm_name := n; cm_occupied := o; cm_subscription_count := 1; cm_user_count := None;
                       cm_has_cached_payload := false; cm_presence_user_ids := [] |} in
  exists obj,
    (list_channels_finish demo_room_server (demo_app "a" None) ∅ [metric "a" true; metric "b" false]
       (demo_request "secret" "") 0%Z).1 = Object [("channels", Object obj)] /\
    forall name, name ∈ obj.*1 <->
      mg_occupied (default Merged_default ((∅ : gmap string Merged) !! name)) = true \/
      exists m, m ∈ [metric "a" true; metric "b" false] /\ cm_name m = name /\ cm_occupied m = true.
Proof.
  intros metric.
  apply (listing_exact demo_room_server (demo_app "a" None) ∅ [metric "a" true; metric "b" false]
    (demo_request "secret" "") 0%Z).
  intros k e H. rewrite lookup_empty in H. discriminate H.
Defined.

(** An event on an encrypted channel, to a node whose wire shows the data: the
    message for the peers is the envelope, and so is all the request sent out. *)
Definition shown_wire : Wire :=
  {| to_vec := fun env => match payload env with PMessage _ _ _ data _ => data | _ => EmptyString end;
     parse := fun _ => None |}.
Definition sealed_index : AppIndex := {| by_id := {["a" := toy_app]}; by_key := {["k" := toy_app]} |}.
Definition demo_nonces : list string := replicate 100 "abcdefghabcdefghabcdefgh".
Definition sealed_publish : result Value ApiError * Node WebhookDispatcher :=
  @publish_event canonical_iter shown_wire toy_json r_crypto toy_box r_body (demo_cfg "n1") EmptyString _
    demo_server sealed_index "a" (demo_request "s" "private-encrypted-x") demo_nonces 0%Z 0%Z.

Lemma no_plaintext_witness :
  publish_tx (nd_bus sealed_publish.2) = Some ["abcdefghabcdefghabcdefgh|#d"] /\
  exists app ev, app_by_id sealed_index "a" = Some app /\
    @parse_event r_body "private-encrypted-x" = Ok ev /\
    @sends_sealed canonical_iter shown_wire toy_json toy_box (demo_cfg "n1") _ app [ev] 0%Z demo_server sealed_publish.2.
Proof.
  assert (publish_tx (nd_bus sealed_publish.2) = Some ["abcdefghabcdefghabcdefgh|#d"]) as Hb by (vm_compute; reflexivity).
  split; [exact Hb|].
  assert (nonce_supply demo_nonces) as Hn.
  { split; [vm_compute; lia|]. apply Forall_replicate. reflexivity. }
  destruct (@no_plaintext canonical_iter shown_wire toy_json r_crypto toy_box r_body toy_laws (demo_cfg "n1") EmptyString _
    demo_server sealed_index "a" (demo_request "s" "private-encrypted-x") demo_nonces (fun _ => demo_nonces) 0%Z 0%Z
    Hn (fun _ => Hn)) as [[H|H] _]; [|exact H].
  exfalso. fold sealed_publish in H. rewrite H in Hb. vm_compute in Hb. discriminate Hb.
Defined.
End Witnesses.
