(* ===== verification/Events.v ===== *)
(** * Events in the fleet

    An event published on one node reaches the subscribers on the others through
    the publish queue and the bus.  Every node of a fleet is a server in one of its
    histories, and what a node has queued for another leaves the way between the
    two only by being lost or by arriving; when it arrives, the subscribers there
    get it. *)

From S2P Require Import Prelude.
From S2P Require Import Core.
From S2P Require Import Json.
From S2P Require Import Envelope.
From S2P Require Import Auth.
From S2P Require Import HttpSign.
From S2P Require Import Connection.
From S2P Require Import Channel.
From S2P Require Import Manager.
From S2P Require Import Message.
From S2P Require Import PeerState.
From S2P Require Import Encryption.
From S2P Require Import Bus.
From S2P Require Import Dispatcher.
From S2P Require Import Webhooks.
From S2P Require Import Routes.
From S2P Require Import Handler.
From S2P Require Import Apps.
From S2P Require Import Router.
From S2P Require Import Tasks.
From S2P Require Import System.
From S2P Require Import HandlerProps.
From S2P Require Import TaskProps.
From S2P Require Import Topic.
From S2P Require Import Speech.
From S2P Require Import Mail.
From S2P Require Import Delivery.
From S2P Require Import Cli.
From S2P Require Import Account.
From S2P Require Import Fleet.
From S2P Require Import FleetProps.
From S2P Require Import RouteProps.
From stdpp Require Import options.

(** The tasks behind the publish queue leave it in place. *)
Lemma worker_on `{WI : Wire} ov op b : op ∈ [Forward; Take; Mark; Finish] -> is_Some (publish_tx b) -> is_Some (publish_tx (bus_step ov op b)).
Proof.
  intros Hop [q Hq]. assert (op = Forward \/ op = Take \/ op = Mark \/ op = Finish) as [->|[->|[->| ->]]] by set_solver; simpl;
    unfold forward_one, publisher_take; rewrite ?Hq; repeat case_match; simpl; rewrite ?Hq; by eexists.
Qed.

Section Journey.
Context `{HI : HashIter} `{WI : Wire} `{SJ : SerdeJson} `{CR : Crypto} `{IP : InboundParser}.
Context `{GL : GlobLib} `{FG : Figment} `{SB : SecretBox} `{BP : BodyParser}.
Context (policy : string -> PublishOverflow) (base : Z) (overflow : WebhookOverflow) (prefix : string).

Abbreviation steps := (goes policy base overflow prefix).
Abbreviation fleet_goes := (fleet_step policy base overflow prefix).
Abbreviation server n := (sys_reachable (cfg_of policy n) base overflow prefix).

Definition servers (f : Fleet) : Prop := forall n sys, fl_nodes f !! n = Some sys -> server n sys.

Lemma put_same sys : put sys (sys_node sys) (sys_tasks sys) = sys.
Proof. by destruct sys. Qed.

Lemma set_servers f g n sys' :
  fl_nodes g = <[n := sys']> (fl_nodes f) -> servers f -> server n sys' -> servers g.
Proof. intros Hg Hf Hs m sys. rewrite Hg. intros [[<- <-]|[_ H]]%lookup_insert_Some; [done|by apply Hf]. Qed.

Lemma bytes_server n sys bytes now :
  server n sys -> server n (put sys (on_bytes (cfg_of policy n) base overflow (sys_apps sys) (sys_node sys) bytes now) (sys_tasks sys)).
Proof.
  intros H. unfold on_bytes. destruct (parse bytes); [eapply sys_next; [exact H|apply sys_bus]|by rewrite put_same].
Qed.

Lemma step_servers f l f' : servers f -> fleet_goes f l f' -> servers f'.
Proof.
  intros Hf Hs. destruct Hs as [n sys sys' Hn Ho|n sys now Hn|n sys op Hn Hop|n sys Hn|a b sys bytes rest now Hb _
    |a b l1 bytes l2 _|n raws idx _ _ Hb|n sys Hn].
  - eapply (set_servers f); [done|done|]. eapply sys_next; [by apply Hf|by apply sys_own].
  - eapply (set_servers f); [done|done|]. eapply sys_next; [by apply Hf|apply sys_sweep].
  - eapply (set_servers f); [done|done|]. eapply sys_next; [by apply Hf|apply (sys_worker (cfg_of policy n))]. set_solver.
  - eapply (set_servers f); [done|done|].
    eapply sys_next; [by apply Hf|apply (sys_worker (cfg_of policy n) _ _ _ _ Finish)]. set_solver.
  - eapply (set_servers f); [done|done|]. by apply bytes_server, Hf.
  - done.
  - eapply (set_servers f); [done|done|]. by eapply sys_init.
  - intros m sys'. cbn [drop_node fl_nodes]. intros [_ H]%lookup_delete_Some. by apply Hf.
Qed.

(** Every node of a fleet is a server in one of its histories. *)
Lemma run_servers f0 f : fleet_start policy overflow f0 -> rtc steps f0 f -> servers f.
Proof.
  intros (H0 & _ & _) Hrun. assert (servers f0) as Hs.
  { intros n sys Hn. destruct (H0 _ _ Hn) as (raws & idx & Hb & ->). by eapply sys_init. }
  clear H0. induction Hrun as [f|f f1 f2 [l Hl] _ IH]; [done|]. apply IH. by eapply step_servers.
Qed.

(** ** The way from one node to another *)

(** What is on the bus, and what waits on the node. *)
Definition way (f : Fleet) (a b : string) : list string :=
  fl_link f a b ++ match fl_nodes f !! a with Some sys => contents (nd_bus (sys_node sys)) | None => [] end.

(** A step in which nothing between the two gets lost. *)
Definition safe_step (a b : string) (f f' : Fleet) : Prop :=
  exists l, fleet_goes f l f' /\ l <> LLose a b /\ l <> LEnd a /\ l <> LJoin b.

(** A step of the node appends to its queue.  Any topic serves to say so. *)
Lemma speaks_grows n sys nd :
  server n sys -> speaks (cfg_of policy n) (Session EmptyString EmptyString) (sys_node sys) nd ->
  exists new, contents (nd_bus nd) = contents (nd_bus (sys_node sys)) ++ new.
Proof.
  intros Hr Hs. destruct Hs as [_ [kept Hk]].
  { split; [apply (inv_node _ _ (reachable_inv _ _ _ _ _ Hr))|done]. }
  exists (to_vec <$> kept). apply (says_contents _ _ _ _ (says_bus _ _ _ _ _ Hk)).
Qed.

Lemma own_grows n sys sys' :
  server n sys -> own_step (cfg_of policy n) base overflow prefix sys sys' ->
  exists new, contents (nd_bus (sys_node sys')) = contents (nd_bus (sys_node sys)) ++ new.
Proof.
  intros Hr Ho. apply (speaks_grows n sys); [done|].
  by apply (own_step_speaks (cfg_of policy n) base overflow eq_refl (Session EmptyString EmptyString) I prefix sys sys'
    (node_manager _ _ (inv_node _ _ (reachable_inv _ _ _ _ _ Hr))) Ho).
Qed.

Lemma bytes_grows n sys bytes now :
  server n sys -> exists new,
  contents (nd_bus (on_bytes (cfg_of policy n) base overflow (sys_apps sys) (sys_node sys) bytes now))
  = contents (nd_bus (sys_node sys)) ++ new.
Proof.
  intros Hr. unfold on_bytes. destruct (parse bytes); [|exists []; by rewrite app_nil_r].
  apply (speaks_grows n sys); [done|apply incoming_speaks].
Qed.

(** A node's queue grows, the buses stay. *)
Lemma set_way f n sys sys' a b :
  fl_nodes f !! n = Some sys -> (exists new, contents (nd_bus (sys_node sys')) = contents (nd_bus (sys_node sys)) ++ new) ->
  exists new, way (set_node f n sys') a b = way f a b ++ new.
Proof.
  intros Hn [new Hc]. unfold way. simpl. destruct (decide (a = n)) as [->|Hne].
  - rewrite lookup_insert_eq, Hn, Hc. exists new. by rewrite app_assoc.
  - rewrite lookup_insert_ne by done. exists []. by rewrite app_nil_r.
Qed.

(** What a step does to the way: it grows at its end, or its first message arrives. *)
Lemma way_step f f' a b :
  a <> b -> servers f -> safe_step a b f f' ->
  (exists new, way f' a b = way f a b ++ new) \/
  (exists sys item now, fl_nodes f !! b = Some sys /\ way f a b = item :: way f' a b /\ fleet_goes f (LDeliver a b) f' /\
     fl_nodes f' !! b = Some (put sys (on_bytes (cfg_of policy b) base overflow (sys_apps sys) (sys_node sys) item now) (sys_tasks sys))).
Proof.
  intros Hab Hf (l & Hs & H1 & H2 & H3). destruct Hs as [n sys sys' Hn Ho|n sys now Hn|n sys op Hn Hop|n sys Hn|x y sys bytes rest now Hy Hl
    |x y l1 bytes l2 Hl|n raws idx Hn _ Hb|n sys Hn].
  - left. apply (set_way _ _ sys); [done|]. apply (own_grows n sys); [by apply Hf|done].
  - left. apply (set_way _ _ sys); [done|]. apply (speaks_grows n sys); [by apply Hf|apply sweep_speaks].
  - left. apply (set_way _ _ sys); [done|]. exists []. rewrite app_nil_r. simpl.
    pose proof (node_bus _ _ (inv_node _ _ (reachable_inv _ _ _ _ _ (Hf _ _ Hn)))) as Hw.
    destruct Hop as [-> |[-> | ->]];
      [by apply (forward_one_spec (policy n))|by apply (publisher_take_spec (policy n))|by apply (publisher_mark_spec (policy n))].
  - left. exists []. rewrite app_nil_r. unfold way. simpl. destruct (decide (a = n)) as [->|Hne].
    + rewrite lookup_insert_eq, Hn. by rewrite <- app_assoc.
    + by rewrite lookup_insert_ne.
  - destruct (decide (x = a /\ y = b)) as [[-> ->]|Hne].
    + right. exists sys, bytes, now. split; [done|]. split; [|split; [by apply fleet_deliver|apply lookup_insert_eq]].
      unfold way. simpl. rewrite decide_True by done. rewrite lookup_insert_ne by done. by rewrite Hl.
    + left. assert (way (set_link f x y rest) a b = way f a b) as E by (unfold way; simpl; case_decide as Hd; [by destruct Hd; subst; destruct Hne|done]).
      rewrite <- E. apply (set_way _ _ sys); [done|]. by apply bytes_grows, Hf.
  - left. exists []. rewrite app_nil_r. unfold way. simpl. case_decide as Hd; [|done]. by destruct Hd; subst.
  - left. exists []. rewrite app_nil_r. unfold way. simpl. rewrite decide_False by congruence.
    destruct (decide (a = n)) as [->|Hne]; [|by rewrite lookup_insert_ne].
    rewrite lookup_insert_eq, Hn. f_equal. simpl. unfold bus_new. by destruct (policy n).
  - left. exists []. rewrite app_nil_r. unfold way. simpl. by rewrite lookup_delete_ne by congruence.
Qed.

(** The event reached node [b] between [f] and [f']: it arrived, and then it was in the
    queues of all who hear its channel there. *)
Definition arrived (a b : string) (f f' : Fleet) (id : AppId) (channel : string) (ex : option SocketId) (frame : string) : Prop :=
  exists g g' sys sys', rtc (safe_step a b) f g /\ fleet_goes g (LDeliver a b) g' /\ rtc (safe_step a b) g' f' /\
    fl_nodes g !! b = Some sys /\ fl_nodes g' !! b = Some sys' /\
    (is_Some (app_by_id (sys_apps sys) id) -> receives sys sys' id channel ex frame).

Lemma item_arrives f a b f' item env id channel event data ex pre post :
  a <> b -> servers f -> parse item = Some env -> carries env a id channel event data ex ->
  way f a b = pre ++ item :: post -> rtc (safe_step a b) f f' ->
  (exists pre' post', way f' a b = pre' ++ item :: post' /\ pre' `suffix_of` pre) \/
  arrived a b f f' id channel ex (encode_envelope_raw_data event (Some data) (Some channel)).
Proof.
  intros Hab Hf Hp Hc Hway Hrun. revert pre post Hf Hway.
  induction Hrun as [f|f f1 f2 Hs Hrun IH]; intros pre post Hf Hway; [left; eauto|].
  assert (servers f1) as Hf1 by (destruct Hs as (l & Hl & _); by eapply step_servers).
  destruct (way_step f f1 a b Hab Hf Hs) as [[new Hn]|(sys & x & now & Hb & Hx & Hd & Hb')].
  - destruct (IH pre (post ++ new) Hf1) as [H|(g & g' & s1 & s2 & R1 & R2)];
      [by rewrite Hn, Hway, <- app_assoc|by left|right]. exists g, g', s1, s2. split; [by eapply rtc_l|done].
  - rewrite Hway in Hx. destruct pre as [|y pre]; simpl in Hx; injection Hx as <- Hx.
    + right. exists f, f1, sys. eexists. split; [done|]. split; [done|]. split; [done|]. split; [done|]. split; [done|].
      intros [app Ha]. unfold on_bytes. rewrite Hp.
      apply (relay_receives (cfg_of policy b) _ _ _ a id app); try done.
      by apply (reachable_wired _ base overflow prefix), Hf.
    + destruct (IH pre post Hf1) as [(pre' & post' & H1 & H2)|(g & g' & s1 & s2 & R1 & R2)]; [done| |].
      * left. exists pre', post'. split; [done|]. by apply suffix_cons_r.
      * right. exists g, g', s1, s2. split; [by eapply rtc_l|done].
Qed.

(** ** From the API of one node to the subscribers of another *)

Lemma speaks_on n sys nd :
  server n sys -> speaks (cfg_of policy n) (Session EmptyString EmptyString) (sys_node sys) nd ->
  is_Some (publish_tx (nd_bus (sys_node sys))) -> is_Some (publish_tx (nd_bus nd)).
Proof.
  intros Hr Hs. destruct Hs as [_ [kept Hk]].
  { split; [apply (inv_node _ _ (reachable_inv _ _ _ _ _ Hr))|done]. }
  apply (says_on _ _ _ _ (says_bus _ _ _ _ _ Hk)).
Qed.

(** The publish queue of a node of the fleet is there in every history. *)
Lemma server_on n sys : server n sys -> is_Some (publish_tx (nd_bus (sys_node sys))).
Proof.
  intros H. induction H as [raws idx _|sys sys' Hr IH Hs]; [unfold sys_start, dispatcher_new, bus_new; simpl; by destruct (policy n)|].
  destruct Hs as [sys sys' Ho|sys env now|sys now|sys op Hop].
  - revert IH. apply (speaks_on n sys); [done|].
    by apply (own_step_speaks (cfg_of policy n) base overflow eq_refl (Session EmptyString EmptyString) I prefix sys sys'
      (node_manager _ _ (inv_node _ _ (reachable_inv _ _ _ _ _ Hr))) Ho).
  - revert IH. apply (speaks_on n sys); [done|apply incoming_speaks].
  - revert IH. apply (speaks_on n sys); [done|apply sweep_speaks].
  - by apply worker_on.
Qed.

(** Messages that were not dropped are in the queue, with the sequence numbers they got. *)
Lemma relayed_queued ov app (node name : string) (ex : option SocketId) now l b :
  bus_wf ov b -> is_Some (publish_tx b) ->
  let b' := foldl (fun b (cd : string * string) => spawn_publish ov b (mk_env app 0 (PMessage node cd.1 name cd.2 ex)) now) b l in
  exists kept, bus_says ov b b' kept /\
    (publish_drops b' = publish_drops b ->
     Forall2 (fun (cd : string * string) env => exists n, env = with_seq (mk_env app 0 (PMessage node cd.1 name cd.2 ex)) n) l kept).
Proof.
  revert b. induction l as [|cd l IH]; intros b Hw Ho; simpl; [exists []; split; [by apply bus_says_refl|by constructor]|].
  destruct (spawn_publish_says ov b (mk_env app 0 (PMessage node cd.1 name cd.2 ex)) now Hw) as (k1 & S1 & _ & D1 & _).
  destruct (IH _ (says_wf _ _ _ _ S1)) as (k2 & S2 & D2); [by apply (says_on _ _ _ _ S1)|].
  exists (k1 ++ k2). split; [by eapply bus_says_trans|]. intros Hd.
  pose proof (says_drops _ _ _ _ S1). pose proof (says_drops _ _ _ _ S2).
  rewrite D1 by (done || lia). simpl. constructor; [eauto|]. apply D2. lia.
Qed.

(** The peer reads a message as it was written. *)
Definition reads_events : Prop :=
  forall app n origin channel name data ex, exists env',
    parse (to_vec (with_seq (mk_env app 0 (PMessage origin channel name data ex)) n)) = Some env' /\
    carries env' origin (app_id app) channel name data ex.

(** C5: Events cross the fleet.  A client of the API publishes an event on node [a] and is
    answered with success.  Then, unless [a] counted a drop, and as long as
    neither the bus loses anything from [a] to [b] nor [a] ends, the message of each of the
    event's channels is still on its way to [b], or it arrived there: at that moment
    every connection of [b] that hears the channel got the event at the end of its
    queue, once, and no other connection got anything, provided [b] knew the
    application.  (A full queue drops what it gets and raises the kick.) *)
Theorem event_crosses f0 f a b sys uri id body nonces batch request_id now secs v nd f' :
  reads_events -> fleet_start policy overflow f0 -> rtc steps f0 f -> fl_nodes f !! a = Some sys -> a <> b ->
  serve (cfg_of policy a) prefix (sys_node sys) (sys_apps sys) "POST" uri ["apps"; id; "events"] (BodyReceived body)
    nonces batch request_id now secs = (Answer (Ok v), nd) ->
  publish_drops (nd_bus nd) = publish_drops (nd_bus (sys_node sys)) ->
  rtc (safe_step a b) (set_node f a (put sys nd (sys_tasks sys))) f' ->
  exists app ev events,
    authorize prefix (sys_apps sys) id {| rq_method := "POST"; rq_uri := uri; rq_body := body |} body secs = Ok app /\
    parse_event body = Ok ev /\ sealed app (data_to_string (ep_data ev)) (event_channels ev) nonces = Some events /\
    forall channel data, (channel, data) ∈ events ->
      (exists item env, item ∈ way f' a b /\ parse item = Some env /\
         carries env a (app_id app) channel (ep_name ev) data (ep_socket_id ev)) \/
      arrived a b (set_node f a (put sys nd (sys_tasks sys))) f' (app_id app) channel (ep_socket_id ev)
        (encode_envelope_raw_data (ep_name ev) (Some data) (Some channel)).
Proof.
  intros Hread H0 Hrun Ha Hab Hserve Hdrops Hsafe.
  pose proof (run_servers f0 f H0 Hrun) as Hf. pose proof (Hf _ _ Ha) as Hr.
  assert (servers (set_node f a (put sys nd (sys_tasks sys)))) as Hf1.
  { eapply (set_servers f); [done|done|]. eapply sys_next; [exact Hr|]. apply sys_own.
    replace nd with (Answer (Ok v), nd).2 by done. rewrite <- Hserve. apply own_api. }
  set (rq := {| rq_method := "POST"; rq_uri := uri; rq_body := body |}).
  assert (publish_event (cfg_of policy a) prefix (sys_node sys) (sys_apps sys) id rq nonces now secs = (Ok v, nd)) as Hp.
  { revert Hserve. unfold serve, answer. simpl. fold rq.
    destruct (publish_event _ _ _ _ _ _ _ _ _) as [r nd']. by intros [= -> ->]. }
  destruct (publish_event_accepted (cfg_of policy a) prefix sys id rq nonces now secs v nd Hp) as (app & ev & nd1 & Hau & Hev & Hd & _ & Hb1).
  destruct (channels_receive (cfg_of policy a) sys _ _ _ _ _ _ _ nd1 (reachable_wired _ base overflow prefix sys Hr) Hd)
    as (events & Hse & _ & Hb). rewrite <- Hb1 in Hb.
  exists app, ev, events. split; [exact Hau|]. split; [exact Hev|]. split; [exact Hse|]. intros channel data Hin.
  destruct (relayed_queued (policy a) app a (ep_name ev) (ep_socket_id ev) now events (nd_bus (sys_node sys))) as (kept & Hk & Hall);
    [apply (node_bus _ _ (inv_node _ _ (reachable_inv _ _ _ _ _ Hr)))|by apply (server_on a)|].
  unfold relayed in Hb. simpl in Hb. rewrite <- Hb in Hk, Hall. specialize (Hall Hdrops).
  apply list_elem_of_lookup in Hin as [i Hi]. destruct (Forall2_lookup_l _ _ _ _ _ Hall Hi) as (env & Henv & n & ->).
  apply list_elem_of_lookup_2 in Henv.
  destruct (Hread app n a channel (ep_name ev) data (ep_socket_id ev)) as (env' & Hparse & Hc).
  assert (to_vec (with_seq (mk_env app 0 (PMessage a channel (ep_name ev) data (ep_socket_id ev))) n)
    ∈ way (set_node f a (put sys nd (sys_tasks sys))) a b) as (pre & post & Hway)%list_elem_of_split.
  { unfold way. simpl. rewrite lookup_insert_eq. simpl. rewrite (says_contents _ _ _ _ Hk).
    apply elem_of_app. right. apply elem_of_app. right. by apply list_elem_of_fmap_2. }
  destruct (item_arrives _ _ _ _ _ _ _ _ _ _ _ _ _ Hab Hf1 Hparse Hc Hway Hsafe) as [(pre' & post' & Hw & _)|H]; [left|by right].
  eexists _, env'. split; [|by split]. rewrite Hw. set_solver.
Qed.
End Journey.

(** ** Witnesses *)

(** An encoding of messages that the peer reads back. *)
Definition message_code : Type := Z * Z * string * option (string * string * string * string * option string).

Definition message_wire : Wire := {|
  to_vec := fun env => bits (encode ((version env, env_seq env, ref_id (env_app env),
    match payload env with
    | PMessage origin channel event data ex => Some (origin, channel, event, data, ex)
    | _ => None
    end) : message_code));
  parse := fun s => (fun c : message_code => {| version := c.1.1.1; env_seq := c.1.1.2;
    env_app := {| ref_id := c.1.2; ref_key := EmptyString |};
    payload := match c.2 with
               | Some (origin, channel, event, data, ex) => PMessage origin channel event data ex
               | None => PTerminate EmptyString
               end |}) <$> decode (unbits s)
|}.

Section Witnesses.
#[local] Existing Instance canonical_iter.
#[local] Existing Instance message_wire.
#[local] Existing Instance fleet_json.
#[local] Existing Instance r_crypto.
#[local] Existing Instance r_box.
#[local] Existing Instance r_body.
#[local] Existing Instance h_figment.
#[local] Existing Instance literal_globs.

(** Clients sign in, or send the name of the channel to join. *)
#[local] Instance join_parser : InboundParser :=
  {| parse_inbound := fun text => Some
       (if String.eqb text "signin" then
          {| f_event := "pusher:signin"; f_channel := None;
             f_data := Object [("user_data", VString "u"); ("auth", VString "key:secret")] |}
        else
          {| f_event := "pusher:subscribe"; f_channel := None;
             f_data := Object [("channel", VString text); ("auth", VString "key:secret")] |}) |}.

Lemma message_wire_reads : reads_events.
Proof.
  intros app n origin channel name data ex. eexists. split; [simpl; rewrite unbits_bits, decode_encode; reflexivity|].
  split; [done|]. by split.
Qed.

(** A client of the second node joins a channel. *)
Definition crowd : Fleet :=
  {| fl_nodes := {["n1" := sys_start (demo_cfg "n1") WBestEffort demo_index;
                   "n2" := sys_start (demo_cfg "n2") WBestEffort demo_index]};
     fl_link := fun _ _ => []; fl_gone := ∅ |}.
Definition crowd_node (f : Fleet) (n : string) : System := sys_at best_effort WBestEffort f n.
Definition crowd_open : Fleet :=
  set_node crowd "n2" (open_connection (crowd_node crowd "n2") (demo_app "a" None) "2.2" 0 None true 0%Z).2.
Definition crowd_joined : Fleet :=
  set_node crowd_open "n2" (frame_step (demo_cfg "n2") 100 WBestEffort (crowd_node crowd_open "n2") "2.2" (WsText "room") 0%Z 0%Z 0%Z).2.

(** The request published on the first node. *)
Definition crowd_uri := rq_uri (demo_request "secret" "room").
Definition crowd_reply : Reply * Server :=
  serve (demo_cfg "n1") EmptyString (sys_node (crowd_node crowd_joined "n1")) (sys_apps (crowd_node crowd_joined "n1")) "POST"
    crowd_uri ["apps"; "a"; "events"] (BodyReceived "room") [] (fun _ => []) "r" 0%Z 0%Z.
Definition crowd_published : Fleet :=
  set_node crowd_joined "n1" (put (crowd_node crowd_joined "n1") crowd_reply.2 (sys_tasks (crowd_node crowd_joined "n1"))).

(** The frame the client is sent. *)
Definition crowd_frame : string := encode_envelope_raw_data "e" (Some "d") (Some "room").

Definition crowd_mail (f : Fleet) : option (list Outbound) := mb_queue <$> nd_mbs (sys_node (crowd_node f "n2")) !! 0.

(** The message leaves the first node and arrives at the second. *)
Definition crowd_taken : Fleet :=
  set_node crowd_published "n1" (with_bus (crowd_node crowd_published "n1")
    (publisher_take (nd_bus (sys_node (crowd_node crowd_published "n1"))))).
Definition crowd_sent : Fleet :=
  set_node (publish_batch crowd_taken "n1" (batch (nd_bus (sys_node (crowd_node crowd_taken "n1"))))) "n1"
    (with_bus (crowd_node crowd_taken "n1") (publisher_done (nd_bus (sys_node (crowd_node crowd_taken "n1"))))).
Definition crowd_arrived : Fleet :=
  match fl_link crowd_sent "n1" "n2" with
  | bytes :: rest => set_node (set_link crowd_sent "n1" "n2" rest) "n2"
      (put (crowd_node crowd_sent "n2") (on_bytes (demo_cfg "n2") 100 WBestEffort (sys_apps (crowd_node crowd_sent "n2"))
         (sys_node (crowd_node crowd_sent "n2")) bytes 0%Z) (sys_tasks (crowd_node crowd_sent "n2")))
  | [] => crowd_sent
  end.

Abbreviation crowd_step := (fleet_step best_effort 100 WBestEffort EmptyString).

Lemma crowd_start : fleet_start best_effort WBestEffort crowd.
Proof.
  split; [|by split]. intros n sys Hn. exists [plain_raw "a"], demo_index. split; [vm_compute; reflexivity|].
  unfold crowd in Hn. cbn [fl_nodes] in Hn. apply lookup_insert_Some in Hn as [[<- <-]|[_ Hn]]; [reflexivity|].
  by apply lookup_singleton_Some in Hn as [<- <-].
Qed.

Lemma crowd_opening : own_step (demo_cfg "n2") 100 WBestEffort EmptyString (crowd_node crowd "n2") (crowd_node crowd_open "n2").
Proof. apply own_open; [reflexivity|reflexivity|]. intros s k H. vm_compute in H. discriminate H. Qed.

Lemma crowd_joining : own_step (demo_cfg "n2") 100 WBestEffort EmptyString (crowd_node crowd_open "n2") (crowd_node crowd_joined "n2").
Proof.
  assert (crowd_node crowd_joined "n2" = (frame_step (demo_cfg "n2") 100 WBestEffort (crowd_node crowd_open "n2") "2.2"
    (WsText "room") 0%Z 0%Z 0%Z).2) as ->; [|apply own_frame].
  unfold crowd_node at 1, sys_at, crowd_joined. cbn [set_node fl_nodes]. by rewrite lookup_insert_eq.
Qed.

Lemma crowd_run_open : rtc (goes best_effort 100 WBestEffort EmptyString) crowd crowd_open.
Proof.
  apply rtc_once. exists (LOwn "n2"). apply (fleet_own _ _ _ _ _ _ (crowd_node crowd "n2")); [vm_compute; reflexivity|apply crowd_opening].
Qed.

Lemma crowd_run : rtc (goes best_effort 100 WBestEffort EmptyString) crowd crowd_joined.
Proof.
  transitivity crowd_open; [apply crowd_run_open|]. apply rtc_once. exists (LOwn "n2"). apply (fleet_own _ _ _ _ _ _ (crowd_node crowd_open "n2")); [vm_compute; reflexivity|apply own_frame].
Qed.

Lemma crowd_journey : rtc (safe_step best_effort 100 WBestEffort EmptyString "n1" "n2") crowd_published crowd_arrived.
Proof.
  apply rtc_l with crowd_taken.
  { exists (LWorker "n1"). split; [|done]. apply (fleet_worker best_effort 100 WBestEffort EmptyString crowd_published "n1"
      (crowd_node crowd_published "n1") Take); [vm_compute; reflexivity|by right; left]. }
  apply rtc_l with crowd_sent.
  { exists (LPublish "n1"). split; [|done]. apply (fleet_publish best_effort 100 WBestEffort EmptyString crowd_taken "n1"). vm_compute. reflexivity. }
  apply rtc_once. exists (LDeliver "n1" "n2"). split; [|done]. unfold crowd_arrived.
  destruct (fl_link crowd_sent "n1" "n2") as [|bytes rest] eqn:E; [vm_compute in E; discriminate E|].
  apply (fleet_deliver best_effort 100 WBestEffort EmptyString); [vm_compute; reflexivity|exact E].
Qed.

(** The client of the second node is sent the event; the theorem names the moment. *)
Lemma event_crosses_witness :
  crowd_mail crowd_arrived = Some [Text crowd_frame] /\
  exists app ev events,
    authorize EmptyString (sys_apps (crowd_node crowd_joined "n1")) "a" {| rq_method := "POST"; rq_uri := crowd_uri; rq_body := "room" |} "room" 0%Z = Ok app /\
    parse_event "room" = Ok ev /\ sealed app (data_to_string (ep_data ev)) (event_channels ev) [] = Some events /\
    forall channel data, (channel, data) ∈ events ->
      (exists item env, item ∈ way crowd_arrived "n1" "n2" /\ parse item = Some env /\
         carries env "n1" (app_id app) channel (ep_name ev) data (ep_socket_id ev)) \/
      arrived best_effort 100 WBestEffort EmptyString "n1" "n2" crowd_published crowd_arrived (app_id app) channel (ep_socket_id ev)
        (encode_envelope_raw_data (ep_name ev) (Some data) (Some channel)).
Proof.
  split; [vm_compute; reflexivity|].
  apply (event_crosses best_effort 100 WBestEffort EmptyString crowd crowd_joined "n1" "n2" (crowd_node crowd_joined "n1") crowd_uri "a"
    "room" [] (fun _ => []) "r" 0%Z 0%Z (Object []) crowd_reply.2 crowd_arrived).
  - apply message_wire_reads.
  - apply crowd_start.
  - apply crowd_run.
  - vm_compute. reflexivity.
  - discriminate.
  - vm_compute. reflexivity.
  - vm_compute. reflexivity.
  - apply crowd_journey.
Defined.

(** The same event published on the node of the client. *)
Lemma crowd_reachable f :
  rtc (goes best_effort 100 WBestEffort EmptyString) crowd f -> fl_nodes f !! "n2" = Some (crowd_node f "n2") ->
  sys_reachable (demo_cfg "n2") 100 WBestEffort EmptyString (crowd_node f "n2").
Proof. intros Hrun Hn. exact (run_servers best_effort 100 WBestEffort EmptyString crowd f crowd_start Hrun _ _ Hn). Qed.

Definition local_reply : result Value ApiError * Server :=
  publish_event (demo_cfg "n2") EmptyString (sys_node (crowd_node crowd_joined "n2"))
    (sys_apps (crowd_node crowd_joined "n2")) "a" (demo_request "secret" "room") [] 0%Z 0%Z.

Lemma event_published_witness :
  exists app ev events,
    authorize EmptyString (sys_apps (crowd_node crowd_joined "n2")) "a" (demo_request "secret" "room") (rq_body (demo_request "secret" "room")) 0%Z = Ok app /\
    parse_event (rq_body (demo_request "secret" "room")) = Ok ev /\ sealed app (data_to_string (ep_data ev)) (event_channels ev) [] = Some events /\
    (forall s k, sys_tasks (crowd_node crowd_joined "n2") !! s = Some k ->
       exists mb, mailbox (crowd_node crowd_joined "n2") k = Some mb /\ live mb /\
         nd_mbs local_reply.2 !! h_tx (k_handle k)
         = Some (sends (heard_frames (app_id app) (ep_name ev) (ep_socket_id ev) s k events) mb)) /\
    nd_bus local_reply.2 = relayed (demo_cfg "n2") app (ep_name ev) (ep_socket_id ev) 0%Z
      (nd_bus (sys_node (crowd_node crowd_joined "n2"))) events.
Proof.
  apply (event_published (demo_cfg "n2") 100 WBestEffort EmptyString (crowd_node crowd_joined "n2") "a" (demo_request "secret" "room")
    [] 0%Z 0%Z (Object []) local_reply.2);
    [apply crowd_reachable; [apply crowd_run|vm_compute; reflexivity]|vm_compute; reflexivity].
Defined.

(** Opening the connection, then a join: the queue stays as it was. *)
Lemma queue_discipline_witness :
  exists k k' mb mb', sys_tasks (crowd_node crowd_open "n2") !! "2.2" = Some k /\ sys_tasks (crowd_node crowd_joined "n2") !! "2.2" = Some k' /\
    mailbox (crowd_node crowd_open "n2") k = Some mb /\ mailbox (crowd_node crowd_joined "n2") k' = Some mb' /\ live mb /\ live mb'.
Proof.
  destruct (sys_tasks (crowd_node crowd_open "n2") !! "2.2") as [k|] eqn:Ek; [|vm_compute in Ek; discriminate Ek].
  destruct (sys_tasks (crowd_node crowd_joined "n2") !! "2.2") as [k'|] eqn:Ek'; [|vm_compute in Ek'; discriminate Ek'].
  destruct (queue_discipline (demo_cfg "n2") 100 WBestEffort EmptyString (crowd_node crowd_open "n2") (crowd_node crowd_joined "n2") "2.2" k k')
    as (_ & mb & mb' & H1 & H2 & H3 & H4 & _).
  - apply crowd_reachable; [apply crowd_run_open|vm_compute; reflexivity].
  - apply sys_own, crowd_joining.
  - exact Ek.
  - exact Ek'.
  - exists k, k', mb, mb'. split; [reflexivity|]. split; [reflexivity|]. split; [exact H1|]. split; [exact H2|]. split; [exact H3|exact H4].
Defined.

(** The client joins a private channel and triggers an event there. *)
Definition crowd_after (text : string) : Fleet :=
  set_node crowd_open "n2" (frame_step (demo_cfg "n2") 100 WBestEffort (crowd_node crowd_open "n2") "2.2" (WsText text) 0%Z 0%Z 0%Z).2.
Abbreviation crowd_private := (crowd_after "private-room").
Definition client_sends : InboundFrame :=
  {| f_event := "client-e"; f_channel := Some "private-room"; f_data := VString "d" |}.

Lemma crowd_run_after text : rtc (goes best_effort 100 WBestEffort EmptyString) crowd (crowd_after text).
Proof.
  transitivity crowd_open; [apply crowd_run_open|]. apply rtc_once. exists (LOwn "n2").
  apply (fleet_own _ _ _ _ _ _ (crowd_node crowd_open "n2")); [vm_compute; reflexivity|apply own_frame].
Qed.

Lemma client_event_delivered_witness :
  exists k, sys_tasks (crowd_node crowd_private "n2") !! "2.2" = Some k /\
    let r := handle_client_event (demo_cfg "n2") 100 WBestEffort (sys_node (crowd_node crowd_private "n2")) (demo_app "a" None)
               (k_conn k) "client-e" client_sends 0%Z in
    r.1 = None /\ "private-room" ∈ c_subscriptions (k_conn k) /\
    receives (crowd_node crowd_private "n2") (put (crowd_node crowd_private "n2") r.2 (sys_tasks (crowd_node crowd_private "n2")))
      "a" "private-room" (Some "2.2") (client_frame "private-room" "client-e" "d" None).
Proof.
  destruct (sys_tasks (crowd_node crowd_private "n2") !! "2.2") as [k|] eqn:Ek; [|vm_compute in Ek; discriminate Ek].
  exists k. split; [reflexivity|]. cbv zeta.
  assert (app_id (demo_app "a" None) = app_id (k_app k)) as Happ by (vm_compute in Ek; injection Ek as <-; reflexivity).
  assert (fl_nodes crowd_private !! "n2" = Some (crowd_node crowd_private "n2")) as Hn by (vm_compute; reflexivity).
  pose proof (client_event_delivered 100 WBestEffort EmptyString (demo_cfg "n2") (crowd_node crowd_private "n2") "2.2" k (demo_app "a" None)
    "client-e" client_sends 0%Z (crowd_reachable crowd_private (crowd_run_after "private-room") Hn) Ek Happ) as H. cbv zeta in H.
  assert ((handle_client_event (demo_cfg "n2") 100 WBestEffort (sys_node (crowd_node crowd_private "n2")) (demo_app "a" None)
    (k_conn k) "client-e" client_sends 0%Z).1 = None) as E by (vm_compute in Ek; injection Ek as <-; vm_compute; reflexivity).
  rewrite E in H. destruct H as (_ & channel & ch & H1 & _ & H3 & _ & _ & H6 & _). injection H1 as <-.
  split; [exact E|]. split; [exact H3|exact H6].
Defined.

(** The client signs in; then its sessions are ended. *)
Definition terminate_request : HttpRequest :=
  {| rq_method := "DELETE"; rq_body := EmptyString;
     rq_uri := {| uri_path := "/apps/a/users/u"; uri_query := Some "auth_timestamp=0&auth_signature=secret" |} |}.
Definition terminate_reply : result Value ApiError * Server :=
  terminate_user_impl (demo_cfg "n2") EmptyString (sys_node (crowd_node (crowd_after "signin") "n2"))
    (sys_apps (crowd_node (crowd_after "signin") "n2")) "a" "u" terminate_request EmptyString 0%Z 0%Z.

Lemma user_terminated_witness :
  (nd_mbs terminate_reply.2 !! 0) ≫= (fun mb => last (mb_queue mb)) = Some close_terminated /\
  exists app (handles : list ConnectionHandle),
    authorize EmptyString (sys_apps (crowd_node (crowd_after "signin") "n2")) "a" terminate_request EmptyString 0%Z = Ok app /\
    Object [("terminated", value_of_nat 1)] = Object [("terminated", value_of_nat (length handles))] /\
    gets (crowd_node (crowd_after "signin") "n2")
      (put (crowd_node (crowd_after "signin") "n2") terminate_reply.2 (sys_tasks (crowd_node (crowd_after "signin") "n2")))
      (signed_in (app_id app) "u") close_terminated.
Proof.
  split; [vm_compute; reflexivity|].
  destruct (user_terminated 100 WBestEffort EmptyString (demo_cfg "n2") (crowd_node (crowd_after "signin") "n2") "a" "u" terminate_request
    EmptyString 0%Z 0%Z (Object [("terminated", value_of_nat 1)]) terminate_reply.2) as (app & handles & H1 & _ & _ & H2 & H3 & _).
  - apply crowd_reachable; [apply crowd_run_after|vm_compute; reflexivity].
  - vm_compute. reflexivity.
  - exists app, handles. split; [exact H1|]. split; [exact H2|exact H3].
Defined.
End Witnesses.
